(** * Root-motion source groups of the custom-gravity character: a shallow embedding

    This development embeds the root-motion source subsystem of
    [Character/BaseRootMotionSource.cpp] and the replicated-move buffer of
    [Character/BaseCharacter.cpp] and proves properties of it.

    Conventions of the embedding.
    - A C++ [float] is an exact rational ([Q]); rounding, infinities and NaN
      are not represented.  Comparisons are the boolean ones of the code.
    - [int32], [uint16] and [uint8] values are integers ([Z]); flag bytes keep
      their bit operations ([Z.lor], [Z.land], [Z.lnot]).
    - A [TSharedPtr<FBaseRootMotionSource>] is an [option]; [None] is the
      invalid (null) pointer.
    - [check]/[checkf] are recorded: a computation returns its value together
      with a flag telling whether every check on the way passed.  The value is
      the one the code goes on to compute after the check (as it does in a
      build where checks are compiled out); a build with checks stops at the
      first failed one.
    - Engine services that the repository only calls (curves, square roots,
      rotators, actors) are fields of the record [Engine].
    - An [FArchive] is the sequence of values that [operator<<] moves, one
      item per call, with its loading and error flags. *)

From Stdlib Require Import ZArith QArith Qabs Qround Lqa Lia List Bool String.
From Stdlib Require Import Permutation Sorted.
Import ListNotations.
Local Open Scope Q_scope.

(* ===================================================================== *)
(** ** Checked computations *)
(* ===================================================================== *)

Record Checked (A : Type) : Type := MkChecked { value : A; checks_ok : bool }.
Arguments MkChecked {A} _ _.
Arguments value {A} _.
Arguments checks_ok {A} _.

Definition ret {A} (a : A) : Checked A := MkChecked a true.

Definition bind {A B} (c : Checked A) (k : A -> Checked B) : Checked B :=
  let r := k (value c) in MkChecked (value r) (checks_ok c && checks_ok r).

(** [checkf(cond, ...)] *)
Definition checkf (cond : bool) : Checked unit := MkChecked tt cond.

Notation "x <- c ;; k" := (bind c (fun x => k))
  (at level 61, c at next level, right associativity).
Notation "c ;;; k" := (bind c (fun _ => k))
  (at level 61, right associativity).

(* ===================================================================== *)
(** ** Engine numerics used by the sources *)
(* ===================================================================== *)

(** Engine constants ([UE_SMALL_NUMBER] is 1e-8, [UE_KINDA_SMALL_NUMBER] is
    1e-4, [UE_BIG_NUMBER] is 3.4e38). *)
Definition UE_SMALL_NUMBER : Q := 1 # 100000000.
Definition UE_KINDA_SMALL_NUMBER : Q := 1 # 10000.
Definition UE_BIG_NUMBER : Q := inject_Z 340000000000000000000000000000000000000.

(** [const float RootMotionSource_InvalidStartTime = -UE_BIG_NUMBER;] *)
Definition RootMotionSource_InvalidStartTime : Q := - UE_BIG_NUMBER.

Definition Qltb (a b : Q) : bool := negb (Qle_bool b a).

Module FMath.
Definition Min (a b : Q) : Q := if Qltb a b then a else b.
Definition Max (a b : Q) : Q := if Qltb b a then a else b.
Definition Clamp (x lo hi : Q) : Q := Max (Min x hi) lo.
Definition Abs (a : Q) : Q := Qabs a.
Definition Square (a : Q) : Q := a * a.
Definition Lerp (a b alpha : Q) : Q := a + alpha * (b - a).
Definition IsNearlyEqual (a b tol : Q) : bool := Qle_bool (Abs (a - b)) tol.
Definition IsNearlyZero (a tol : Q) : bool := Qle_bool (Abs a) tol.
(** [FMath::GetRangeValue(FVector2f(lo, hi), pct)] *)
Definition GetRangeValue (range : Q * Q) (pct : Q) : Q :=
  Lerp (fst range) (snd range) pct.
(** C [fmod]: the remainder has the sign of the dividend. *)
Definition Trunc (a : Q) : Z := if Qle_bool 0 a then Qfloor a else Qceiling a.
Definition Fmod (a m : Q) : Q := a - m * inject_Z (Trunc (a / m)).
End FMath.

Record FVector : Type := MkVector { VX : Q; VY : Q; VZ : Q }.

Module Vec.
Definition Zero : FVector := MkVector 0 0 0.
Definition add (a b : FVector) : FVector :=
  MkVector (VX a + VX b) (VY a + VY b) (VZ a + VZ b).
Definition sub (a b : FVector) : FVector :=
  MkVector (VX a - VX b) (VY a - VY b) (VZ a - VZ b).
Definition scale (a : FVector) (k : Q) : FVector :=
  MkVector (VX a * k) (VY a * k) (VZ a * k).
(** [operator/(Scale)] multiplies by the reciprocal. *)
Definition div (a : FVector) (k : Q) : FVector := scale a (/ k).
Definition cross (a b : FVector) : FVector :=
  MkVector (VY a * VZ b - VZ a * VY b)
             (VZ a * VX b - VX a * VZ b)
             (VX a * VY b - VY a * VX b).
Definition setZ (a : FVector) (z : Q) : FVector := MkVector (VX a) (VY a) z.
Definition SizeSquared (a : FVector) : Q := VX a * VX a + VY a * VY a + VZ a * VZ a.
Definition IsNearlyZero (a : FVector) (tol : Q) : bool :=
  Qle_bool (Qabs (VX a)) tol && Qle_bool (Qabs (VY a)) tol && Qle_bool (Qabs (VZ a)) tol.
Definition Equals (a b : FVector) (tol : Q) : bool :=
  Qle_bool (Qabs (VX a - VX b)) tol && Qle_bool (Qabs (VY a - VY b)) tol
  && Qle_bool (Qabs (VZ a - VZ b)) tol.
(** [FVector::PointsAreNear]: each coordinate differs by less than [dist]. *)
Definition PointsAreNear (p1 p2 : FVector) (dist : Q) : bool :=
  if Qle_bool dist (Qabs (VX p1 - VX p2)) then false
  else if Qle_bool dist (Qabs (VY p1 - VY p2)) then false
  else if Qle_bool dist (Qabs (VZ p1 - VZ p2)) then false
  else true.
Definition Lerp (a b : FVector) (alpha : Q) : FVector := add a (scale (sub b a) alpha).
Definition eqb (a b : FVector) : bool :=
  Qeq_bool (VX a) (VX b) && Qeq_bool (VY a) (VY b) && Qeq_bool (VZ a) (VZ b).
End Vec.

Record FRotator : Type := MkRotator { Pitch : Q; Yaw : Q; Roll : Q }.

Module Rot.
Definition Zero : FRotator := MkRotator 0 0 0.
Definition ClampAxis (a : Q) : Q :=
  let r := FMath.Fmod a 360 in if Qltb r 0 then r + 360 else r.
Definition NormalizeAxis (a : Q) : Q :=
  let r := ClampAxis a in if Qltb 180 r then r - 360 else r.
Definition Equals (a b : FRotator) (tol : Q) : bool :=
  Qle_bool (Qabs (NormalizeAxis (Pitch a - Pitch b))) tol
  && Qle_bool (Qabs (NormalizeAxis (Yaw a - Yaw b))) tol
  && Qle_bool (Qabs (NormalizeAxis (Roll a - Roll b))) tol.
Definition zeroPitch (r : FRotator) : FRotator := MkRotator 0 (Yaw r) (Roll r).
End Rot.

Record FQuat : Type := MkQuat { QX : Q; QY : Q; QZ : Q; QW : Q }.

Module Quat.
Definition Identity : FQuat := MkQuat 0 0 0 1.
(** [FQuat::RotateVector]: [v + w*t + q x t] with [t = 2 (q x v)]. *)
Definition RotateVector (q : FQuat) (v : FVector) : FVector :=
  let qv := MkVector (QX q) (QY q) (QZ q) in
  let t := Vec.scale (Vec.cross qv v) 2 in
  Vec.add (Vec.add v (Vec.scale t (QW q))) (Vec.cross qv t).
Definition mul (a b : FQuat) : FQuat :=
  MkQuat (QW a * QX b + QX a * QW b + QY a * QZ b - QZ a * QY b)
           (QW a * QY b - QX a * QZ b + QY a * QW b + QZ a * QX b)
           (QW a * QZ b + QX a * QY b - QY a * QX b + QZ a * QW b)
           (QW a * QW b - QX a * QX b - QY a * QY b - QZ a * QZ b).
End Quat.

(** A transform restricted to what the sources use: rotation and translation
    (the scale is always one here). *)
Record FTransform : Type := MkTransform { TRotation : FQuat; TTranslation : FVector }.

Module Transform.
Definition Identity : FTransform := MkTransform Quat.Identity Vec.Zero.
(** [FTransform(const FVector& Translation)] *)
Definition ofTranslation (v : FVector) : FTransform := MkTransform Quat.Identity v.
Definition ScaleTranslation (k : Q) (t : FTransform) : FTransform :=
  MkTransform (TRotation t) (Vec.scale (TTranslation t) k).
(** [T * Q]: [T] followed by the rotation [Q]. *)
Definition mulRotation (t : FTransform) (q : FQuat) : FTransform :=
  MkTransform (Quat.mul q (TRotation t)) (Quat.RotateVector q (TTranslation t)).
End Transform.

(** [FRootMotionMovementParams]: [Clear] leaves the stored transform alone. *)
Record FRootMotionMovementParams : Type := MkParams {
  bHasRootMotion : bool;
  BlendWeight : Q;
  RootMotionTransform : FTransform
}.

Module Params.
Definition Default : FRootMotionMovementParams := MkParams false 0 Transform.Identity.
Definition Clear (p : FRootMotionMovementParams) : FRootMotionMovementParams :=
  MkParams false 0 (RootMotionTransform p).
Definition Set_ (t : FTransform) (p : FRootMotionMovementParams) : FRootMotionMovementParams :=
  MkParams true 1 t.
End Params.

(** References to engine objects (curves, actors); a pointer is an [option]. *)
Definition UObjectRef : Type := nat.
Definition ObjPtr : Type := option UObjectRef.

Definition ObjPtr_eqb (a b : ObjPtr) : bool :=
  match a, b with
  | None, None => true
  | Some x, Some y => Nat.eqb x y
  | _, _ => false
  end.

(** Services of the engine that the sources call. *)
Record Engine : Type := MkEngine {
  CurveFloat_GetFloatValue : UObjectRef -> Q -> Q;
  CurveFloat_GetTimeRange : UObjectRef -> Q * Q;
  CurveVector_GetVectorValue : UObjectRef -> Q -> FVector;
  CurveVector_GetTimeRange : UObjectRef -> Q * Q;
  Actor_GetActorLocation : UObjectRef -> FVector;
  FVector_Dist : FVector -> FVector -> Q;
  FVector_Size : FVector -> Q;
  FVector_GetSafeNormal : FVector -> FVector;
  FVector_Normalize : FVector -> FVector;
  FVector_Rotation : FVector -> FRotator;
  FVector_GetClampedToMaxSize2D : FVector -> Q -> FVector;
  FRotator_Vector : FRotator -> FVector;
  FRotator_RotateVector : FRotator -> FVector -> FVector
}.

Inductive ENetRole : Type :=
| ROLE_None | ROLE_SimulatedProxy | ROLE_AutonomousProxy | ROLE_Authority.

(** What the group reads of the character. *)
Record ABaseCharacter : Type := MkCharacter {
  ActorLocation : FVector;
  LocalRole : ENetRole;
  bClientUpdating : bool
}.

(** What the group reads and writes of the movement component:
    [UpdatedComponent] holds the rotation of its component-to-world transform,
    the prediction data their time stamps. *)
Record UBaseCharacterMovementComponent : Type := MkMoveComponent {
  UpdatedComponent : option FQuat;
  PredictionData_Client : option Q;
  PredictionData_Server : option Q;
  Velocity : FVector
}.

Definition set_Velocity (v : FVector) (m : UBaseCharacterMovementComponent)
  : UBaseCharacterMovementComponent :=
  MkMoveComponent (UpdatedComponent m) (PredictionData_Client m) (PredictionData_Server m) v.

Definition EvaluateFloatCurveAtFraction (E : Engine) (Curve : UObjectRef) (Fraction : Q) : Q :=
  CurveFloat_GetFloatValue E Curve
    (FMath.GetRangeValue (CurveFloat_GetTimeRange E Curve) Fraction).

Definition EvaluateVectorCurveAtFraction (E : Engine) (Curve : UObjectRef) (Fraction : Q)
  : FVector :=
  CurveVector_GetVectorValue E Curve
    (FMath.GetRangeValue (CurveVector_GetTimeRange E Curve) Fraction).

(* ===================================================================== *)
(** ** Status and settings flags *)
(* ===================================================================== *)

(** Modelled from the spec: the enumerations are declared in
    BaseRootMotionSource.h, which is not among the sources.  The spec names
    the status flags Prepared, Finished and MarkedForRemoval and the settings
    flags DisablePartialEndTick and IgnoreZAccumulate, each one bit of a
    byte; the bits are numbered as in the engine's enumerations. *)
Inductive EBaseRootMotionSourceStatusFlags : Type :=
| Prepared | Finished | MarkedForRemoval.

Definition StatusBit (f : EBaseRootMotionSourceStatusFlags) : Z :=
  match f with Prepared => 1 | Finished => 2 | MarkedForRemoval => 4 end%Z.

Inductive EBaseRootMotionSourceSettingsFlags : Type :=
| UseSensitiveLiftoffCheck | DisablePartialEndTick | IgnoreZAccumulate.

Definition SettingsBit (f : EBaseRootMotionSourceSettingsFlags) : Z :=
  match f with
  | UseSensitiveLiftoffCheck => 1 | DisablePartialEndTick => 2 | IgnoreZAccumulate => 4
  end%Z.

Module Flags.
(** [Flags |= bit], [Flags &= ~bit], [(Flags & bit) != 0] on a [uint8]. *)
Definition SetFlag (flags bit : Z) : Z := Z.lor flags bit.
Definition UnSetFlag (flags bit : Z) : Z := Z.land flags (Z.lnot bit).
Definition HasFlag (flags bit : Z) : bool := negb (Z.land flags bit =? 0)%Z.
End Flags.

Module Status.
Definition SetFlag (flags : Z) (f : EBaseRootMotionSourceStatusFlags) : Z :=
  Flags.SetFlag flags (StatusBit f).
Definition UnSetFlag (flags : Z) (f : EBaseRootMotionSourceStatusFlags) : Z :=
  Flags.UnSetFlag flags (StatusBit f).
Definition HasFlag (flags : Z) (f : EBaseRootMotionSourceStatusFlags) : bool :=
  Flags.HasFlag flags (StatusBit f).
End Status.

Module Settings.
Definition SetFlag (flags : Z) (f : EBaseRootMotionSourceSettingsFlags) : Z :=
  Flags.SetFlag flags (SettingsBit f).
Definition HasFlag (flags : Z) (f : EBaseRootMotionSourceSettingsFlags) : bool :=
  Flags.HasFlag flags (SettingsBit f).
(** [operator+=] *)
Definition Accumulate (flags other : Z) : Z := Z.lor flags other.
End Settings.

(** Modelled from the spec: [EBaseRootMotionAccumulateMode] is declared in the
    missing header; the spec gives the two modes Override and Additive, sent
    as one byte.  The field keeps the byte, so a received value that is
    neither mode stays representable. *)
Definition AccumulateMode_Override : Z := 0%Z.
Definition AccumulateMode_Additive : Z := 1%Z.

(** Modelled from the spec: the finish-velocity policy applied at removal is
    none, set-to-value or clamp-to-max-speed. *)
Inductive EBaseRootMotionFinishVelocityMode : Type :=
| MaintainLastRootMotionVelocity | SetVelocity | ClampVelocity.

Record FBaseRootMotionFinishVelocitySettings : Type := MkFinish {
  FinishMode : EBaseRootMotionFinishVelocityMode;
  FinishSetVelocity : FVector;
  FinishClampVelocity : Q
}.

Definition FinishVelocity_Default : FBaseRootMotionFinishVelocitySettings :=
  MkFinish MaintainLastRootMotionVelocity Vec.Zero 0.

(** [EBaseRootMotionSourceID::Invalid] *)
Definition RootMotionSourceID_Invalid : Z := 0%Z.

(* ===================================================================== *)
(** ** Root-motion sources *)
(* ===================================================================== *)

(** The reflection descriptors ([UScriptStruct]) that can reach the group:
    the base struct, its five children, and structs of other families
    ([ForeignStruct n] has [n] ancestors, none of them the base). *)
Inductive UScriptStruct : Type :=
| StaticStruct_Base
| StaticStruct_ConstantForce
| StaticStruct_RadialForce
| StaticStruct_MoveToForce
| StaticStruct_MoveToDynamicForce
| StaticStruct_JumpForce
| ForeignStruct (depth : nat).

Definition UScriptStruct_eqb (a b : UScriptStruct) : bool :=
  match a, b with
  | StaticStruct_Base, StaticStruct_Base => true
  | StaticStruct_ConstantForce, StaticStruct_ConstantForce => true
  | StaticStruct_RadialForce, StaticStruct_RadialForce => true
  | StaticStruct_MoveToForce, StaticStruct_MoveToForce => true
  | StaticStruct_MoveToDynamicForce, StaticStruct_MoveToDynamicForce => true
  | StaticStruct_JumpForce, StaticStruct_JumpForce => true
  | ForeignStruct n, ForeignStruct m => Nat.eqb n m
  | _, _ => false
  end.

Definition GetSuperStruct (s : UScriptStruct) : option UScriptStruct :=
  match s with
  | StaticStruct_Base => None
  | ForeignStruct O => None
  | ForeignStruct (S n) => Some (ForeignStruct n)
  | _ => Some StaticStruct_Base
  end.

Module ConstantForce.
Record t : Type := Mk {
  Force : FVector;
  StrengthOverTime : ObjPtr
}.
End ConstantForce.

Module RadialForce.
Record t : Type := Mk {
  Location : FVector;
  LocationActor : ObjPtr;
  Radius : Q;
  Strength : Q;
  bIsPush : bool;
  bNoZForce : bool;
  StrengthDistanceFalloff : ObjPtr;
  StrengthOverTime : ObjPtr;
  bUseFixedWorldDirection : bool;
  FixedWorldDirection : FRotator
}.
End RadialForce.

Module MoveToForce.
Record t : Type := Mk {
  StartLocation : FVector;
  TargetLocation : FVector;
  bRestrictSpeedToExpected : bool;
  PathOffsetCurve : ObjPtr
}.
End MoveToForce.

Module MoveToDynamicForce.
Record t : Type := Mk {
  StartLocation : FVector;
  InitialTargetLocation : FVector;
  TargetLocation : FVector;
  bRestrictSpeedToExpected : bool;
  PathOffsetCurve : ObjPtr;
  TimeMappingCurve : ObjPtr
}.
End MoveToDynamicForce.

Module JumpForce.
Record t : Type := Mk {
  Rotation : FRotator;
  Distance : Q;
  Height : Q;
  bDisableTimeout : bool;
  PathOffsetCurve : ObjPtr;
  TimeMappingCurve : ObjPtr;
  SavedHalfwayLocation : FVector
}.
End JumpForce.

(** The members a child struct adds to the base. *)
Inductive Variant : Type :=
| VConstantForce (d : ConstantForce.t)
| VRadialForce (d : RadialForce.t)
| VMoveToForce (d : MoveToForce.t)
| VMoveToDynamicForce (d : MoveToDynamicForce.t)
| VJumpForce (d : JumpForce.t).

(** [FBaseRootMotionSource] with the members of its concrete child in
    [Derived]. *)
Record FBaseRootMotionSource : Type := MkSource {
  Priority : Z;
  LocalID : Z;
  AccumulateMode : Z;
  InstanceName : string;
  StartTime : Q;
  CurrentTime : Q;
  PreviousTime : Q;
  Duration : Q;
  Status : Z;
  Settings : Z;
  bInLocalSpace : bool;
  bNeedsSimulatedCatchup : bool;
  bSimulatedNeedsSmoothing : bool;
  RootMotionParams : FRootMotionMovementParams;
  FinishVelocityParams : FBaseRootMotionFinishVelocitySettings;
  Derived : Variant
}.

Definition TSharedPtr : Type := option FBaseRootMotionSource.

Definition NAME_None : string := "None"%string.

Definition set_Priority (x : Z) (s : FBaseRootMotionSource) : FBaseRootMotionSource :=
  MkSource x (LocalID s) (AccumulateMode s) (InstanceName s) (StartTime s) (CurrentTime s)
    (PreviousTime s) (Duration s) (Status s) (Settings s) (bInLocalSpace s)
    (bNeedsSimulatedCatchup s) (bSimulatedNeedsSmoothing s) (RootMotionParams s)
    (FinishVelocityParams s) (Derived s).

Definition set_LocalID (x : Z) (s : FBaseRootMotionSource) : FBaseRootMotionSource :=
  MkSource (Priority s) x (AccumulateMode s) (InstanceName s) (StartTime s) (CurrentTime s)
    (PreviousTime s) (Duration s) (Status s) (Settings s) (bInLocalSpace s)
    (bNeedsSimulatedCatchup s) (bSimulatedNeedsSmoothing s) (RootMotionParams s)
    (FinishVelocityParams s) (Derived s).

Definition set_AccumulateMode (x : Z) (s : FBaseRootMotionSource) : FBaseRootMotionSource :=
  MkSource (Priority s) (LocalID s) x (InstanceName s) (StartTime s) (CurrentTime s)
    (PreviousTime s) (Duration s) (Status s) (Settings s) (bInLocalSpace s)
    (bNeedsSimulatedCatchup s) (bSimulatedNeedsSmoothing s) (RootMotionParams s)
    (FinishVelocityParams s) (Derived s).

Definition set_InstanceName (x : string) (s : FBaseRootMotionSource) : FBaseRootMotionSource :=
  MkSource (Priority s) (LocalID s) (AccumulateMode s) x (StartTime s) (CurrentTime s)
    (PreviousTime s) (Duration s) (Status s) (Settings s) (bInLocalSpace s)
    (bNeedsSimulatedCatchup s) (bSimulatedNeedsSmoothing s) (RootMotionParams s)
    (FinishVelocityParams s) (Derived s).

Definition set_StartTime (x : Q) (s : FBaseRootMotionSource) : FBaseRootMotionSource :=
  MkSource (Priority s) (LocalID s) (AccumulateMode s) (InstanceName s) x (CurrentTime s)
    (PreviousTime s) (Duration s) (Status s) (Settings s) (bInLocalSpace s)
    (bNeedsSimulatedCatchup s) (bSimulatedNeedsSmoothing s) (RootMotionParams s)
    (FinishVelocityParams s) (Derived s).

Definition set_CurrentTime (x : Q) (s : FBaseRootMotionSource) : FBaseRootMotionSource :=
  MkSource (Priority s) (LocalID s) (AccumulateMode s) (InstanceName s) (StartTime s) x
    (PreviousTime s) (Duration s) (Status s) (Settings s) (bInLocalSpace s)
    (bNeedsSimulatedCatchup s) (bSimulatedNeedsSmoothing s) (RootMotionParams s)
    (FinishVelocityParams s) (Derived s).

Definition set_PreviousTime (x : Q) (s : FBaseRootMotionSource) : FBaseRootMotionSource :=
  MkSource (Priority s) (LocalID s) (AccumulateMode s) (InstanceName s) (StartTime s)
    (CurrentTime s) x (Duration s) (Status s) (Settings s) (bInLocalSpace s)
    (bNeedsSimulatedCatchup s) (bSimulatedNeedsSmoothing s) (RootMotionParams s)
    (FinishVelocityParams s) (Derived s).

Definition set_Duration (x : Q) (s : FBaseRootMotionSource) : FBaseRootMotionSource :=
  MkSource (Priority s) (LocalID s) (AccumulateMode s) (InstanceName s) (StartTime s)
    (CurrentTime s) (PreviousTime s) x (Status s) (Settings s) (bInLocalSpace s)
    (bNeedsSimulatedCatchup s) (bSimulatedNeedsSmoothing s) (RootMotionParams s)
    (FinishVelocityParams s) (Derived s).

Definition set_Status (x : Z) (s : FBaseRootMotionSource) : FBaseRootMotionSource :=
  MkSource (Priority s) (LocalID s) (AccumulateMode s) (InstanceName s) (StartTime s)
    (CurrentTime s) (PreviousTime s) (Duration s) x (Settings s) (bInLocalSpace s)
    (bNeedsSimulatedCatchup s) (bSimulatedNeedsSmoothing s) (RootMotionParams s)
    (FinishVelocityParams s) (Derived s).

Definition set_bInLocalSpace (x : bool) (s : FBaseRootMotionSource) : FBaseRootMotionSource :=
  MkSource (Priority s) (LocalID s) (AccumulateMode s) (InstanceName s) (StartTime s)
    (CurrentTime s) (PreviousTime s) (Duration s) (Status s) (Settings s) x
    (bNeedsSimulatedCatchup s) (bSimulatedNeedsSmoothing s) (RootMotionParams s)
    (FinishVelocityParams s) (Derived s).

Definition set_bNeedsSimulatedCatchup (x : bool) (s : FBaseRootMotionSource)
  : FBaseRootMotionSource :=
  MkSource (Priority s) (LocalID s) (AccumulateMode s) (InstanceName s) (StartTime s)
    (CurrentTime s) (PreviousTime s) (Duration s) (Status s) (Settings s) (bInLocalSpace s)
    x (bSimulatedNeedsSmoothing s) (RootMotionParams s)
    (FinishVelocityParams s) (Derived s).

Definition set_bSimulatedNeedsSmoothing (x : bool) (s : FBaseRootMotionSource)
  : FBaseRootMotionSource :=
  MkSource (Priority s) (LocalID s) (AccumulateMode s) (InstanceName s) (StartTime s)
    (CurrentTime s) (PreviousTime s) (Duration s) (Status s) (Settings s) (bInLocalSpace s)
    (bNeedsSimulatedCatchup s) x (RootMotionParams s)
    (FinishVelocityParams s) (Derived s).

Definition set_RootMotionParams (x : FRootMotionMovementParams) (s : FBaseRootMotionSource)
  : FBaseRootMotionSource :=
  MkSource (Priority s) (LocalID s) (AccumulateMode s) (InstanceName s) (StartTime s)
    (CurrentTime s) (PreviousTime s) (Duration s) (Status s) (Settings s) (bInLocalSpace s)
    (bNeedsSimulatedCatchup s) (bSimulatedNeedsSmoothing s) x
    (FinishVelocityParams s) (Derived s).

Definition set_Derived (x : Variant) (s : FBaseRootMotionSource) : FBaseRootMotionSource :=
  MkSource (Priority s) (LocalID s) (AccumulateMode s) (InstanceName s) (StartTime s)
    (CurrentTime s) (PreviousTime s) (Duration s) (Status s) (Settings s) (bInLocalSpace s)
    (bNeedsSimulatedCatchup s) (bSimulatedNeedsSmoothing s) (RootMotionParams s)
    (FinishVelocityParams s) x.

(** The constructors.  [FBaseRootMotionSource::FBaseRootMotionSource()]
    initialises the shared members; the constant-force and jump constructors
    set [DisablePartialEndTick]. *)
Definition BaseDefaults (settings : Z) (d : Variant) : FBaseRootMotionSource :=
  MkSource 0 RootMotionSourceID_Invalid AccumulateMode_Override NAME_None
    RootMotionSource_InvalidStartTime 0 0 (-1) 0 settings false false false
    Params.Default FinishVelocity_Default d.

Definition New_ConstantForce : FBaseRootMotionSource :=
  BaseDefaults (Settings.SetFlag 0 DisablePartialEndTick)
    (VConstantForce (ConstantForce.Mk Vec.Zero None)).

Definition New_RadialForce : FBaseRootMotionSource :=
  BaseDefaults 0
    (VRadialForce (RadialForce.Mk Vec.Zero None 1 0 true false None None false Rot.Zero)).

Definition New_MoveToForce : FBaseRootMotionSource :=
  BaseDefaults 0 (VMoveToForce (MoveToForce.Mk Vec.Zero Vec.Zero false None)).

Definition New_MoveToDynamicForce : FBaseRootMotionSource :=
  BaseDefaults 0
    (VMoveToDynamicForce (MoveToDynamicForce.Mk Vec.Zero Vec.Zero Vec.Zero false None None)).

Definition New_JumpForce : FBaseRootMotionSource :=
  BaseDefaults (Settings.SetFlag 0 DisablePartialEndTick)
    (VJumpForce (JumpForce.Mk Rot.Zero (-1) (-1) false None None Vec.Zero)).

(** [GetScriptStruct], overridden by every child. *)
Definition GetScriptStruct (s : FBaseRootMotionSource) : UScriptStruct :=
  match Derived s with
  | VConstantForce _ => StaticStruct_ConstantForce
  | VRadialForce _ => StaticStruct_RadialForce
  | VMoveToForce _ => StaticStruct_MoveToForce
  | VMoveToDynamicForce _ => StaticStruct_MoveToDynamicForce
  | VJumpForce _ => StaticStruct_JumpForce
  end.

Definition GetTime (s : FBaseRootMotionSource) : Q := CurrentTime s.
Definition GetStartTime (s : FBaseRootMotionSource) : Q := StartTime s.
Definition GetDuration (s : FBaseRootMotionSource) : Q := Duration s.

Definition IsStartTimeValid (s : FBaseRootMotionSource) : bool :=
  negb (Qeq_bool (StartTime s) RootMotionSource_InvalidStartTime).

(** [IsTimeOutEnabled] is virtual; the jump force overrides it. *)
Definition Base_IsTimeOutEnabled (s : FBaseRootMotionSource) : bool :=
  Qle_bool 0 (Duration s).

Definition IsTimeOutEnabled (s : FBaseRootMotionSource) : bool :=
  match Derived s with
  | VJumpForce d => if JumpForce.bDisableTimeout d then false else Base_IsTimeOutEnabled s
  | _ => Base_IsTimeOutEnabled s
  end.

Definition CheckTimeOut (s : FBaseRootMotionSource) : FBaseRootMotionSource :=
  if IsTimeOutEnabled s then
    let bTimedOut := Qle_bool (Duration s) (CurrentTime s) in
    if bTimedOut then set_Status (Status.SetFlag (Status s) Finished) s
    else set_Status (Status.UnSetFlag (Status s) Finished) s
  else s.

(** [SetTime]; the overrides of the move-to sources only call the base. *)
Definition SetTime (NewTime : Q) (s : FBaseRootMotionSource) : FBaseRootMotionSource :=
  CheckTimeOut (set_CurrentTime NewTime (set_PreviousTime (CurrentTime s) s)).

(** *** Matches *)

Definition Base_Matches (self : FBaseRootMotionSource) (Other : TSharedPtr) : bool :=
  match Other with
  | None => false
  | Some o =>
      UScriptStruct_eqb (GetScriptStruct self) (GetScriptStruct o)
      && (Priority self =? Priority o)%Z
      && (AccumulateMode self =? AccumulateMode o)%Z
      && Bool.eqb (bInLocalSpace self) (bInLocalSpace o)
      && String.eqb (InstanceName self) (InstanceName o)
      && FMath.IsNearlyEqual (Duration self) (Duration o) UE_SMALL_NUMBER
  end.

(** The float literal [0.1f], the tolerance of [PointsAreNear] in [Matches]:
    the float nearest to one tenth, slightly above it. *)
Definition Float_0_1 : Q := 13421773 # 134217728.

(** The part each child adds after the base test passed (the [static_cast]
    of the code is the matching on both variants). *)
Definition Derived_Matches (a b : Variant) : bool :=
  match a, b with
  | VConstantForce x, VConstantForce y =>
      Vec.PointsAreNear (ConstantForce.Force x) (ConstantForce.Force y) Float_0_1
      && ObjPtr_eqb (ConstantForce.StrengthOverTime x) (ConstantForce.StrengthOverTime y)
  | VRadialForce x, VRadialForce y =>
      Bool.eqb (RadialForce.bIsPush x) (RadialForce.bIsPush y)
      && Bool.eqb (RadialForce.bNoZForce x) (RadialForce.bNoZForce y)
      && Bool.eqb (RadialForce.bUseFixedWorldDirection x) (RadialForce.bUseFixedWorldDirection y)
      && ObjPtr_eqb (RadialForce.StrengthDistanceFalloff x) (RadialForce.StrengthDistanceFalloff y)
      && ObjPtr_eqb (RadialForce.StrengthOverTime x) (RadialForce.StrengthOverTime y)
      && (ObjPtr_eqb (RadialForce.LocationActor x) (RadialForce.LocationActor y)
          || Vec.PointsAreNear (RadialForce.Location x) (RadialForce.Location y) 1)
      && FMath.IsNearlyEqual (RadialForce.Radius x) (RadialForce.Radius y) UE_SMALL_NUMBER
      && FMath.IsNearlyEqual (RadialForce.Strength x) (RadialForce.Strength y) UE_SMALL_NUMBER
      && Rot.Equals (RadialForce.FixedWorldDirection x) (RadialForce.FixedWorldDirection y) 3
  | VMoveToForce x, VMoveToForce y =>
      Bool.eqb (MoveToForce.bRestrictSpeedToExpected x) (MoveToForce.bRestrictSpeedToExpected y)
      && ObjPtr_eqb (MoveToForce.PathOffsetCurve x) (MoveToForce.PathOffsetCurve y)
      && Vec.PointsAreNear (MoveToForce.TargetLocation x) (MoveToForce.TargetLocation y) Float_0_1
  | VMoveToDynamicForce x, VMoveToDynamicForce y =>
      Bool.eqb (MoveToDynamicForce.bRestrictSpeedToExpected x)
               (MoveToDynamicForce.bRestrictSpeedToExpected y)
      && ObjPtr_eqb (MoveToDynamicForce.PathOffsetCurve x) (MoveToDynamicForce.PathOffsetCurve y)
      && ObjPtr_eqb (MoveToDynamicForce.TimeMappingCurve x) (MoveToDynamicForce.TimeMappingCurve y)
  | VJumpForce x, VJumpForce y =>
      Bool.eqb (JumpForce.bDisableTimeout x) (JumpForce.bDisableTimeout y)
      && ObjPtr_eqb (JumpForce.PathOffsetCurve x) (JumpForce.PathOffsetCurve y)
      && ObjPtr_eqb (JumpForce.TimeMappingCurve x) (JumpForce.TimeMappingCurve y)
      && FMath.IsNearlyEqual (JumpForce.Distance x) (JumpForce.Distance y) UE_SMALL_NUMBER
      && FMath.IsNearlyEqual (JumpForce.Height x) (JumpForce.Height y) UE_SMALL_NUMBER
      && Rot.Equals (JumpForce.Rotation x) (JumpForce.Rotation y) 1
  | _, _ => false
  end.

(** The virtual [Matches]. *)
Definition Matches (self : FBaseRootMotionSource) (Other : TSharedPtr) : bool :=
  if negb (Base_Matches self Other) then false
  else match Other with
       | Some o => Derived_Matches (Derived self) (Derived o)
       | None => false
       end.

(** [FBaseRootMotionSource::MatchesAndHasSameState]: it calls the virtual
    [Matches]. *)
Definition Base_MatchesAndHasSameState (self : FBaseRootMotionSource) (Other : TSharedPtr)
  : bool :=
  if negb (Matches self Other) then false
  else match Other with
       | Some o => (Status self =? Status o)%Z && Qeq_bool (GetTime self) (GetTime o)
       | None => false
       end.

(** The virtual [MatchesAndHasSameState]; only the dynamic move-to source
    has state of its own. *)
Definition MatchesAndHasSameState (self : FBaseRootMotionSource) (Other : TSharedPtr) : bool :=
  if negb (Base_MatchesAndHasSameState self Other) then false
  else match Derived self, option_map Derived Other with
       | VMoveToDynamicForce x, Some (VMoveToDynamicForce y) =>
           Vec.Equals (MoveToDynamicForce.StartLocation x) (MoveToDynamicForce.StartLocation y)
                      UE_KINDA_SMALL_NUMBER
           && Vec.Equals (MoveToDynamicForce.TargetLocation x)
                         (MoveToDynamicForce.TargetLocation y) UE_KINDA_SMALL_NUMBER
       | _, _ => true
       end.

(** *** UpdateStateFrom *)

(** [FBaseRootMotionSource::UpdateStateFrom]: the updated source and the
    returned flag. *)
Definition Base_UpdateStateFrom (self : FBaseRootMotionSource)
    (SourceToTakeStateFrom : TSharedPtr) (bMarkForSimulatedCatchup : bool)
  : Checked (FBaseRootMotionSource * bool) :=
  match SourceToTakeStateFrom with
  | Some src =>
      if UScriptStruct_eqb (GetScriptStruct self) (GetScriptStruct src) then
        let s1 := set_bNeedsSimulatedCatchup bMarkForSimulatedCatchup self in
        let bWasMarkedForRemoval := Status.HasFlag (Status s1) MarkedForRemoval in
        let s2 := set_Status (Status src) s1 in
        let s3 := if bWasMarkedForRemoval
                  then set_Status (Status.SetFlag (Status s2) MarkedForRemoval) s2
                  else s2 in
        ret (SetTime (GetTime src) s3, true)
      else
        checkf false ;;; ret (self, false)
  | None => ret (self, false)
  end.

(** The virtual [UpdateStateFrom]: the dynamic move-to source also takes the
    start and target locations. *)
Definition UpdateStateFrom (self : FBaseRootMotionSource)
    (SourceToTakeStateFrom : TSharedPtr) (bMarkForSimulatedCatchup : bool)
  : Checked (FBaseRootMotionSource * bool) :=
  r <- Base_UpdateStateFrom self SourceToTakeStateFrom bMarkForSimulatedCatchup ;;
  if negb (snd r) then ret (fst r, false)
  else match Derived (fst r), option_map Derived SourceToTakeStateFrom with
       | VMoveToDynamicForce x, Some (VMoveToDynamicForce y) =>
           ret (set_Derived
                  (VMoveToDynamicForce
                     (MoveToDynamicForce.Mk
                        (MoveToDynamicForce.StartLocation y)
                        (MoveToDynamicForce.InitialTargetLocation x)
                        (MoveToDynamicForce.TargetLocation y)
                        (MoveToDynamicForce.bRestrictSpeedToExpected x)
                        (MoveToDynamicForce.PathOffsetCurve x)
                        (MoveToDynamicForce.TimeMappingCurve x)))
                  (fst r), true)
       | _, _ => ret (fst r, true)
       end.

(** *** PrepareRootMotion of the five sources *)

Definition ConstantForce_PrepareRootMotion (E : Engine)
    (SimulationTime MovementTickTime : Q)
    (s : FBaseRootMotionSource) (d : ConstantForce.t) : FBaseRootMotionSource :=
  let s := set_RootMotionParams (Params.Clear (RootMotionParams s)) s in
  let NewTransform := Transform.ofTranslation (ConstantForce.Force d) in
  let NewTransform :=
    match ConstantForce.StrengthOverTime d with
    | Some curve =>
        let TimeValue :=
          if Qltb 0 (Duration s) then FMath.Clamp (GetTime s / Duration s) 0 1
          else GetTime s in
        let TimeFactor := CurveFloat_GetFloatValue E curve TimeValue in
        Transform.ScaleTranslation TimeFactor NewTransform
    | None => NewTransform
    end in
  let Multiplier :=
    if Qltb UE_SMALL_NUMBER MovementTickTime then SimulationTime / MovementTickTime else 1 in
  let NewTransform := Transform.ScaleTranslation Multiplier NewTransform in
  let s := set_RootMotionParams (Params.Set_ NewTransform (RootMotionParams s)) s in
  SetTime (GetTime s + SimulationTime) s.

(** The block of the radial force that computes [CurrentStrength]. *)
Definition RadialForce_AdditiveStrengthFactor (E : Engine)
    (s : FBaseRootMotionSource) (d : RadialForce.t) (Distance : Q) : Q :=
  let AdditiveStrengthFactor := 1 in
  let AdditiveStrengthFactor :=
    match RadialForce.StrengthDistanceFalloff d with
    | Some curve =>
        let DistanceFactor :=
          CurveFloat_GetFloatValue E curve
            (FMath.Clamp (Distance / RadialForce.Radius d) 0 1) in
        AdditiveStrengthFactor - (1 - DistanceFactor)
    | None => AdditiveStrengthFactor
    end in
  match RadialForce.StrengthOverTime d with
  | Some curve =>
      let TimeValue :=
        if Qltb 0 (Duration s) then FMath.Clamp (GetTime s / Duration s) 0 1
        else GetTime s in
      let TimeFactor := CurveFloat_GetFloatValue E curve TimeValue in
      AdditiveStrengthFactor - (1 - TimeFactor)
  | None => AdditiveStrengthFactor
  end.

Definition RadialForce_CurrentStrength (E : Engine)
    (s : FBaseRootMotionSource) (d : RadialForce.t) (Distance : Q) : Q :=
  RadialForce.Strength d
  * FMath.Clamp (RadialForce_AdditiveStrengthFactor E s d Distance) 0 1.

Definition RadialForce_ForceLocation (E : Engine) (d : RadialForce.t) : FVector :=
  match RadialForce.LocationActor d with
  | Some a => Actor_GetActorLocation E a
  | None => RadialForce.Location d
  end.

(** The force of the radial source before it is scaled by the time ratio. *)
Definition RadialForce_Force (E : Engine) (Character : ABaseCharacter)
    (s : FBaseRootMotionSource) (d : RadialForce.t) : FVector :=
  let CharacterLocation := ActorLocation Character in
  let ForceLocation := RadialForce_ForceLocation E d in
  let Distance := FVector_Dist E ForceLocation CharacterLocation in
  let Force :=
    if Qltb Distance (RadialForce.Radius d) then
      let CurrentStrength := RadialForce_CurrentStrength E s d Distance in
      if RadialForce.bUseFixedWorldDirection d then
        Vec.scale (FRotator_Vector E (RadialForce.FixedWorldDirection d)) CurrentStrength
      else
        let Force :=
          Vec.scale (FVector_GetSafeNormal E (Vec.sub ForceLocation CharacterLocation))
                    CurrentStrength in
        if RadialForce.bIsPush d then Vec.scale Force (-1) else Force
    else Vec.Zero in
  if RadialForce.bNoZForce d then Vec.setZ Force 0 else Force.

Definition RadialForce_PrepareRootMotion (E : Engine)
    (SimulationTime MovementTickTime : Q) (Character : ABaseCharacter)
    (s : FBaseRootMotionSource) (d : RadialForce.t) : FBaseRootMotionSource :=
  let s := set_RootMotionParams (Params.Clear (RootMotionParams s)) s in
  let NewTransform := Transform.ofTranslation (RadialForce_Force E Character s d) in
  let NewTransform :=
    if negb (Qeq_bool SimulationTime MovementTickTime) && Qltb UE_SMALL_NUMBER MovementTickTime
    then Transform.ScaleTranslation (SimulationTime / MovementTickTime) NewTransform
    else NewTransform in
  let s := set_RootMotionParams (Params.Set_ NewTransform (RootMotionParams s)) s in
  SetTime (GetTime s + SimulationTime) s.

(** [GetPathOffsetInWorldSpace], the same text in both move-to sources. *)
Definition GetPathOffsetInWorldSpace (E : Engine) (PathOffsetCurve : ObjPtr)
    (StartLocation TargetLocation : FVector) (MoveFraction : Q) : FVector :=
  match PathOffsetCurve with
  | Some curve =>
      let PathOffsetInFacingSpace := EvaluateVectorCurveAtFraction E curve MoveFraction in
      let FacingRotation :=
        Rot.zeroPitch (FVector_Rotation E (Vec.sub TargetLocation StartLocation)) in
      FRotator_RotateVector E FacingRotation PathOffsetInFacingSpace
  | None => Vec.Zero
  end.

(** The body the two move-to sources share once the move fractions are
    known: the force towards the current target, restricted to the expected
    speed when asked. *)
Definition MoveTo_Force (E : Engine) (MovementTickTime : Q) (Character : ABaseCharacter)
    (PathOffsetCurve : ObjPtr) (StartLocation TargetLocation : FVector)
    (bRestrictSpeedToExpected : bool) (MoveFraction PreviousMoveFraction : Q) : FVector :=
  let CurrentTargetLocation :=
    Vec.add (Vec.Lerp StartLocation TargetLocation MoveFraction)
            (GetPathOffsetInWorldSpace E PathOffsetCurve StartLocation TargetLocation
               MoveFraction) in
  let CurrentLocation := ActorLocation Character in
  let Force := Vec.div (Vec.sub CurrentTargetLocation CurrentLocation) MovementTickTime in
  if bRestrictSpeedToExpected && negb (Vec.IsNearlyZero Force UE_KINDA_SMALL_NUMBER) then
    let CurrentExpectedLocation :=
      Vec.add (Vec.Lerp StartLocation TargetLocation PreviousMoveFraction)
              (GetPathOffsetInWorldSpace E PathOffsetCurve StartLocation TargetLocation
                 PreviousMoveFraction) in
    let ExpectedForce :=
      Vec.div (Vec.sub CurrentTargetLocation CurrentExpectedLocation) MovementTickTime in
    let ExpectedSpeed := FVector_Size E ExpectedForce in
    let CurrentSpeedSqr := Vec.SizeSquared Force in
    let ErrorAllowance := 1 # 2 in
    if Qltb (FMath.Square (ExpectedSpeed + ErrorAllowance)) CurrentSpeedSqr
    then Vec.scale (FVector_Normalize E Force) ExpectedSpeed
    else Force
  else Force.

Definition MoveToForce_PrepareRootMotion (E : Engine)
    (SimulationTime MovementTickTime : Q) (Character : ABaseCharacter)
    (s : FBaseRootMotionSource) (d : MoveToForce.t) : Checked FBaseRootMotionSource :=
  let s := set_RootMotionParams (Params.Clear (RootMotionParams s)) s in
  s <- (if Qltb UE_SMALL_NUMBER (Duration s) && Qltb UE_SMALL_NUMBER MovementTickTime then
          let MoveFraction := (GetTime s + SimulationTime) / Duration s in
          let PreviousMoveFraction := GetTime s / Duration s in
          let Force :=
            MoveTo_Force E MovementTickTime Character (MoveToForce.PathOffsetCurve d)
              (MoveToForce.StartLocation d) (MoveToForce.TargetLocation d)
              (MoveToForce.bRestrictSpeedToExpected d) MoveFraction PreviousMoveFraction in
          ret (set_RootMotionParams
                 (Params.Set_ (Transform.ofTranslation Force) (RootMotionParams s)) s)
        else
          checkf (Qltb UE_SMALL_NUMBER (Duration s)) ;;; ret s) ;;
  ret (SetTime (GetTime s + SimulationTime) s).

Definition MoveToDynamicForce_PrepareRootMotion (E : Engine)
    (SimulationTime MovementTickTime : Q) (Character : ABaseCharacter)
    (s : FBaseRootMotionSource) (d : MoveToDynamicForce.t) : Checked FBaseRootMotionSource :=
  let s := set_RootMotionParams (Params.Clear (RootMotionParams s)) s in
  s <- (if Qltb UE_SMALL_NUMBER (Duration s) && Qltb UE_SMALL_NUMBER MovementTickTime then
          let remap f :=
            match MoveToDynamicForce.TimeMappingCurve d with
            | Some curve => EvaluateFloatCurveAtFraction E curve f
            | None => f
            end in
          let MoveFraction := remap ((GetTime s + SimulationTime) / Duration s) in
          let PreviousMoveFraction := remap (GetTime s / Duration s) in
          let Force :=
            MoveTo_Force E MovementTickTime Character (MoveToDynamicForce.PathOffsetCurve d)
              (MoveToDynamicForce.StartLocation d) (MoveToDynamicForce.TargetLocation d)
              (MoveToDynamicForce.bRestrictSpeedToExpected d)
              MoveFraction PreviousMoveFraction in
          ret (set_RootMotionParams
                 (Params.Set_ (Transform.ofTranslation Force) (RootMotionParams s)) s)
        else
          checkf (Qltb UE_SMALL_NUMBER (Duration s)) ;;; ret s) ;;
  ret (SetTime (GetTime s + SimulationTime) s).

Definition JumpForce_GetPathOffset (E : Engine) (d : JumpForce.t) (MoveFraction : Q)
  : FVector :=
  let PathOffset :=
    match JumpForce.PathOffsetCurve d with
    | Some curve => EvaluateVectorCurveAtFraction E curve MoveFraction
    | None =>
        let Phi := 2 * MoveFraction - 1 in
        let Z := - (Phi * Phi) + 1 in
        Vec.setZ Vec.Zero Z
    end in
  if Qle_bool 0 (JumpForce.Height d)
  then Vec.setZ PathOffset (VZ PathOffset * JumpForce.Height d)
  else PathOffset.

Definition JumpForce_GetRelativeLocation (E : Engine) (d : JumpForce.t) (MoveFraction : Q)
  : FVector :=
  let FacingRotation := Rot.zeroPitch (JumpForce.Rotation d) in
  let RelativeLocationFacingSpace :=
    Vec.add (MkVector (MoveFraction * JumpForce.Distance d) 0 0)
            (JumpForce_GetPathOffset E d MoveFraction) in
  FRotator_RotateVector E FacingRotation RelativeLocationFacingSpace.

Definition JumpForce_PrepareRootMotion (E : Engine)
    (SimulationTime MovementTickTime : Q)
    (s : FBaseRootMotionSource) (d : JumpForce.t) : Checked FBaseRootMotionSource :=
  let s := set_RootMotionParams (Params.Clear (RootMotionParams s)) s in
  s <- (if Qltb UE_SMALL_NUMBER (Duration s) && Qltb UE_SMALL_NUMBER MovementTickTime
           && Qltb UE_SMALL_NUMBER SimulationTime then
          let CurrentTimeFraction := GetTime s / Duration s in
          let TargetTimeFraction := (GetTime s + SimulationTime) / Duration s in
          let '(CurrentTimeFraction, TargetTimeFraction) :=
            if Qltb 1 TargetTimeFraction then
              let TimeFractionPastAllowable := TargetTimeFraction - 1 in
              (CurrentTimeFraction - TimeFractionPastAllowable,
               TargetTimeFraction - TimeFractionPastAllowable)
            else (CurrentTimeFraction, TargetTimeFraction) in
          let remap f :=
            match JumpForce.TimeMappingCurve d with
            | Some curve => EvaluateFloatCurveAtFraction E curve f
            | None => f
            end in
          let CurrentMoveFraction := remap CurrentTimeFraction in
          let TargetMoveFraction := remap TargetTimeFraction in
          let CurrentRelativeLocation := JumpForce_GetRelativeLocation E d CurrentMoveFraction in
          let TargetRelativeLocation := JumpForce_GetRelativeLocation E d TargetMoveFraction in
          let Force :=
            Vec.div (Vec.sub TargetRelativeLocation CurrentRelativeLocation) MovementTickTime in
          ret (set_RootMotionParams
                 (Params.Set_ (Transform.ofTranslation Force) (RootMotionParams s)) s)
        else
          checkf (Qltb UE_SMALL_NUMBER (Duration s)) ;;; ret s) ;;
  ret (SetTime (GetTime s + SimulationTime) s).

(** The virtual [PrepareRootMotion]. *)
Definition PrepareRootMotion (E : Engine) (SimulationTime MovementTickTime : Q)
    (Character : ABaseCharacter) (s : FBaseRootMotionSource) : Checked FBaseRootMotionSource :=
  match Derived s with
  | VConstantForce d => ret (ConstantForce_PrepareRootMotion E SimulationTime MovementTickTime s d)
  | VRadialForce d =>
      ret (RadialForce_PrepareRootMotion E SimulationTime MovementTickTime Character s d)
  | VMoveToForce d =>
      MoveToForce_PrepareRootMotion E SimulationTime MovementTickTime Character s d
  | VMoveToDynamicForce d =>
      MoveToDynamicForce_PrepareRootMotion E SimulationTime MovementTickTime Character s d
  | VJumpForce d => JumpForce_PrepareRootMotion E SimulationTime MovementTickTime s d
  end.

(* ===================================================================== *)
(** ** The source group *)
(* ===================================================================== *)

Record FBaseRootMotionSourceGroup : Type := MkGroup {
  RootMotionSources : list TSharedPtr;
  PendingAddRootMotionSources : list TSharedPtr;
  bHasAdditiveSources : bool;
  bHasOverrideSources : bool;
  bHasOverrideSourcesWithIgnoreZAccumulate : bool;
  bIsAdditiveVelocityApplied : bool;
  LastPreAdditiveVelocity : FVector;
  LastAccumulatedSettings : Z
}.

(** [FBaseRootMotionSourceGroup::FBaseRootMotionSourceGroup()] *)
Definition New_Group : FBaseRootMotionSourceGroup :=
  MkGroup [] [] false false false false Vec.Zero 0.

Definition IsValid (p : TSharedPtr) : bool :=
  match p with Some _ => true | None => false end.

(** *** ApplyRootMotionSource

    The function-local [static uint16 LocalIDGenerator] is threaded as state;
    [++] wraps at 16 bits. *)
Definition uint16_incr (n : Z) : Z := ((n + 1) mod 65536)%Z.

Definition ApplyRootMotionSource (LocalIDGenerator : Z) (g : FBaseRootMotionSourceGroup)
    (SourcePtr : TSharedPtr) : Z * FBaseRootMotionSourceGroup * Z :=
  match SourcePtr with
  | Some src =>
      let LocalIDGenerator := uint16_incr LocalIDGenerator in
      let LocalID := LocalIDGenerator in
      let '(LocalIDGenerator, LocalID) :=
        if (LocalID =? RootMotionSourceID_Invalid)%Z
        then (uint16_incr LocalIDGenerator, uint16_incr LocalIDGenerator)
        else (LocalIDGenerator, LocalID) in
      (LocalIDGenerator,
       MkGroup (RootMotionSources g)
         (PendingAddRootMotionSources g ++ [Some (set_LocalID LocalID src)])
         (bHasAdditiveSources g) (bHasOverrideSources g)
         (bHasOverrideSourcesWithIgnoreZAccumulate g) (bIsAdditiveVelocityApplied g)
         (LastPreAdditiveVelocity g) (LastAccumulatedSettings g),
       LocalID)
  | None => (LocalIDGenerator, g, RootMotionSourceID_Invalid)
  end.

(** *** PrepareRootMotion *)

(** The sort predicate of [PrepareRootMotion]; for an invalid pointer the
    lambda fails its check and returns [true]. *)
Definition SortPredicate (SourceL SourceR : TSharedPtr) : bool :=
  match SourceL, SourceR with
  | Some l, Some r => (Priority r <? Priority l)%Z
  | _, _ => true
  end.

(** [TArray::StableSort]: with valid pointers the predicate is a strict weak
    order and every stable sort returns this list.  Elements are inserted
    from the right, each before the first element that does not have to
    precede it. *)
Fixpoint StableInsert (x : TSharedPtr) (l : list TSharedPtr) : list TSharedPtr :=
  match l with
  | [] => [x]
  | y :: rest => if SortPredicate y x then y :: StableInsert x rest else x :: y :: rest
  end.

Fixpoint StableSort (l : list TSharedPtr) : list TSharedPtr :=
  match l with
  | [] => []
  | x :: rest => StableInsert x (StableSort rest)
  end.

Definition SortByPriority (l : list TSharedPtr) : Checked (list TSharedPtr) :=
  if (1 <? List.length l)%nat then MkChecked (StableSort l) (forallb IsValid l) else ret l.

(** Simulated catch-up: up to half of the time mismatch, at most half a
    second. *)
Definition SimulatedCatchup (s : FBaseRootMotionSource) (SimulationTime : Q) : Q :=
  if bNeedsSimulatedCatchup s then
    let CorrectionDelta := PreviousTime s - CurrentTime s in
    if Qltb 0 CorrectionDelta then
      let MaxTimeDeltaCorrectionPercent := 1 # 2 in
      let MaxTimeDeltaCorrectionAbsolute := 1 # 2 in
      let CorrectionDelta :=
        FMath.Min (CorrectionDelta * MaxTimeDeltaCorrectionPercent)
                  MaxTimeDeltaCorrectionAbsolute in
      SimulationTime + CorrectionDelta
    else SimulationTime
  else SimulationTime.

Definition CharacterMovementTime (Character : ABaseCharacter)
    (MoveComponent : UBaseCharacterMovementComponent) (DeltaTime : Q) : Q :=
  match LocalRole Character with
  | ROLE_AutonomousProxy =>
      match PredictionData_Client MoveComponent with
      | Some CurrentTimeStamp =>
          if negb (bClientUpdating Character) then CurrentTimeStamp else -1
      | None => -1
      end
  | ROLE_Authority =>
      match PredictionData_Server MoveComponent with
      | Some CurrentClientTimeStamp => CurrentClientTimeStamp - DeltaTime
      | None => -1
      end
  | _ => -1
  end.

(** Partial tick at the start of a source. *)
Definition PartialStartTick (Character : ABaseCharacter)
    (MoveComponent : UBaseCharacterMovementComponent) (DeltaTime : Q)
    (s : FBaseRootMotionSource) (SimulationTime : Q) : Q :=
  let bRootMotionHasNotStarted := Qeq_bool (GetTime s) 0 in
  let bRootMotionHasValidStartTime := IsStartTimeValid s in
  if bRootMotionHasNotStarted && bRootMotionHasValidStartTime then
    let CharacterMovementTime := CharacterMovementTime Character MoveComponent DeltaTime in
    let bHasValidMovementTime := Qle_bool 0 CharacterMovementTime in
    let bHasSourceNotStarted := Qltb CharacterMovementTime (GetStartTime s) in
    if bHasValidMovementTime && bHasSourceNotStarted then
      let EndCharacterMovementTime := CharacterMovementTime + SimulationTime in
      if Qle_bool EndCharacterMovementTime (GetStartTime s) then 0
      else EndCharacterMovementTime - GetStartTime s
    else SimulationTime
  else SimulationTime.

(** Partial tick at the end of a source. *)
Definition PartialEndTick (s : FBaseRootMotionSource) (SimulationTime : Q) : Q :=
  if IsTimeOutEnabled s && negb (Settings.HasFlag (Settings s) DisablePartialEndTick) then
    let Duration := GetDuration s in
    if Qle_bool Duration (GetTime s + SimulationTime) then
      Duration - GetTime s + UE_KINDA_SMALL_NUMBER
    else SimulationTime
  else SimulationTime.

(** The simulation time with which the group prepares one source. *)
Definition SourceSimulationTime (Character : ABaseCharacter)
    (MoveComponent : UBaseCharacterMovementComponent) (DeltaTime : Q)
    (s : FBaseRootMotionSource) : Q :=
  let SimulationTime := DeltaTime in
  let SimulationTime := SimulatedCatchup s SimulationTime in
  let SimulationTime := PartialStartTick Character MoveComponent DeltaTime s SimulationTime in
  let SimulationTime := PartialEndTick s SimulationTime in
  FMath.Max SimulationTime 0.

(** The body of the loop for a source that has to be prepared. *)
Definition PrepareSource (E : Engine) (Character : ABaseCharacter)
    (MoveComponent : UBaseCharacterMovementComponent) (DeltaTime : Q)
    (s : FBaseRootMotionSource) : Checked FBaseRootMotionSource :=
  let SimulationTime := SourceSimulationTime Character MoveComponent DeltaTime s in
  let s := set_bSimulatedNeedsSmoothing false s in
  s <- PrepareRootMotion E SimulationTime DeltaTime Character s ;;
  let s := set_Status (Status.SetFlag (Status s) Prepared) s in
  ret (set_bNeedsSimulatedCatchup false s).

(** What the loop accumulates in the group while it runs. *)
Record PrepareSummary : Type := MkSummary {
  sum_bHasOverrideSources : bool;
  sum_bHasOverrideSourcesWithIgnoreZAccumulate : bool;
  sum_bHasAdditiveSources : bool;
  sum_LastAccumulatedSettings : Z
}.

Definition SummaryOfMode (s : FBaseRootMotionSource) (a : PrepareSummary) : PrepareSummary :=
  if (AccumulateMode s =? AccumulateMode_Additive)%Z then
    MkSummary (sum_bHasOverrideSources a) (sum_bHasOverrideSourcesWithIgnoreZAccumulate a)
      true (sum_LastAccumulatedSettings a)
  else if (AccumulateMode s =? AccumulateMode_Override)%Z then
    MkSummary true
      (if Settings.HasFlag (Settings s) IgnoreZAccumulate then true
       else sum_bHasOverrideSourcesWithIgnoreZAccumulate a)
      (sum_bHasAdditiveSources a) (sum_LastAccumulatedSettings a)
  else a.

Definition SummaryOfSettings (s : FBaseRootMotionSource) (a : PrepareSummary)
  : PrepareSummary :=
  MkSummary (sum_bHasOverrideSources a) (sum_bHasOverrideSourcesWithIgnoreZAccumulate a)
    (sum_bHasAdditiveSources a)
    (Settings.Accumulate (sum_LastAccumulatedSettings a) (Settings s)).

Fixpoint PrepareLoop (E : Engine) (Character : ABaseCharacter)
    (MoveComponent : UBaseCharacterMovementComponent) (DeltaTime : Q)
    (bForcePrepareAll : bool) (l : list TSharedPtr) (a : PrepareSummary)
  : Checked (list TSharedPtr * PrepareSummary) :=
  match l with
  | [] => ret ([], a)
  | None :: rest =>
      r <- PrepareLoop E Character MoveComponent DeltaTime bForcePrepareAll rest a ;;
      ret (None :: fst r, snd r)
  | Some s :: rest =>
      sa <- (if negb (Status.HasFlag (Status s) Prepared) || bForcePrepareAll then
               s' <- PrepareSource E Character MoveComponent DeltaTime s ;;
               ret (s', SummaryOfSettings s' a)
             else ret (s, a)) ;;
      let a := SummaryOfMode (fst sa) (snd sa) in
      r <- PrepareLoop E Character MoveComponent DeltaTime bForcePrepareAll rest a ;;
      ret (Some (fst sa) :: fst r, snd r)
  end.

Definition Group_PrepareRootMotion (E : Engine) (DeltaTime : Q) (Character : ABaseCharacter)
    (MoveComponent : UBaseCharacterMovementComponent) (bForcePrepareAll : bool)
    (g : FBaseRootMotionSourceGroup) : Checked FBaseRootMotionSourceGroup :=
  let sources := RootMotionSources g ++ PendingAddRootMotionSources g in
  sources <- SortByPriority sources ;;
  r <- PrepareLoop E Character MoveComponent DeltaTime bForcePrepareAll sources
         (MkSummary false false false 0) ;;
  ret (MkGroup (fst r) []
         (sum_bHasAdditiveSources (snd r)) (sum_bHasOverrideSources (snd r))
         (sum_bHasOverrideSourcesWithIgnoreZAccumulate (snd r))
         (bIsAdditiveVelocityApplied g) (LastPreAdditiveVelocity g)
         (sum_LastAccumulatedSettings (snd r))).

(** *** Accumulation *)

Definition AccumulateRootMotionVelocityFromSource
    (MoveComponent : UBaseCharacterMovementComponent)
    (RootMotionSource : FBaseRootMotionSource) (InOutVelocity : FVector) : FVector :=
  let RootMotionParams := RootMotionParams RootMotionSource in
  let RootMotionParams :=
    match bInLocalSpace RootMotionSource, UpdatedComponent MoveComponent with
    | true, Some ComponentRotation =>
        Params.Set_ (Transform.mulRotation (RootMotionTransform RootMotionParams)
                                           ComponentRotation) RootMotionParams
    | _, _ => RootMotionParams
    end in
  let RootMotionVelocity := TTranslation (RootMotionTransform RootMotionParams) in
  let InputVelocity := InOutVelocity in
  let InOutVelocity :=
    if (AccumulateMode RootMotionSource =? AccumulateMode_Override)%Z then RootMotionVelocity
    else if (AccumulateMode RootMotionSource =? AccumulateMode_Additive)%Z
         then Vec.add InOutVelocity RootMotionVelocity
         else InOutVelocity in
  if Settings.HasFlag (Settings RootMotionSource) IgnoreZAccumulate
  then Vec.setZ InOutVelocity (VZ InputVelocity)
  else InOutVelocity.

Fixpoint AccumulateLoop (MoveComponent : UBaseCharacterMovementComponent)
    (RootMotionType : Z) (l : list TSharedPtr) (InOutVelocity : FVector) : FVector :=
  match l with
  | [] => InOutVelocity
  | None :: rest => AccumulateLoop MoveComponent RootMotionType rest InOutVelocity
  | Some s :: rest =>
      if (AccumulateMode s =? RootMotionType)%Z then
        let v := AccumulateRootMotionVelocityFromSource MoveComponent s InOutVelocity in
        if (AccumulateMode s =? AccumulateMode_Override)%Z then v
        else AccumulateLoop MoveComponent RootMotionType rest v
      else AccumulateLoop MoveComponent RootMotionType rest InOutVelocity
  end.

Definition AccumulateRootMotionVelocity (RootMotionType : Z)
    (MoveComponent : UBaseCharacterMovementComponent)
    (g : FBaseRootMotionSourceGroup) (InOutVelocity : FVector) : Checked FVector :=
  checkf ((RootMotionType =? AccumulateMode_Additive)%Z
          || (RootMotionType =? AccumulateMode_Override)%Z) ;;;
  ret (AccumulateLoop MoveComponent RootMotionType (RootMotionSources g) InOutVelocity).

Definition AccumulateOverrideRootMotionVelocity
    (MoveComponent : UBaseCharacterMovementComponent)
    (g : FBaseRootMotionSourceGroup) (InOutVelocity : FVector) : Checked FVector :=
  AccumulateRootMotionVelocity AccumulateMode_Override MoveComponent g InOutVelocity.

Definition AccumulateAdditiveRootMotionVelocity
    (MoveComponent : UBaseCharacterMovementComponent)
    (g : FBaseRootMotionSourceGroup) (InOutVelocity : FVector) : Checked FVector :=
  AccumulateRootMotionVelocity AccumulateMode_Additive MoveComponent g InOutVelocity.

(** *** CleanUpInvalidRootMotion *)

Definition IsRemovable (s : FBaseRootMotionSource) : bool :=
  Status.HasFlag (Status s) MarkedForRemoval || Status.HasFlag (Status s) Finished.

(** The finish-velocity policy on one velocity vector: for Z only positive
    values are clamped. *)
Definition ClampFinishVelocity (E : Engine) (v : FVector) (ClampVelocity : Q) : FVector :=
  let v := FVector_GetClampedToMaxSize2D E v ClampVelocity in
  Vec.setZ v (FMath.Min (VZ v) ClampVelocity).

(** The effect of removing one active source on the pair
    ([LastPreAdditiveVelocity], [MoveComponent.Velocity]). *)
Definition RemoveActiveSource (E : Engine) (bIsAdditiveVelocityApplied : bool)
    (MoveComponent : UBaseCharacterMovementComponent) (s : FBaseRootMotionSource)
    (st : FVector * FVector) : FVector * FVector :=
  let '(LastPre, Vel) := st in
  let LastPre :=
    if (AccumulateMode s =? AccumulateMode_Additive)%Z && bIsAdditiveVelocityApplied
    then AccumulateRootMotionVelocityFromSource MoveComponent s LastPre
    else LastPre in
  match FinishMode (FinishVelocityParams s) with
  | ClampVelocity =>
      let c := FinishClampVelocity (FinishVelocityParams s) in
      (if bIsAdditiveVelocityApplied then ClampFinishVelocity E LastPre c else LastPre,
       ClampFinishVelocity E Vel c)
  | SetVelocity =>
      let v := FinishSetVelocity (FinishVelocityParams s) in
      (if bIsAdditiveVelocityApplied then v else LastPre, v)
  | MaintainLastRootMotionVelocity => (LastPre, Vel)
  end.

(** [RootMotionSources.RemoveAll(...)]: the predicate runs on every element
    in order and carries the velocity updates along. *)
Fixpoint RemoveAllActive (E : Engine) (bIsAdditiveVelocityApplied : bool)
    (MoveComponent : UBaseCharacterMovementComponent)
    (l : list TSharedPtr) (st : FVector * FVector) : list TSharedPtr * (FVector * FVector) :=
  match l with
  | [] => ([], st)
  | None :: rest => RemoveAllActive E bIsAdditiveVelocityApplied MoveComponent rest st
  | Some s :: rest =>
      if negb (Status.HasFlag (Status s) MarkedForRemoval)
         && negb (Status.HasFlag (Status s) Finished)
      then
        let r := RemoveAllActive E bIsAdditiveVelocityApplied MoveComponent rest st in
        (Some s :: fst r, snd r)
      else
        RemoveAllActive E bIsAdditiveVelocityApplied MoveComponent rest
          (RemoveActiveSource E bIsAdditiveVelocityApplied MoveComponent s st)
  end.

Definition KeepPending (p : TSharedPtr) : bool :=
  match p with
  | Some s => negb (Status.HasFlag (Status s) MarkedForRemoval)
              && negb (Status.HasFlag (Status s) Finished)
  | None => false
  end.

(** The group and the movement component after the cleanup. *)
Definition CleanUpInvalidRootMotion (E : Engine)
    (MoveComponent : UBaseCharacterMovementComponent) (g : FBaseRootMotionSourceGroup)
  : FBaseRootMotionSourceGroup * UBaseCharacterMovementComponent :=
  let r := RemoveAllActive E (bIsAdditiveVelocityApplied g) MoveComponent
             (RootMotionSources g) (LastPreAdditiveVelocity g, Velocity MoveComponent) in
  (MkGroup (fst r) (filter KeepPending (PendingAddRootMotionSources g))
     (bHasAdditiveSources g) (bHasOverrideSources g)
     (bHasOverrideSourcesWithIgnoreZAccumulate g) (bIsAdditiveVelocityApplied g)
     (fst (snd r)) (LastAccumulatedSettings g),
   set_Velocity (snd (snd r)) MoveComponent).

(** *** Equality of groups *)

Fixpoint SourcesEqual (l1 l2 : list TSharedPtr) : bool :=
  match l1, l2 with
  | a :: r1, b :: r2 =>
      if Bool.eqb (IsValid a) (IsValid b) then
        match a with
        | Some s => if negb (MatchesAndHasSameState s b) then false else SourcesEqual r1 r2
        | None => SourcesEqual r1 r2
        end
      else false
  | _, _ => true
  end.

(** [operator==] *)
Definition Group_eq (g Other : FBaseRootMotionSourceGroup) : bool :=
  if negb (Bool.eqb (bHasAdditiveSources g) (bHasAdditiveSources Other))
     || negb (Bool.eqb (bHasOverrideSources g) (bHasOverrideSources Other))
     || negb (Bool.eqb (bHasOverrideSourcesWithIgnoreZAccumulate g)
                       (bHasOverrideSourcesWithIgnoreZAccumulate Other))
     || negb (Bool.eqb (bIsAdditiveVelocityApplied g) (bIsAdditiveVelocityApplied Other))
     || negb (Vec.Equals (LastPreAdditiveVelocity g) (LastPreAdditiveVelocity Other) 1)
  then false
  else if negb (List.length (RootMotionSources g) =? List.length (RootMotionSources Other))%nat
  then false
  else if negb (List.length (PendingAddRootMotionSources g)
                =? List.length (PendingAddRootMotionSources Other))%nat
  then false
  else if negb (SourcesEqual (RootMotionSources g) (RootMotionSources Other)) then false
  else SourcesEqual (PendingAddRootMotionSources g) (PendingAddRootMotionSources Other).

(* ===================================================================== *)
(** ** The clock in single precision *)
(* ===================================================================== *)

(** The times of a source are [float]s: the sum [GetTime() + SimulationTime]
    that every [PrepareRootMotion] computes, hands to [SetTime(float)] and,
    in the move-to and jump sources, divides by the duration, is rounded to
    single precision.  The definitions above take that sum exactly, which is
    the same for a single call up to that rounding; over many calls the
    rounding decides which call brings the clock to the duration.  The
    definitions below are the same functions with the rounding [fl] of the
    sum written out. *)

(** IEEE 754 binary32, round to nearest, ties to even: [FloorLog2 x] is the
    exponent of a positive [x], [RoundToFloat x] the float nearest to [x]
    (24 bits of significand, subnormals below [2 ^ -126]; values beyond the
    largest float, which round to infinity, are outside the model). *)
Definition FloorLog2 (x : Q) : Z :=
  let e := (Z.log2 (Qnum x) - Z.log2 (Zpos (Qden x)))%Z in
  if Qle_bool (Qpower 2 e) x then e else (e - 1)%Z.

Definition RoundHalfEven (m : Q) : Z :=
  let f := Qfloor m in
  let frac := m - inject_Z f in
  if Qltb frac (1 # 2) then f
  else if Qltb (1 # 2) frac then (f + 1)%Z
  else if Z.even f then f else (f + 1)%Z.

Definition RoundToFloat (x : Q) : Q :=
  if Qeq_bool x 0 then 0
  else
    let e := Z.max (FloorLog2 (Qabs x)) (-126) in
    let quantum := Qpower 2 (e - 23) in
    inject_Z (RoundHalfEven (x / quantum)) * quantum.

Definition ConstantForce_PrepareRootMotion_fl (fl : Q -> Q) (E : Engine)
    (SimulationTime MovementTickTime : Q)
    (s : FBaseRootMotionSource) (d : ConstantForce.t) : FBaseRootMotionSource :=
  let s := set_RootMotionParams (Params.Clear (RootMotionParams s)) s in
  let NewTransform := Transform.ofTranslation (ConstantForce.Force d) in
  let NewTransform :=
    match ConstantForce.StrengthOverTime d with
    | Some curve =>
        let TimeValue :=
          if Qltb 0 (Duration s) then FMath.Clamp (GetTime s / Duration s) 0 1
          else GetTime s in
        let TimeFactor := CurveFloat_GetFloatValue E curve TimeValue in
        Transform.ScaleTranslation TimeFactor NewTransform
    | None => NewTransform
    end in
  let Multiplier :=
    if Qltb UE_SMALL_NUMBER MovementTickTime then SimulationTime / MovementTickTime else 1 in
  let NewTransform := Transform.ScaleTranslation Multiplier NewTransform in
  let s := set_RootMotionParams (Params.Set_ NewTransform (RootMotionParams s)) s in
  SetTime (fl (GetTime s + SimulationTime)) s.

Definition RadialForce_PrepareRootMotion_fl (fl : Q -> Q) (E : Engine)
    (SimulationTime MovementTickTime : Q) (Character : ABaseCharacter)
    (s : FBaseRootMotionSource) (d : RadialForce.t) : FBaseRootMotionSource :=
  let s := set_RootMotionParams (Params.Clear (RootMotionParams s)) s in
  let NewTransform := Transform.ofTranslation (RadialForce_Force E Character s d) in
  let NewTransform :=
    if negb (Qeq_bool SimulationTime MovementTickTime) && Qltb UE_SMALL_NUMBER MovementTickTime
    then Transform.ScaleTranslation (SimulationTime / MovementTickTime) NewTransform
    else NewTransform in
  let s := set_RootMotionParams (Params.Set_ NewTransform (RootMotionParams s)) s in
  SetTime (fl (GetTime s + SimulationTime)) s.

Definition MoveToForce_PrepareRootMotion_fl (fl : Q -> Q) (E : Engine)
    (SimulationTime MovementTickTime : Q) (Character : ABaseCharacter)
    (s : FBaseRootMotionSource) (d : MoveToForce.t) : Checked FBaseRootMotionSource :=
  let s := set_RootMotionParams (Params.Clear (RootMotionParams s)) s in
  s <- (if Qltb UE_SMALL_NUMBER (Duration s) && Qltb UE_SMALL_NUMBER MovementTickTime then
          let MoveFraction := fl (GetTime s + SimulationTime) / Duration s in
          let PreviousMoveFraction := GetTime s / Duration s in
          let Force :=
            MoveTo_Force E MovementTickTime Character (MoveToForce.PathOffsetCurve d)
              (MoveToForce.StartLocation d) (MoveToForce.TargetLocation d)
              (MoveToForce.bRestrictSpeedToExpected d) MoveFraction PreviousMoveFraction in
          ret (set_RootMotionParams
                 (Params.Set_ (Transform.ofTranslation Force) (RootMotionParams s)) s)
        else
          checkf (Qltb UE_SMALL_NUMBER (Duration s)) ;;; ret s) ;;
  ret (SetTime (fl (GetTime s + SimulationTime)) s).

Definition MoveToDynamicForce_PrepareRootMotion_fl (fl : Q -> Q) (E : Engine)
    (SimulationTime MovementTickTime : Q) (Character : ABaseCharacter)
    (s : FBaseRootMotionSource) (d : MoveToDynamicForce.t) : Checked FBaseRootMotionSource :=
  let s := set_RootMotionParams (Params.Clear (RootMotionParams s)) s in
  s <- (if Qltb UE_SMALL_NUMBER (Duration s) && Qltb UE_SMALL_NUMBER MovementTickTime then
          let remap f :=
            match MoveToDynamicForce.TimeMappingCurve d with
            | Some curve => EvaluateFloatCurveAtFraction E curve f
            | None => f
            end in
          let MoveFraction := remap (fl (GetTime s + SimulationTime) / Duration s) in
          let PreviousMoveFraction := remap (GetTime s / Duration s) in
          let Force :=
            MoveTo_Force E MovementTickTime Character (MoveToDynamicForce.PathOffsetCurve d)
              (MoveToDynamicForce.StartLocation d) (MoveToDynamicForce.TargetLocation d)
              (MoveToDynamicForce.bRestrictSpeedToExpected d)
              MoveFraction PreviousMoveFraction in
          ret (set_RootMotionParams
                 (Params.Set_ (Transform.ofTranslation Force) (RootMotionParams s)) s)
        else
          checkf (Qltb UE_SMALL_NUMBER (Duration s)) ;;; ret s) ;;
  ret (SetTime (fl (GetTime s + SimulationTime)) s).

Definition JumpForce_PrepareRootMotion_fl (fl : Q -> Q) (E : Engine)
    (SimulationTime MovementTickTime : Q)
    (s : FBaseRootMotionSource) (d : JumpForce.t) : Checked FBaseRootMotionSource :=
  let s := set_RootMotionParams (Params.Clear (RootMotionParams s)) s in
  s <- (if Qltb UE_SMALL_NUMBER (Duration s) && Qltb UE_SMALL_NUMBER MovementTickTime
           && Qltb UE_SMALL_NUMBER SimulationTime then
          let CurrentTimeFraction := GetTime s / Duration s in
          let TargetTimeFraction := fl (GetTime s + SimulationTime) / Duration s in
          let '(CurrentTimeFraction, TargetTimeFraction) :=
            if Qltb 1 TargetTimeFraction then
              let TimeFractionPastAllowable := TargetTimeFraction - 1 in
              (CurrentTimeFraction - TimeFractionPastAllowable,
               TargetTimeFraction - TimeFractionPastAllowable)
            else (CurrentTimeFraction, TargetTimeFraction) in
          let remap f :=
            match JumpForce.TimeMappingCurve d with
            | Some curve => EvaluateFloatCurveAtFraction E curve f
            | None => f
            end in
          let CurrentMoveFraction := remap CurrentTimeFraction in
          let TargetMoveFraction := remap TargetTimeFraction in
          let CurrentRelativeLocation := JumpForce_GetRelativeLocation E d CurrentMoveFraction in
          let TargetRelativeLocation := JumpForce_GetRelativeLocation E d TargetMoveFraction in
          let Force :=
            Vec.div (Vec.sub TargetRelativeLocation CurrentRelativeLocation) MovementTickTime in
          ret (set_RootMotionParams
                 (Params.Set_ (Transform.ofTranslation Force) (RootMotionParams s)) s)
        else
          checkf (Qltb UE_SMALL_NUMBER (Duration s)) ;;; ret s) ;;
  ret (SetTime (fl (GetTime s + SimulationTime)) s).

(** The virtual [PrepareRootMotion], the clock in single precision. *)
Definition PrepareRootMotion_fl (fl : Q -> Q) (E : Engine)
    (SimulationTime MovementTickTime : Q)
    (Character : ABaseCharacter) (s : FBaseRootMotionSource) : Checked FBaseRootMotionSource :=
  match Derived s with
  | VConstantForce d =>
      ret (ConstantForce_PrepareRootMotion_fl fl E SimulationTime MovementTickTime s d)
  | VRadialForce d =>
      ret (RadialForce_PrepareRootMotion_fl fl E SimulationTime MovementTickTime Character s d)
  | VMoveToForce d =>
      MoveToForce_PrepareRootMotion_fl fl E SimulationTime MovementTickTime Character s d
  | VMoveToDynamicForce d =>
      MoveToDynamicForce_PrepareRootMotion_fl fl E SimulationTime MovementTickTime Character s d
  | VJumpForce d => JumpForce_PrepareRootMotion_fl fl E SimulationTime MovementTickTime s d
  end.

(* ===================================================================== *)
(** ** The archive *)
(* ===================================================================== *)

(** What a serialized [UScriptStruct] reference can resolve to on the
    reading side: a script struct, an object of another class, or null. *)
Inductive WireTag : Type :=
| TagStruct (s : UScriptStruct)
| TagNotAStruct
| TagNull.

(** The archive is the engine's; the embedding keeps the sequence of values
    that [operator<<] moves, one item per call. *)
Inductive WireItem : Type :=
| WInt32 (v : Z)
| WUInt16 (v : Z)
| WUInt8 (v : Z)
| WFloat (v : Q)
| WBool (b : bool)
| WName (n : string)
| WVector (v : FVector)
| WRotator (r : FRotator)
| WObject (o : ObjPtr)
| WTag (t : WireTag).

Record FArchive : Type := MkArchive {
  ArIsLoading : bool;
  ArIsError : bool;
  ArData : list WireItem
}.

Definition ArIsSaving (ar : FArchive) : bool := negb (ArIsLoading ar).

Definition NewWriter : FArchive := MkArchive false false [].
Definition NewReader (data : list WireItem) : FArchive := MkArchive true false data.

(** [Ar.SetError()] *)
Definition SetError (ar : FArchive) : FArchive :=
  MkArchive (ArIsLoading ar) true (ArData ar).

(** Reading past the end (or meeting an item of another kind, which stands
    for the same thing here): the archive is in error and stays exhausted. *)
Definition Overflowed (ar : FArchive) : FArchive :=
  MkArchive (ArIsLoading ar) true [].

Definition Ser (A : Type) : Type := FArchive -> A * FArchive.

Definition sret {A} (a : A) : Ser A := fun ar => (a, ar).

Definition sbind {A B} (c : Ser A) (k : A -> Ser B) : Ser B :=
  fun ar => let r := c ar in k (fst r) (snd r).

Notation "x <~ c ;; k" := (sbind c (fun x => k))
  (at level 61, c at next level, right associativity).

(** [Ar << v]: a writer appends the value and leaves it alone, a reader
    replaces it by the next item. *)
Definition Serialize {A} (inj : A -> WireItem) (proj : WireItem -> option A) (zero : A)
    (v : A) : Ser A :=
  fun ar =>
    if ArIsLoading ar then
      match ArData ar with
      | it :: rest =>
          match proj it with
          | Some x => (x, MkArchive true (ArIsError ar) rest)
          | None => (zero, Overflowed ar)
          end
      | [] => (zero, Overflowed ar)
      end
    else (v, MkArchive false (ArIsError ar) (ArData ar ++ [inj v])).

Definition Ar_int32 : Z -> Ser Z :=
  Serialize WInt32 (fun it => match it with WInt32 v => Some v | _ => None end) 0%Z.
Definition Ar_uint16 : Z -> Ser Z :=
  Serialize WUInt16 (fun it => match it with WUInt16 v => Some v | _ => None end) 0%Z.
Definition Ar_uint8 : Z -> Ser Z :=
  Serialize WUInt8 (fun it => match it with WUInt8 v => Some v | _ => None end) 0%Z.
Definition Ar_float : Q -> Ser Q :=
  Serialize WFloat (fun it => match it with WFloat v => Some v | _ => None end) 0.
Definition Ar_bool : bool -> Ser bool :=
  Serialize WBool (fun it => match it with WBool v => Some v | _ => None end) false.
Definition Ar_name : string -> Ser string :=
  Serialize WName (fun it => match it with WName v => Some v | _ => None end) NAME_None.
Definition Ar_vector : FVector -> Ser FVector :=
  Serialize WVector (fun it => match it with WVector v => Some v | _ => None end) Vec.Zero.
Definition Ar_rotator : FRotator -> Ser FRotator :=
  Serialize WRotator (fun it => match it with WRotator v => Some v | _ => None end) Rot.Zero.
Definition Ar_object : ObjPtr -> Ser ObjPtr :=
  Serialize WObject (fun it => match it with WObject v => Some v | _ => None end) None.

(** [TCheckedObjPtr<UScriptStruct>] after [Ar << ScriptStruct]: valid, null
    without error, or in error (the reference resolved to something that is
    not a script struct). *)
Inductive TCheckedObjPtr : Type :=
| Checked_Valid (s : UScriptStruct)
| Checked_Null
| Checked_Error.

Definition Ar_ScriptStruct (ScriptStruct : option UScriptStruct) : Ser TCheckedObjPtr :=
  fun ar =>
    if ArIsLoading ar then
      match ArData ar with
      | WTag t :: rest =>
          (match t with
           | TagStruct s => Checked_Valid s
           | TagNotAStruct => Checked_Error
           | TagNull => Checked_Null
           end, MkArchive true (ArIsError ar) rest)
      | _ => (Checked_Null, Overflowed ar)
      end
    else
      match ScriptStruct with
      | Some s => (Checked_Valid s,
                   MkArchive false (ArIsError ar) (ArData ar ++ [WTag (TagStruct s)]))
      | None => (Checked_Null, MkArchive false (ArIsError ar) (ArData ar ++ [WTag TagNull]))
      end.

(* ===================================================================== *)
(** ** Serialization of sources and groups *)
(* ===================================================================== *)

(** [FBaseRootMotionSource::NetSerialize]; the flag is both the value
    returned and [bOutSuccess], which the function sets together. *)
Definition Base_NetSerialize (s : FBaseRootMotionSource) : Ser (FBaseRootMotionSource * bool) :=
  Priority' <~ Ar_int32 (Priority s) ;;
  LocalID' <~ Ar_uint16 (LocalID s) ;;
  AccumulateModeSerialize <~ Ar_uint8 (AccumulateMode s) ;;
  InstanceName' <~ Ar_name (InstanceName s) ;;
  CurrentTime' <~ Ar_float (CurrentTime s) ;;
  Duration' <~ Ar_float (Duration s) ;;
  Flags' <~ Ar_uint8 (Status s) ;;
  bInLocalSpace' <~ Ar_bool (bInLocalSpace s) ;;
  sret (MkSource Priority' LocalID' AccumulateModeSerialize InstanceName' (StartTime s)
          CurrentTime' (PreviousTime s) Duration' Flags' (Settings s) bInLocalSpace'
          (bNeedsSimulatedCatchup s) (bSimulatedNeedsSmoothing s) (RootMotionParams s)
          (FinishVelocityParams s) (Derived s), true).

Definition ConstantForce_NetSerialize (d : ConstantForce.t) : Ser ConstantForce.t :=
  Force <~ Ar_vector (ConstantForce.Force d) ;;
  StrengthOverTime <~ Ar_object (ConstantForce.StrengthOverTime d) ;;
  sret (ConstantForce.Mk Force StrengthOverTime).

Definition RadialForce_NetSerialize (d : RadialForce.t) : Ser RadialForce.t :=
  Location <~ Ar_vector (RadialForce.Location d) ;;
  LocationActor <~ Ar_object (RadialForce.LocationActor d) ;;
  Radius <~ Ar_float (RadialForce.Radius d) ;;
  Strength <~ Ar_float (RadialForce.Strength d) ;;
  bIsPush <~ Ar_bool (RadialForce.bIsPush d) ;;
  bNoZForce <~ Ar_bool (RadialForce.bNoZForce d) ;;
  StrengthDistanceFalloff <~ Ar_object (RadialForce.StrengthDistanceFalloff d) ;;
  StrengthOverTime <~ Ar_object (RadialForce.StrengthOverTime d) ;;
  bUseFixedWorldDirection <~ Ar_bool (RadialForce.bUseFixedWorldDirection d) ;;
  FixedWorldDirection <~ Ar_rotator (RadialForce.FixedWorldDirection d) ;;
  sret (RadialForce.Mk Location LocationActor Radius Strength bIsPush bNoZForce
          StrengthDistanceFalloff StrengthOverTime bUseFixedWorldDirection
          FixedWorldDirection).

Definition MoveToForce_NetSerialize (d : MoveToForce.t) : Ser MoveToForce.t :=
  StartLocation <~ Ar_vector (MoveToForce.StartLocation d) ;;
  TargetLocation <~ Ar_vector (MoveToForce.TargetLocation d) ;;
  bRestrictSpeedToExpected <~ Ar_bool (MoveToForce.bRestrictSpeedToExpected d) ;;
  PathOffsetCurve <~ Ar_object (MoveToForce.PathOffsetCurve d) ;;
  sret (MoveToForce.Mk StartLocation TargetLocation bRestrictSpeedToExpected PathOffsetCurve).

Definition MoveToDynamicForce_NetSerialize (d : MoveToDynamicForce.t)
  : Ser MoveToDynamicForce.t :=
  StartLocation <~ Ar_vector (MoveToDynamicForce.StartLocation d) ;;
  InitialTargetLocation <~ Ar_vector (MoveToDynamicForce.InitialTargetLocation d) ;;
  TargetLocation <~ Ar_vector (MoveToDynamicForce.TargetLocation d) ;;
  bRestrictSpeedToExpected <~ Ar_bool (MoveToDynamicForce.bRestrictSpeedToExpected d) ;;
  PathOffsetCurve <~ Ar_object (MoveToDynamicForce.PathOffsetCurve d) ;;
  TimeMappingCurve <~ Ar_object (MoveToDynamicForce.TimeMappingCurve d) ;;
  sret (MoveToDynamicForce.Mk StartLocation InitialTargetLocation TargetLocation
          bRestrictSpeedToExpected PathOffsetCurve TimeMappingCurve).

Definition JumpForce_NetSerialize (d : JumpForce.t) : Ser JumpForce.t :=
  Rotation <~ Ar_rotator (JumpForce.Rotation d) ;;
  Distance <~ Ar_float (JumpForce.Distance d) ;;
  Height <~ Ar_float (JumpForce.Height d) ;;
  bDisableTimeout <~ Ar_bool (JumpForce.bDisableTimeout d) ;;
  PathOffsetCurve <~ Ar_object (JumpForce.PathOffsetCurve d) ;;
  TimeMappingCurve <~ Ar_object (JumpForce.TimeMappingCurve d) ;;
  sret (JumpForce.Mk Rotation Distance Height bDisableTimeout PathOffsetCurve
          TimeMappingCurve (JumpForce.SavedHalfwayLocation d)).

(** The virtual [NetSerialize]: the base members, then those of the child. *)
Definition NetSerialize (s : FBaseRootMotionSource) : Ser (FBaseRootMotionSource * bool) :=
  r <~ Base_NetSerialize s ;;
  if negb (snd r) then sret (fst r, false)
  else
    d <~ (match Derived (fst r) with
          | VConstantForce d => x <~ ConstantForce_NetSerialize d ;; sret (VConstantForce x)
          | VRadialForce d => x <~ RadialForce_NetSerialize d ;; sret (VRadialForce x)
          | VMoveToForce d => x <~ MoveToForce_NetSerialize d ;; sret (VMoveToForce x)
          | VMoveToDynamicForce d =>
              x <~ MoveToDynamicForce_NetSerialize d ;; sret (VMoveToDynamicForce x)
          | VJumpForce d => x <~ JumpForce_NetSerialize d ;; sret (VJumpForce x)
          end) ;;
    sret (set_Derived d (fst r), true).

(** [ScriptStruct->InitializeStruct(NewSource)]: the default constructor of
    the named child; the base and foreign structs are no sources. *)
Definition InitializeStruct (ss : UScriptStruct) : TSharedPtr :=
  match ss with
  | StaticStruct_ConstantForce => Some New_ConstantForce
  | StaticStruct_RadialForce => Some New_RadialForce
  | StaticStruct_MoveToForce => Some New_MoveToForce
  | StaticStruct_MoveToDynamicForce => Some New_MoveToDynamicForce
  | StaticStruct_JumpForce => Some New_JumpForce
  | _ => None
  end.

(** The walk up the super structs in [NetSerializeRMSArray]; [fuel] bounds
    the length of the chain. *)
Fixpoint SuperChainReachesBase (fuel : nat) (CurrentSuperStruct : option UScriptStruct)
  : bool :=
  match fuel, CurrentSuperStruct with
  | S fuel', Some c =>
      if UScriptStruct_eqb c StaticStruct_Base then true
      else SuperChainReachesBase fuel' (GetSuperStruct c)
  | _, _ => false
  end.

Definition StructDepth (ss : UScriptStruct) : nat :=
  match ss with
  | StaticStruct_Base => 0
  | ForeignStruct n => n
  | _ => 1
  end.

Definition IsDerivedFromBaseRMS (ss : UScriptStruct) : bool :=
  SuperChainReachesBase (S (StructDepth ss)) (GetSuperStruct ss).

(** [TArray] helpers. *)
Definition SetNumZeroed (n : nat) (arr : list TSharedPtr) : list TSharedPtr :=
  firstn n arr ++ repeat None (n - List.length arr).

Fixpoint SetAt (i : nat) (x : TSharedPtr) (arr : list TSharedPtr) : list TSharedPtr :=
  match arr, i with
  | [], _ => []
  | _ :: rest, O => x :: rest
  | y :: rest, S i' => y :: SetAt i' x rest
  end.

Definition At (i : nat) (arr : list TSharedPtr) : TSharedPtr :=
  match nth_error arr i with Some p => p | None => None end.

(** The state the loop of [NetSerializeRMSArray] works on. *)
Record ArrayState : Type := MkArrayState {
  as_Ar : FArchive;
  as_Array : list TSharedPtr;
  as_bOutSuccess : bool
}.

(** One turn of the loop; the flag tells whether the loop is left by
    [break].  The five children declare a native net serializer, so the
    check on [STRUCT_NetSerializeNative] passes and the call goes to the
    child's [NetSerialize]. *)
Definition RMSArrayStep (i : nat) (st : ArrayState) : ArrayState * bool :=
  let Ar := as_Ar st in
  let arr := as_Array st in
  let ScriptStructLocal := option_map GetScriptStruct (At i arr) in
  let '(ScriptStruct, Ar) := Ar_ScriptStruct ScriptStructLocal Ar in
  match ScriptStruct with
  | Checked_Valid ss =>
      if IsDerivedFromBaseRMS ss then
        let arr :=
          if ArIsLoading Ar then
            match At i arr, ScriptStructLocal with
            | Some _, Some l =>
                if UScriptStruct_eqb l ss then arr else SetAt i (InitializeStruct ss) arr
            | _, _ => SetAt i (InitializeStruct ss) arr
            end
          else arr in
        match At i arr with
        | Some src =>
            let '((src', ok), Ar) := NetSerialize src Ar in
            (MkArrayState Ar (SetAt i (Some src') arr) ok, false)
        | None => (MkArrayState Ar arr (as_bOutSuccess st), false)
        end
      else (MkArrayState (SetError Ar) arr (as_bOutSuccess st), true)
  | Checked_Error => (MkArrayState (SetError Ar) arr (as_bOutSuccess st), true)
  | Checked_Null => (MkArrayState Ar arr (as_bOutSuccess st), false)
  end.

(** [for (i = 0; i < SourcesNum && !Ar.IsError(); ++i)], with [remaining]
    the number of indices still to visit. *)
Fixpoint RMSArrayLoop (remaining : nat) (i : nat) (st : ArrayState) : ArrayState :=
  match remaining with
  | O => st
  | S remaining' =>
      if ArIsError (as_Ar st) then st
      else
        let '(st', brk) := RMSArrayStep i st in
        if brk then st' else RMSArrayLoop remaining' (S i) st'
  end.

Definition NetSerializeRMSArray (MaxNumRootMotionSourcesToSerialize : Z) (st : ArrayState)
  : ArrayState :=
  let Ar := as_Ar st in
  let SourcesNum :=
    if ArIsSaving Ar
    then Z.min (Z.of_nat (List.length (as_Array st))) MaxNumRootMotionSourcesToSerialize
    else 0%Z in
  let '(SourcesNum, Ar) := Ar_uint8 SourcesNum Ar in
  let arr :=
    if ArIsLoading Ar then SetNumZeroed (Z.to_nat SourcesNum) (as_Array st)
    else as_Array st in
  RMSArrayLoop (Z.to_nat SourcesNum) 0 (MkArrayState Ar arr (as_bOutSuccess st)).

(** [FBaseRootMotionSourceGroup::NetSerialize]: the archive and the group
    afterwards, [bOutSuccess], and the value returned. *)
Definition Group_NetSerialize (Ar : FArchive) (g : FBaseRootMotionSourceGroup)
    (MaxNumRootMotionSourcesToSerialize : Z)
  : FArchive * FBaseRootMotionSourceGroup * bool * bool :=
  let '(bHasAdditive, Ar) := Ar_bool (bHasAdditiveSources g) Ar in
  let '(bHasOverride, Ar) := Ar_bool (bHasOverrideSources g) Ar in
  let '(bHasOverrideIgnoreZ, Ar) := Ar_bool (bHasOverrideSourcesWithIgnoreZAccumulate g) Ar in
  let '(LastPre, Ar) := Ar_vector (LastPreAdditiveVelocity g) Ar in
  let '(bIsApplied, Ar) := Ar_bool (bIsAdditiveVelocityApplied g) Ar in
  let '(SettingsFlags, Ar) := Ar_uint8 (LastAccumulatedSettings g) Ar in
  let NumRootMotionSourcesToSerialize :=
    Z.min (Z.of_nat (List.length (RootMotionSources g))) MaxNumRootMotionSourcesToSerialize in
  let NumPendingAddRootMotionSourcesToSerialize :=
    if (NumRootMotionSourcesToSerialize <? MaxNumRootMotionSourcesToSerialize)%Z
    then (MaxNumRootMotionSourcesToSerialize - NumRootMotionSourcesToSerialize)%Z
    else 0%Z in
  let st1 := NetSerializeRMSArray NumRootMotionSourcesToSerialize
               (MkArrayState Ar (RootMotionSources g) true) in
  let st2 := NetSerializeRMSArray NumPendingAddRootMotionSourcesToSerialize
               (MkArrayState (as_Ar st1) (PendingAddRootMotionSources g)
                  (as_bOutSuccess st1)) in
  let Ar := as_Ar st2 in
  if ArIsError Ar then
    (Ar,
     MkGroup (filter IsValid (as_Array st1)) (filter IsValid (as_Array st2))
       bHasAdditive bHasOverride bHasOverrideIgnoreZ bIsApplied LastPre SettingsFlags,
     false, false)
  else
    (Ar,
     MkGroup (as_Array st1) (as_Array st2)
       bHasAdditive bHasOverride bHasOverrideIgnoreZ bIsApplied LastPre SettingsFlags,
     true, true).

(* ===================================================================== *)
(** ** The buffer of replicated root-motion moves (BaseCharacter.cpp) *)
(* ===================================================================== *)

Definition INDEX_NONE : Z := (-1)%Z.

(** The members of [FRepRootMotionMontage] that the buffer reads. *)
Record FRepRootMotionMontage : Type := MkRepRootMotion {
  bIsActive : bool;
  AnimMontage : ObjPtr;
  Position : Q
}.

Record FBaseSimulatedRootMotionReplicatedMove : Type := MkRepMove {
  Time : Q;
  RootMotion : FRepRootMotionMontage
}.

(** The montage instance playing on the client: its montage, position, play
    rate and the table of next sections. *)
Record FAnimMontageInstance : Type := MkMontageInstance {
  Montage : ObjPtr;
  GetPosition : Q;
  GetPlayRate : Q;
  GetNextSectionID : Z -> Z
}.

(** Queries on montage assets and the world clock, answered by the engine. *)
Record MontageWorld : Type := MkMontageWorld {
  GetSectionIndexFromPosition : UObjectRef -> Q -> Z;
  GetSectionLength : UObjectRef -> Z -> Q;
  TimeSeconds : Q
}.

(** [UWorld::TimeSince] *)
Definition TimeSince (W : MontageWorld) (t : Q) : Q := TimeSeconds W - t.

Definition CanUseRootMotionRepMove (W : MontageWorld)
    (RootMotionRepMove : FBaseSimulatedRootMotionReplicatedMove)
    (ClientMontageInstance : FAnimMontageInstance) : bool :=
  if Qle_bool (TimeSince W (Time RootMotionRepMove)) (1 # 2) then
    match AnimMontage (RootMotion RootMotionRepMove) with
    | Some ServerMontage =>
        if ObjPtr_eqb (Some ServerMontage) (Montage ClientMontageInstance) then
          let AnimMontage := ServerMontage in
          let ServerPosition := Position (RootMotion RootMotionRepMove) in
          let ClientPosition := GetPosition ClientMontageInstance in
          let DeltaPosition := ClientPosition - ServerPosition in
          let CurrentSectionIndex := GetSectionIndexFromPosition W AnimMontage ClientPosition in
          if negb (CurrentSectionIndex =? INDEX_NONE)%Z then
            let NextSectionIndex := GetNextSectionID ClientMontageInstance CurrentSectionIndex in
            let bSameSections :=
              (GetSectionIndexFromPosition W AnimMontage ServerPosition
               =? CurrentSectionIndex)%Z in
            let bHasLooped :=
              (NextSectionIndex =? CurrentSectionIndex)%Z
              && Qltb (GetSectionLength W AnimMontage CurrentSectionIndex / 2)
                      (FMath.Abs DeltaPosition) in
            let bServerAheadOfClient :=
              Qltb (DeltaPosition * GetPlayRate ClientMontageInstance) 0 in
            bSameSections && negb bHasLooped && negb bServerAheadOfClient
          else false
        else false
    | None => false
    end
  else false.

(** The loop of [FindRootMotionRepMove], from [MoveIndex = n - 1] down to 0. *)
Fixpoint FindRootMotionRepMove_from (W : MontageWorld)
    (RootMotionRepMoves : list FBaseSimulatedRootMotionReplicatedMove)
    (ClientMontageInstance : FAnimMontageInstance) (n : nat) : Z :=
  match n with
  | O => INDEX_NONE
  | S MoveIndex =>
      match nth_error RootMotionRepMoves MoveIndex with
      | Some m =>
          if CanUseRootMotionRepMove W m ClientMontageInstance then Z.of_nat MoveIndex
          else FindRootMotionRepMove_from W RootMotionRepMoves ClientMontageInstance MoveIndex
      | None => FindRootMotionRepMove_from W RootMotionRepMoves ClientMontageInstance MoveIndex
      end
  end.

Definition FindRootMotionRepMove (W : MontageWorld)
    (RootMotionRepMoves : list FBaseSimulatedRootMotionReplicatedMove)
    (ClientMontageInstance : FAnimMontageInstance) : Z :=
  FindRootMotionRepMove_from W RootMotionRepMoves ClientMontageInstance
    (List.length RootMotionRepMoves).

(* ===================================================================== *)
(** ** Notions used by the statements *)
(* ===================================================================== *)

(** The sources whose [PrepareRootMotion] checks that the duration exceeds
    [UE_SMALL_NUMBER]. *)
Definition ChecksDuration (s : FBaseRootMotionSource) : bool :=
  match Derived s with
  | VMoveToForce _ | VMoveToDynamicForce _ | VJumpForce _ => true
  | _ => false
  end.

(** [n] calls of the source's [PrepareRootMotion] with the same times, the
    clock rounded by [fl] on every call. *)
Fixpoint PrepareRepeatedly (fl : Q -> Q) (E : Engine) (SimulationTime MovementTickTime : Q)
    (Character : ABaseCharacter) (n : nat) (s : FBaseRootMotionSource)
  : Checked FBaseRootMotionSource :=
  match n with
  | O => ret s
  | S k =>
      s' <- PrepareRepeatedly fl E SimulationTime MovementTickTime Character k s ;;
      PrepareRootMotion_fl fl E SimulationTime MovementTickTime Character s'
  end.

(** The status byte [UpdateStateFrom] leaves in a source of the same type:
    the other's flags, the own removal request kept, and the Finished flag
    then set again from the own timeout. *)
Definition StatusAfterUpdate (self other : FBaseRootMotionSource) : Z :=
  let taken :=
    if Status.HasFlag (Status self) MarkedForRemoval
    then Status.SetFlag (Status other) MarkedForRemoval
    else Status other in
  if IsTimeOutEnabled self then
    if Qle_bool (Duration self) (GetTime other)
    then Status.SetFlag taken Finished
    else Status.UnSetFlag taken Finished
  else taken.

(** The factor of the radial force as the specification writes it, with each
    factor one when its curve is absent. *)
Definition RadialDistanceFactor (E : Engine) (d : RadialForce.t) (Distance : Q) : Q :=
  match RadialForce.StrengthDistanceFalloff d with
  | Some curve =>
      CurveFloat_GetFloatValue E curve (FMath.Clamp (Distance / RadialForce.Radius d) 0 1)
  | None => 1
  end.

Definition RadialTimeFactor (E : Engine) (s : FBaseRootMotionSource) (d : RadialForce.t) : Q :=
  match RadialForce.StrengthOverTime d with
  | Some curve =>
      CurveFloat_GetFloatValue E curve
        (if Qltb 0 (Duration s) then FMath.Clamp (GetTime s / Duration s) 0 1 else GetTime s)
  | None => 1
  end.

Definition SpecRadialFactor (distanceFactor timeFactor : Q) : Q :=
  FMath.Clamp (1 - (1 - distanceFactor) - (1 - timeFactor)) 0 1.

(** An engine and a scene for the examples: the float curve 0 is constant
    one half and the others three quarters, lengths are measured by the sum
    of the absolute coordinates, rotators do not turn. *)
Definition DemoEngine : Engine :=
  MkEngine (fun c _ => match c with O => 1 # 2 | S _ => 3 # 4 end)
    (fun _ => (0, 1)) (fun _ _ => Vec.Zero) (fun _ => (0, 1))
    (fun _ => Vec.Zero)
    (fun a b => Qabs (VX a - VX b) + Qabs (VY a - VY b) + Qabs (VZ a - VZ b))
    (fun a => Qabs (VX a) + Qabs (VY a) + Qabs (VZ a))
    (fun a => a) (fun a => a) (fun _ => Rot.Zero) (fun a _ => a)
    (fun _ => MkVector 1 0 0) (fun _ v => v).

Definition DemoCharacter : ABaseCharacter := MkCharacter Vec.Zero ROLE_SimulatedProxy false.

Definition DemoMoveComponent : UBaseCharacterMovementComponent :=
  MkMoveComponent None None None Vec.Zero.

(** The sentences of the specification that the code does not satisfy as
    they stand, written out as propositions. *)

(** "A source with timeout enabled and duration D > 0, advanced by a fixed
    step, is Finished on the first call after which the cumulative elapsed
    time has reached D and not before": every call has to complete, and
    after every call the flag has to tell whether the time the source had
    plus the steps made so far has reached the duration. *)
Definition Stated_FinishedExactlyWhenElapsed : Prop :=
  forall (E : Engine) (sim tick : Q) (C : ABaseCharacter) (s : FBaseRootMotionSource)
         (n : nat),
    IsTimeOutEnabled s = true -> 0 < Duration s ->
    let r := PrepareRepeatedly RoundToFloat E sim tick C (S n) s in
    checks_ok r = true
    /\ Status.HasFlag (Status (value r)) Finished
       = Qle_bool (Duration s) (CurrentTime s + inject_Z (Z.of_nat (S n)) * sim).

(** "updateStateFrom copies the other's elapsed time and status flags onto
    self, except that self's MarkedForRemoval stays set; with differing
    types it copies nothing and returns false." *)
Definition Stated_UpdateStateFromCopies : Prop :=
  forall (self other : FBaseRootMotionSource) (mark : bool),
    let r := value (UpdateStateFrom self (Some other) mark) in
    if UScriptStruct_eqb (GetScriptStruct self) (GetScriptStruct other) then
      snd r = true
      /\ GetTime (fst r) = GetTime other
      /\ Status (fst r)
         = (if Status.HasFlag (Status self) MarkedForRemoval
            then Status.SetFlag (Status other) MarkedForRemoval
            else Status other)
    else r = (self, false).

(** What the loop of the group's [PrepareRootMotion] does to one valid
    source. *)
Definition PrepareEntry (E : Engine) (Character : ABaseCharacter)
    (MoveComponent : UBaseCharacterMovementComponent) (DeltaTime : Q)
    (bForcePrepareAll : bool) (s : FBaseRootMotionSource) : Checked FBaseRootMotionSource :=
  if negb (Status.HasFlag (Status s) Prepared) || bForcePrepareAll
  then PrepareSource E Character MoveComponent DeltaTime s
  else ret s.

(** The first valid source in Override mode. *)
Fixpoint FirstOverride (l : list TSharedPtr) : option FBaseRootMotionSource :=
  match l with
  | [] => None
  | Some s :: rest =>
      if (AccumulateMode s =? AccumulateMode_Override)%Z then Some s else FirstOverride rest
  | None :: rest => FirstOverride rest
  end.

(** Applying sources one after the other. *)
Fixpoint ApplySources (LocalIDGenerator : Z) (g : FBaseRootMotionSourceGroup)
    (l : list FBaseRootMotionSource) : Z * FBaseRootMotionSourceGroup :=
  match l with
  | [] => (LocalIDGenerator, g)
  | s :: rest =>
      let '(gen, g', _) := ApplyRootMotionSource LocalIDGenerator g (Some s) in
      ApplySources gen g' rest
  end.

(** The velocity a prepared source contributes, in world space. *)
Definition WorldContribution (MoveComponent : UBaseCharacterMovementComponent)
    (s : FBaseRootMotionSource) : FVector :=
  match bInLocalSpace s, UpdatedComponent MoveComponent with
  | true, Some ComponentRotation =>
      Quat.RotateVector ComponentRotation
        (TTranslation (RootMotionTransform (RootMotionParams s)))
  | _, _ => TTranslation (RootMotionTransform (RootMotionParams s))
  end.

(** A pointer the cleanup keeps. *)
Definition IsKept (p : TSharedPtr) : Prop := KeepPending p = true.

(** "Removing an additive source contributing V while additive velocity is
    applied increases lastPreAdditiveVelocity by exactly V." *)
Definition Stated_AdditiveRemovalAddsContribution : Prop :=
  forall (E : Engine) (M : UBaseCharacterMovementComponent) (g : FBaseRootMotionSourceGroup)
         (pre post : list TSharedPtr) (s : FBaseRootMotionSource),
    bIsAdditiveVelocityApplied g = true ->
    RootMotionSources g = pre ++ Some s :: post ->
    Forall IsKept pre -> Forall IsKept post ->
    AccumulateMode s = AccumulateMode_Additive ->
    IsRemovable s = true ->
    Vec.eqb (LastPreAdditiveVelocity (fst (CleanUpInvalidRootMotion E M g)))
            (Vec.add (LastPreAdditiveVelocity g)
                     (TTranslation (RootMotionTransform (RootMotionParams s)))) = true.

(** Two pointers agree in validity and, when valid, in the concrete type,
    the configuration, the status flags and the elapsed time. *)
Definition SameConfigurationAndState (a b : TSharedPtr) : Prop :=
  match a, b with
  | None, None => True
  | Some x, Some y =>
      Derived x = Derived y
      /\ Priority x = Priority y
      /\ AccumulateMode x = AccumulateMode y
      /\ InstanceName x = InstanceName y
      /\ Duration x = Duration y
      /\ bInLocalSpace x = bInLocalSpace y
      /\ Status x = Status y
      /\ CurrentTime x = CurrentTime y
  | _, _ => False
  end.

(** Giving the sources of a group other local IDs, by position. *)
Fixpoint Relabel (ids : nat -> Z) (i : nat) (l : list TSharedPtr) : list TSharedPtr :=
  match l with
  | [] => []
  | p :: rest => option_map (set_LocalID (ids i)) p :: Relabel ids (S i) rest
  end.

Definition RelabelGroup (ids idsPending : nat -> Z) (g : FBaseRootMotionSourceGroup)
  : FBaseRootMotionSourceGroup :=
  MkGroup (Relabel ids 0 (RootMotionSources g))
    (Relabel idsPending 0 (PendingAddRootMotionSources g))
    (bHasAdditiveSources g) (bHasOverrideSources g)
    (bHasOverrideSourcesWithIgnoreZAccumulate g) (bIsAdditiveVelocityApplied g)
    (LastPreAdditiveVelocity g) (LastAccumulatedSettings g).

(** An additive source for the examples: flagged Finished, with the given
    prepared contribution and finish-velocity settings. *)
Definition DemoAdditiveSource (contribution : FVector)
    (finish : FBaseRootMotionFinishVelocitySettings) : FBaseRootMotionSource :=
  MkSource 0 1 AccumulateMode_Additive NAME_None RootMotionSource_InvalidStartTime 1 1 1
    (Status.SetFlag (Status.SetFlag 0 Prepared) Finished)
    (Settings.SetFlag 0 DisablePartialEndTick) false false false
    (Params.Set_ (Transform.ofTranslation contribution) Params.Default) finish
    (VConstantForce (ConstantForce.Mk contribution None)).

Definition DemoAdditiveGroup (s : FBaseRootMotionSource) : FBaseRootMotionSourceGroup :=
  MkGroup [Some s] [] true false false true (MkVector 10 0 0)
    (Settings.SetFlag 0 DisablePartialEndTick).

(** Descending priority, the order the group keeps its valid sources in. *)
Definition PriorityOf (p : TSharedPtr) : Z :=
  match p with Some s => Priority s | None => 0%Z end.

Definition Descending (a b : TSharedPtr) : Prop := (PriorityOf b <= PriorityOf a)%Z.

Definition AllValid (l : list TSharedPtr) : Prop := Forall (fun p => IsValid p = true) l.

(** The conditions of the specification for a buffered move to be usable:
    received at most half a second ago, its montage the one the client
    plays, both positions in the same section, no wrap of a looping section
    by more than half its length, and the move's position not ahead of the
    client's in the direction of play. *)
Definition UsableMove (W : MontageWorld) (m : FBaseSimulatedRootMotionReplicatedMove)
    (inst : FAnimMontageInstance) : Prop :=
  TimeSince W (Time m) <= 1 # 2
  /\ exists montage : UObjectRef,
       AnimMontage (RootMotion m) = Some montage
       /\ Montage inst = Some montage
       /\ let section := GetSectionIndexFromPosition W montage (GetPosition inst) in
          section <> INDEX_NONE
          /\ GetSectionIndexFromPosition W montage (Position (RootMotion m)) = section
          /\ ~ (GetNextSectionID inst section = section
                /\ GetSectionLength W montage section / 2
                   < Qabs (GetPosition inst - Position (RootMotion m)))
          /\ 0 <= (GetPosition inst - Position (RootMotion m)) * GetPlayRate inst.

(** The items a writer produces for a source. *)
Definition EncodeSource (s : FBaseRootMotionSource) : list WireItem :=
  ArData (snd (NetSerialize s NewWriter)).

(** What reading the items of [s] into an instance [t] of the same type
    leaves in [t]: the members [NetSerialize] names come from [s], the others
    stay as they are in [t]. *)
Definition ReceivedDerived (s t : Variant) : Variant :=
  match s, t with
  | VJumpForce x, VJumpForce y =>
      VJumpForce
        (JumpForce.Mk (JumpForce.Rotation x) (JumpForce.Distance x) (JumpForce.Height x)
           (JumpForce.bDisableTimeout x) (JumpForce.PathOffsetCurve x)
           (JumpForce.TimeMappingCurve x) (JumpForce.SavedHalfwayLocation y))
  | _, _ => s
  end.

Definition Received (s t : FBaseRootMotionSource) : FBaseRootMotionSource :=
  MkSource (Priority s) (LocalID s) (AccumulateMode s) (InstanceName s) (StartTime t)
    (CurrentTime s) (PreviousTime t) (Duration s) (Status s) (Settings t) (bInLocalSpace s)
    (bNeedsSimulatedCatchup t) (bSimulatedNeedsSmoothing t) (RootMotionParams t)
    (FinishVelocityParams t) (ReceivedDerived (Derived s) (Derived t)).

(** Writing a source and reading the items into a default-constructed
    instance of its type. *)
Definition RoundTrip (s : FBaseRootMotionSource)
  : option (FBaseRootMotionSource * bool * FArchive) :=
  match InitializeStruct (GetScriptStruct s) with
  | Some t0 => Some (NetSerialize t0 (NewReader (EncodeSource s)))
  | None => None
  end.

(** "The round trip reproduces every field except status flags." *)
Definition Stated_RoundTripReproducesFields : Prop :=
  forall s : FBaseRootMotionSource,
    match RoundTrip s with
    | Some (r, _, _) => set_Status 0 r = set_Status 0 s
    | None => False
    end.

(** The parts of what [Group_NetSerialize] returns. *)
Definition Result_Ar (r : FArchive * FBaseRootMotionSourceGroup * bool * bool) : FArchive :=
  fst (fst (fst r)).
Definition Result_Group (r : FArchive * FBaseRootMotionSourceGroup * bool * bool)
  : FBaseRootMotionSourceGroup := snd (fst (fst r)).
Definition Result_Return (r : FArchive * FBaseRootMotionSourceGroup * bool * bool) : bool :=
  snd r.

(** The items of a group message before the two arrays. *)
Definition EncodeHeader (bAdditive bOverride bOverrideIgnoreZ : bool) (LastPre : FVector)
    (bApplied : bool) (SettingsFlags : Z) : list WireItem :=
  [WBool bAdditive; WBool bOverride; WBool bOverrideIgnoreZ; WVector LastPre;
   WBool bApplied; WUInt8 SettingsFlags].

(** The items of one array element: the type tag, then the source. *)
Definition EncodeEntry (s : FBaseRootMotionSource) : list WireItem :=
  WTag (TagStruct (GetScriptStruct s)) :: EncodeSource s.







(** A world, a buffer and a montage instance for the examples: one montage
    section of length 10 that does not loop, the clock at 1 second; the
    buffer holds, from oldest to newest, a move received too long ago, a
    usable move, and a move of another montage. *)
Definition DemoWorld : MontageWorld := MkMontageWorld (fun _ _ => 0%Z) (fun _ _ => 10) 1.

Definition DemoInstance : FAnimMontageInstance :=
  MkMontageInstance (Some 1%nat) 2 1 (fun _ => INDEX_NONE).

Definition DemoMoves : list FBaseSimulatedRootMotionReplicatedMove :=
  [MkRepMove 0 (MkRepRootMotion true (Some 1%nat) 0);
   MkRepMove (8 # 10) (MkRepRootMotion true (Some 1%nat) 1);
   MkRepMove (9 # 10) (MkRepRootMotion true (Some 2%nat) 1)].


(* ===================================================================== *)
(** ** The other operations of the source group *)
(* ===================================================================== *)

(** The group functions below write through the shared pointers of the two
    arrays.  The entries are taken to own distinct objects (the group's deep
    copy makes them so): a write through one entry is not seen through
    another, and the two groups of [Group_UpdateStateFrom] are different
    objects. *)

(** [FBaseRootMotionSourceStatus::Clear] and
    [FBaseRootMotionSourceSettings::Clear] *)
Definition ClearFlags (flags : Z) : Z := 0%Z.

(** [FBaseRootMotionServerToLocalIDMapping] *)
Record FBaseRootMotionServerToLocalIDMapping : Type := MkMapping {
  Mapping_ServerID : Z;
  Mapping_LocalID : Z;
  Mapping_TimeStamp : Q
}.

Definition New_Mapping : FBaseRootMotionServerToLocalIDMapping := MkMapping 0 0 0.

Definition IsStillValid (m : FBaseRootMotionServerToLocalIDMapping) (CurrentTimeStamp : Q)
  : bool :=
  let MappingValidityDuration := 3 in
  Qle_bool (CurrentTimeStamp - MappingValidityDuration) (Mapping_TimeStamp m).

(** [Clone]: every child copy-constructs itself. *)
Definition Clone (s : FBaseRootMotionSource) : FBaseRootMotionSource := s.

(** *** Queries *)

Definition HasActiveRootMotionSources (g : FBaseRootMotionSourceGroup) : bool :=
  (0 <? List.length (RootMotionSources g))%nat
  || (0 <? List.length (PendingAddRootMotionSources g))%nat.

Definition HasOverrideVelocity (g : FBaseRootMotionSourceGroup) : bool :=
  bHasOverrideSources g.

Definition HasOverrideVelocityWithIgnoreZAccumulate (g : FBaseRootMotionSourceGroup) : bool :=
  bHasOverrideSourcesWithIgnoreZAccumulate g.

Definition HasAdditiveVelocity (g : FBaseRootMotionSourceGroup) : bool :=
  bHasAdditiveSources g.

Definition HasVelocity (g : FBaseRootMotionSourceGroup) : bool :=
  HasOverrideVelocity g || HasAdditiveVelocity g.

Definition HasRootMotionToApply (g : FBaseRootMotionSourceGroup) : bool :=
  HasActiveRootMotionSources g.

(** [FQuat::Equals] and [FQuat::IsIdentity] with its default tolerance. *)
Definition Quat_Equals (a b : FQuat) (Tolerance : Q) : bool :=
  (Qle_bool (Qabs (QX a - QX b)) Tolerance && Qle_bool (Qabs (QY a - QY b)) Tolerance
   && Qle_bool (Qabs (QZ a - QZ b)) Tolerance && Qle_bool (Qabs (QW a - QW b)) Tolerance)
  || (Qle_bool (Qabs (QX a + QX b)) Tolerance && Qle_bool (Qabs (QY a + QY b)) Tolerance
      && Qle_bool (Qabs (QZ a + QZ b)) Tolerance && Qle_bool (Qabs (QW a + QW b)) Tolerance).

Definition Quat_IsIdentity (q : FQuat) : bool := Quat_Equals q Quat.Identity UE_SMALL_NUMBER.

(** [GetOverrideRootMotionRotation]: [OutRotation] afterwards and the value
    returned. *)
Fixpoint GetOverrideRootMotionRotation_loop (l : list TSharedPtr) (OutRotation : FQuat)
  : FQuat * bool :=
  match l with
  | [] => (OutRotation, false)
  | None :: rest => GetOverrideRootMotionRotation_loop rest OutRotation
  | Some s :: rest =>
      if (AccumulateMode s =? AccumulateMode_Override)%Z then
        let OutRotation := TRotation (RootMotionTransform (RootMotionParams s)) in
        (OutRotation, negb (Quat_IsIdentity OutRotation))
      else GetOverrideRootMotionRotation_loop rest OutRotation
  end.

Definition GetOverrideRootMotionRotation (g : FBaseRootMotionSourceGroup)
    (OutRotation : FQuat) : FQuat * bool :=
  GetOverrideRootMotionRotation_loop (RootMotionSources g) OutRotation.

Fixpoint NeedsSimulatedSmoothing_loop (l : list TSharedPtr) : bool :=
  match l with
  | [] => false
  | None :: rest => NeedsSimulatedSmoothing_loop rest
  | Some s :: rest =>
      if bSimulatedNeedsSmoothing s then true else NeedsSimulatedSmoothing_loop rest
  end.

Definition NeedsSimulatedSmoothing (g : FBaseRootMotionSourceGroup) : bool :=
  NeedsSimulatedSmoothing_loop (RootMotionSources g).

(** *** Start times *)

Definition set_Sources (active pending : list TSharedPtr) (g : FBaseRootMotionSourceGroup)
  : FBaseRootMotionSourceGroup :=
  MkGroup active pending (bHasAdditiveSources g) (bHasOverrideSources g)
    (bHasOverrideSourcesWithIgnoreZAccumulate g) (bIsAdditiveVelocityApplied g)
    (LastPreAdditiveVelocity g) (LastAccumulatedSettings g).

(** The body of the loop of [SetPendingRootMotionSourceMinStartTimes]. *)
Definition SetMinStartTime (NewStartTime : Q) (p : TSharedPtr) : TSharedPtr :=
  match p with
  | Some s =>
      let PreviousStartTime := StartTime s in
      Some (set_StartTime (FMath.Max PreviousStartTime NewStartTime) s)
  | None => None
  end.

Definition SetPendingRootMotionSourceMinStartTimes (NewStartTime : Q)
    (g : FBaseRootMotionSourceGroup) : FBaseRootMotionSourceGroup :=
  set_Sources (RootMotionSources g)
    (map (SetMinStartTime NewStartTime) (PendingAddRootMotionSources g)) g.

(** The body of both loops of [ApplyTimeStampReset]. *)
Definition ResetStartTime (DeltaTime : Q) (p : TSharedPtr) : TSharedPtr :=
  match p with
  | Some s =>
      if IsStartTimeValid s then Some (set_StartTime (StartTime s - DeltaTime) s)
      else Some s
  | None => None
  end.

Definition ApplyTimeStampReset (DeltaTime : Q) (g : FBaseRootMotionSourceGroup)
  : Checked FBaseRootMotionSourceGroup :=
  checkf (Qltb RootMotionSource_InvalidStartTime (- DeltaTime)) ;;;
  ret (set_Sources (map (ResetStartTime DeltaTime) (RootMotionSources g))
         (map (ResetStartTime DeltaTime) (PendingAddRootMotionSources g)) g).

(** *** Lookup and removal *)

(** The loop the lookups share: the first valid source that passes the test. *)
Fixpoint FindSource (test : FBaseRootMotionSource -> bool) (l : list TSharedPtr)
  : TSharedPtr :=
  match l with
  | [] => None
  | None :: rest => FindSource test rest
  | Some s :: rest => if test s then Some s else FindSource test rest
  end.

Definition GetRootMotionSource (InstanceName' : string) (g : FBaseRootMotionSourceGroup)
  : TSharedPtr :=
  match FindSource (fun s => String.eqb (InstanceName s) InstanceName')
                   (RootMotionSources g) with
  | Some s => Some s
  | None => FindSource (fun s => String.eqb (InstanceName s) InstanceName')
                       (PendingAddRootMotionSources g)
  end.

Definition GetRootMotionSourceByID (RootMotionSourceID : Z) (g : FBaseRootMotionSourceGroup)
  : TSharedPtr :=
  match FindSource (fun s => (LocalID s =? RootMotionSourceID)%Z) (RootMotionSources g) with
  | Some s => Some s
  | None => FindSource (fun s => (LocalID s =? RootMotionSourceID)%Z)
                       (PendingAddRootMotionSources g)
  end.

(** The body of the loops of the two removals: the sources that pass the
    test are flagged, nothing is taken out of the arrays. *)
Definition MarkForRemoval (test : FBaseRootMotionSource -> bool) (p : TSharedPtr)
  : TSharedPtr :=
  match p with
  | Some s =>
      if test s then Some (set_Status (Status.SetFlag (Status s) MarkedForRemoval) s)
      else Some s
  | None => None
  end.

Definition RemoveRootMotionSource (InstanceName' : string) (g : FBaseRootMotionSourceGroup)
  : FBaseRootMotionSourceGroup :=
  if negb (String.eqb InstanceName' NAME_None) then
    let test := fun s => String.eqb (InstanceName s) InstanceName' in
    set_Sources (map (MarkForRemoval test) (RootMotionSources g))
      (map (MarkForRemoval test) (PendingAddRootMotionSources g)) g
  else g.

Definition RemoveRootMotionSourceByID (RootMotionSourceID : Z)
    (g : FBaseRootMotionSourceGroup) : FBaseRootMotionSourceGroup :=
  if negb (RootMotionSourceID =? RootMotionSourceID_Invalid)%Z then
    let test := fun s => (LocalID s =? RootMotionSourceID)%Z in
    set_Sources (map (MarkForRemoval test) (RootMotionSources g))
      (map (MarkForRemoval test) (PendingAddRootMotionSources g)) g
  else g.

(** *** UpdateStateFrom of the group *)

(** The predicate of [PendingAddRootMotionSources.RemoveAll]: a pending
    source whose local ID is that of a valid active source of the other
    group is taken out of the pending array (after the predicate has added
    it to the active one). *)
Definition IsActiveInOther (TakeFrom : list TSharedPtr) (RootSource : TSharedPtr) : bool :=
  match RootSource with
  | Some s =>
      if negb (LocalID s =? RootMotionSourceID_Invalid)%Z then
        existsb (fun t => match t with
                          | Some ts => (LocalID s =? LocalID ts)%Z
                          | None => false
                          end) TakeFrom
      else false
  | None => false
  end.

(** The body of the inner loop for one source of this group.  The branch of
    the failed [ensureMsgf] only logs and goes on with the next source. *)
Definition UpdateSourceFrom (TakeFromRootMotionSource : FBaseRootMotionSource)
    (bMarkForSimulatedCatchup : bool) (p : TSharedPtr) : Checked TSharedPtr :=
  match p with
  | Some s =>
      if (LocalID s =? LocalID TakeFromRootMotionSource)%Z then
        if negb (Matches s (Some TakeFromRootMotionSource)) then ret (Some s)
        else
          r <- UpdateStateFrom s (Some TakeFromRootMotionSource) bMarkForSimulatedCatchup ;;
          let bSuccess := snd r in
          if bSuccess
          then ret (Some (set_Status (Status.UnSetFlag (Status (fst r)) Prepared) (fst r)))
          else ret (Some (set_Status (Status.SetFlag (Status (fst r)) MarkedForRemoval)
                            (fst r)))
      else ret (Some s)
  | None => ret None
  end.

(** The inner loop, over the active sources of this group. *)
Fixpoint UpdateSourcesFrom (TakeFromRootMotionSource : FBaseRootMotionSource)
    (bMarkForSimulatedCatchup : bool) (l : list TSharedPtr) : Checked (list TSharedPtr) :=
  match l with
  | [] => ret []
  | p :: rest =>
      p' <- UpdateSourceFrom TakeFromRootMotionSource bMarkForSimulatedCatchup p ;;
      rest' <- UpdateSourcesFrom TakeFromRootMotionSource bMarkForSimulatedCatchup rest ;;
      ret (p' :: rest')
  end.

(** The outer loop, over the active sources of the other group. *)
Fixpoint UpdateFromEach (TakeFrom : list TSharedPtr) (bMarkForSimulatedCatchup : bool)
    (l : list TSharedPtr) : Checked (list TSharedPtr) :=
  match TakeFrom with
  | [] => ret l
  | None :: rest => UpdateFromEach rest bMarkForSimulatedCatchup l
  | Some t :: rest =>
      if negb (LocalID t =? RootMotionSourceID_Invalid)%Z then
        l' <- UpdateSourcesFrom t bMarkForSimulatedCatchup l ;;
        UpdateFromEach rest bMarkForSimulatedCatchup l'
      else UpdateFromEach rest bMarkForSimulatedCatchup l
  end.

Definition Group_UpdateStateFrom (g GroupToTakeStateFrom : FBaseRootMotionSourceGroup)
    (bMarkForSimulatedCatchup : bool) : Checked FBaseRootMotionSourceGroup :=
  let TakeFrom := RootMotionSources GroupToTakeStateFrom in
  let active :=
    RootMotionSources g ++ filter (IsActiveInOther TakeFrom) (PendingAddRootMotionSources g) in
  let pending :=
    filter (fun p => negb (IsActiveInOther TakeFrom p)) (PendingAddRootMotionSources g) in
  active <- UpdateFromEach TakeFrom bMarkForSimulatedCatchup active ;;
  ret (MkGroup active pending (bHasAdditiveSources g) (bHasOverrideSources g)
         (bHasOverrideSourcesWithIgnoreZAccumulate g)
         (bIsAdditiveVelocityApplied GroupToTakeStateFrom)
         (LastPreAdditiveVelocity GroupToTakeStateFrom) (LastAccumulatedSettings g)).

(** *** Culling, clearing and copying *)

Definition IsCulled (RootSource : TSharedPtr) : bool :=
  match RootSource with
  | Some s => if negb (LocalID s =? RootMotionSourceID_Invalid)%Z then false else true
  | None => true
  end.

Definition CullInvalidSources (g : FBaseRootMotionSourceGroup) : FBaseRootMotionSourceGroup :=
  set_Sources (filter (fun p => negb (IsCulled p)) (RootMotionSources g))
    (PendingAddRootMotionSources g) g.

(** [Clear]; the last pre-additive velocity is not among the members it
    resets. *)
Definition Group_Clear (g : FBaseRootMotionSourceGroup) : FBaseRootMotionSourceGroup :=
  MkGroup [] [] false false false false (LastPreAdditiveVelocity g)
    (ClearFlags (LastAccumulatedSettings g)).

(** The deep copy of one array in [operator=]: the valid sources are cloned,
    an invalid pointer is logged and left out. *)
Fixpoint CloneSources (l : list TSharedPtr) : list TSharedPtr :=
  match l with
  | [] => []
  | Some s :: rest => Some (Clone s) :: CloneSources rest
  | None :: rest => CloneSources rest
  end.

(** [operator=] from another group object. *)
Definition Group_assign (Other : FBaseRootMotionSourceGroup) : FBaseRootMotionSourceGroup :=
  MkGroup (CloneSources (RootMotionSources Other))
    (CloneSources (PendingAddRootMotionSources Other))
    (bHasAdditiveSources Other) (bHasOverrideSources Other)
    (bHasOverrideSourcesWithIgnoreZAccumulate Other) (bIsAdditiveVelocityApplied Other)
    (LastPreAdditiveVelocity Other) (LastAccumulatedSettings Other).

(** [operator!=] *)
Definition Group_neq (g Other : FBaseRootMotionSourceGroup) : bool := negb (Group_eq g Other).

(* ===================================================================== *)
(** ** Notions used in the statements about the group *)
(* ===================================================================== *)

(** Equality of vectors coordinate by coordinate, as rationals. *)
Definition VecEq (a b : FVector) : Prop :=
  VX a == VX b /\ VY a == VY b /\ VZ a == VZ b.

(** A valid pointer to a source in Override mode, in Additive mode, and in
    Override mode with the setting that ignores Z. *)
Definition IsOverrideSource (p : TSharedPtr) : bool :=
  match p with
  | Some s => (AccumulateMode s =? AccumulateMode_Override)%Z
  | None => false
  end.

Definition IsAdditiveSource (p : TSharedPtr) : bool :=
  match p with
  | Some s => (AccumulateMode s =? AccumulateMode_Additive)%Z
  | None => false
  end.

Definition IsOverrideIgnoringZ (p : TSharedPtr) : bool :=
  match p with
  | Some s => (AccumulateMode s =? AccumulateMode_Override)%Z
              && Settings.HasFlag (Settings s) IgnoreZAccumulate
  | None => false
  end.

(** A valid pointer whose source the group's [PrepareRootMotion] prepares:
    not yet flagged Prepared, or every source when all are forced. *)
Definition IsPreparedByCall (bForcePrepareAll : bool) (p : TSharedPtr) : bool :=
  match p with
  | Some s => negb (Status.HasFlag (Status s) Prepared) || bForcePrepareAll
  | None => false
  end.

(** The stored contribution of a source has no rotation. *)
Definition PureTranslation (s : FBaseRootMotionSource) : Prop :=
  TRotation (RootMotionTransform (RootMotionParams s)) = Quat.Identity.

(** The stored contribution of a source. *)
Definition Contribution (s : FBaseRootMotionSource) : FVector :=
  TTranslation (RootMotionTransform (RootMotionParams s)).

(** A valid pointer whose source has the settings flags of a mask, and one
    whose source asks for simulated smoothing. *)
Definition HasSettingsFlag (c : Z) (p : TSharedPtr) : bool :=
  match p with
  | Some s => Flags.HasFlag (Settings s) c
  | None => false
  end.

Definition AsksForSmoothing (p : TSharedPtr) : bool :=
  match p with
  | Some s => bSimulatedNeedsSmoothing s
  | None => false
  end.

(** The status byte after the clock of [s] has been set to [t]. *)
Definition StatusAtTime (s : FBaseRootMotionSource) (t : Q) : Z :=
  if IsTimeOutEnabled s then
    if Qle_bool (Duration s) t then Status.SetFlag (Status s) Finished
    else Status.UnSetFlag (Status s) Finished
  else Status s.

(** What a valid source in Additive mode adds to a velocity: its
    contribution in world space, without the Z part when it ignores Z. *)
Definition AdditiveContribution (MoveComponent : UBaseCharacterMovementComponent)
    (p : TSharedPtr) : FVector :=
  match p with
  | Some s =>
      if (AccumulateMode s =? AccumulateMode_Additive)%Z then
        if Settings.HasFlag (Settings s) IgnoreZAccumulate
        then Vec.setZ (WorldContribution MoveComponent s) 0
        else WorldContribution MoveComponent s
      else Vec.Zero
  | None => Vec.Zero
  end.

Fixpoint SumOfContributions (MoveComponent : UBaseCharacterMovementComponent)
    (l : list TSharedPtr) : FVector :=
  match l with
  | [] => Vec.Zero
  | p :: rest =>
      Vec.add (AdditiveContribution MoveComponent p) (SumOfContributions MoveComponent rest)
  end.

(** A valid source of the other group, with a valid local ID, that carries
    the local ID of [s]: the sources [Group_UpdateStateFrom] looks at for
    [s]. *)
Definition HasPartnerIn (TakeFrom : list TSharedPtr) (s : FBaseRootMotionSource) : bool :=
  existsb (fun t => match t with
                    | Some ts => negb (LocalID ts =? RootMotionSourceID_Invalid)%Z
                                 && (LocalID s =? LocalID ts)%Z
                    | None => false
                    end) TakeFrom.

(** What [Group_UpdateStateFrom] may do to one entry of the active array:
    the local ID stays; a source without partner is left as it is; a source
    that is changed is no longer flagged Prepared. *)
Definition UpdatedEntry (TakeFrom : list TSharedPtr) (p p' : TSharedPtr) : Prop :=
  match p, p' with
  | Some s, Some s' =>
      LocalID s' = LocalID s
      /\ (HasPartnerIn TakeFrom s = false -> s' = s)
      /\ (s' = s \/ Status.HasFlag (Status s') Prepared = false)
  | None, None => True
  | _, _ => False
  end.

(** What a removal by flag may do to an entry: leave it as it is, or set its
    MarkedForRemoval flag and nothing else. *)
Definition RemovalKeeps (p p' : TSharedPtr) : Prop :=
  match p, p' with
  | Some s, Some s' =>
      s' = s \/ s' = set_Status (Status.SetFlag (Status s) MarkedForRemoval) s
  | None, None => True
  | _, _ => False
  end.

(* ===================================================================== *)
(** ** Jumping and the replicated-move buffer (BaseCharacter.cpp) *)
(* ===================================================================== *)

(** The members of [ABaseCharacter] that the jump functions read and
    write. *)
Record ABaseCharacter_Jump : Type := MkJump {
  bPressedJump : bool;
  bWasJumping : bool;
  JumpKeyHoldTime : Q;
  JumpForceTimeRemaining : Q;
  JumpCurrentCount : Z;
  JumpCurrentCountPreJump : Z;
  JumpMaxCount : Z;
  JumpMaxHoldTime : Q;
  bIsCrouched : bool;
  bProxyIsJumpForceApplied : bool;
  ProxyJumpForceStartedTime : Q
}.

(** What the jump functions ask of the movement component. *)
Record JumpMovement : Type := MkJumpMovement {
  CanAttemptJump : bool;
  IsFalling : bool
}.

Definition GetJumpMaxHoldTime (c : ABaseCharacter_Jump) : Q := JumpMaxHoldTime c.

Definition JumpIsAllowedInternal (CharacterMovement : JumpMovement) (c : ABaseCharacter_Jump)
  : bool :=
  let bJumpIsAllowed := CanAttemptJump CharacterMovement in
  if bJumpIsAllowed then
    if negb (bWasJumping c) || Qle_bool (GetJumpMaxHoldTime c) 0 then
      if (JumpCurrentCount c =? 0)%Z && IsFalling CharacterMovement
      then (JumpCurrentCount c + 1 <? JumpMaxCount c)%Z
      else (JumpCurrentCount c <? JumpMaxCount c)%Z
    else
      let bJumpKeyHeld :=
        bPressedJump c && Qltb (JumpKeyHoldTime c) (GetJumpMaxHoldTime c) in
      bJumpKeyHeld
      && ((JumpCurrentCount c <? JumpMaxCount c)%Z
          || (bWasJumping c && (JumpCurrentCount c =? JumpMaxCount c)%Z))
  else bJumpIsAllowed.

Definition CanJumpInternal_Implementation (CharacterMovement : JumpMovement)
    (c : ABaseCharacter_Jump) : bool :=
  negb (bIsCrouched c) && JumpIsAllowedInternal CharacterMovement c.

(** [ResetJumpState]; the movement component may be null. *)
Definition ResetJumpState (CharacterMovement : option JumpMovement) (c : ABaseCharacter_Jump)
  : ABaseCharacter_Jump :=
  let onGround :=
    match CharacterMovement with
    | Some m => negb (IsFalling m)
    | None => false
    end in
  MkJump false false 0 0
    (if onGround then 0%Z else JumpCurrentCount c)
    (if onGround then 0%Z else JumpCurrentCountPreJump c)
    (JumpMaxCount c) (JumpMaxHoldTime c) (bIsCrouched c)
    (bProxyIsJumpForceApplied c) (ProxyJumpForceStartedTime c).

Definition Jump (c : ABaseCharacter_Jump) : ABaseCharacter_Jump :=
  MkJump true (bWasJumping c) 0 (JumpForceTimeRemaining c) (JumpCurrentCount c)
    (JumpCurrentCountPreJump c) (JumpMaxCount c) (JumpMaxHoldTime c) (bIsCrouched c)
    (bProxyIsJumpForceApplied c) (ProxyJumpForceStartedTime c).

Definition StopJumping (CharacterMovement : option JumpMovement) (c : ABaseCharacter_Jump)
  : ABaseCharacter_Jump :=
  let c :=
    MkJump false (bWasJumping c) (JumpKeyHoldTime c) (JumpForceTimeRemaining c)
      (JumpCurrentCount c) (JumpCurrentCountPreJump c) (JumpMaxCount c) (JumpMaxHoldTime c)
      (bIsCrouched c) (bProxyIsJumpForceApplied c) (ProxyJumpForceStartedTime c) in
  ResetJumpState CharacterMovement c.

Definition ClearJumpInput (DeltaTime : Q) (c : ABaseCharacter_Jump) : ABaseCharacter_Jump :=
  if bPressedJump c then
    let JumpKeyHoldTime' := JumpKeyHoldTime c + DeltaTime in
    MkJump (if Qle_bool (GetJumpMaxHoldTime c) JumpKeyHoldTime' then false else true)
      (bWasJumping c) JumpKeyHoldTime' (JumpForceTimeRemaining c) (JumpCurrentCount c)
      (JumpCurrentCountPreJump c) (JumpMaxCount c) (JumpMaxHoldTime c) (bIsCrouched c)
      (bProxyIsJumpForceApplied c) (ProxyJumpForceStartedTime c)
  else
    MkJump (bPressedJump c) false (JumpKeyHoldTime c) 0 (JumpCurrentCount c)
      (JumpCurrentCountPreJump c) (JumpMaxCount c) (JumpMaxHoldTime c) (bIsCrouched c)
      (bProxyIsJumpForceApplied c) (ProxyJumpForceStartedTime c).

(** [IsJumpProvidingForce], with the local role and the world's clock. *)
Definition IsJumpProvidingForce (W : MontageWorld) (Role : ENetRole) (c : ABaseCharacter_Jump)
  : bool :=
  if Qltb 0 (JumpForceTimeRemaining c) then true
  else if bProxyIsJumpForceApplied c
          && match Role with ROLE_SimulatedProxy => true | _ => false end
  then Qle_bool (TimeSince W (ProxyJumpForceStartedTime c)) (GetJumpMaxHoldTime c)
  else false.

(** The members [OnRep_RootMotion] works on: the replicated root motion, the
    buffer of received moves, and the movement component's
    [bNetworkUpdateReceived] (the component may be null). *)
Record RootMotionReplication : Type := MkReplication {
  RepRootMotion : FRepRootMotionMontage;
  RootMotionRepMoves : list FBaseSimulatedRootMotionReplicatedMove;
  bNetworkUpdateReceived : option bool
}.

Definition OnRep_RootMotion (W : MontageWorld) (IsReplicatingMovement : bool)
    (Role : ENetRole) (st : RootMotionReplication) : RootMotionReplication :=
  if negb IsReplicatingMovement then st
  else
    match Role with
    | ROLE_SimulatedProxy =>
        let moves :=
          if bIsActive (RepRootMotion st)
          then RootMotionRepMoves st ++ [MkRepMove (TimeSeconds W) (RepRootMotion st)]
          else [] in
        MkReplication (RepRootMotion st) moves
          (match bNetworkUpdateReceived st with
           | Some _ => Some true
           | None => None
           end)
    | _ => st
    end.

(** [RootMotionRepMoves[MoveIndex]]: the array checks the index. *)
Definition RepMoveAt (RootMotionRepMoves : list FBaseSimulatedRootMotionReplicatedMove)
    (MoveIndex : Z) : option FBaseSimulatedRootMotionReplicatedMove :=
  if (0 <=? MoveIndex)%Z then nth_error RootMotionRepMoves (Z.to_nat MoveIndex) else None.

(** [SimulatedRootMotionPositionFixup], as far as the buffer and the check
    on the time step go: the buffer afterwards, and whether the checks
    passed.  [RestoreReplicatedMove] is the answer of that call for a move;
    moving the actor, simulating the root motion and smoothing the
    correction touch neither the buffer nor the montage instance.  The flag
    tells whether the movement component and the mesh are there. *)
Definition SimulatedRootMotionPositionFixup (W : MontageWorld)
    (RestoreReplicatedMove : FBaseSimulatedRootMotionReplicatedMove -> bool)
    (ClientMontageInstance : option FAnimMontageInstance) (bMovementAndMesh : bool)
    (RootMotionRepMoves : list FBaseSimulatedRootMotionReplicatedMove)
  : Checked (list FBaseSimulatedRootMotionReplicatedMove) :=
  match ClientMontageInstance with
  | Some inst =>
      if bMovementAndMesh then
        let MoveIndex := FindRootMotionRepMove W RootMotionRepMoves inst in
        if negb (MoveIndex =? INDEX_NONE)%Z then
          match RepMoveAt RootMotionRepMoves MoveIndex with
          | Some RootMotionRepMove =>
              (if RestoreReplicatedMove RootMotionRepMove then
                 let ServerPosition := Position (RootMotion RootMotionRepMove) in
                 let ClientPosition := GetPosition inst in
                 let DeltaPosition := ClientPosition - ServerPosition in
                 if Qltb UE_KINDA_SMALL_NUMBER (FMath.Abs DeltaPosition) then
                   let MontagePlayRate := GetPlayRate inst in
                   if negb (FMath.IsNearlyZero MontagePlayRate UE_SMALL_NUMBER) then
                     let DeltaTime := DeltaPosition / MontagePlayRate in
                     checkf (Qltb 0 DeltaTime)
                   else ret tt
                 else ret tt
               else ret tt) ;;;
              ret (skipn (Z.to_nat (MoveIndex + 1)) RootMotionRepMoves)
          | None => MkChecked RootMotionRepMoves false
          end
        else ret RootMotionRepMoves
      else ret RootMotionRepMoves
  | None => ret RootMotionRepMoves
  end.

(* ===================================================================== *)
(** ** Messages of a whole group *)
(* ===================================================================== *)

(** The items of one array element that may be null: a null tag and nothing
    else for a null entry. *)
Definition EncodePtr (p : TSharedPtr) : list WireItem :=
  match p with
  | Some s => EncodeEntry s
  | None => [WTag TagNull]
  end.

Definition EncodePtrs (l : list TSharedPtr) : list WireItem :=
  List.concat (map EncodePtr l).

(** An array as a writer sends it under a budget: the count, then the first
    [count] elements. *)
Definition EncodeArray (l : list TSharedPtr) (budget : Z) : list WireItem :=
  let n := Z.min (Z.of_nat (List.length l)) budget in
  WUInt8 n :: EncodePtrs (firstn (Z.to_nat n) l).

(** What is left of the budget for the sources waiting to be added. *)
Definition PendingBudget (g : FBaseRootMotionSourceGroup) (max : Z) : Z :=
  (max - Z.min (Z.of_nat (List.length (RootMotionSources g))) max)%Z.

Definition EncodeGroup (g : FBaseRootMotionSourceGroup) (max : Z) : list WireItem :=
  EncodeHeader (bHasAdditiveSources g) (bHasOverrideSources g)
    (bHasOverrideSourcesWithIgnoreZAccumulate g) (LastPreAdditiveVelocity g)
    (bIsAdditiveVelocityApplied g) (LastAccumulatedSettings g)
  ++ EncodeArray (RootMotionSources g) max
  ++ EncodeArray (PendingAddRootMotionSources g) (PendingBudget g max).

(** A source as it arrives in an element the reader had to allocate: the
    members sent, in a default-constructed instance of the type. *)
Definition ReceivedFresh (s : FBaseRootMotionSource) : FBaseRootMotionSource :=
  match InitializeStruct (GetScriptStruct s) with
  | Some t0 => Received s t0
  | None => s
  end.

(* ===================================================================== *)
(** * Properties *)
(* ===================================================================== *)

(** ** Comparisons and the clamp *)

Lemma Qle_bool_spec (a b : Q) : BoolSpec (a <= b) (b < a) (Qle_bool a b).
Proof.
  destruct (Qle_bool a b) eqn:H; constructor.
  - now apply Qle_bool_iff.
  - apply Qnot_le_lt. intro H'. apply Qle_bool_iff in H'. congruence.
Qed.

Lemma Qltb_spec (a b : Q) : BoolSpec (a < b) (b <= a) (Qltb a b).
Proof.
  unfold Qltb. destruct (Qle_bool_spec b a); constructor; assumption.
Qed.

Lemma Max_spec (a b : Q) : (b < a /\ FMath.Max a b = a) \/ (a <= b /\ FMath.Max a b = b).
Proof. unfold FMath.Max. destruct (Qltb_spec b a); [left | right]; split; auto. Qed.

Lemma Min_spec (a b : Q) : (a < b /\ FMath.Min a b = a) \/ (b <= a /\ FMath.Min a b = b).
Proof. unfold FMath.Min. destruct (Qltb_spec a b); [left | right]; split; auto. Qed.

Lemma Max_ge_r (a b : Q) : b <= FMath.Max a b.
Proof. destruct (Max_spec a b) as [[H ->] | [H ->]]; lra. Qed.

Lemma Max_ge_l (a b : Q) : a <= FMath.Max a b.
Proof. destruct (Max_spec a b) as [[H ->] | [H ->]]; lra. Qed.

Lemma Clamp_bounds (x lo hi : Q) : lo <= hi -> lo <= FMath.Clamp x lo hi <= hi.
Proof.
  intro Hb. unfold FMath.Clamp.
  destruct (Min_spec x hi) as [[H1 ->] | [H1 ->]];
    destruct (Max_spec x lo) as [[H2 E2] | [H2 E2]];
    destruct (Max_spec hi lo) as [[H3 E3] | [H3 E3]];
    try rewrite E2; try rewrite E3; lra.
Qed.

Lemma Clamp_compat (x y lo hi : Q) : x == y -> FMath.Clamp x lo hi == FMath.Clamp y lo hi.
Proof.
  intro Hxy. unfold FMath.Clamp, FMath.Max, FMath.Min.
  destruct (Qltb_spec x hi), (Qltb_spec y hi);
    repeat match goal with
           | |- context [Qltb ?a ?b] => destruct (Qltb_spec a b)
           end; lra.
Qed.

(** ** Flag bytes *)

Lemma HasFlag_SetFlag_same (f b : Z) : b <> 0%Z -> Flags.HasFlag (Flags.SetFlag f b) b = true.
Proof.
  intro Hb. unfold Flags.HasFlag, Flags.SetFlag.
  assert (E : Z.land (Z.lor f b) b = b).
  { apply Z.bits_inj'. intros n Hn. rewrite Z.land_spec, Z.lor_spec.
    destruct (Z.testbit f n), (Z.testbit b n); reflexivity. }
  rewrite E. apply negb_true_iff, Z.eqb_neq. exact Hb.
Qed.

Lemma HasFlag_UnSetFlag_same (f b : Z) : Flags.HasFlag (Flags.UnSetFlag f b) b = false.
Proof.
  unfold Flags.HasFlag, Flags.UnSetFlag.
  assert (E : Z.land (Z.land f (Z.lnot b)) b = 0%Z).
  { apply Z.bits_inj'. intros n Hn.
    rewrite !Z.land_spec, Z.lnot_spec, Z.bits_0 by assumption.
    destruct (Z.testbit f n), (Z.testbit b n); reflexivity. }
  rewrite E. reflexivity.
Qed.

Lemma HasFlag_SetFlag_other (f b c : Z) :
  Z.land b c = 0%Z -> Flags.HasFlag (Flags.SetFlag f b) c = Flags.HasFlag f c.
Proof.
  intro Hbc. unfold Flags.HasFlag, Flags.SetFlag.
  replace (Z.land (Z.lor f b) c) with (Z.land f c); [reflexivity |].
  apply Z.bits_inj'. intros n Hn. rewrite !Z.land_spec, Z.lor_spec.
  assert (Hn' : (Z.testbit b n && Z.testbit c n)%bool = false).
  { rewrite <- Z.land_spec, Hbc. apply Z.bits_0. }
  destruct (Z.testbit f n), (Z.testbit b n), (Z.testbit c n); simpl in *; congruence.
Qed.

Lemma HasFlag_UnSetFlag_other (f b c : Z) :
  Z.land b c = 0%Z -> Flags.HasFlag (Flags.UnSetFlag f b) c = Flags.HasFlag f c.
Proof.
  intro Hbc. unfold Flags.HasFlag, Flags.UnSetFlag.
  replace (Z.land (Z.land f (Z.lnot b)) c) with (Z.land f c); [reflexivity |].
  apply Z.bits_inj'. intros n Hn. rewrite !Z.land_spec, Z.lnot_spec by assumption.
  assert (Hn' : (Z.testbit b n && Z.testbit c n)%bool = false).
  { rewrite <- Z.land_spec, Hbc. apply Z.bits_0. }
  destruct (Z.testbit f n), (Z.testbit b n), (Z.testbit c n); simpl in *; congruence.
Qed.

(** ** The clock of a source *)

Lemma CheckTimeOut_status (s : FBaseRootMotionSource) :
  exists st, CheckTimeOut s = set_Status st s.
Proof.
  unfold CheckTimeOut. destruct (IsTimeOutEnabled s).
  - cbv zeta. destruct (Qle_bool (Duration s) (CurrentTime s)); eexists; reflexivity.
  - exists (Status s). destruct s; reflexivity.
Qed.

Lemma SetTime_CurrentTime (t : Q) (s : FBaseRootMotionSource) :
  CurrentTime (SetTime t s) = t.
Proof.
  unfold SetTime.
  destruct (CheckTimeOut_status (set_CurrentTime t (set_PreviousTime (CurrentTime s) s)))
    as [st ->].
  reflexivity.
Qed.

Lemma SetTime_PreviousTime (t : Q) (s : FBaseRootMotionSource) :
  PreviousTime (SetTime t s) = CurrentTime s.
Proof.
  unfold SetTime.
  destruct (CheckTimeOut_status (set_CurrentTime t (set_PreviousTime (CurrentTime s) s)))
    as [st ->].
  reflexivity.
Qed.

Lemma SetTime_Duration (t : Q) (s : FBaseRootMotionSource) :
  Duration (SetTime t s) = Duration s.
Proof.
  unfold SetTime.
  destruct (CheckTimeOut_status (set_CurrentTime t (set_PreviousTime (CurrentTime s) s)))
    as [st ->].
  reflexivity.
Qed.

Lemma SetTime_Derived (t : Q) (s : FBaseRootMotionSource) :
  Derived (SetTime t s) = Derived s.
Proof.
  unfold SetTime.
  destruct (CheckTimeOut_status (set_CurrentTime t (set_PreviousTime (CurrentTime s) s)))
    as [st ->].
  reflexivity.
Qed.

(** [SetTime] touches the two times and the status byte only. *)
Lemma SetTime_frame (t : Q) (s : FBaseRootMotionSource) :
  exists st, SetTime t s = set_Status st (set_CurrentTime t (set_PreviousTime (CurrentTime s) s)).
Proof. unfold SetTime. apply CheckTimeOut_status. Qed.

Lemma IsTimeOutEnabled_ext (s s' : FBaseRootMotionSource) :
  Derived s' = Derived s -> Duration s' = Duration s ->
  IsTimeOutEnabled s' = IsTimeOutEnabled s.
Proof.
  intros Hd Hu. unfold IsTimeOutEnabled, Base_IsTimeOutEnabled. rewrite Hd, Hu. reflexivity.
Qed.

Lemma SetTime_IsTimeOutEnabled (t : Q) (s : FBaseRootMotionSource) :
  IsTimeOutEnabled (SetTime t s) = IsTimeOutEnabled s.
Proof. apply IsTimeOutEnabled_ext; [apply SetTime_Derived | apply SetTime_Duration]. Qed.

Lemma SetTime_Status (t : Q) (s : FBaseRootMotionSource) :
  Status (SetTime t s) =
  if IsTimeOutEnabled s then
    if Qle_bool (Duration s) t then Status.SetFlag (Status s) Finished
    else Status.UnSetFlag (Status s) Finished
  else Status s.
Proof.
  unfold SetTime, CheckTimeOut.
  replace (IsTimeOutEnabled (set_CurrentTime t (set_PreviousTime (CurrentTime s) s)))
    with (IsTimeOutEnabled s) by (symmetry; apply IsTimeOutEnabled_ext; reflexivity).
  destruct (IsTimeOutEnabled s); [| reflexivity].
  cbn [Duration CurrentTime set_CurrentTime set_PreviousTime].
  destruct (Qle_bool (Duration s) t); reflexivity.
Qed.

Lemma SetTime_Finished (t : Q) (s : FBaseRootMotionSource) :
  IsTimeOutEnabled s = true ->
  Status.HasFlag (Status (SetTime t s)) Finished = Qle_bool (Duration s) t.
Proof.
  intro H. rewrite SetTime_Status, H. unfold Status.HasFlag, Status.SetFlag, Status.UnSetFlag.
  destruct (Qle_bool (Duration s) t).
  - apply HasFlag_SetFlag_same. discriminate.
  - apply HasFlag_UnSetFlag_same.
Qed.

(** What every [PrepareRootMotion] does to the members other than the
    contribution: it moves the clock by the simulation time. *)
Lemma PrepareRootMotion_shape (E : Engine) (sim tick : Q) (C : ABaseCharacter)
    (s : FBaseRootMotionSource) :
  exists p, value (PrepareRootMotion E sim tick C s)
            = SetTime (GetTime s + sim) (set_RootMotionParams p s).
Proof.
  unfold PrepareRootMotion.
  destruct (Derived s) as [d | d | d | d | d] eqn:Hd.
  - eexists. unfold ConstantForce_PrepareRootMotion. cbv zeta. reflexivity.
  - eexists. unfold RadialForce_PrepareRootMotion. cbv zeta. reflexivity.
  - unfold MoveToForce_PrepareRootMotion.
    cbn [Duration set_RootMotionParams].
    destruct (Qltb UE_SMALL_NUMBER (Duration s) && Qltb UE_SMALL_NUMBER tick)%bool;
      eexists; reflexivity.
  - unfold MoveToDynamicForce_PrepareRootMotion.
    cbn [Duration set_RootMotionParams].
    destruct (Qltb UE_SMALL_NUMBER (Duration s) && Qltb UE_SMALL_NUMBER tick)%bool;
      eexists; reflexivity.
  - unfold JumpForce_PrepareRootMotion.
    cbn [Duration set_RootMotionParams].
    destruct (Qltb UE_SMALL_NUMBER (Duration s) && Qltb UE_SMALL_NUMBER tick
              && Qltb UE_SMALL_NUMBER sim)%bool.
    + cbv zeta. destruct (Qltb 1 _); eexists; reflexivity.
    + eexists; reflexivity.
Qed.

Lemma PrepareRootMotion_checks (E : Engine) (sim tick : Q) (C : ABaseCharacter)
    (s : FBaseRootMotionSource) :
  checks_ok (PrepareRootMotion E sim tick C s)
  = if ChecksDuration s then Qltb UE_SMALL_NUMBER (Duration s) else true.
Proof.
  unfold PrepareRootMotion, ChecksDuration.
  destruct (Derived s) as [d | d | d | d | d]; try reflexivity.
  - unfold MoveToForce_PrepareRootMotion. cbn [Duration set_RootMotionParams].
    destruct (Qltb UE_SMALL_NUMBER (Duration s)); [| reflexivity].
    destruct (Qltb UE_SMALL_NUMBER tick); reflexivity.
  - unfold MoveToDynamicForce_PrepareRootMotion. cbn [Duration set_RootMotionParams].
    destruct (Qltb UE_SMALL_NUMBER (Duration s)); [| reflexivity].
    destruct (Qltb UE_SMALL_NUMBER tick); reflexivity.
  - unfold JumpForce_PrepareRootMotion. cbn [Duration set_RootMotionParams].
    destruct (Qltb UE_SMALL_NUMBER (Duration s)); [| reflexivity].
    destruct (Qltb UE_SMALL_NUMBER tick); [| reflexivity].
    destruct (Qltb UE_SMALL_NUMBER sim); [| reflexivity].
    cbv zeta. cbn [andb]. destruct (Qltb 1 _); reflexivity.
Qed.

(** ** The Finished flag follows the clock (C7) *)


Lemma ChecksDuration_ext (s s' : FBaseRootMotionSource) :
  Derived s' = Derived s -> ChecksDuration s' = ChecksDuration s.
Proof. intro H. unfold ChecksDuration. rewrite H. reflexivity. Qed.

(** With the sum taken exactly, the functions with the rounding written
    out are the ones above. *)
Lemma PrepareRootMotion_fl_exact (E : Engine) (sim tick : Q) (C : ABaseCharacter)
    (s : FBaseRootMotionSource) :
  PrepareRootMotion_fl (fun x => x) E sim tick C s = PrepareRootMotion E sim tick C s.
Proof.
  unfold PrepareRootMotion_fl, PrepareRootMotion.
  destruct (Derived s); reflexivity.
Qed.

Lemma PrepareRootMotion_fl_shape (fl : Q -> Q) (E : Engine) (sim tick : Q)
    (C : ABaseCharacter) (s : FBaseRootMotionSource) :
  exists p, value (PrepareRootMotion_fl fl E sim tick C s)
            = SetTime (fl (GetTime s + sim)) (set_RootMotionParams p s).
Proof.
  unfold PrepareRootMotion_fl.
  destruct (Derived s) as [d | d | d | d | d] eqn:Hd.
  - eexists. unfold ConstantForce_PrepareRootMotion_fl. cbv zeta. reflexivity.
  - eexists. unfold RadialForce_PrepareRootMotion_fl. cbv zeta. reflexivity.
  - unfold MoveToForce_PrepareRootMotion_fl.
    cbn [Duration set_RootMotionParams].
    destruct (Qltb UE_SMALL_NUMBER (Duration s) && Qltb UE_SMALL_NUMBER tick)%bool;
      eexists; reflexivity.
  - unfold MoveToDynamicForce_PrepareRootMotion_fl.
    cbn [Duration set_RootMotionParams].
    destruct (Qltb UE_SMALL_NUMBER (Duration s) && Qltb UE_SMALL_NUMBER tick)%bool;
      eexists; reflexivity.
  - unfold JumpForce_PrepareRootMotion_fl.
    cbn [Duration set_RootMotionParams].
    destruct (Qltb UE_SMALL_NUMBER (Duration s) && Qltb UE_SMALL_NUMBER tick
              && Qltb UE_SMALL_NUMBER sim)%bool.
    + cbv zeta. destruct (Qltb 1 _); eexists; reflexivity.
    + eexists; reflexivity.
Qed.

Lemma PrepareRootMotion_fl_checks (fl : Q -> Q) (E : Engine) (sim tick : Q)
    (C : ABaseCharacter) (s : FBaseRootMotionSource) :
  checks_ok (PrepareRootMotion_fl fl E sim tick C s)
  = if ChecksDuration s then Qltb UE_SMALL_NUMBER (Duration s) else true.
Proof.
  unfold PrepareRootMotion_fl, ChecksDuration.
  destruct (Derived s) as [d | d | d | d | d]; try reflexivity.
  - unfold MoveToForce_PrepareRootMotion_fl. cbn [Duration set_RootMotionParams].
    destruct (Qltb UE_SMALL_NUMBER (Duration s)); [| reflexivity].
    destruct (Qltb UE_SMALL_NUMBER tick); reflexivity.
  - unfold MoveToDynamicForce_PrepareRootMotion_fl. cbn [Duration set_RootMotionParams].
    destruct (Qltb UE_SMALL_NUMBER (Duration s)); [| reflexivity].
    destruct (Qltb UE_SMALL_NUMBER tick); reflexivity.
  - unfold JumpForce_PrepareRootMotion_fl. cbn [Duration set_RootMotionParams].
    destruct (Qltb UE_SMALL_NUMBER (Duration s)); [| reflexivity].
    destruct (Qltb UE_SMALL_NUMBER tick); [| reflexivity].
    destruct (Qltb UE_SMALL_NUMBER sim); [| reflexivity].
    cbv zeta. cbn [andb]. destruct (Qltb 1 _); reflexivity.
Qed.

Lemma PrepareRootMotion_fl_step (fl : Q -> Q) (E : Engine) (sim tick : Q)
    (C : ABaseCharacter) (s : FBaseRootMotionSource) :
  let s' := value (PrepareRootMotion_fl fl E sim tick C s) in
  CurrentTime s' = fl (CurrentTime s + sim)
  /\ PreviousTime s' = CurrentTime s
  /\ Duration s' = Duration s
  /\ Derived s' = Derived s
  /\ Status s' = Status (SetTime (fl (CurrentTime s + sim)) s).
Proof.
  destruct (PrepareRootMotion_fl_shape fl E sim tick C s) as [p Hp].
  cbv zeta. rewrite Hp. unfold GetTime.
  rewrite SetTime_CurrentTime, SetTime_PreviousTime, SetTime_Duration, SetTime_Derived,
    !SetTime_Status.
  repeat split; reflexivity.
Qed.

Lemma PrepareRepeatedly_invariant (fl : Q -> Q) (E : Engine) (sim tick : Q)
    (C : ABaseCharacter) (s : FBaseRootMotionSource) (n : nat) :
  let r := PrepareRepeatedly fl E sim tick C n s in
  Duration (value r) = Duration s
  /\ Derived (value r) = Derived s
  /\ ((forall x, fl x == x) ->
      CurrentTime (value r) == CurrentTime s + inject_Z (Z.of_nat n) * sim)
  /\ (fl (CurrentTime s + sim) = CurrentTime s -> CurrentTime (value r) = CurrentTime s)
  /\ checks_ok r
     = match n with
       | O => true
       | S _ => if ChecksDuration s then Qltb UE_SMALL_NUMBER (Duration s) else true
       end.
Proof.
  induction n as [| n IH].
  - cbv zeta. cbn [PrepareRepeatedly ret value checks_ok Z.of_nat].
    split; [reflexivity | split; [reflexivity | split; [| split; [| reflexivity]]]].
    + intros _. change (inject_Z 0) with 0. ring.
    + intros _. reflexivity.
  - cbv zeta in *. destruct IH as (HD & HV & HT & HA & HC).
    cbn [PrepareRepeatedly].
    set (prev := PrepareRepeatedly fl E sim tick C n s) in *.
    unfold bind. cbn [value checks_ok].
    destruct (PrepareRootMotion_fl_step fl E sim tick C (value prev))
      as (T1 & _ & D1 & V1 & _).
    split; [| split; [| split; [| split]]].
    + congruence.
    + congruence.
    + intro Hfl. rewrite T1, Hfl, (HT Hfl), Nat2Z.inj_succ, <- Z.add_1_r, inject_Z_plus.
      change (inject_Z 1) with 1. ring.
    + intro Habs. rewrite T1, (HA Habs). exact Habs.
    + rewrite HC, PrepareRootMotion_fl_checks, HD, (ChecksDuration_ext s (value prev) HV).
      destruct n; [reflexivity |].
      destruct (ChecksDuration s); [| reflexivity].
      destruct (Qltb UE_SMALL_NUMBER (Duration s)); reflexivity.
Qed.

(** C7, as amended.  A source whose timeout is enabled, advanced [n + 1]
    times by the same simulation time through its [PrepareRootMotion], the
    clock being a float: whatever the rounding [fl] of the sum, provided the
    duration exceeds [UE_SMALL_NUMBER] when the source is a move-to or jump
    source, every call passes its checks, each call sets the clock to the
    rounded sum of the clock before it and the simulation time, and after
    the call the Finished flag is set exactly when the clock has reached the
    duration.  So the first call that brings the clock to the duration sets
    the flag and the call before it leaves it unset.  The clock is the time
    the source had plus the steps made only if no sum is rounded; and when
    the rounding absorbs the step (the rounded sum is the clock itself) the
    clock stays where it is on every call. *)
Theorem C7_finished_follows_clock (fl : Q -> Q) (E : Engine) (sim tick : Q)
    (C : ABaseCharacter) (s : FBaseRootMotionSource) (n : nat) :
  IsTimeOutEnabled s = true ->
  (if ChecksDuration s then UE_SMALL_NUMBER < Duration s else True) ->
  let before := PrepareRepeatedly fl E sim tick C n s in
  let r := PrepareRepeatedly fl E sim tick C (S n) s in
  checks_ok r = true
  /\ CurrentTime (value r) = fl (CurrentTime (value before) + sim)
  /\ PreviousTime (value r) = CurrentTime (value before)
  /\ Status.HasFlag (Status (value r)) Finished
     = Qle_bool (Duration s) (CurrentTime (value r))
  /\ ((forall x, fl x == x) ->
      CurrentTime (value r) == CurrentTime s + inject_Z (Z.of_nat (S n)) * sim)
  /\ (fl (CurrentTime s + sim) = CurrentTime s ->
      CurrentTime (value r) = CurrentTime s
      /\ Status.HasFlag (Status (value r)) Finished
         = Qle_bool (Duration s) (CurrentTime s)).
Proof.
  intros Hto Hdur before r.
  destruct (PrepareRepeatedly_invariant fl E sim tick C s (S n)) as (HD & HV & HT & HA & HC).
  fold r in HD, HV, HT, HA, HC.
  destruct (PrepareRepeatedly_invariant fl E sim tick C s n) as (HD' & HV' & _ & _ & _).
  fold before in HD', HV'.
  assert (Step : CurrentTime (value r) = fl (CurrentTime (value before) + sim)
                 /\ PreviousTime (value r) = CurrentTime (value before)
                 /\ Status.HasFlag (Status (value r)) Finished
                    = Qle_bool (Duration s) (CurrentTime (value r))).
  { subst r. cbn [PrepareRepeatedly]. fold before. unfold bind. cbn [value].
    destruct (PrepareRootMotion_fl_step fl E sim tick C (value before))
      as (T1 & P1 & D1 & V1 & S1).
    split; [exact T1 | split; [exact P1 |]].
    rewrite S1, T1, SetTime_Finished.
    - rewrite HD'. reflexivity.
    - rewrite (IsTimeOutEnabled_ext s (value before)); assumption. }
  destruct Step as (S1 & S2 & S3).
  split; [| split; [exact S1 | split; [exact S2 | split; [exact S3 | split; [exact HT |]]]]].
  - rewrite HC. destruct (ChecksDuration s); [| reflexivity].
    destruct (Qltb_spec UE_SMALL_NUMBER (Duration s)); [reflexivity | lra].
  - intro Habs. split; [exact (HA Habs) |]. rewrite S3, (HA Habs). reflexivity.
Qed.

(** The step 0.1f and the duration 0.3f in single precision: the third call
    brings the clock to the duration, although three times the step is
    below it. *)
Lemma C7_finished_follows_clock_witness :
  let step := RoundToFloat (1 # 10) in
  let s := set_Duration (RoundToFloat (3 # 10)) New_MoveToForce in
  let before := PrepareRepeatedly RoundToFloat DemoEngine step step DemoCharacter 2 s in
  let r := PrepareRepeatedly RoundToFloat DemoEngine step step DemoCharacter 3 s in
  checks_ok r = true
  /\ CurrentTime (value r) = RoundToFloat (CurrentTime (value before) + step)
  /\ Status.HasFlag (Status (value r)) Finished
     = Qle_bool (Duration s) (CurrentTime (value r))
  /\ Status.HasFlag (Status (value r)) Finished = true
  /\ Status.HasFlag (Status (value before)) Finished = false
  /\ CurrentTime s + 3 * step < Duration s.
Proof.
  cbv zeta.
  destruct (C7_finished_follows_clock RoundToFloat DemoEngine (RoundToFloat (1 # 10))
              (RoundToFloat (1 # 10)) DemoCharacter
              (set_Duration (RoundToFloat (3 # 10)) New_MoveToForce) 2)
    as (H1 & H2 & _ & H4 & _).
  - reflexivity.
  - vm_compute. reflexivity.
  - split; [exact H1 | split; [exact H2 | split; [exact H4 |]]].
    split; [vm_compute; reflexivity | split; [vm_compute; reflexivity |]].
    vm_compute. reflexivity.
Defined.

(** C7, the counterexample.  A move-to source with timeout enabled and the
    positive duration 1e-9 (as a float): the first call of its [PrepareRootMotion] fails
    the check that the duration exceeds [UE_SMALL_NUMBER].  And a constant
    force whose clock stands at 2^24 with the duration 2^24 + 2, advanced by
    steps of 1: in single precision 2^24 + 1 is rounded to 2^24, so the
    clock never moves and after two calls, when the time elapsed has
    reached the duration, the source is not Finished. *)
Lemma C7_counterexample :
  let s := set_Duration (RoundToFloat (1 # 1000000000)) New_MoveToForce in
  let s2 := set_CurrentTime 16777216 (set_Duration 16777218 New_ConstantForce) in
  let r2 := PrepareRepeatedly RoundToFloat DemoEngine 1 1 DemoCharacter 2 s2 in
  IsTimeOutEnabled s = true
  /\ 0 < Duration s
  /\ checks_ok (PrepareRepeatedly RoundToFloat DemoEngine (RoundToFloat (1 # 60))
                  (RoundToFloat (1 # 60)) DemoCharacter 1 s) = false
  /\ IsTimeOutEnabled s2 = true
  /\ 0 < Duration s2
  /\ checks_ok r2 = true
  /\ CurrentTime (value r2) == 16777216
  /\ Status.HasFlag (Status (value r2)) Finished = false
  /\ Duration s2 <= CurrentTime s2 + inject_Z (Z.of_nat 2) * 1
  /\ ~ Stated_FinishedExactlyWhenElapsed.
Proof.
  cbv zeta.
  split; [vm_compute; reflexivity |]. split; [vm_compute; reflexivity |].
  split; [vm_compute; reflexivity |].
  split; [reflexivity |]. split; [reflexivity |]. split; [vm_compute; reflexivity |].
  split; [vm_compute; reflexivity |]. split; [vm_compute; reflexivity |].
  split; [vm_compute; discriminate |].
  intro H.
  destruct (H DemoEngine 1 1 DemoCharacter
              (set_CurrentTime 16777216 (set_Duration 16777218 New_ConstantForce)) 1%nat)
    as [_ Hf].
  - reflexivity.
  - reflexivity.
  - vm_compute in Hf. discriminate.
Qed.

(** ** State transfer between sources (C5) *)

Lemma UScriptStruct_eqb_eq (a b : UScriptStruct) : UScriptStruct_eqb a b = true <-> a = b.
Proof.
  split.
  - destruct a, b; simpl; try discriminate; try reflexivity.
    intro H. apply Nat.eqb_eq in H. congruence.
  - intros ->. destruct b; simpl; try reflexivity. apply Nat.eqb_refl.
Qed.

Lemma Base_UpdateStateFrom_same (self other : FBaseRootMotionSource) (mark : bool) :
  UScriptStruct_eqb (GetScriptStruct self) (GetScriptStruct other) = true ->
  let r := Base_UpdateStateFrom self (Some other) mark in
  checks_ok r = true
  /\ snd (value r) = true
  /\ CurrentTime (fst (value r)) = GetTime other
  /\ PreviousTime (fst (value r)) = CurrentTime self
  /\ Status (fst (value r)) = StatusAfterUpdate self other
  /\ Derived (fst (value r)) = Derived self
  /\ Duration (fst (value r)) = Duration self.
Proof.
  intro H. unfold Base_UpdateStateFrom, StatusAfterUpdate. rewrite H. cbv zeta.
  change (Status (set_bNeedsSimulatedCatchup mark self)) with (Status self).
  destruct (Status.HasFlag (Status self) MarkedForRemoval);
    cbv beta iota delta [ret value checks_ok fst snd];
    rewrite SetTime_CurrentTime, SetTime_PreviousTime, SetTime_Status, SetTime_Derived,
      SetTime_Duration;
    (split; [reflexivity |]); (split; [reflexivity |]); (split; [reflexivity |]);
    (split; [reflexivity |]); (split; [| split; reflexivity]);
    match goal with
    | |- (if IsTimeOutEnabled ?x then _ else _) = _ =>
        replace (IsTimeOutEnabled x) with (IsTimeOutEnabled self)
          by (symmetry; apply IsTimeOutEnabled_ext; reflexivity)
    end;
    reflexivity.
Qed.

(** C5, as amended.  When both sources have the same concrete type,
    [UpdateStateFrom] passes its check and returns true; the elapsed time is
    the other's (the former one is kept as previous time), and the status
    byte is the other's with self's MarkedForRemoval kept and with the
    Finished flag then set again from self's own timeout: with the timeout
    enabled it is set exactly when the new time has reached self's duration.
    MarkedForRemoval is set afterwards exactly when it was set in self or in
    the other.  When the types differ the check fails, nothing is copied and
    false is returned. *)
Theorem C5_update_state_from (self other : FBaseRootMotionSource) (mark : bool) :
  let r := UpdateStateFrom self (Some other) mark in
  if UScriptStruct_eqb (GetScriptStruct self) (GetScriptStruct other) then
    checks_ok r = true
    /\ snd (value r) = true
    /\ CurrentTime (fst (value r)) = GetTime other
    /\ PreviousTime (fst (value r)) = CurrentTime self
    /\ Status (fst (value r)) = StatusAfterUpdate self other
    /\ Status.HasFlag (Status (fst (value r))) MarkedForRemoval
       = (Status.HasFlag (Status self) MarkedForRemoval
          || Status.HasFlag (Status other) MarkedForRemoval)%bool
    /\ Status.HasFlag (Status (fst (value r))) Finished
       = (if IsTimeOutEnabled self then Qle_bool (Duration self) (GetTime other)
          else Status.HasFlag (Status other) Finished)
  else
    checks_ok r = false /\ value r = (self, false).
Proof.
  cbv zeta.
  destruct (UScriptStruct_eqb (GetScriptStruct self) (GetScriptStruct other)) eqn:Heq.
  - destruct (Base_UpdateStateFrom_same self other mark Heq)
      as (Hc & Hs & Ht & Hp & Hst & Hd & Hu).
    unfold UpdateStateFrom, bind.
    set (b := Base_UpdateStateFrom self (Some other) mark) in *.
    rewrite Hs, Hc. cbn [negb andb value checks_ok option_map].
    assert (Hflags :
      Status.HasFlag (StatusAfterUpdate self other) MarkedForRemoval
      = (Status.HasFlag (Status self) MarkedForRemoval
         || Status.HasFlag (Status other) MarkedForRemoval)%bool
      /\ Status.HasFlag (StatusAfterUpdate self other) Finished
         = (if IsTimeOutEnabled self then Qle_bool (Duration self) (GetTime other)
            else Status.HasFlag (Status other) Finished)).
    { unfold StatusAfterUpdate, Status.HasFlag, Status.SetFlag, Status.UnSetFlag.
      destruct (Flags.HasFlag (Status self) (StatusBit MarkedForRemoval)) eqn:Hm;
        destruct (IsTimeOutEnabled self);
        try destruct (Qle_bool (Duration self) (GetTime other));
        rewrite ?HasFlag_SetFlag_same, ?HasFlag_UnSetFlag_same,
          ?(HasFlag_SetFlag_other _ (StatusBit Finished) (StatusBit MarkedForRemoval)),
          ?(HasFlag_UnSetFlag_other _ (StatusBit Finished) (StatusBit MarkedForRemoval)),
          ?(HasFlag_SetFlag_other _ (StatusBit MarkedForRemoval) (StatusBit Finished)),
          ?HasFlag_SetFlag_same
          by (reflexivity || discriminate);
        split; reflexivity. }
    destruct Hflags as [Hfm Hff].
    destruct (Derived (fst (value b))) as [d | d | d | d | d] eqn:Hdb;
      try (cbn [ret value checks_ok fst snd];
           rewrite Ht, Hp, Hst, Hfm, Hff; repeat split; reflexivity).
    destruct (Derived other) as [d' | d' | d' | d' | d'] eqn:Hdo;
      cbn [ret value checks_ok fst snd set_Derived CurrentTime PreviousTime Status];
      rewrite Ht, Hp, Hst, Hfm, Hff; repeat split; reflexivity.
  - unfold UpdateStateFrom, bind, Base_UpdateStateFrom. rewrite Heq.
    cbn. split; reflexivity.
Qed.

(** C5, the counterexample.  Self is a constant force of duration 5; the
    other is a constant force of duration 0 that is Finished at time 1.
    After the transfer self is at time 1 and not Finished, so its status byte
    is not the other's. *)
Lemma C5_counterexample :
  let self := set_Duration 5 New_ConstantForce in
  let other :=
    set_Status (Status.SetFlag 0 Finished)
      (set_CurrentTime 1 (set_Duration 0 New_ConstantForce)) in
  let r := value (UpdateStateFrom self (Some other) false) in
  Status other = 2%Z /\ Status (fst r) = 0%Z /\ ~ Stated_UpdateStateFromCopies.
Proof.
  cbv zeta. split; [reflexivity | split; [reflexivity |]].
  intro H.
  specialize (H (set_Duration 5 New_ConstantForce)
                (set_Status (Status.SetFlag 0 Finished)
                   (set_CurrentTime 1 (set_Duration 0 New_ConstantForce))) false).
  cbv zeta in H.
  change (UScriptStruct_eqb _ _) with true in H.
  destruct H as (_ & _ & H). vm_compute in H. discriminate.
Qed.

(** ** Strength of the radial force (C6) *)

Lemma RadialFactor_spec (E : Engine) (s : FBaseRootMotionSource) (d : RadialForce.t)
    (Distance : Q) :
  RadialForce_AdditiveStrengthFactor E s d Distance
  == 1 - (1 - RadialDistanceFactor E d Distance) - (1 - RadialTimeFactor E s d).
Proof.
  unfold RadialForce_AdditiveStrengthFactor, RadialDistanceFactor, RadialTimeFactor.
  destruct (RadialForce.StrengthDistanceFalloff d), (RadialForce.StrengthOverTime d);
    cbv zeta; ring.
Qed.

Lemma RadialForce_Force_params (E : Engine) (C : ABaseCharacter)
    (s : FBaseRootMotionSource) (d : RadialForce.t) (p : FRootMotionMovementParams) :
  RadialForce_Force E C (set_RootMotionParams p s) d = RadialForce_Force E C s d.
Proof. reflexivity. Qed.

(** C6.  With the actor inside the radius, the force of the radial source is
    its direction scaled by the current strength, and the current strength
    is the configured strength times [1 - (1 - distanceFactor) -
    (1 - timeFactor)] clamped to [0, 1], each factor being one when its curve
    is absent.  So the current strength is never larger in magnitude than
    the configured strength and never of the opposite sign.  This force is
    what [PrepareRootMotion] of a radial source applies: the call passes its
    checks and stores the force as the source's root motion, scaled by the
    ratio of the simulation time to the movement tick when the two
    differ. *)
Theorem C6_radial_strength (E : Engine) (C : ABaseCharacter)
    (s : FBaseRootMotionSource) (d : RadialForce.t) :
  let ForceLocation := RadialForce_ForceLocation E d in
  let Distance := FVector_Dist E ForceLocation (ActorLocation C) in
  Distance < RadialForce.Radius d ->
  let CurrentStrength := RadialForce_CurrentStrength E s d Distance in
  let Direction :=
    if RadialForce.bUseFixedWorldDirection d
    then Vec.scale (FRotator_Vector E (RadialForce.FixedWorldDirection d)) CurrentStrength
    else
      let toward :=
        Vec.scale (FVector_GetSafeNormal E (Vec.sub ForceLocation (ActorLocation C)))
                  CurrentStrength in
      if RadialForce.bIsPush d then Vec.scale toward (-1) else toward in
  RadialForce_Force E C s d
  = (if RadialForce.bNoZForce d then Vec.setZ Direction 0 else Direction)
  /\ CurrentStrength
     == RadialForce.Strength d
        * SpecRadialFactor (RadialDistanceFactor E d Distance) (RadialTimeFactor E s d)
  /\ Qabs CurrentStrength <= Qabs (RadialForce.Strength d)
  /\ 0 <= CurrentStrength * RadialForce.Strength d
  /\ (Derived s = VRadialForce d ->
      forall SimulationTime MovementTickTime : Q,
        let r := PrepareRootMotion E SimulationTime MovementTickTime C s in
        let Applied := if RadialForce.bNoZForce d then Vec.setZ Direction 0 else Direction in
        checks_ok r = true
        /\ bHasRootMotion (RootMotionParams (value r)) = true
        /\ RootMotionTransform (RootMotionParams (value r))
           = Transform.ofTranslation
               (if negb (Qeq_bool SimulationTime MovementTickTime)
                   && Qltb UE_SMALL_NUMBER MovementTickTime
                then Vec.scale Applied (SimulationTime / MovementTickTime)
                else Applied)).
Proof.
  intros ForceLocation Distance Hin CurrentStrength Direction.
  assert (HForce : RadialForce_Force E C s d
                   = (if RadialForce.bNoZForce d then Vec.setZ Direction 0 else Direction)).
  { unfold RadialForce_Force. fold ForceLocation. fold Distance.
    cbv zeta. destruct (Qltb_spec Distance (RadialForce.Radius d)) as [_ | Hge]; [| lra].
    reflexivity. }
  split; [exact HForce |].
  split; [| split; [| split]]; [| | | intros Hd sim tick; cbv zeta;
    unfold PrepareRootMotion; rewrite Hd; cbn [checks_ok value ret];
    unfold RadialForce_PrepareRootMotion; cbv zeta;
    rewrite RadialForce_Force_params, HForce;
    match goal with
    | |- context [SetTime ?t ?x] => destruct (SetTime_frame t x) as [st ->]
    end;
    cbn [RootMotionParams set_Status set_CurrentTime set_PreviousTime set_RootMotionParams
         Params.Set_ bHasRootMotion RootMotionTransform];
    split; [reflexivity | split; [reflexivity |]];
    destruct (negb (Qeq_bool sim tick) && Qltb UE_SMALL_NUMBER tick)%bool; reflexivity].
  - unfold CurrentStrength, RadialForce_CurrentStrength, SpecRadialFactor.
    rewrite (Clamp_compat _ _ 0 1 (RadialFactor_spec E s d Distance)). reflexivity.
  - unfold CurrentStrength, RadialForce_CurrentStrength.
    rewrite Qabs_Qmult.
    pose proof (Clamp_bounds (RadialForce_AdditiveStrengthFactor E s d Distance) 0 1) as Hb.
    assert (H01 : 0 <= 1) by lra. specialize (Hb H01).
    rewrite (Qabs_pos (FMath.Clamp _ 0 1)) by apply Hb.
    pose proof (Qabs_nonneg (RadialForce.Strength d)) as Hn.
    nra.
  - unfold CurrentStrength, RadialForce_CurrentStrength.
    pose proof (Clamp_bounds (RadialForce_AdditiveStrengthFactor E s d Distance) 0 1) as Hb.
    assert (H01 : 0 <= 1) by lra. specialize (Hb H01).
    nra.
Qed.

Lemma C6_radial_strength_witness :
  let d := RadialForce.Mk (MkVector (1 # 2) 0 0) None 1 100 true false (Some 0%nat)
             (Some 1%nat) false Rot.Zero in
  let s := set_Derived (VRadialForce d) New_RadialForce in
  let CurrentStrength := RadialForce_CurrentStrength DemoEngine s d (1 # 2) in
  CurrentStrength == 100 * SpecRadialFactor (1 # 2) (3 # 4)
  /\ CurrentStrength == 25
  /\ Qabs CurrentStrength <= Qabs 100
  /\ VX (TTranslation (RootMotionTransform (RootMotionParams
            (value (PrepareRootMotion DemoEngine (1 # 10) (1 # 5) DemoCharacter s)))))
     == - (25 # 4).
Proof.
  cbv zeta.
  destruct (C6_radial_strength DemoEngine DemoCharacter
              (set_Derived
                 (VRadialForce
                    (RadialForce.Mk (MkVector (1 # 2) 0 0) None 1 100 true false (Some 0%nat)
                       (Some 1%nat) false Rot.Zero)) New_RadialForce)
              (RadialForce.Mk (MkVector (1 # 2) 0 0) None 1 100 true false (Some 0%nat)
                 (Some 1%nat) false Rot.Zero))
    as (_ & H2 & H3 & _ & H5).
  - vm_compute. reflexivity.
  - split; [exact H2 | split; [| split; [exact H3 |]]].
    + vm_compute. reflexivity.
    + destruct (H5 eq_refl (1 # 10) (1 # 5)) as (_ & _ & ->). vm_compute. reflexivity.
Defined.

(** ** Partial end tick (C2) *)

Lemma PrepareSource_frame (E : Engine) (C : ABaseCharacter)
    (M : UBaseCharacterMovementComponent) (dt : Q) (s : FBaseRootMotionSource) :
  exists p st,
    value (PrepareSource E C M dt s)
    = set_bNeedsSimulatedCatchup false
        (set_Status st
           (set_CurrentTime (CurrentTime s + SourceSimulationTime C M dt s)
              (set_PreviousTime (CurrentTime s)
                 (set_RootMotionParams p (set_bSimulatedNeedsSmoothing false s))))).
Proof.
  unfold PrepareSource. cbv zeta. unfold bind. cbn [value ret].
  destruct (PrepareRootMotion_shape E (SourceSimulationTime C M dt s) dt C
              (set_bSimulatedNeedsSmoothing false s)) as [p Hp].
  rewrite Hp.
  destruct (SetTime_frame
              (GetTime (set_bSimulatedNeedsSmoothing false s)
               + SourceSimulationTime C M dt s)
              (set_RootMotionParams p (set_bSimulatedNeedsSmoothing false s))) as [st Hst].
  rewrite Hst. exists p. eexists. reflexivity.
Qed.


(** The simulation time before the end-of-source adjustment is the tick's
    delta time when the source needs no catch-up and has no start time. *)
Lemma SimulationTime_plain (C : ABaseCharacter) (M : UBaseCharacterMovementComponent)
    (dt : Q) (s : FBaseRootMotionSource) :
  bNeedsSimulatedCatchup s = false -> IsStartTimeValid s = false ->
  PartialStartTick C M dt s (SimulatedCatchup s dt) = dt.
Proof.
  intros H1 H2. unfold PartialStartTick, SimulatedCatchup. rewrite H1, H2.
  cbv zeta. rewrite andb_false_r. reflexivity.
Qed.



(** ** Removal of an additive source (C3) *)

Lemma RemoveAllActive_kept (E : Engine) (applied : bool)
    (M : UBaseCharacterMovementComponent) (l : list TSharedPtr) (st : FVector * FVector) :
  Forall IsKept l -> RemoveAllActive E applied M l st = (l, st).
Proof.
  induction 1 as [| p l Hp _ IH]; [reflexivity |].
  destruct p as [s |]; [| discriminate Hp].
  unfold IsKept, KeepPending in Hp. cbn [RemoveAllActive]. rewrite Hp, IH. reflexivity.
Qed.

Lemma RemoveAllActive_one (E : Engine) (applied : bool)
    (M : UBaseCharacterMovementComponent) (pre post : list TSharedPtr)
    (s : FBaseRootMotionSource) (st : FVector * FVector) :
  Forall IsKept pre -> Forall IsKept post -> IsRemovable s = true ->
  RemoveAllActive E applied M (pre ++ Some s :: post) st
  = (pre ++ post, RemoveActiveSource E applied M s st).
Proof.
  intros Hpre Hpost Hrem. induction Hpre as [| p l Hp _ IH].
  - cbn [app RemoveAllActive].
    assert (Hc : (negb (Status.HasFlag (Status s) MarkedForRemoval)
                  && negb (Status.HasFlag (Status s) Finished))%bool = false).
    { unfold IsRemovable in Hrem. rewrite <- negb_orb, Hrem. reflexivity. }
    rewrite Hc. apply RemoveAllActive_kept. exact Hpost.
  - destruct p as [x |]; [| discriminate Hp].
    unfold IsKept, KeepPending in Hp. cbn [app RemoveAllActive]. rewrite Hp, IH. reflexivity.
Qed.

Lemma AccumulateFromSource_additive (M : UBaseCharacterMovementComponent)
    (s : FBaseRootMotionSource) (v : FVector) :
  AccumulateMode s = AccumulateMode_Additive ->
  AccumulateRootMotionVelocityFromSource M s v
  = if Settings.HasFlag (Settings s) IgnoreZAccumulate
    then Vec.setZ (Vec.add v (WorldContribution M s)) (VZ v)
    else Vec.add v (WorldContribution M s).
Proof.
  intro Hm. unfold AccumulateRootMotionVelocityFromSource, WorldContribution.
  rewrite Hm. cbv zeta. change (AccumulateMode_Additive =? AccumulateMode_Override)%Z with false.
  change (AccumulateMode_Additive =? AccumulateMode_Additive)%Z with true.
  destruct (bInLocalSpace s), (UpdatedComponent M); reflexivity.
Qed.

(** C3, as amended.  In a group whose additive velocity is applied, the
    cleanup that removes one additive source (flagged Finished or
    MarkedForRemoval, the other sources being kept): the source leaves the
    active list, and [LastPreAdditiveVelocity] is first increased by exactly
    the source's contribution in world space (the contribution rotated by
    the component when the source is in local space; the Z component stays as
    it was when the source ignores Z).  With the finish-velocity mode that
    maintains the velocity this is the final value and the character's
    velocity is unchanged; with the set mode both velocities become the set
    value; with the clamp mode the increased value and the character's
    velocity are both clamped. *)
Theorem C3_additive_removal (E : Engine) (M : UBaseCharacterMovementComponent)
    (g : FBaseRootMotionSourceGroup) (pre post : list TSharedPtr)
    (s : FBaseRootMotionSource) :
  bIsAdditiveVelocityApplied g = true ->
  RootMotionSources g = pre ++ Some s :: post ->
  Forall IsKept pre -> Forall IsKept post ->
  AccumulateMode s = AccumulateMode_Additive ->
  IsRemovable s = true ->
  let r := CleanUpInvalidRootMotion E M g in
  let sum := Vec.add (LastPreAdditiveVelocity g) (WorldContribution M s) in
  let increased :=
    if Settings.HasFlag (Settings s) IgnoreZAccumulate
    then Vec.setZ sum (VZ (LastPreAdditiveVelocity g))
    else sum in
  RootMotionSources (fst r) = pre ++ post
  /\ match FinishMode (FinishVelocityParams s) with
     | MaintainLastRootMotionVelocity =>
         LastPreAdditiveVelocity (fst r) = increased
         /\ Velocity (snd r) = Velocity M
     | SetVelocity =>
         LastPreAdditiveVelocity (fst r) = FinishSetVelocity (FinishVelocityParams s)
         /\ Velocity (snd r) = FinishSetVelocity (FinishVelocityParams s)
     | ClampVelocity =>
         LastPreAdditiveVelocity (fst r)
         = ClampFinishVelocity E increased (FinishClampVelocity (FinishVelocityParams s))
         /\ Velocity (snd r)
            = ClampFinishVelocity E (Velocity M)
                (FinishClampVelocity (FinishVelocityParams s))
     end.
Proof.
  intros Happ Hl Hpre Hpost Hm Hrem. cbv zeta.
  unfold CleanUpInvalidRootMotion. cbv zeta.
  rewrite Hl, Happ, (RemoveAllActive_one E true M pre post s _ Hpre Hpost Hrem).
  cbn [fst snd RootMotionSources LastPreAdditiveVelocity set_Velocity Velocity].
  unfold RemoveActiveSource. rewrite Hm.
  change (AccumulateMode_Additive =? AccumulateMode_Additive)%Z with true.
  cbn [andb].
  rewrite (AccumulateFromSource_additive M s _ Hm).
  split; [reflexivity |].
  destruct (FinishMode (FinishVelocityParams s)); cbn [fst snd]; split; reflexivity.
Qed.

Lemma C3_additive_removal_witness :
  let s := DemoAdditiveSource (MkVector 100 0 0) FinishVelocity_Default in
  let r := CleanUpInvalidRootMotion DemoEngine DemoMoveComponent
             (DemoAdditiveGroup s) in
  RootMotionSources (fst r) = []
  /\ LastPreAdditiveVelocity (fst r) = Vec.add (MkVector 10 0 0) (MkVector 100 0 0).
Proof.
  cbv zeta.
  destruct (C3_additive_removal DemoEngine DemoMoveComponent
              (DemoAdditiveGroup
                 (DemoAdditiveSource (MkVector 100 0 0) FinishVelocity_Default))
              [] []
              (DemoAdditiveSource (MkVector 100 0 0) FinishVelocity_Default))
    as (H1 & H3 & _).
  - reflexivity.
  - reflexivity.
  - constructor.
  - constructor.
  - reflexivity.
  - reflexivity.
  - split; [exact H1 | exact H3].
Defined.

(** C3, the counterexample.  The removed additive source contributes
    (100, 0, 0) and its finish-velocity mode sets the velocity to zero; the
    group has [LastPreAdditiveVelocity] (10, 0, 0) and additive velocity
    applied.  After the cleanup [LastPreAdditiveVelocity] is zero, not
    (110, 0, 0). *)
Lemma C3_counterexample :
  let s := DemoAdditiveSource (MkVector 100 0 0) (MkFinish SetVelocity Vec.Zero 0) in
  let g := DemoAdditiveGroup s in
  LastPreAdditiveVelocity
    (fst (CleanUpInvalidRootMotion DemoEngine DemoMoveComponent g)) = Vec.Zero
  /\ ~ Stated_AdditiveRemovalAddsContribution.
Proof.
  cbv zeta. split; [reflexivity |].
  intro H.
  specialize (H DemoEngine DemoMoveComponent
                (DemoAdditiveGroup
                   (DemoAdditiveSource (MkVector 100 0 0)
                      (MkFinish SetVelocity Vec.Zero 0)))
                [] []
                (DemoAdditiveSource (MkVector 100 0 0) (MkFinish SetVelocity Vec.Zero 0))
                eq_refl eq_refl (Forall_nil _) (Forall_nil _) eq_refl eq_refl).
  vm_compute in H. discriminate.
Qed.

(** ** Equality of groups ignores local IDs (C10) *)

Lemma Qabs_diff_self (a : Q) : Qabs (a - a) == 0.
Proof.
  assert (H : a - a == 0) by ring. rewrite H. reflexivity.
Qed.

Lemma IsNearlyEqual_refl (a tol : Q) : 0 <= tol -> FMath.IsNearlyEqual a a tol = true.
Proof.
  intro H. unfold FMath.IsNearlyEqual, FMath.Abs. apply Qle_bool_iff.
  rewrite Qabs_diff_self. exact H.
Qed.

Lemma PointsAreNear_refl (p : FVector) (dist : Q) : 0 < dist -> Vec.PointsAreNear p p dist = true.
Proof.
  intro H. unfold Vec.PointsAreNear.
  assert (F : forall a, Qle_bool dist (Qabs (a - a)) = false).
  { intro a. destruct (Qle_bool_spec dist (Qabs (a - a))) as [Hle | _]; [| reflexivity].
    rewrite Qabs_diff_self in Hle. lra. }
  rewrite !F. reflexivity.
Qed.

Lemma VecEquals_refl (p : FVector) (tol : Q) : 0 <= tol -> Vec.Equals p p tol = true.
Proof.
  intro H. unfold Vec.Equals.
  assert (F : forall a, Qle_bool (Qabs (a - a)) tol = true).
  { intro a. apply Qle_bool_iff. rewrite Qabs_diff_self. exact H. }
  rewrite !F. reflexivity.
Qed.

Lemma Trunc_zero (x : Q) : x == 0 -> FMath.Trunc x = 0%Z.
Proof.
  intro H. unfold FMath.Trunc.
  assert (Hle : Qle_bool 0 x = true) by (apply Qle_bool_iff; lra).
  rewrite Hle, H. reflexivity.
Qed.

Lemma NormalizeAxis_zero (x : Q) : x == 0 -> Rot.NormalizeAxis x == 0.
Proof.
  intro H. unfold Rot.NormalizeAxis, Rot.ClampAxis, FMath.Fmod.
  assert (Hq : x / 360 == 0) by (rewrite H; reflexivity).
  rewrite (Trunc_zero _ Hq).
  change (inject_Z 0) with 0.
  cbv zeta.
  destruct (Qltb_spec (x - 360 * 0) 0) as [Hlt | Hge]; [lra |].
  destruct (Qltb_spec 180 (x - 360 * 0)) as [Hlt | Hge']; lra.
Qed.

Lemma RotEquals_refl (r : FRotator) (tol : Q) : 0 <= tol -> Rot.Equals r r tol = true.
Proof.
  intro H. unfold Rot.Equals.
  assert (F : forall a, Qle_bool (Qabs (Rot.NormalizeAxis (a - a))) tol = true).
  { intro a. apply Qle_bool_iff.
    assert (Ha : a - a == 0) by ring.
    rewrite (NormalizeAxis_zero _ Ha). exact H. }
  rewrite !F. reflexivity.
Qed.

Lemma ObjPtr_eqb_refl (p : ObjPtr) : ObjPtr_eqb p p = true.
Proof. destruct p; simpl; [apply Nat.eqb_refl | reflexivity]. Qed.

Lemma UScriptStruct_eqb_refl (a : UScriptStruct) : UScriptStruct_eqb a a = true.
Proof. now apply UScriptStruct_eqb_eq. Qed.

Lemma Qeq_bool_refl' (a : Q) : Qeq_bool a a = true.
Proof. apply Qeq_bool_iff. reflexivity. Qed.

Lemma Derived_Matches_refl (d : Variant) : Derived_Matches d d = true.
Proof.
  assert (Hs : 0 <= UE_SMALL_NUMBER) by (unfold UE_SMALL_NUMBER; lra).
  destruct d as [d | d | d | d | d]; unfold Derived_Matches;
    rewrite ?Bool.eqb_reflx, ?ObjPtr_eqb_refl, ?IsNearlyEqual_refl, ?PointsAreNear_refl,
      ?RotEquals_refl by (assumption || lra || (unfold Float_0_1; lra));
    reflexivity.
Qed.

Lemma MatchesAndHasSameState_same (x y : FBaseRootMotionSource) :
  SameConfigurationAndState (Some x) (Some y) -> MatchesAndHasSameState x (Some y) = true.
Proof.
  intros (Hd & Hp & Hm & Hn & Hu & Hl & Hs & Ht).
  assert (Hk : 0 <= UE_KINDA_SMALL_NUMBER) by (unfold UE_KINDA_SMALL_NUMBER; lra).
  assert (Hsm : 0 <= UE_SMALL_NUMBER) by (unfold UE_SMALL_NUMBER; lra).
  unfold MatchesAndHasSameState, Base_MatchesAndHasSameState, Matches, Base_Matches,
    GetScriptStruct, GetTime.
  cbn [option_map].
  rewrite Hd, Hp, Hm, Hn, Hu, Hl, Hs, Ht.
  rewrite UScriptStruct_eqb_refl, !Z.eqb_refl, Bool.eqb_reflx, String.eqb_refl,
    IsNearlyEqual_refl, Derived_Matches_refl, Qeq_bool_refl' by assumption.
  cbn [andb negb].
  destruct (Derived y) as [d | d | d | d | d]; try reflexivity.
  rewrite !VecEquals_refl by assumption. reflexivity.
Qed.

Lemma SourcesEqual_same (l1 l2 : list TSharedPtr) :
  Forall2 SameConfigurationAndState l1 l2 -> SourcesEqual l1 l2 = true.
Proof.
  induction 1 as [| a b l1 l2 Hab _ IH]; [reflexivity |].
  destruct a as [x |], b as [y |]; try contradiction; cbn [SourcesEqual IsValid Bool.eqb].
  - rewrite (MatchesAndHasSameState_same x y Hab). exact IH.
  - exact IH.
Qed.

Lemma MatchesAndHasSameState_relabel (x : FBaseRootMotionSource) (b : TSharedPtr) (i j : Z) :
  MatchesAndHasSameState (set_LocalID i x) (option_map (set_LocalID j) b)
  = MatchesAndHasSameState x b.
Proof. destruct b as [y |]; reflexivity. Qed.

Lemma SourcesEqual_relabel (ids ids' : nat -> Z) (l1 l2 : list TSharedPtr) (i j : nat) :
  SourcesEqual (Relabel ids i l1) (Relabel ids' j l2) = SourcesEqual l1 l2.
Proof.
  revert l2 i j. induction l1 as [| a l1 IH]; intros [| b l2] i j; try reflexivity.
  cbn [Relabel SourcesEqual].
  replace (IsValid (option_map (set_LocalID (ids i)) a)) with (IsValid a)
    by (destruct a; reflexivity).
  replace (IsValid (option_map (set_LocalID (ids' j)) b)) with (IsValid b)
    by (destruct b; reflexivity).
  destruct (Bool.eqb (IsValid a) (IsValid b)); [| reflexivity].
  destruct a as [x |]; cbn [option_map].
  - rewrite MatchesAndHasSameState_relabel, IH. reflexivity.
  - apply IH.
Qed.

Lemma Relabel_length (ids : nat -> Z) (i : nat) (l : list TSharedPtr) :
  List.length (Relabel ids i l) = List.length l.
Proof. revert i. induction l as [| a l IH]; intro i; cbn; [reflexivity | now rewrite IH]. Qed.

(** [operator==] does not read the local IDs. *)
Lemma Group_eq_relabel (ids idsP ids' idsP' : nat -> Z) (g1 g2 : FBaseRootMotionSourceGroup) :
  Group_eq (RelabelGroup ids idsP g1) (RelabelGroup ids' idsP' g2) = Group_eq g1 g2.
Proof.
  unfold Group_eq, RelabelGroup.
  cbn [RootMotionSources PendingAddRootMotionSources bHasAdditiveSources bHasOverrideSources
       bHasOverrideSourcesWithIgnoreZAccumulate bIsAdditiveVelocityApplied
       LastPreAdditiveVelocity].
  rewrite !Relabel_length, !SourcesEqual_relabel. reflexivity.
Qed.

(** C10.  Two groups whose scalar flags agree, whose
    [LastPreAdditiveVelocity] agree within 1.0, and whose active and pending
    lists agree element by element in validity, concrete type,
    configuration, status flags and elapsed time compare equal, whatever the
    local IDs of their sources are; and giving the sources of either group
    any other local IDs leaves the result of the comparison as it is. *)
Theorem C10_group_equality_ignores_local_id (g1 g2 : FBaseRootMotionSourceGroup) :
  bHasAdditiveSources g1 = bHasAdditiveSources g2 ->
  bHasOverrideSources g1 = bHasOverrideSources g2 ->
  bHasOverrideSourcesWithIgnoreZAccumulate g1 = bHasOverrideSourcesWithIgnoreZAccumulate g2 ->
  bIsAdditiveVelocityApplied g1 = bIsAdditiveVelocityApplied g2 ->
  Vec.Equals (LastPreAdditiveVelocity g1) (LastPreAdditiveVelocity g2) 1 = true ->
  Forall2 SameConfigurationAndState (RootMotionSources g1) (RootMotionSources g2) ->
  Forall2 SameConfigurationAndState
    (PendingAddRootMotionSources g1) (PendingAddRootMotionSources g2) ->
  Group_eq g1 g2 = true
  /\ forall ids idsP ids' idsP' : nat -> Z,
       Group_eq (RelabelGroup ids idsP g1) (RelabelGroup ids' idsP' g2) = true.
Proof.
  intros H1 H2 H3 H4 H5 Ha Hp.
  assert (Heq : Group_eq g1 g2 = true).
  { unfold Group_eq.
    rewrite H1, H2, H3, H4, H5, !Bool.eqb_reflx.
    rewrite (Forall2_length Ha), (Forall2_length Hp), !Nat.eqb_refl.
    rewrite (SourcesEqual_same _ _ Ha), (SourcesEqual_same _ _ Hp). reflexivity. }
  split; [exact Heq |].
  intros. rewrite Group_eq_relabel. exact Heq.
Qed.

Lemma C10_group_equality_ignores_local_id_witness :
  let a := set_LocalID 7 (DemoAdditiveSource (MkVector 100 0 0) FinishVelocity_Default) in
  let b := set_LocalID 9 (DemoAdditiveSource (MkVector 100 0 0) FinishVelocity_Default) in
  LocalID a <> LocalID b
  /\ Group_eq (DemoAdditiveGroup a) (DemoAdditiveGroup b) = true.
Proof.
  cbv zeta. split; [discriminate |].
  apply (C10_group_equality_ignores_local_id
           (DemoAdditiveGroup
              (set_LocalID 7 (DemoAdditiveSource (MkVector 100 0 0) FinishVelocity_Default)))
           (DemoAdditiveGroup
              (set_LocalID 9 (DemoAdditiveSource (MkVector 100 0 0) FinishVelocity_Default)))).
  - reflexivity.
  - reflexivity.
  - reflexivity.
  - reflexivity.
  - reflexivity.
  - constructor; [| constructor]. repeat split; reflexivity.
  - constructor.
Defined.

(** ** The override source that is applied (C1) *)

Lemma SetTime_explicit (t : Q) (s : FBaseRootMotionSource) :
  SetTime t s
  = set_Status
      (if IsTimeOutEnabled s then
         if Qle_bool (Duration s) t then Status.SetFlag (Status s) Finished
         else Status.UnSetFlag (Status s) Finished
       else Status s)
      (set_CurrentTime t (set_PreviousTime (CurrentTime s) s)).
Proof.
  unfold SetTime, CheckTimeOut.
  replace (IsTimeOutEnabled (set_CurrentTime t (set_PreviousTime (CurrentTime s) s)))
    with (IsTimeOutEnabled s) by (symmetry; apply IsTimeOutEnabled_ext; reflexivity).
  destruct (IsTimeOutEnabled s); [| reflexivity].
  cbv zeta. cbn [Duration CurrentTime set_CurrentTime set_PreviousTime].
  destruct (Qle_bool (Duration s) t); reflexivity.
Qed.

Lemma PrepareRootMotion_LocalID (E : Engine) (sim tick : Q) (C : ABaseCharacter)
    (s : FBaseRootMotionSource) (i : Z) :
  value (PrepareRootMotion E sim tick C (set_LocalID i s))
  = set_LocalID i (value (PrepareRootMotion E sim tick C s)).
Proof.
  unfold PrepareRootMotion. change (Derived (set_LocalID i s)) with (Derived s).
  destruct (Derived s) as [d | d | d | d | d] eqn:Hd.
  - unfold ConstantForce_PrepareRootMotion, ret. cbn [value]. cbv zeta.
    rewrite !SetTime_explicit. reflexivity.
  - unfold RadialForce_PrepareRootMotion, ret. cbn [value]. cbv zeta.
    rewrite !SetTime_explicit. reflexivity.
  - unfold MoveToForce_PrepareRootMotion. cbv zeta.
    cbn [Duration set_RootMotionParams set_LocalID].
    destruct (Qltb UE_SMALL_NUMBER (Duration s) && Qltb UE_SMALL_NUMBER tick)%bool;
      unfold bind, ret, checkf; cbn [value]; rewrite !SetTime_explicit; reflexivity.
  - unfold MoveToDynamicForce_PrepareRootMotion. cbv zeta.
    cbn [Duration set_RootMotionParams set_LocalID].
    destruct (Qltb UE_SMALL_NUMBER (Duration s) && Qltb UE_SMALL_NUMBER tick)%bool;
      unfold bind, ret, checkf; cbn [value]; rewrite !SetTime_explicit; reflexivity.
  - unfold JumpForce_PrepareRootMotion. cbv zeta.
    cbn [Duration set_RootMotionParams set_LocalID GetTime CurrentTime].
    destruct (Qltb UE_SMALL_NUMBER (Duration s) && Qltb UE_SMALL_NUMBER tick
              && Qltb UE_SMALL_NUMBER sim)%bool.
    + destruct (Qltb 1 ((CurrentTime s + sim) / Duration s));
        unfold bind, ret, checkf; cbn [value]; rewrite !SetTime_explicit; reflexivity.
    + unfold bind, ret, checkf; cbn [value]; rewrite !SetTime_explicit; reflexivity.
Qed.

Lemma PrepareEntry_LocalID (E : Engine) (C : ABaseCharacter)
    (M : UBaseCharacterMovementComponent) (dt : Q) (force : bool)
    (s : FBaseRootMotionSource) (i : Z) :
  value (PrepareEntry E C M dt force (set_LocalID i s))
  = set_LocalID i (value (PrepareEntry E C M dt force s)).
Proof.
  unfold PrepareEntry. change (Status (set_LocalID i s)) with (Status s).
  destruct (negb (Status.HasFlag (Status s) Prepared) || force)%bool; [| reflexivity].
  unfold PrepareSource. cbv zeta. unfold bind, ret. cbn [value].
  change (SourceSimulationTime C M dt (set_LocalID i s))
    with (SourceSimulationTime C M dt s).
  change (set_bSimulatedNeedsSmoothing false (set_LocalID i s))
    with (set_LocalID i (set_bSimulatedNeedsSmoothing false s)).
  rewrite PrepareRootMotion_LocalID. reflexivity.
Qed.

Lemma PrepareEntry_keeps (E : Engine) (C : ABaseCharacter)
    (M : UBaseCharacterMovementComponent) (dt : Q) (force : bool)
    (s : FBaseRootMotionSource) :
  Priority (value (PrepareEntry E C M dt force s)) = Priority s
  /\ AccumulateMode (value (PrepareEntry E C M dt force s)) = AccumulateMode s.
Proof.
  unfold PrepareEntry.
  destruct (negb (Status.HasFlag (Status s) Prepared) || force)%bool.
  - destruct (PrepareSource_frame E C M dt s) as (p & st & ->). split; reflexivity.
  - split; reflexivity.
Qed.

Lemma PrepareLoop_value (E : Engine) (C : ABaseCharacter)
    (M : UBaseCharacterMovementComponent) (dt : Q) (force : bool)
    (l : list TSharedPtr) (a : PrepareSummary) :
  fst (value (PrepareLoop E C M dt force l a))
  = map (option_map (fun s => value (PrepareEntry E C M dt force s))) l.
Proof.
  revert a. induction l as [| p l IH]; intro a; [reflexivity |].
  destruct p as [s |]; cbn [PrepareLoop map option_map].
  - unfold bind. cbv zeta. cbn [value ret fst snd]. rewrite IH. f_equal. f_equal.
    unfold PrepareEntry, bind.
    destruct (negb (Status.HasFlag (Status s) Prepared) || force)%bool; reflexivity.
  - unfold bind. cbn [value ret fst snd]. rewrite IH. reflexivity.
Qed.

Lemma AccumulateLoop_override (M : UBaseCharacterMovementComponent)
    (l : list TSharedPtr) (v : FVector) :
  AccumulateLoop M AccumulateMode_Override l v
  = match FirstOverride l with
    | Some s => AccumulateRootMotionVelocityFromSource M s v
    | None => v
    end.
Proof.
  induction l as [| p l IH]; [reflexivity |].
  destruct p as [s |]; cbn [AccumulateLoop FirstOverride]; [| exact IH].
  destruct (AccumulateMode s =? AccumulateMode_Override)%Z; [reflexivity | exact IH].
Qed.

Lemma StableInsert_perm (x : TSharedPtr) (l : list TSharedPtr) :
  Permutation (StableInsert x l) (x :: l).
Proof.
  induction l as [| y l IH]; cbn [StableInsert]; [reflexivity |].
  destruct (SortPredicate y x); [| reflexivity].
  rewrite IH. apply perm_swap.
Qed.

Lemma StableSort_perm (l : list TSharedPtr) : Permutation (StableSort l) l.
Proof.
  induction l as [| x l IH]; cbn [StableSort]; [reflexivity |].
  rewrite StableInsert_perm. now apply perm_skip.
Qed.

Lemma AllValid_perm (l l' : list TSharedPtr) : Permutation l l' -> AllValid l -> AllValid l'.
Proof. unfold AllValid. intros H. now apply Permutation_Forall. Qed.

Lemma StableInsert_sorted (x : TSharedPtr) (l : list TSharedPtr) :
  IsValid x = true -> AllValid l ->
  StronglySorted Descending l -> StronglySorted Descending (StableInsert x l).
Proof.
  intros Hx Hl Hs. induction Hs as [| y l Hs IH Hy]; cbn [StableInsert].
  - constructor; constructor.
  - inversion Hl as [| ? ? Hvy Hvl]; subst.
    destruct x as [sx |]; [| discriminate]. destruct y as [sy |]; [| discriminate].
    cbn [SortPredicate]. destruct (Z.ltb_spec (Priority sx) (Priority sy)) as [Hlt | Hge].
    + constructor; [apply IH; assumption |].
      apply (Permutation_Forall (Permutation_sym (StableInsert_perm (Some sx) l))).
      constructor; [unfold Descending; cbn [PriorityOf]; lia | exact Hy].
    + constructor; [constructor; assumption |].
      constructor; [unfold Descending; cbn [PriorityOf]; lia |].
      eapply Forall_impl; [| exact Hy].
      intros z Hz. unfold Descending in *. cbn [PriorityOf] in *. lia.
Qed.

Lemma StableSort_sorted (l : list TSharedPtr) :
  AllValid l -> StronglySorted Descending (StableSort l).
Proof.
  induction 1 as [| x l Hx Hl IH]; cbn [StableSort]; [constructor |].
  apply StableInsert_sorted; [exact Hx | | exact IH].
  apply (AllValid_perm l); [symmetry; apply StableSort_perm | exact Hl].
Qed.

Lemma SortByPriority_sorted (l : list TSharedPtr) :
  AllValid l ->
  StronglySorted Descending (value (SortByPriority l))
  /\ Permutation (value (SortByPriority l)) l.
Proof.
  intro Hv. unfold SortByPriority.
  destruct (Nat.ltb_spec 1 (List.length l)) as [Hlen | Hlen]; cbn [value ret].
  - split; [apply StableSort_sorted; exact Hv | apply StableSort_perm].
  - split; [| reflexivity].
    destruct l as [| a [| b l]]; [constructor | constructor; constructor |].
    cbn in Hlen. lia.
Qed.

Lemma map_sorted (f : FBaseRootMotionSource -> FBaseRootMotionSource) (l : list TSharedPtr) :
  (forall s, Priority (f s) = Priority s) ->
  StronglySorted Descending l -> StronglySorted Descending (map (option_map f) l).
Proof.
  intros Hf Hs.
  assert (Hp : forall p, PriorityOf (option_map f p) = PriorityOf p).
  { intros [s |]; cbn; [apply Hf | reflexivity]. }
  induction Hs as [| y l Hs IH Hy]; cbn [map]; constructor; [exact IH |].
  apply Forall_map. eapply Forall_impl; [| exact Hy].
  intros z Hz. unfold Descending in *. rewrite !Hp. exact Hz.
Qed.

Lemma FirstOverride_none (l : list TSharedPtr) :
  FirstOverride l = None ->
  forall s, In (Some s) l -> AccumulateMode s <> AccumulateMode_Override.
Proof.
  induction l as [| p l IH]; intros Hn s Hin; [contradiction |].
  destruct p as [x |]; cbn [FirstOverride] in Hn.
  - destruct (Z.eqb_spec (AccumulateMode x) AccumulateMode_Override) as [He | Hne];
      [discriminate |].
    destruct Hin as [Hin | Hin]; [congruence | now apply IH].
  - destruct Hin as [Hin | Hin]; [discriminate | now apply IH].
Qed.

Lemma FirstOverride_max (l : list TSharedPtr) (s : FBaseRootMotionSource) :
  StronglySorted Descending l -> FirstOverride l = Some s ->
  In (Some s) l
  /\ AccumulateMode s = AccumulateMode_Override
  /\ forall s', In (Some s') l -> AccumulateMode s' = AccumulateMode_Override ->
                (Priority s' <= Priority s)%Z.
Proof.
  intros Hs. induction Hs as [| p l Hs IH Hp]; intro Hf; [discriminate |].
  destruct p as [x |]; cbn [FirstOverride] in Hf.
  - destruct (Z.eqb_spec (AccumulateMode x) AccumulateMode_Override) as [He | Hne].
    + injection Hf as <-. split; [left; reflexivity | split; [exact He |]].
      intros s' [Hin | Hin] _.
      * injection Hin as <-. lia.
      * rewrite Forall_forall in Hp. apply (Hp (Some s') Hin).
    + destruct (IH Hf) as (Hin & Hm & Hmax). split; [right; exact Hin | split; [exact Hm |]].
      intros s' [Hin' | Hin'] Hm'; [| now apply Hmax].
      injection Hin' as <-. contradiction.
  - destruct (IH Hf) as (Hin & Hm & Hmax). split; [right; exact Hin | split; [exact Hm |]].
    intros s' [Hin' | Hin'] Hm'; [discriminate | now apply Hmax].
Qed.

Lemma AccumulateFromSource_override (M : UBaseCharacterMovementComponent)
    (s : FBaseRootMotionSource) (v : FVector) :
  AccumulateMode s = AccumulateMode_Override ->
  AccumulateRootMotionVelocityFromSource M s v
  = if Settings.HasFlag (Settings s) IgnoreZAccumulate
    then Vec.setZ (WorldContribution M s) (VZ v)
    else WorldContribution M s.
Proof.
  intro Hm. unfold AccumulateRootMotionVelocityFromSource, WorldContribution.
  rewrite Hm. cbv zeta. change (AccumulateMode_Override =? AccumulateMode_Override)%Z with true.
  destruct (bInLocalSpace s), (UpdatedComponent M); reflexivity.
Qed.

(** The active list after the group's [PrepareRootMotion]. *)
Lemma Group_PrepareRootMotion_sources (E : Engine) (dt : Q) (C : ABaseCharacter)
    (M : UBaseCharacterMovementComponent) (force : bool) (g : FBaseRootMotionSourceGroup) :
  RootMotionSources (value (Group_PrepareRootMotion E dt C M force g))
  = map (option_map (fun s => value (PrepareEntry E C M dt force s)))
        (value (SortByPriority (RootMotionSources g ++ PendingAddRootMotionSources g))).
Proof.
  unfold Group_PrepareRootMotion. cbv zeta. unfold bind. cbn [value ret RootMotionSources].
  apply PrepareLoop_value.
Qed.

Lemma ApplySources_spec (l : list FBaseRootMotionSource) (gen : Z)
    (g : FBaseRootMotionSourceGroup) :
  exists ids : list Z,
    List.length ids = List.length l
    /\ RootMotionSources (snd (ApplySources gen g l)) = RootMotionSources g
    /\ PendingAddRootMotionSources (snd (ApplySources gen g l))
       = PendingAddRootMotionSources g
         ++ map (fun p => Some (set_LocalID (fst p) (snd p))) (combine ids l).
Proof.
  revert gen g. induction l as [| s l IH]; intros gen g.
  - exists []. cbn. rewrite app_nil_r. repeat split.
  - cbn [ApplySources]. unfold ApplyRootMotionSource. cbv zeta.
    destruct (uint16_incr gen =? RootMotionSourceID_Invalid)%Z.
    + match goal with
      | |- context [ApplySources ?gen' ?g' l] => destruct (IH gen' g') as (ids & Hl & Ha & Hp)
      end.
      exists (uint16_incr (uint16_incr gen) :: ids).
      cbn [fst snd] in *. rewrite Ha, Hp. cbn [RootMotionSources PendingAddRootMotionSources].
      rewrite <- app_assoc. cbn. repeat split. now rewrite Hl.
    + match goal with
      | |- context [ApplySources ?gen' ?g' l] => destruct (IH gen' g') as (ids & Hl & Ha & Hp)
      end.
      exists (uint16_incr gen :: ids).
      cbn [fst snd] in *. rewrite Ha, Hp. cbn [RootMotionSources PendingAddRootMotionSources].
      rewrite <- app_assoc. cbn. repeat split. now rewrite Hl.
Qed.

Lemma in_combine_exists (ids : list Z) (l : list FBaseRootMotionSource)
    (s : FBaseRootMotionSource) :
  List.length ids = List.length l -> In s l -> exists i, In (i, s) (combine ids l).
Proof.
  revert ids. induction l as [| x l IH]; intros ids Hlen Hin; [contradiction |].
  destruct ids as [| i ids]; [discriminate |].
  destruct Hin as [-> | Hin].
  - exists i. left. reflexivity.
  - destruct (IH ids) as [j Hj]; [cbn in Hlen; lia | exact Hin |].
    exists j. right. exact Hj.
Qed.

Lemma Prepared_sources_sorted (E : Engine) (dt : Q) (C : ABaseCharacter)
    (M : UBaseCharacterMovementComponent) (force : bool) (g : FBaseRootMotionSourceGroup) :
  AllValid (RootMotionSources g ++ PendingAddRootMotionSources g) ->
  StronglySorted Descending
    (RootMotionSources (value (Group_PrepareRootMotion E dt C M force g))).
Proof.
  intro Hv. rewrite Group_PrepareRootMotion_sources.
  apply map_sorted.
  - intro s. apply PrepareEntry_keeps.
  - apply SortByPriority_sorted. exact Hv.
Qed.

(** C1.  After the group's [PrepareRootMotion] (all its pointers being
    valid) the override accumulation applies exactly one source: the first
    Override source of the active list, whose priority no other Override
    source of the list exceeds; the velocity it yields is that source's
    contribution applied to the incoming velocity, whatever the other
    Override sources contribute, and the incoming velocity when there is no
    Override source.  In particular, for three Override sources of
    priorities 5, 1 and 9 applied to an empty group in any order, the result
    is the contribution of the prepared priority-9 source: its world-space
    velocity, with the incoming Z kept if that source ignores Z. *)
Theorem C1_override_highest_priority (E : Engine) (dt : Q) (C : ABaseCharacter)
    (M : UBaseCharacterMovementComponent) (force : bool) :
  (forall (g : FBaseRootMotionSourceGroup) (v : FVector),
      AllValid (RootMotionSources g ++ PendingAddRootMotionSources g) ->
      let g' := value (Group_PrepareRootMotion E dt C M force g) in
      let r := AccumulateOverrideRootMotionVelocity M g' v in
      checks_ok r = true
      /\ match FirstOverride (RootMotionSources g') with
         | Some s =>
             value r = AccumulateRootMotionVelocityFromSource M s v
             /\ In (Some s) (RootMotionSources g')
             /\ AccumulateMode s = AccumulateMode_Override
             /\ forall s', In (Some s') (RootMotionSources g') ->
                           AccumulateMode s' = AccumulateMode_Override ->
                           (Priority s' <= Priority s)%Z
         | None =>
             value r = v
             /\ forall s', In (Some s') (RootMotionSources g') ->
                           AccumulateMode s' <> AccumulateMode_Override
         end)
  /\ (forall (s5 s1 s9 : FBaseRootMotionSource) (order : list FBaseRootMotionSource)
             (gen : Z) (v : FVector),
         Priority s5 = 5%Z -> Priority s1 = 1%Z -> Priority s9 = 9%Z ->
         AccumulateMode s5 = AccumulateMode_Override ->
         AccumulateMode s1 = AccumulateMode_Override ->
         AccumulateMode s9 = AccumulateMode_Override ->
         Permutation order [s5; s1; s9] ->
         let g := snd (ApplySources gen New_Group order) in
         let g' := value (Group_PrepareRootMotion E dt C M force g) in
         let s9' := value (PrepareEntry E C M dt force s9) in
         value (AccumulateOverrideRootMotionVelocity M g' v)
         = AccumulateRootMotionVelocityFromSource M s9' v
         /\ AccumulateRootMotionVelocityFromSource M s9' v
            = (if Settings.HasFlag (Settings s9') IgnoreZAccumulate
               then Vec.setZ (WorldContribution M s9') (VZ v)
               else WorldContribution M s9')).
Proof.
  assert (General :
    forall (g : FBaseRootMotionSourceGroup) (v : FVector),
      AllValid (RootMotionSources g ++ PendingAddRootMotionSources g) ->
      let g' := value (Group_PrepareRootMotion E dt C M force g) in
      let r := AccumulateOverrideRootMotionVelocity M g' v in
      checks_ok r = true
      /\ match FirstOverride (RootMotionSources g') with
         | Some s =>
             value r = AccumulateRootMotionVelocityFromSource M s v
             /\ In (Some s) (RootMotionSources g')
             /\ AccumulateMode s = AccumulateMode_Override
             /\ forall s', In (Some s') (RootMotionSources g') ->
                           AccumulateMode s' = AccumulateMode_Override ->
                           (Priority s' <= Priority s)%Z
         | None =>
             value r = v
             /\ forall s', In (Some s') (RootMotionSources g') ->
                           AccumulateMode s' <> AccumulateMode_Override
         end).
  { intros g v Hv g' r. split; [reflexivity |].
    assert (Hr : value r
                 = match FirstOverride (RootMotionSources g') with
                   | Some s => AccumulateRootMotionVelocityFromSource M s v
                   | None => v
                   end).
    { unfold r, AccumulateOverrideRootMotionVelocity, AccumulateRootMotionVelocity, bind.
      cbn [value ret]. apply AccumulateLoop_override. }
    pose proof (Prepared_sources_sorted E dt C M force g Hv) as Hs. fold g' in Hs.
    destruct (FirstOverride (RootMotionSources g')) as [s |] eqn:Hf.
    - split; [exact Hr | apply FirstOverride_max; assumption].
    - split; [exact Hr | apply FirstOverride_none; assumption]. }
  split; [exact General |].
  intros s5 s1 s9 order gen v P5 P1 P9 M5 M1 M9 Hperm g g' s9'.
  split; [| apply AccumulateFromSource_override; unfold s9';
            rewrite (proj2 (PrepareEntry_keeps E C M dt force s9)); exact M9].
  set (f := fun s => value (PrepareEntry E C M dt force s)).
  destruct (ApplySources_spec order gen New_Group) as (ids & Hlen & Hact & Hpend).
  fold g in Hact, Hpend. cbn [New_Group RootMotionSources PendingAddRootMotionSources app] in *.
  set (L := map (fun p : Z * FBaseRootMotionSource => Some (set_LocalID (fst p) (snd p)))
                (combine ids order)) in *.
  assert (HL : RootMotionSources g ++ PendingAddRootMotionSources g = L).
  { rewrite Hact, Hpend. reflexivity. }
  assert (Hvalid : AllValid (RootMotionSources g ++ PendingAddRootMotionSources g)).
  { rewrite HL. unfold AllValid, L. apply Forall_map. apply Forall_forall. reflexivity. }
  assert (HP : RootMotionSources g' = map (option_map f) (value (SortByPriority L))).
  { unfold g'. rewrite Group_PrepareRootMotion_sources, HL. reflexivity. }
  (* every prepared source comes from one of the three *)
  assert (Hfrom : forall s, In (Some s) (RootMotionSources g') ->
                            exists i sk, In sk [s5; s1; s9] /\ s = f (set_LocalID i sk)).
  { intros s Hin. rewrite HP in Hin. apply in_map_iff in Hin.
    destruct Hin as (p & Hp & Hin).
    apply (Permutation_in _ (proj2 (SortByPriority_sorted L
             (eq_ind _ AllValid Hvalid _ HL)))) in Hin.
    unfold L in Hin. apply in_map_iff in Hin. destruct Hin as ((i & sk) & <- & Hin).
    cbn [fst snd option_map] in Hp. injection Hp as <-.
    exists i, sk. split; [| reflexivity].
    apply (Permutation_in _ Hperm). exact (in_combine_r _ _ _ _ Hin). }
  (* the prepared priority-9 source is in the list *)
  assert (H9 : exists i, In (Some (f (set_LocalID i s9))) (RootMotionSources g')).
  { assert (Hin9 : In s9 order).
    { apply (Permutation_in _ (Permutation_sym Hperm)). right. right. left. reflexivity. }
    destruct (in_combine_exists ids order s9 Hlen Hin9) as [i Hi].
    exists i. rewrite HP.
    apply (in_map (option_map f) _ (Some (set_LocalID i s9))).
    apply (Permutation_in _ (Permutation_sym (proj2 (SortByPriority_sorted L
             (eq_ind _ AllValid Hvalid _ HL))))).
    unfold L. apply (in_map (fun p : Z * FBaseRootMotionSource =>
                               Some (set_LocalID (fst p) (snd p))) _ (i, s9)). exact Hi. }
  destruct H9 as [i9 H9].
  assert (Hkeep : forall i sk, Priority (f (set_LocalID i sk)) = Priority sk
                               /\ AccumulateMode (f (set_LocalID i sk)) = AccumulateMode sk).
  { intros i sk. unfold f.
    destruct (PrepareEntry_keeps E C M dt force (set_LocalID i sk)) as [Ha Hb].
    split; [exact Ha | exact Hb]. }
  destruct (General g v Hvalid) as [_ Hgen]. fold g' in Hgen.
  destruct (FirstOverride (RootMotionSources g')) as [s |].
  - destruct Hgen as (Hval & Hin & Hm & Hmax).
    rewrite Hval.
    destruct (Hfrom s Hin) as (i & sk & Hsk & ->).
    specialize (Hmax _ H9). rewrite (proj2 (Hkeep i9 s9)) in Hmax. specialize (Hmax M9).
    rewrite (proj1 (Hkeep i9 s9)), (proj1 (Hkeep i sk)), P9 in Hmax.
    assert (Hsk9 : sk = s9).
    { destruct Hsk as [<- | [<- | [<- | []]]]; [lia | lia | reflexivity]. }
    subst sk. unfold f, s9'. rewrite PrepareEntry_LocalID. reflexivity.
  - destruct Hgen as [_ Hnone]. exfalso. apply (Hnone _ H9).
    rewrite (proj2 (Hkeep i9 s9)). exact M9.
Qed.

Lemma C1_override_highest_priority_witness :
  let mk p f :=
    set_Priority p
      (set_Derived (VConstantForce (ConstantForce.Mk f None)) New_ConstantForce) in
  let s5 := mk 5%Z (MkVector 5 0 0) in
  let s1 := mk 1%Z (MkVector 1 0 0) in
  let s9 := mk 9%Z (MkVector 9 0 0) in
  let g := snd (ApplySources 0 New_Group [s1; s5; s9]) in
  let g' := value (Group_PrepareRootMotion DemoEngine (1 # 10) DemoCharacter
                     DemoMoveComponent false g) in
  value (AccumulateOverrideRootMotionVelocity DemoMoveComponent g' (MkVector 1 2 3))
  = AccumulateRootMotionVelocityFromSource DemoMoveComponent
      (value (PrepareEntry DemoEngine DemoCharacter DemoMoveComponent (1 # 10)
                false s9)) (MkVector 1 2 3)
  /\ checks_ok (AccumulateOverrideRootMotionVelocity DemoMoveComponent g' (MkVector 1 2 3))
     = true.
Proof.
  cbv zeta.
  destruct (C1_override_highest_priority DemoEngine (1 # 10) DemoCharacter
              DemoMoveComponent false) as [Hgen Hthree].
  split.
  - apply (Hthree
             (set_Priority 5%Z
                (set_Derived (VConstantForce (ConstantForce.Mk (MkVector 5 0 0) None))
                   New_ConstantForce))
             (set_Priority 1%Z
                (set_Derived (VConstantForce (ConstantForce.Mk (MkVector 1 0 0) None))
                   New_ConstantForce))
             (set_Priority 9%Z
                (set_Derived (VConstantForce (ConstantForce.Mk (MkVector 9 0 0) None))
                   New_ConstantForce))).
    + reflexivity.
    + reflexivity.
    + reflexivity.
    + reflexivity.
    + reflexivity.
    + reflexivity.
    + apply perm_swap.
  - apply Hgen. vm_compute. repeat constructor.
Defined.

(** ** The buffer of replicated moves (C9) *)

Lemma ObjPtr_eqb_eq (a b : ObjPtr) : ObjPtr_eqb a b = true <-> a = b.
Proof.
  destruct a as [x |], b as [y |]; cbn; split; intro H;
    try discriminate; try reflexivity.
  - apply Nat.eqb_eq in H. congruence.
  - injection H as ->. apply Nat.eqb_refl.
Qed.

Lemma CanUseRootMotionRepMove_spec (W : MontageWorld)
    (m : FBaseSimulatedRootMotionReplicatedMove) (inst : FAnimMontageInstance) :
  CanUseRootMotionRepMove W m inst = true <-> UsableMove W m inst.
Proof.
  unfold CanUseRootMotionRepMove, UsableMove.
  destruct (Qle_bool_spec (TimeSince W (Time m)) (1 # 2)) as [Hage | Hage];
    [| split; [discriminate | intros [H _]; lra]].
  destruct (AnimMontage (RootMotion m)) as [sm |];
    [| split; [discriminate | intros (_ & mo & H & _); discriminate]].
  destruct (ObjPtr_eqb (Some sm) (Montage inst)) eqn:Hmo.
  - apply ObjPtr_eqb_eq in Hmo. cbv zeta.
    set (cur := GetSectionIndexFromPosition W sm (GetPosition inst)).
    destruct (Z.eqb_spec cur INDEX_NONE) as [Hnone | Hsome]; cbn [negb].
    + split; [discriminate |].
      intros (_ & mo & Hm1 & _ & Hs & _). injection Hm1 as <-. contradiction.
    + unfold FMath.Abs.
      destruct (Z.eqb_spec (GetSectionIndexFromPosition W sm (Position (RootMotion m))) cur)
        as [Hsame | Hdiff]; cbn [andb].
      * destruct (Qltb_spec ((GetPosition inst - Position (RootMotion m)) * GetPlayRate inst)
                            0) as [Hahead | Hnot].
        { rewrite andb_false_r. split; [discriminate |].
          intros (_ & mo & Hm1 & _ & _ & _ & _ & Hp). injection Hm1 as <-. lra. }
        rewrite andb_true_r.
        destruct (Z.eqb_spec (GetNextSectionID inst cur) cur) as [Hloop | Hnoloop];
          cbn [andb negb].
        { destruct (Qltb_spec (GetSectionLength W sm cur / 2)
                              (Qabs (GetPosition inst - Position (RootMotion m))))
            as [Hwrap | Hnowrap]; cbn [negb].
          - split; [discriminate |].
            intros (_ & mo & Hm1 & _ & _ & _ & Hl & _). injection Hm1 as <-.
            exfalso. apply Hl. split; assumption.
          - split; [intros _ | reflexivity].
            split; [exact Hage |]. exists sm. repeat split; auto.
            intros [_ Hw]. fold cur in Hw. lra. }
        split; [intros _ | reflexivity].
        split; [exact Hage |]. exists sm. repeat split; auto.
        intros [Hl _]. contradiction.
      * split; [discriminate |].
        intros (_ & mo & Hm1 & _ & _ & Hs & _). injection Hm1 as <-. contradiction.
  - split; [discriminate |].
    intros (_ & mo & Hm1 & Hm2 & _). injection Hm1 as <-.
    rewrite Hm2 in Hmo. rewrite (proj2 (ObjPtr_eqb_eq _ _) eq_refl) in Hmo. discriminate.
Qed.

Lemma FindRootMotionRepMove_from_spec (W : MontageWorld)
    (moves : list FBaseSimulatedRootMotionReplicatedMove) (inst : FAnimMontageInstance)
    (n : nat) :
  let r := FindRootMotionRepMove_from W moves inst n in
  (r = INDEX_NONE
   /\ forall j m, (j < n)%nat -> nth_error moves j = Some m ->
                  CanUseRootMotionRepMove W m inst = false)
  \/ (exists i m,
         r = Z.of_nat i /\ (i < n)%nat /\ nth_error moves i = Some m
         /\ CanUseRootMotionRepMove W m inst = true
         /\ forall j m', (i < j < n)%nat -> nth_error moves j = Some m' ->
                         CanUseRootMotionRepMove W m' inst = false).
Proof.
  induction n as [| n IH]; cbv zeta in *; cbn [FindRootMotionRepMove_from].
  - left. split; [reflexivity | intros; lia].
  - destruct (nth_error moves n) as [m |] eqn:Hn.
    + destruct (CanUseRootMotionRepMove W m inst) eqn:Hc.
      * right. exists n, m. repeat split; auto. intros; lia.
      * destruct IH as [[Hr Hall] | (i & m0 & Hr & Hi & Hm & Hu & Hlater)].
        { left. split; [exact Hr |]. intros j m' Hj Hm'.
          destruct (Nat.eq_dec j n) as [-> | Hne]; [congruence | apply (Hall j); [lia | auto]]. }
        right. exists i, m0. repeat split; auto.
        intros j m' Hj Hm'.
        destruct (Nat.eq_dec j n) as [-> | Hne]; [congruence | apply (Hlater j); [lia | auto]].
    + destruct IH as [[Hr Hall] | (i & m0 & Hr & Hi & Hm & Hu & Hlater)].
      * left. split; [exact Hr |]. intros j m' Hj Hm'.
        destruct (Nat.eq_dec j n) as [-> | Hne]; [congruence | apply (Hall j); [lia | auto]].
      * right. exists i, m0. repeat split; auto.
        intros j m' Hj Hm'.
        destruct (Nat.eq_dec j n) as [-> | Hne]; [congruence | apply (Hlater j); [lia | auto]].
Qed.

(** C9.  [CanUseRootMotionRepMove] holds of a buffered move exactly when the
    move was received at most half a second ago, its montage is the one the
    client plays, the move's and the client's positions lie in the same
    section of it, the client has not wrapped a looping section by more
    than half its length, and the move's position is not ahead of the
    client's in the direction of play.  [FindRootMotionRepMove] returns the
    index of the most recent such move (every more recent move fails the
    test) and [INDEX_NONE] when no move of the buffer passes; a move received
    more than half a second ago is never returned. *)
Theorem C9_find_usable_move (W : MontageWorld)
    (moves : list FBaseSimulatedRootMotionReplicatedMove) (inst : FAnimMontageInstance) :
  (forall m, CanUseRootMotionRepMove W m inst = true <-> UsableMove W m inst)
  /\ let r := FindRootMotionRepMove W moves inst in
     (r = INDEX_NONE /\ forall m, In m moves -> ~ UsableMove W m inst)
     \/ (exists i m,
            r = Z.of_nat i /\ nth_error moves i = Some m
            /\ UsableMove W m inst
            /\ TimeSince W (Time m) <= 1 # 2
            /\ forall j m', (i < j)%nat -> nth_error moves j = Some m' ->
                            ~ UsableMove W m' inst).
Proof.
  split; [intro m; apply CanUseRootMotionRepMove_spec |].
  cbv zeta. unfold FindRootMotionRepMove.
  destruct (FindRootMotionRepMove_from_spec W moves inst (List.length moves))
    as [[Hr Hall] | (i & m & Hr & Hi & Hm & Hu & Hlater)].
  - left. split; [exact Hr |]. intros m Hin Hus.
    apply In_nth_error in Hin. destruct Hin as [j Hj].
    assert (Hlt : (j < List.length moves)%nat).
    { apply nth_error_Some. congruence. }
    apply CanUseRootMotionRepMove_spec in Hus. rewrite (Hall j m Hlt Hj) in Hus. discriminate.
  - right. exists i, m.
    pose proof (proj1 (CanUseRootMotionRepMove_spec W m inst) Hu) as Hus.
    split; [exact Hr | split; [exact Hm | split; [exact Hus | split; [exact (proj1 Hus) |]]]].
    intros j m' Hj Hm' Hus'.
    assert (Hlt : (j < List.length moves)%nat).
    { apply nth_error_Some. congruence. }
    apply CanUseRootMotionRepMove_spec in Hus'.
    rewrite (Hlater j m' (conj Hj Hlt) Hm') in Hus'. discriminate.
Qed.

(** ** Serialization of a source (C4) *)

Lemma InitializeStruct_source (s : FBaseRootMotionSource) :
  exists t0, InitializeStruct (GetScriptStruct s) = Some t0
             /\ GetScriptStruct t0 = GetScriptStruct s
             /\ StartTime t0 = RootMotionSource_InvalidStartTime
             /\ PreviousTime t0 = 0
             /\ bNeedsSimulatedCatchup t0 = false
             /\ bSimulatedNeedsSmoothing t0 = false
             /\ RootMotionParams t0 = Params.Default
             /\ FinishVelocityParams t0 = FinishVelocity_Default.
Proof.
  unfold GetScriptStruct. destruct (Derived s); eexists; repeat split.
Qed.

(** Reading the items of [s], followed by anything, into an instance of the
    same type. *)
Lemma NetSerialize_read (s t : FBaseRootMotionSource) (e : bool) (rest : list WireItem) :
  GetScriptStruct t = GetScriptStruct s ->
  NetSerialize t (MkArchive true e (EncodeSource s ++ rest))
  = (Received s t, true, MkArchive true e rest).
Proof.
  intro H. destruct s as [? ? ? ? ? ? ? ? ? ? ? ? ? ? ? ds], t as [? ? ? ? ? ? ? ? ? ? ? ? ? ? ? dt].
  unfold GetScriptStruct in H. cbn [Derived] in H.
  destruct ds as [[] | [] | [] | [] | []], dt as [[] | [] | [] | [] | []];
    try discriminate H; reflexivity.
Qed.

Lemma NetSerialize_write (s : FBaseRootMotionSource) :
  NetSerialize s NewWriter = (s, true, MkArchive false false (EncodeSource s)).
Proof.
  destruct s as [? ? ? ? ? ? ? ? ? ? ? ? ? ? ? ds].
  destruct ds as [[] | [] | [] | [] | []]; reflexivity.
Qed.

(** C4, as amended.  Writing a source and reading the items into a
    default-constructed instance of the same type succeeds, consumes exactly
    the items written, and reproduces the members [NetSerialize] names:
    priority, local ID, accumulate mode, instance name, elapsed time,
    duration, the whole status byte, the local-space flag and the members of
    the concrete type.  The start time, the previous time, the settings
    flags, the finish-velocity settings, the catch-up and smoothing flags,
    the prepared contribution and the jump's saved halfway location are not
    sent; they keep their default-constructed values. *)
Theorem C4_round_trip (s : FBaseRootMotionSource) :
  exists t0 : FBaseRootMotionSource,
    InitializeStruct (GetScriptStruct s) = Some t0
    /\ NetSerialize s NewWriter = (s, true, MkArchive false false (EncodeSource s))
    /\ RoundTrip s = Some (Received s t0, true, NewReader [])
    /\ let r := Received s t0 in
       GetScriptStruct r = GetScriptStruct s
       /\ Priority r = Priority s /\ LocalID r = LocalID s
       /\ AccumulateMode r = AccumulateMode s /\ InstanceName r = InstanceName s
       /\ CurrentTime r = CurrentTime s /\ Duration r = Duration s
       /\ Status r = Status s /\ bInLocalSpace r = bInLocalSpace s
       /\ Derived r = ReceivedDerived (Derived s) (Derived t0)
       /\ StartTime r = RootMotionSource_InvalidStartTime
       /\ PreviousTime r = 0
       /\ Settings r = Settings t0
       /\ bNeedsSimulatedCatchup r = false
       /\ bSimulatedNeedsSmoothing r = false
       /\ RootMotionParams r = Params.Default
       /\ FinishVelocityParams r = FinishVelocity_Default.
Proof.
  destruct (InitializeStruct_source s) as (t0 & Hi & Ht & H1 & H2 & H3 & H4 & H5 & H6).
  exists t0. split; [exact Hi | split; [apply NetSerialize_write | split]].
  - unfold RoundTrip. rewrite Hi.
    rewrite <- (app_nil_r (EncodeSource s)). unfold NewReader.
    rewrite (NetSerialize_read s t0 false [] Ht). reflexivity.
  - cbv zeta. unfold Received.
    cbn [Priority LocalID AccumulateMode InstanceName CurrentTime Duration Status
         bInLocalSpace Derived StartTime PreviousTime Settings bNeedsSimulatedCatchup
         bSimulatedNeedsSmoothing RootMotionParams FinishVelocityParams].
    rewrite H1, H2, H3, H4, H5, H6.
    repeat split.
    unfold GetScriptStruct in *. cbn [Derived].
    destruct (Derived s), (Derived t0); try discriminate Ht; reflexivity.
Qed.

(** C4, the counterexample.  A constant force with start time 1 comes back
    with the invalid start time of a default-constructed source. *)
Lemma C4_counterexample :
  let s := set_StartTime 1 New_ConstantForce in
  RoundTrip s = Some (New_ConstantForce, true, NewReader [])
  /\ StartTime s = 1
  /\ StartTime New_ConstantForce = RootMotionSource_InvalidStartTime
  /\ ~ Stated_RoundTripReproducesFields.
Proof.
  cbv zeta. repeat split.
  intro H. specialize (H (set_StartTime 1 New_ConstantForce)).
  change (RoundTrip (set_StartTime 1 New_ConstantForce))
    with (Some (New_ConstantForce, true, NewReader [])) in H.
  cbv beta iota in H. discriminate H.
Qed.

(** ** Deserialization of a group (C8) *)














Lemma IsDerivedFromBaseRMS_source (s : FBaseRootMotionSource) :
  IsDerivedFromBaseRMS (GetScriptStruct s) = true.
Proof. unfold GetScriptStruct. destruct (Derived s); reflexivity. Qed.

(** The walk up the super structs ends within the fuel it is given: any
    larger fuel gives the same answer. *)
Lemma IsDerivedFromBaseRMS_fuel (ss : UScriptStruct) (fuel : nat) :
  (1 <= fuel)%nat ->
  SuperChainReachesBase fuel (GetSuperStruct ss) = IsDerivedFromBaseRMS ss.
Proof.
  intro Hf.
  assert (Foreign : forall k n, SuperChainReachesBase k (GetSuperStruct (ForeignStruct n))
                                = false).
  { induction k as [| k IH]; intro n; [reflexivity |].
    destruct n as [| n]; [reflexivity |]. cbn. apply IH. }
  destruct ss; try (destruct fuel; [lia | reflexivity]).
  unfold IsDerivedFromBaseRMS. rewrite !Foreign. reflexivity.
Qed.

Lemma AllValid_filter (l : list TSharedPtr) : AllValid (filter IsValid l).
Proof.
  unfold AllValid. apply Forall_forall. intros p Hp. apply filter_In in Hp. apply Hp.
Qed.



















(** ** Instances and runs on concrete inputs *)

Lemma C4_round_trip_witness :
  exists t0 : FBaseRootMotionSource,
    InitializeStruct (GetScriptStruct (set_StartTime 1 New_JumpForce)) = Some t0
    /\ RoundTrip (set_StartTime 1 New_JumpForce)
       = Some (Received (set_StartTime 1 New_JumpForce) t0, true, NewReader []).
Proof.
  destruct (C4_round_trip (set_StartTime 1 New_JumpForce)) as (t0 & H1 & _ & H3 & _).
  exists t0. split; [exact H1 | exact H3].
Defined.

Lemma C5_update_state_from_witness :
  let self := set_Status (Status.SetFlag 0 MarkedForRemoval) (set_Duration 5 New_RadialForce) in
  let other := set_CurrentTime 7 (set_Duration 5 New_RadialForce) in
  let r := UpdateStateFrom self (Some other) true in
  checks_ok r = true
  /\ snd (value r) = true
  /\ CurrentTime (fst (value r)) = GetTime other
  /\ PreviousTime (fst (value r)) = CurrentTime self
  /\ Status (fst (value r)) = StatusAfterUpdate self other
  /\ Status.HasFlag (Status (fst (value r))) MarkedForRemoval
     = (Status.HasFlag (Status self) MarkedForRemoval
        || Status.HasFlag (Status other) MarkedForRemoval)%bool
  /\ Status.HasFlag (Status (fst (value r))) Finished
     = (if IsTimeOutEnabled self then Qle_bool (Duration self) (GetTime other)
        else Status.HasFlag (Status other) Finished).
Proof.
  exact (C5_update_state_from
           (set_Status (Status.SetFlag 0 MarkedForRemoval) (set_Duration 5 New_RadialForce))
           (set_CurrentTime 7 (set_Duration 5 New_RadialForce)) true).
Defined.

Lemma C9_find_usable_move_witness :
  FindRootMotionRepMove DemoWorld DemoMoves DemoInstance = 1%Z
  /\ (forall m, CanUseRootMotionRepMove DemoWorld m DemoInstance = true
                <-> UsableMove DemoWorld m DemoInstance).
Proof.
  split; [reflexivity |].
  exact (proj1 (C9_find_usable_move DemoWorld DemoMoves DemoInstance)).
Defined.

(** The scenario of the specification for the constant force: force
    (100, 0, 0), no curve, unbounded, simulation time and tick time 0.1. *)
Example ConstantForce_scenario :
  let s := set_Derived (VConstantForce (ConstantForce.Mk (MkVector 100 0 0) None))
             New_ConstantForce in
  let s' := value (PrepareRootMotion DemoEngine (1 # 10) (1 # 10) DemoCharacter s) in
  Vec.eqb (TTranslation (RootMotionTransform (RootMotionParams s'))) (MkVector 100 0 0) = true
  /\ Qeq_bool (CurrentTime s') (1 # 10) = true
  /\ Status.HasFlag (Status s') Finished = false.
Proof. vm_compute. repeat split. Qed.

(** The scenario of the specification for the move-to force: from the
    origin to (1000, 0, 0) in 10 seconds, first second. *)
Example MoveToForce_scenario :
  let s := set_Duration 10
             (set_Derived
                (VMoveToForce (MoveToForce.Mk Vec.Zero (MkVector 1000 0 0) false None))
                New_MoveToForce) in
  let r := PrepareRootMotion DemoEngine 1 1 DemoCharacter s in
  checks_ok r = true
  /\ Vec.eqb (TTranslation (RootMotionTransform (RootMotionParams (value r))))
             (MkVector 100 0 0) = true.
Proof. vm_compute. repeat split. Qed.

(** Priorities 5, 1, 9 applied in that order: the prepared active list is
    ordered 9, 5, 1 and the override accumulation yields the force of the
    priority-9 source. *)
Example Override_scenario :
  let mk p f :=
    set_Priority p
      (set_Derived (VConstantForce (ConstantForce.Mk f None)) New_ConstantForce) in
  let g := snd (ApplySources 0 New_Group
                  [mk 5%Z (MkVector 5 0 0); mk 1%Z (MkVector 1 0 0); mk 9%Z (MkVector 9 0 0)]) in
  let g' := value (Group_PrepareRootMotion DemoEngine (1 # 10) DemoCharacter
                     DemoMoveComponent false g) in
  map PriorityOf (RootMotionSources g') = [9; 5; 1]%Z
  /\ map (option_map LocalID) (RootMotionSources g') = [Some 3; Some 1; Some 2]%Z
  /\ Vec.eqb (value (AccumulateOverrideRootMotionVelocity DemoMoveComponent g'
                       (MkVector 1 2 3)))
             (MkVector 9 0 0) = true.
Proof. vm_compute. repeat split. Qed.

(** Sources of equal priority keep the order in which they were applied. *)
Example StableSort_scenario :
  let mk p i := Some (set_LocalID i (set_Priority p New_RadialForce)) in
  map (option_map LocalID)
      (StableSort [mk 1%Z 10%Z; mk 2%Z 20%Z; mk 1%Z 30%Z; mk 2%Z 40%Z])
  = [Some 20; Some 40; Some 10; Some 30]%Z.
Proof. reflexivity. Qed.

(** The local ID generator skips the invalid ID when it wraps. *)
Example ApplyRootMotionSource_wraps :
  snd (ApplyRootMotionSource 65535 New_Group (Some New_RadialForce)) = 1%Z.
Proof. reflexivity. Qed.

(* ===================================================================== *)
(** * Further properties of the source group *)
(* ===================================================================== *)

(** ** Flag bytes *)

Lemma byte_high_bits (x n : Z) : (0 <= x < 256)%Z -> (8 <= n)%Z -> Z.testbit x n = false.
Proof.
  intros Hx Hn. rewrite <- (Z.mod_small x (2 ^ 8)) by (change (2 ^ 8)%Z with 256%Z; lia).
  apply Z.mod_pow2_bits_high. lia.
Qed.

Lemma byte_of_bits (x : Z) :
  (0 <= x)%Z -> (forall n, (8 <= n)%Z -> Z.testbit x n = false) -> (0 <= x < 256)%Z.
Proof.
  intros Hx Hbits.
  assert (E : (x mod 2 ^ 8)%Z = x).
  { apply Z.bits_inj'. intros n Hn.
    destruct (Z.lt_ge_cases n 8) as [Hlt | Hge].
    - apply Z.mod_pow2_bits_low. exact Hlt.
    - rewrite Z.mod_pow2_bits_high by lia. symmetry. apply Hbits. exact Hge. }
  rewrite <- E. change (2 ^ 8)%Z with 256%Z. apply Z.mod_pos_bound. lia.
Qed.

Lemma HasFlag_lor (a o c : Z) :
  Flags.HasFlag (Z.lor a o) c = Flags.HasFlag a c || Flags.HasFlag o c.
Proof.
  unfold Flags.HasFlag. rewrite Z.land_lor_distr_l.
  destruct (Z.eqb_spec (Z.land a c) 0) as [Ha | Ha];
    destruct (Z.eqb_spec (Z.land o c) 0) as [Ho | Ho]; cbn [negb orb].
  - rewrite Ha, Ho. reflexivity.
  - rewrite Ha, Z.lor_0_l. apply negb_true_iff, Z.eqb_neq. exact Ho.
  - apply negb_true_iff, Z.eqb_neq. intro H. apply Z.lor_eq_0_iff in H. tauto.
  - apply negb_true_iff, Z.eqb_neq. intro H. apply Z.lor_eq_0_iff in H. tauto.
Qed.

(** X1.  The flag operations of the status and settings bytes act on the
    named bits only.  On a flag byte [f] and a flag mask [b] (both within a
    byte): after [SetFlag b] the byte has the flag (when the mask is not
    empty), after [UnSetFlag b] it has not; neither changes the answer of
    [HasFlag] for a mask [c] that shares no bit with [b]; both leave the
    value within a byte; [Clear] leaves no flag; and after [+=] the byte has
    a flag exactly when one of the two operands had it. *)
Theorem X1_flag_operations (f o b c : Z) :
  (0 <= f < 256)%Z -> (0 <= b < 256)%Z -> Z.land b c = 0%Z ->
  Flags.HasFlag (Flags.SetFlag f b) b = negb (b =? 0)%Z
  /\ Flags.HasFlag (Flags.UnSetFlag f b) b = false
  /\ Flags.HasFlag (Flags.SetFlag f b) c = Flags.HasFlag f c
  /\ Flags.HasFlag (Flags.UnSetFlag f b) c = Flags.HasFlag f c
  /\ (0 <= Flags.SetFlag f b < 256)%Z
  /\ (0 <= Flags.UnSetFlag f b < 256)%Z
  /\ Flags.HasFlag (ClearFlags f) c = false
  /\ Flags.HasFlag (Settings.Accumulate f o) c = Flags.HasFlag f c || Flags.HasFlag o c.
Proof.
  intros Hf Hb Hbc.
  split; [| split; [| split; [| split; [| split; [| split; [| split]]]]]].
  - unfold Flags.HasFlag, Flags.SetFlag.
    replace (Z.land (Z.lor f b) b) with b; [reflexivity |].
    apply Z.bits_inj'. intros n Hn. rewrite Z.land_spec, Z.lor_spec.
    destruct (Z.testbit f n), (Z.testbit b n); reflexivity.
  - apply HasFlag_UnSetFlag_same.
  - apply HasFlag_SetFlag_other. exact Hbc.
  - apply HasFlag_UnSetFlag_other. exact Hbc.
  - unfold Flags.SetFlag. apply byte_of_bits.
    + apply Z.lor_nonneg. lia.
    + intros n Hn. rewrite Z.lor_spec, (byte_high_bits f n Hf Hn), (byte_high_bits b n Hb Hn).
      reflexivity.
  - unfold Flags.UnSetFlag. apply byte_of_bits.
    + apply Z.land_nonneg. lia.
    + intros n Hn. rewrite Z.land_spec, (byte_high_bits f n Hf Hn). reflexivity.
  - reflexivity.
  - apply HasFlag_lor.
Qed.

Lemma X1_flag_operations_witness :
  Flags.HasFlag (Flags.SetFlag 5 2) 2 = true
  /\ Flags.HasFlag (Flags.UnSetFlag 5 4) 4 = false
  /\ Flags.HasFlag (Flags.UnSetFlag 5 4) 1 = true.
Proof.
  destruct (X1_flag_operations 5 0 2 4) as (H1 & _); [lia | lia | reflexivity |].
  destruct (X1_flag_operations 5 0 4 1) as (_ & H2 & _ & H4 & _); [lia | lia | reflexivity |].
  split; [exact H1 | split; [exact H2 | exact H4]].
Defined.

(** ** The simulation time of a source *)

(** X2.  The simulated catch-up never shortens the simulation time and adds
    at most half a second, and at most half of the time by which the
    source's clock was set back; a source that needs no catch-up, or whose
    clock was not set back, gets the simulation time unchanged. *)
Theorem X2_simulated_catchup_bounds (s : FBaseRootMotionSource) (SimulationTime : Q) :
  SimulationTime <= SimulatedCatchup s SimulationTime
  /\ SimulatedCatchup s SimulationTime <= SimulationTime + (1 # 2)
  /\ SimulatedCatchup s SimulationTime - SimulationTime
     <= FMath.Max ((PreviousTime s - CurrentTime s) * (1 # 2)) 0
  /\ (if bNeedsSimulatedCatchup s && Qltb 0 (PreviousTime s - CurrentTime s)
      then True else SimulatedCatchup s SimulationTime = SimulationTime).
Proof.
  unfold SimulatedCatchup.
  pose proof (Max_ge_r ((PreviousTime s - CurrentTime s) * (1 # 2)) 0) as Hm0.
  pose proof (Max_ge_l ((PreviousTime s - CurrentTime s) * (1 # 2)) 0) as Hm1.
  destruct (bNeedsSimulatedCatchup s); cbn [andb].
  - destruct (Qltb_spec 0 (PreviousTime s - CurrentTime s)) as [Hpos | Hneg].
    + cbv zeta.
      destruct (Min_spec ((PreviousTime s - CurrentTime s) * (1 # 2)) (1 # 2))
        as [[Hlt ->] | [Hge ->]]; repeat split; lra.
    + repeat split; lra.
  - repeat split; lra.
Qed.

(** X3.  The start-of-source adjustment never lengthens the tick and never
    makes it negative: a source that has not started and whose start time
    lies after the character's movement time gets nothing while the tick
    ends at or before the start time, and otherwise exactly the part of the
    tick after the start time. *)
Theorem X3_partial_start_tick (C : ABaseCharacter) (M : UBaseCharacterMovementComponent)
    (dt : Q) (s : FBaseRootMotionSource) (SimulationTime : Q) :
  0 <= SimulationTime ->
  let t := CharacterMovementTime C M dt in
  let r := PartialStartTick C M dt s SimulationTime in
  0 <= r <= SimulationTime
  /\ (GetTime s == 0 -> IsStartTimeValid s = true -> 0 <= t -> t < GetStartTime s ->
      (t + SimulationTime <= GetStartTime s -> r = 0)
      /\ (GetStartTime s < t + SimulationTime -> r = t + SimulationTime - GetStartTime s))
  /\ (~ GetTime s == 0 -> r = SimulationTime)
  /\ (GetStartTime s <= t -> r = SimulationTime).
Proof.
  intros Hsim t r.
  assert (Cases :
    (GetTime s == 0 /\ IsStartTimeValid s = true /\ 0 <= t /\ t < GetStartTime s
     /\ ((t + SimulationTime <= GetStartTime s /\ r = 0)
         \/ (GetStartTime s < t + SimulationTime
             /\ r = t + SimulationTime - GetStartTime s)))
    \/ (r = SimulationTime
        /\ (~ GetTime s == 0 \/ IsStartTimeValid s = false \/ t < 0 \/ GetStartTime s <= t))).
  { unfold r, PartialStartTick. cbv zeta. fold t.
    destruct (Qeq_bool (GetTime s) 0) eqn:Hz; cbn [andb].
    - apply Qeq_bool_iff in Hz.
      destruct (IsStartTimeValid s) eqn:Hv.
      + destruct (Qle_bool_spec 0 t) as [Ht | Ht]; cbn [andb].
        * destruct (Qltb_spec t (GetStartTime s)) as [Hs | Hs].
          { left. split; [exact Hz | split; [reflexivity | split; [exact Ht | split;
              [exact Hs |]]]].
            destruct (Qle_bool_spec (t + SimulationTime) (GetStartTime s)) as [He | He].
            - left. split; [exact He | reflexivity].
            - right. split; [exact He | reflexivity]. }
          right. split; [reflexivity | right; right; right; exact Hs].
        * right. split; [reflexivity | right; right; left; exact Ht].
      + right. split; [reflexivity | right; left; reflexivity].
    - apply Qeq_bool_neq in Hz. right. split; [reflexivity | left; exact Hz]. }
  destruct Cases as [(Hz & Hv & Ht & Hs & [[He Hr] | [He Hr]]) | [Hr Hwhy]].
  - rewrite Hr. split; [lra |]. split; [| split].
    + intros _ _ _ _. split; [reflexivity | intro H; lra].
    + intro H. contradiction.
    + intro H. lra.
  - rewrite Hr. split; [lra |]. split; [| split].
    + intros _ _ _ _. split; [intro H; lra | reflexivity].
    + intro H. contradiction.
    + intro H. lra.
  - rewrite Hr. split; [lra |]. split; [| split].
    + intros Hz Hv Ht Hs.
      destruct Hwhy as [H | [H | [H | H]]];
        [contradiction | congruence | lra | lra].
    + reflexivity.
    + reflexivity.
Qed.

Lemma X3_partial_start_tick_witness :
  let C := MkCharacter Vec.Zero ROLE_AutonomousProxy false in
  let M := MkMoveComponent None (Some 10) None Vec.Zero in
  let s := set_StartTime (101 # 10) New_RadialForce in
  0 <= PartialStartTick C M (1 # 5) s (1 # 5) <= 1 # 5
  /\ PartialStartTick C M (1 # 5) s (1 # 5) = 10 + (1 # 5) - (101 # 10).
Proof.
  cbv zeta.
  destruct (X3_partial_start_tick (MkCharacter Vec.Zero ROLE_AutonomousProxy false)
              (MkMoveComponent None (Some 10) None Vec.Zero) (1 # 5)
              (set_StartTime (101 # 10) New_RadialForce) (1 # 5)) as (H1 & H2 & _).
  - apply Qle_bool_iff. reflexivity.
  - split; [exact H1 |].
    apply H2.
    + reflexivity.
    + reflexivity.
    + apply Qle_bool_iff. reflexivity.
    + reflexivity.
    + reflexivity.
Defined.

(** ** Preparing a source *)

(** The contribution [PrepareRootMotion] stores is a new pure translation, or
    the transform that was stored before. *)
Lemma PrepareRootMotion_params (E : Engine) (sim tick : Q) (C : ABaseCharacter)
    (s : FBaseRootMotionSource) :
  exists p,
    value (PrepareRootMotion E sim tick C s)
    = SetTime (GetTime s + sim) (set_RootMotionParams p s)
    /\ (TRotation (RootMotionTransform p) = Quat.Identity
        \/ RootMotionTransform p = RootMotionTransform (RootMotionParams s)).
Proof.
  unfold PrepareRootMotion.
  destruct (Derived s) as [d | d | d | d | d] eqn:Hd.
  - eexists. split.
    + unfold ConstantForce_PrepareRootMotion. cbv zeta. reflexivity.
    + left. cbn [RootMotionTransform Params.Set_].
      destruct (ConstantForce.StrengthOverTime d); reflexivity.
  - eexists. split.
    + unfold RadialForce_PrepareRootMotion. cbv zeta. reflexivity.
    + left. cbn [RootMotionTransform Params.Set_].
      destruct (negb (Qeq_bool sim tick) && Qltb UE_SMALL_NUMBER tick)%bool; reflexivity.
  - unfold MoveToForce_PrepareRootMotion.
    cbn [Duration set_RootMotionParams].
    destruct (Qltb UE_SMALL_NUMBER (Duration s) && Qltb UE_SMALL_NUMBER tick)%bool;
      eexists; (split; [reflexivity |]); [left | right]; reflexivity.
  - unfold MoveToDynamicForce_PrepareRootMotion.
    cbn [Duration set_RootMotionParams].
    destruct (Qltb UE_SMALL_NUMBER (Duration s) && Qltb UE_SMALL_NUMBER tick)%bool;
      eexists; (split; [reflexivity |]); [left | right]; reflexivity.
  - unfold JumpForce_PrepareRootMotion.
    cbn [Duration set_RootMotionParams].
    destruct (Qltb UE_SMALL_NUMBER (Duration s) && Qltb UE_SMALL_NUMBER tick
              && Qltb UE_SMALL_NUMBER sim)%bool.
    + cbv zeta. destruct (Qltb 1 _); eexists; (split; [reflexivity |]); left; reflexivity.
    + eexists; (split; [reflexivity |]); right; reflexivity.
Qed.

(** What the group's loop leaves in a source it prepares. *)
Lemma PrepareSource_explicit (E : Engine) (C : ABaseCharacter)
    (M : UBaseCharacterMovementComponent) (dt : Q) (s : FBaseRootMotionSource) :
  exists p,
    value (PrepareSource E C M dt s)
    = set_bNeedsSimulatedCatchup false
        (set_Status
           (Status.SetFlag
              (StatusAtTime s (CurrentTime s + SourceSimulationTime C M dt s)) Prepared)
           (set_CurrentTime (CurrentTime s + SourceSimulationTime C M dt s)
              (set_PreviousTime (CurrentTime s)
                 (set_RootMotionParams p (set_bSimulatedNeedsSmoothing false s)))))
    /\ (TRotation (RootMotionTransform p) = Quat.Identity
        \/ RootMotionTransform p = RootMotionTransform (RootMotionParams s)).
Proof.
  unfold PrepareSource. cbv zeta. unfold bind. cbn [value ret].
  destruct (PrepareRootMotion_params E (SourceSimulationTime C M dt s) dt C
              (set_bSimulatedNeedsSmoothing false s)) as (p & Hp & Hrot).
  rewrite Hp. exists p. split; [| exact Hrot].
  rewrite SetTime_explicit. unfold StatusAtTime, GetTime.
  replace (IsTimeOutEnabled (set_RootMotionParams p (set_bSimulatedNeedsSmoothing false s)))
    with (IsTimeOutEnabled s) by (symmetry; apply IsTimeOutEnabled_ext; reflexivity).
  reflexivity.
Qed.



(** ** The summary the group keeps of its sources *)

Lemma PrepareEntry_cases (E : Engine) (C : ABaseCharacter)
    (M : UBaseCharacterMovementComponent) (dt : Q) (force : bool) (s : FBaseRootMotionSource) :
  value (PrepareEntry E C M dt force s)
  = if IsPreparedByCall force (Some s) then value (PrepareSource E C M dt s) else s.
Proof.
  unfold PrepareEntry, IsPreparedByCall.
  destruct (negb (Status.HasFlag (Status s) Prepared) || force)%bool; reflexivity.
Qed.

Lemma PrepareEntry_Settings (E : Engine) (C : ABaseCharacter)
    (M : UBaseCharacterMovementComponent) (dt : Q) (force : bool) (s : FBaseRootMotionSource) :
  Settings (value (PrepareEntry E C M dt force s)) = Settings s.
Proof.
  rewrite PrepareEntry_cases. destruct (IsPreparedByCall force (Some s)); [| reflexivity].
  destruct (PrepareSource_explicit E C M dt s) as (p & -> & _). reflexivity.
Qed.

Lemma existsb_Permutation {A} (f : A -> bool) (l l' : list A) :
  Permutation l l' -> existsb f l = existsb f l'.
Proof.
  induction 1 as [| x l l' _ IH | x y l | l l' l'' _ IH1 _ IH2]; cbn [existsb].
  - reflexivity.
  - rewrite IH. reflexivity.
  - destruct (f x), (f y); reflexivity.
  - congruence.
Qed.

Lemma SortByPriority_perm (l : list TSharedPtr) : Permutation (value (SortByPriority l)) l.
Proof.
  unfold SortByPriority. destruct (1 <? List.length l)%nat; cbn [value ret].
  - apply StableSort_perm.
  - reflexivity.
Qed.

Lemma PrepareLoop_snd_cons (E : Engine) (C : ABaseCharacter)
    (M : UBaseCharacterMovementComponent) (dt : Q) (force : bool)
    (s : FBaseRootMotionSource) (l : list TSharedPtr) (a : PrepareSummary) :
  snd (value (PrepareLoop E C M dt force (Some s :: l) a))
  = snd (value (PrepareLoop E C M dt force l
                  (SummaryOfMode (value (PrepareEntry E C M dt force s))
                     (if IsPreparedByCall force (Some s)
                      then SummaryOfSettings (value (PrepareEntry E C M dt force s)) a
                      else a)))).
Proof.
  cbn [PrepareLoop]. unfold bind. cbv zeta. cbn [value ret fst snd].
  unfold PrepareEntry, IsPreparedByCall.
  destruct (negb (Status.HasFlag (Status s) Prepared) || force)%bool; reflexivity.
Qed.

Lemma PrepareLoop_snd_null (E : Engine) (C : ABaseCharacter)
    (M : UBaseCharacterMovementComponent) (dt : Q) (force : bool)
    (l : list TSharedPtr) (a : PrepareSummary) :
  snd (value (PrepareLoop E C M dt force (None :: l) a))
  = snd (value (PrepareLoop E C M dt force l a)).
Proof. reflexivity. Qed.

(** What the loop of the group's [PrepareRootMotion] accumulates. *)
Lemma PrepareLoop_summary (E : Engine) (C : ABaseCharacter)
    (M : UBaseCharacterMovementComponent) (dt : Q) (force : bool)
    (l : list TSharedPtr) (a : PrepareSummary) :
  let r := snd (value (PrepareLoop E C M dt force l a)) in
  sum_bHasOverrideSources r = sum_bHasOverrideSources a || existsb IsOverrideSource l
  /\ sum_bHasAdditiveSources r = sum_bHasAdditiveSources a || existsb IsAdditiveSource l
  /\ sum_bHasOverrideSourcesWithIgnoreZAccumulate r
     = sum_bHasOverrideSourcesWithIgnoreZAccumulate a || existsb IsOverrideIgnoringZ l
  /\ forall c,
       Flags.HasFlag (sum_LastAccumulatedSettings r) c
       = Flags.HasFlag (sum_LastAccumulatedSettings a) c
         || existsb (fun p => IsPreparedByCall force p && HasSettingsFlag c p) l.
Proof.
  revert a. induction l as [| p l IH]; intro a; cbv zeta.
  - cbn [PrepareLoop value ret snd existsb]. rewrite !orb_false_r.
    split; [reflexivity | split; [reflexivity | split; [reflexivity |]]].
    intro c. rewrite orb_false_r. reflexivity.
  - destruct p as [s |].
    + rewrite PrepareLoop_snd_cons.
      set (s' := value (PrepareEntry E C M dt force s)).
      assert (Hmode : AccumulateMode s' = AccumulateMode s) by apply PrepareEntry_keeps.
      assert (Hset : Settings s' = Settings s) by apply PrepareEntry_Settings.
      set (a1 := if IsPreparedByCall force (Some s) then SummaryOfSettings s' a else a).
      assert (Hsum : sum_bHasOverrideSources a1 = sum_bHasOverrideSources a
                     /\ sum_bHasAdditiveSources a1 = sum_bHasAdditiveSources a
                     /\ sum_bHasOverrideSourcesWithIgnoreZAccumulate a1
                        = sum_bHasOverrideSourcesWithIgnoreZAccumulate a
                     /\ sum_LastAccumulatedSettings a1
                        = if IsPreparedByCall force (Some s)
                          then Settings.Accumulate (sum_LastAccumulatedSettings a) (Settings s)
                          else sum_LastAccumulatedSettings a).
      { unfold a1. destruct (IsPreparedByCall force (Some s)).
        - unfold SummaryOfSettings. cbn. rewrite Hset. repeat split.
        - repeat split. }
      destruct Hsum as (S1 & S2 & S3 & S4).
      destruct (IH (SummaryOfMode s' a1)) as (I1 & I2 & I3 & I4).
      rewrite I1, I2, I3. clear I1 I2 I3.
      cbn [existsb IsOverrideSource IsAdditiveSource IsOverrideIgnoringZ].
      assert (M1 : sum_bHasOverrideSources (SummaryOfMode s' a1)
                   = sum_bHasOverrideSources a || (AccumulateMode s =? AccumulateMode_Override)%Z).
      { unfold SummaryOfMode. rewrite Hmode.
        destruct (Z.eqb_spec (AccumulateMode s) AccumulateMode_Additive) as [Ha | Ha].
        - rewrite Ha, S1. cbn. rewrite orb_false_r. reflexivity.
        - destruct (AccumulateMode s =? AccumulateMode_Override)%Z;
            cbn [sum_bHasOverrideSources]; rewrite ?S1;
            [rewrite orb_true_r | rewrite orb_false_r]; reflexivity. }
      assert (M2 : sum_bHasAdditiveSources (SummaryOfMode s' a1)
                   = sum_bHasAdditiveSources a || (AccumulateMode s =? AccumulateMode_Additive)%Z).
      { unfold SummaryOfMode. rewrite Hmode.
        destruct (Z.eqb_spec (AccumulateMode s) AccumulateMode_Additive) as [Ha | Ha].
        - cbn [sum_bHasAdditiveSources]. rewrite orb_true_r. reflexivity.
        - destruct (AccumulateMode s =? AccumulateMode_Override)%Z;
            cbn [sum_bHasAdditiveSources]; rewrite ?S2, orb_false_r; reflexivity. }
      assert (M3 : sum_bHasOverrideSourcesWithIgnoreZAccumulate (SummaryOfMode s' a1)
                   = sum_bHasOverrideSourcesWithIgnoreZAccumulate a
                     || ((AccumulateMode s =? AccumulateMode_Override)%Z
                         && Settings.HasFlag (Settings s) IgnoreZAccumulate)).
      { unfold SummaryOfMode. rewrite Hmode, Hset.
        destruct (Z.eqb_spec (AccumulateMode s) AccumulateMode_Additive) as [Ha | Ha].
        - rewrite Ha, S3. cbn. rewrite orb_false_r. reflexivity.
        - destruct (AccumulateMode s =? AccumulateMode_Override)%Z;
            cbn [sum_bHasOverrideSourcesWithIgnoreZAccumulate andb]; rewrite ?S3.
          + destruct (Settings.HasFlag (Settings s) IgnoreZAccumulate);
              [rewrite orb_true_r | rewrite orb_false_r]; reflexivity.
          + rewrite orb_false_r. reflexivity. }
      assert (M4 : sum_LastAccumulatedSettings (SummaryOfMode s' a1)
                   = sum_LastAccumulatedSettings a1).
      { unfold SummaryOfMode.
        destruct (AccumulateMode s' =? AccumulateMode_Additive)%Z; [reflexivity |].
        destruct (AccumulateMode s' =? AccumulateMode_Override)%Z; reflexivity. }
      rewrite M1, M2, M3, !orb_assoc.
      split; [reflexivity | split; [reflexivity | split; [reflexivity |]]].
      intro c. rewrite I4, M4, S4. cbn [existsb HasSettingsFlag].
      destruct (IsPreparedByCall force (Some s)); cbn [andb orb]; [| reflexivity].
      unfold Settings.Accumulate. rewrite HasFlag_lor, orb_assoc. reflexivity.
    + rewrite PrepareLoop_snd_null.
      cbn [existsb IsOverrideSource IsAdditiveSource IsOverrideIgnoringZ IsPreparedByCall
           orb andb].
      apply IH.
Qed.

Lemma Group_PrepareRootMotion_summary (E : Engine) (dt : Q) (C : ABaseCharacter)
    (M : UBaseCharacterMovementComponent) (force : bool) (g : FBaseRootMotionSourceGroup) :
  let g' := value (Group_PrepareRootMotion E dt C M force g) in
  let r := snd (value (PrepareLoop E C M dt force
                         (value (SortByPriority
                                   (RootMotionSources g ++ PendingAddRootMotionSources g)))
                         (MkSummary false false false 0))) in
  PendingAddRootMotionSources g' = []
  /\ bHasOverrideSources g' = sum_bHasOverrideSources r
  /\ bHasAdditiveSources g' = sum_bHasAdditiveSources r
  /\ bHasOverrideSourcesWithIgnoreZAccumulate g'
     = sum_bHasOverrideSourcesWithIgnoreZAccumulate r
  /\ LastAccumulatedSettings g' = sum_LastAccumulatedSettings r
  /\ bIsAdditiveVelocityApplied g' = bIsAdditiveVelocityApplied g
  /\ LastPreAdditiveVelocity g' = LastPreAdditiveVelocity g.
Proof.
  cbv zeta. unfold Group_PrepareRootMotion. cbv zeta. unfold bind.
  cbn [value ret RootMotionSources PendingAddRootMotionSources bHasOverrideSources
       bHasAdditiveSources bHasOverrideSourcesWithIgnoreZAccumulate LastAccumulatedSettings
       bIsAdditiveVelocityApplied LastPreAdditiveVelocity].
  repeat split.
Qed.

Lemma existsb_map_same {A} (f : A -> bool) (h : A -> A) (l : list A) :
  (forall x, f (h x) = f x) -> existsb f (map h l) = existsb f l.
Proof.
  intro H. induction l as [| x l IH]; cbn [map existsb]; [reflexivity |].
  rewrite H, IH. reflexivity.
Qed.

Lemma existsb_orb {A} (f g : A -> bool) (l : list A) :
  existsb (fun x => f x || g x) l = existsb f l || existsb g l.
Proof.
  induction l as [| x l IH]; cbn [existsb]; [reflexivity |].
  rewrite IH. destruct (f x), (g x), (existsb f l), (existsb g l); reflexivity.
Qed.

(** X5.  After the group's [PrepareRootMotion] the pending array is empty
    and the active array holds every entry the two arrays held; the flags
    the group answers its velocity queries from describe the active array:
    [HasOverrideVelocity] holds exactly when it has a valid source in
    Override mode, [HasAdditiveVelocity] exactly when it has a valid source
    in Additive mode, [HasOverrideVelocityWithIgnoreZAccumulate] exactly when
    one of its Override sources ignores Z, and [HasVelocity] exactly when it
    has a source of either mode.  [HasActiveRootMotionSources] answers as
    before the call, and the additive-velocity state is untouched. *)
Theorem X5_prepare_velocity_flags (E : Engine) (dt : Q) (C : ABaseCharacter)
    (M : UBaseCharacterMovementComponent) (force : bool) (g : FBaseRootMotionSourceGroup) :
  let g' := value (Group_PrepareRootMotion E dt C M force g) in
  PendingAddRootMotionSources g' = []
  /\ List.length (RootMotionSources g')
     = (List.length (RootMotionSources g) + List.length (PendingAddRootMotionSources g))%nat
  /\ HasOverrideVelocity g' = existsb IsOverrideSource (RootMotionSources g')
  /\ HasAdditiveVelocity g' = existsb IsAdditiveSource (RootMotionSources g')
  /\ HasOverrideVelocityWithIgnoreZAccumulate g'
     = existsb IsOverrideIgnoringZ (RootMotionSources g')
  /\ HasVelocity g'
     = existsb (fun p => IsOverrideSource p || IsAdditiveSource p) (RootMotionSources g')
  /\ HasActiveRootMotionSources g' = HasActiveRootMotionSources g
  /\ bIsAdditiveVelocityApplied g' = bIsAdditiveVelocityApplied g
  /\ LastPreAdditiveVelocity g' = LastPreAdditiveVelocity g.
Proof.
  cbv zeta.
  destruct (Group_PrepareRootMotion_summary E dt C M force g)
    as (Hp & Ho & Ha & Hz & _ & Hv & Hl).
  set (sorted := value (SortByPriority
                          (RootMotionSources g ++ PendingAddRootMotionSources g))) in *.
  destruct (PrepareLoop_summary E C M dt force sorted (MkSummary false false false 0))
    as (S1 & S2 & S3 & _).
  cbn [sum_bHasOverrideSources sum_bHasAdditiveSources
       sum_bHasOverrideSourcesWithIgnoreZAccumulate orb] in S1, S2, S3.
  pose proof (Group_PrepareRootMotion_sources E dt C M force g) as Hsrc. fold sorted in Hsrc.
  assert (Hmode : forall f : TSharedPtr -> bool,
             (forall s s', AccumulateMode s' = AccumulateMode s -> Settings s' = Settings s ->
                           f (Some s') = f (Some s)) ->
             existsb f (RootMotionSources (value (Group_PrepareRootMotion E dt C M force g)))
             = existsb f sorted).
  { intros f Hf. rewrite Hsrc. apply existsb_map_same.
    intros [s |]; cbn [option_map]; [| reflexivity].
    apply Hf; [apply PrepareEntry_keeps | apply PrepareEntry_Settings]. }
  assert (Hlen : List.length
                   (RootMotionSources (value (Group_PrepareRootMotion E dt C M force g)))
                 = (List.length (RootMotionSources g)
                    + List.length (PendingAddRootMotionSources g))%nat).
  { rewrite Hsrc, length_map. unfold sorted.
    rewrite (Permutation_length (SortByPriority_perm _)). apply length_app. }
  assert (E1 : existsb IsOverrideSource
                 (RootMotionSources (value (Group_PrepareRootMotion E dt C M force g)))
               = existsb IsOverrideSource sorted).
  { apply Hmode. intros s s' Hm _. cbn. rewrite Hm. reflexivity. }
  assert (E2 : existsb IsAdditiveSource
                 (RootMotionSources (value (Group_PrepareRootMotion E dt C M force g)))
               = existsb IsAdditiveSource sorted).
  { apply Hmode. intros s s' Hm _. cbn. rewrite Hm. reflexivity. }
  assert (E3 : existsb IsOverrideIgnoringZ
                 (RootMotionSources (value (Group_PrepareRootMotion E dt C M force g)))
               = existsb IsOverrideIgnoringZ sorted).
  { apply Hmode. intros s s' Hm Hs. cbn. rewrite Hm, Hs. reflexivity. }
  split; [exact Hp |]. split; [exact Hlen |].
  unfold HasOverrideVelocity, HasAdditiveVelocity, HasOverrideVelocityWithIgnoreZAccumulate,
    HasVelocity, HasOverrideVelocity, HasAdditiveVelocity, HasActiveRootMotionSources.
  rewrite existsb_orb, E1, E2, E3, Ho, Ha, Hz, S1, S2, S3, Hp, Hlen.
  repeat split; try assumption.
  destruct (RootMotionSources g), (PendingAddRootMotionSources g); reflexivity.
Qed.

(** X6.  [LastAccumulatedSettings] after the group's [PrepareRootMotion]
    collects the settings of the sources prepared by that call only: it has
    the flags of a mask exactly when a valid source that the call prepared
    (one not yet flagged Prepared, or any source when all are forced) has
    them.  Sources that were already prepared do not count. *)
Theorem X6_last_accumulated_settings (E : Engine) (dt : Q) (C : ABaseCharacter)
    (M : UBaseCharacterMovementComponent) (force : bool) (g : FBaseRootMotionSourceGroup)
    (c : Z) :
  let g' := value (Group_PrepareRootMotion E dt C M force g) in
  Flags.HasFlag (LastAccumulatedSettings g') c
  = existsb (fun p => IsPreparedByCall force p && HasSettingsFlag c p)
            (RootMotionSources g ++ PendingAddRootMotionSources g).
Proof.
  cbv zeta.
  destruct (Group_PrepareRootMotion_summary E dt C M force g) as (_ & _ & _ & _ & Hs & _).
  rewrite Hs.
  destruct (PrepareLoop_summary E C M dt force
              (value (SortByPriority (RootMotionSources g ++ PendingAddRootMotionSources g)))
              (MkSummary false false false 0)) as (_ & _ & _ & S4).
  rewrite S4. cbn [sum_LastAccumulatedSettings].
  change (Flags.HasFlag 0 c) with false. cbn [orb].
  apply existsb_Permutation, SortByPriority_perm.
Qed.

Lemma NeedsSimulatedSmoothing_loop_existsb (l : list TSharedPtr) :
  NeedsSimulatedSmoothing_loop l = existsb AsksForSmoothing l.
Proof.
  induction l as [| [s |] l IH]; cbn [NeedsSimulatedSmoothing_loop existsb AsksForSmoothing];
    [reflexivity | | exact IH].
  destruct (bSimulatedNeedsSmoothing s); [reflexivity | exact IH].
Qed.

(** X7.  After the group's [PrepareRootMotion], [NeedsSimulatedSmoothing]
    holds exactly when a valid source that the call did not prepare (it was
    already flagged Prepared and not forced) asks for smoothing: preparing a
    source clears its request, so after a call that forces all sources the
    group never needs smoothing. *)
Theorem X7_needs_simulated_smoothing (E : Engine) (dt : Q) (C : ABaseCharacter)
    (M : UBaseCharacterMovementComponent) (force : bool) (g : FBaseRootMotionSourceGroup) :
  NeedsSimulatedSmoothing (value (Group_PrepareRootMotion E dt C M force g))
  = existsb (fun p => negb (IsPreparedByCall force p) && AsksForSmoothing p)
            (RootMotionSources g ++ PendingAddRootMotionSources g)
  /\ NeedsSimulatedSmoothing (value (Group_PrepareRootMotion E dt C M true g)) = false.
Proof.
  assert (General : forall force',
    NeedsSimulatedSmoothing (value (Group_PrepareRootMotion E dt C M force' g))
    = existsb (fun p => negb (IsPreparedByCall force' p) && AsksForSmoothing p)
              (RootMotionSources g ++ PendingAddRootMotionSources g)).
  { intro force'. unfold NeedsSimulatedSmoothing.
    rewrite NeedsSimulatedSmoothing_loop_existsb, Group_PrepareRootMotion_sources.
    rewrite <- (existsb_Permutation _ _ _
                  (SortByPriority_perm
                     (RootMotionSources g ++ PendingAddRootMotionSources g))).
    induction (value (SortByPriority (RootMotionSources g ++ PendingAddRootMotionSources g)))
      as [| p l IH]; cbn [map existsb]; [reflexivity |].
    rewrite IH. f_equal.
    destruct p as [s |]; cbn [option_map AsksForSmoothing]; [| reflexivity].
    rewrite PrepareEntry_cases.
    destruct (IsPreparedByCall force' (Some s)); cbn [negb andb]; [| reflexivity].
    destruct (PrepareSource_explicit E C M dt s) as (p & -> & _). reflexivity. }
  split; [apply General |].
  rewrite General. clear General.
  induction (RootMotionSources g ++ PendingAddRootMotionSources g) as [| p l IH].
  - reflexivity.
  - cbn [existsb]. rewrite IH. destruct p as [s |].
    + cbn [IsPreparedByCall]. rewrite orb_true_r. reflexivity.
    + reflexivity.
Qed.

(** ** The rotation of the override source *)

Lemma PrepareEntry_pure (E : Engine) (C : ABaseCharacter)
    (M : UBaseCharacterMovementComponent) (dt : Q) (force : bool) (s : FBaseRootMotionSource) :
  PureTranslation s -> PureTranslation (value (PrepareEntry E C M dt force s)).
Proof.
  intro H. rewrite PrepareEntry_cases.
  destruct (IsPreparedByCall force (Some s)); [| exact H].
  destruct (PrepareSource_explicit E C M dt s) as (p & -> & [Hp | Hp]);
    unfold PureTranslation in *; cbn [RootMotionParams set_bNeedsSimulatedCatchup set_Status
      set_CurrentTime set_PreviousTime set_RootMotionParams]; [exact Hp |].
  rewrite Hp. exact H.
Qed.

Lemma GetOverrideRootMotionRotation_loop_pure (l : list TSharedPtr) (q : FQuat) :
  (forall s, In (Some s) l -> PureTranslation s) ->
  GetOverrideRootMotionRotation_loop l q
  = (if existsb IsOverrideSource l then Quat.Identity else q, false).
Proof.
  induction l as [| [s |] l IH]; intro H;
    cbn [GetOverrideRootMotionRotation_loop existsb IsOverrideSource orb].
  - reflexivity.
  - destruct (AccumulateMode s =? AccumulateMode_Override)%Z; cbn [orb].
    + cbv zeta. rewrite (H s (or_introl eq_refl)). reflexivity.
    + apply IH. intros s' Hs'. apply H. right. exact Hs'.
  - apply IH. intros s' Hs'. apply H. right. exact Hs'.
Qed.

(** X8.  No source of the file contributes a rotation.  Every
    [PrepareRootMotion] stores a pure translation (or leaves the stored
    transform alone), so if the sources handed to the group carry no
    rotation (as default-constructed ones do), none does after the group's
    [PrepareRootMotion], and [GetOverrideRootMotionRotation] then always
    returns false: it sets [OutRotation] to the identity when the active
    array has an Override source and leaves it alone otherwise. *)
Theorem X8_no_override_rotation (E : Engine) (dt : Q) (C : ABaseCharacter)
    (M : UBaseCharacterMovementComponent) (force : bool) (g : FBaseRootMotionSourceGroup)
    (OutRotation : FQuat) :
  (forall s, In (Some s) (RootMotionSources g ++ PendingAddRootMotionSources g) ->
             PureTranslation s) ->
  let g' := value (Group_PrepareRootMotion E dt C M force g) in
  (forall s', In (Some s') (RootMotionSources g') -> PureTranslation s')
  /\ GetOverrideRootMotionRotation g' OutRotation
     = (if HasOverrideVelocity g' then Quat.Identity else OutRotation, false).
Proof.
  intros Hpure g'.
  assert (Hall : forall s', In (Some s') (RootMotionSources g') -> PureTranslation s').
  { intros s' Hin. unfold g' in Hin. rewrite Group_PrepareRootMotion_sources in Hin.
    apply in_map_iff in Hin. destruct Hin as ([s |] & Heq & Hin); [| discriminate].
    injection Heq as <-. apply PrepareEntry_pure, Hpure.
    apply (Permutation_in _ (SortByPriority_perm _)). exact Hin. }
  split; [exact Hall |].
  unfold GetOverrideRootMotionRotation.
  rewrite (GetOverrideRootMotionRotation_loop_pure _ _ Hall).
  replace (HasOverrideVelocity g') with (existsb IsOverrideSource (RootMotionSources g'));
    [reflexivity |].
  unfold g', HasOverrideVelocity.
  destruct (Group_PrepareRootMotion_summary E dt C M force g) as (_ & -> & _).
  destruct (PrepareLoop_summary E C M dt force
              (value (SortByPriority (RootMotionSources g ++ PendingAddRootMotionSources g)))
              (MkSummary false false false 0)) as (-> & _).
  cbn [sum_bHasOverrideSources orb].
  rewrite Group_PrepareRootMotion_sources. apply existsb_map_same.
  intros [s |]; cbn [option_map IsOverrideSource]; [| reflexivity].
  rewrite (proj2 (PrepareEntry_keeps E C M dt force s)). reflexivity.
Qed.

Lemma X8_no_override_rotation_witness :
  let g := snd (ApplySources 0 New_Group [New_ConstantForce; New_JumpForce]) in
  GetOverrideRootMotionRotation
    (value (Group_PrepareRootMotion DemoEngine (1 # 10) DemoCharacter DemoMoveComponent
              false g)) (MkQuat 1 0 0 0)
  = (Quat.Identity, false).
Proof.
  cbv zeta.
  destruct (X8_no_override_rotation DemoEngine (1 # 10) DemoCharacter DemoMoveComponent false
              (snd (ApplySources 0 New_Group [New_ConstantForce; New_JumpForce]))
              (MkQuat 1 0 0 0)) as [_ H].
  - intros s [H | [H | []]]; injection H as <-; reflexivity.
  - rewrite H. reflexivity.
Defined.

(** ** The forces of the sources *)

Lemma VecEq_refl (a : FVector) : VecEq a a.
Proof. unfold VecEq. repeat split; reflexivity. Qed.

Lemma VecEq_sym (a b : FVector) : VecEq a b -> VecEq b a.
Proof. unfold VecEq. intros (H1 & H2 & H3). repeat split; symmetry; assumption. Qed.

Lemma VecEq_trans (a b c : FVector) : VecEq a b -> VecEq b c -> VecEq a c.
Proof.
  unfold VecEq. intros (H1 & H2 & H3) (K1 & K2 & K3).
  repeat split; etransitivity; eassumption.
Qed.

Lemma Contribution_SetTime (t : Q) (s : FBaseRootMotionSource) :
  Contribution (SetTime t s) = Contribution s.
Proof. rewrite SetTime_explicit. reflexivity. Qed.

(** X9.  A move-to force without path offset and without speed restriction,
    applied for the movement tick, carries the character exactly onto the
    straight line from the start to the target location, at the fraction of
    the duration the clock has reached by the end of the tick: when the
    clock reaches the duration, onto the target location itself, wherever
    the character was. *)
Theorem X9_move_to_reaches_target (E : Engine) (sim tick : Q) (C : ABaseCharacter)
    (s : FBaseRootMotionSource) (d : MoveToForce.t) :
  Derived s = VMoveToForce d ->
  MoveToForce.PathOffsetCurve d = None ->
  MoveToForce.bRestrictSpeedToExpected d = false ->
  UE_SMALL_NUMBER < Duration s -> UE_SMALL_NUMBER < tick ->
  let r := PrepareRootMotion E sim tick C s in
  let reached := Vec.add (ActorLocation C) (Vec.scale (Contribution (value r)) tick) in
  checks_ok r = true
  /\ VecEq reached
           (Vec.Lerp (MoveToForce.StartLocation d) (MoveToForce.TargetLocation d)
                     ((CurrentTime s + sim) / Duration s))
  /\ (CurrentTime s + sim == Duration s -> VecEq reached (MoveToForce.TargetLocation d)).
Proof.
  intros Hd Hcurve Hrestrict Hdur Htick r reached.
  assert (Hd' : Qltb UE_SMALL_NUMBER (Duration s) = true).
  { destruct (Qltb_spec UE_SMALL_NUMBER (Duration s)); [reflexivity | lra]. }
  assert (Ht' : Qltb UE_SMALL_NUMBER tick = true).
  { destruct (Qltb_spec UE_SMALL_NUMBER tick); [reflexivity | lra]. }
  assert (Htick0 : ~ tick == 0) by (unfold UE_SMALL_NUMBER in Htick; lra).
  assert (Hdur0 : ~ Duration s == 0) by (unfold UE_SMALL_NUMBER in Hdur; lra).
  assert (Hr : r = ret (SetTime (CurrentTime s + sim)
                          (set_RootMotionParams
                             (Params.Set_
                                (Transform.ofTranslation
                                   (Vec.div
                                      (Vec.sub
                                         (Vec.add
                                            (Vec.Lerp (MoveToForce.StartLocation d)
                                               (MoveToForce.TargetLocation d)
                                               ((CurrentTime s + sim) / Duration s))
                                            Vec.Zero)
                                         (ActorLocation C)) tick))
                                (Params.Clear (RootMotionParams s)))
                             (set_RootMotionParams (Params.Clear (RootMotionParams s)) s)))).
  { unfold r, PrepareRootMotion. rewrite Hd. unfold MoveToForce_PrepareRootMotion.
    cbv zeta. cbn [Duration set_RootMotionParams]. rewrite Hd', Ht'. cbn [andb].
    unfold MoveTo_Force, GetPathOffsetInWorldSpace. rewrite Hcurve, Hrestrict.
    cbn [andb]. reflexivity. }
  assert (Hline : VecEq reached
                    (Vec.Lerp (MoveToForce.StartLocation d) (MoveToForce.TargetLocation d)
                       ((CurrentTime s + sim) / Duration s))).
  { unfold reached. rewrite Hr. cbn [value ret]. rewrite Contribution_SetTime.
    unfold Contribution, VecEq.
    cbn [RootMotionParams set_RootMotionParams RootMotionTransform Params.Set_
         TTranslation Transform.ofTranslation].
    unfold Vec.div, Vec.sub, Vec.add, Vec.scale, Vec.Lerp, Vec.Zero. cbn [VX VY VZ].
    repeat split; field; exact Htick0. }
  split; [rewrite Hr; reflexivity |]. split; [exact Hline |].
  intro Hend. apply (VecEq_trans _ _ _ Hline).
  assert (Hone : (CurrentTime s + sim) / Duration s == 1).
  { rewrite Hend. field. exact Hdur0. }
  unfold VecEq, Vec.Lerp, Vec.add, Vec.scale, Vec.sub. cbn [VX VY VZ].
  rewrite Hone. repeat split; ring.
Qed.

Lemma X9_move_to_reaches_target_witness :
  let d := MoveToForce.Mk Vec.Zero (MkVector 1000 0 0) false None in
  let s := set_CurrentTime 9 (set_Duration 10 (set_Derived (VMoveToForce d) New_MoveToForce)) in
  let C := MkCharacter (MkVector 870 5 (-3)) ROLE_Authority false in
  VecEq (Vec.add (ActorLocation C)
           (Vec.scale (Contribution (value (PrepareRootMotion DemoEngine 1 (1 # 2) C s)))
              (1 # 2)))
        (MkVector 1000 0 0).
Proof.
  cbv zeta.
  refine (proj2 (proj2 (X9_move_to_reaches_target DemoEngine 1 (1 # 2)
                          (MkCharacter (MkVector 870 5 (-3)) ROLE_Authority false)
                          (set_CurrentTime 9
                             (set_Duration 10
                                (set_Derived
                                   (VMoveToForce
                                      (MoveToForce.Mk Vec.Zero (MkVector 1000 0 0) false None))
                                   New_MoveToForce)))
                          (MoveToForce.Mk Vec.Zero (MkVector 1000 0 0) false None)
                          eq_refl eq_refl eq_refl _ _)) _); reflexivity.
Defined.

Lemma Qsquare_nonneg (x : Q) : 0 <= x * x.
Proof.
  destruct (Qlt_le_dec x 0) as [Hneg | Hpos].
  - assert (H : 0 <= (- x) * (- x)) by (apply Qmult_le_0_compat; lra).
    assert (E : (- x) * (- x) == x * x) by ring.
    rewrite <- E. exact H.
  - apply Qmult_le_0_compat; assumption.
Qed.

(** X10.  The default arc of a jump (no path-offset curve, a height that is
    not negative) is the parabola over the move fraction scaled to the
    height: it has no sideways part, is zero at the start and at the end,
    reaches the height half way, never exceeds the height, is symmetric
    about the middle, and is not negative within the jump. *)
Theorem X10_jump_default_arc (E : Engine) (d : JumpForce.t) (f : Q) :
  JumpForce.PathOffsetCurve d = None -> 0 <= JumpForce.Height d ->
  let arc := JumpForce_GetPathOffset E d in
  VX (arc f) == 0 /\ VY (arc f) == 0
  /\ VZ (arc 0) == 0 /\ VZ (arc 1) == 0
  /\ VZ (arc (1 # 2)) == JumpForce.Height d
  /\ VZ (arc f) <= JumpForce.Height d
  /\ VZ (arc f) == VZ (arc (1 - f))
  /\ (0 <= f <= 1 -> 0 <= VZ (arc f)).
Proof.
  intros Hcurve Hh arc.
  assert (Harc : forall x, arc x
                 = MkVector 0 0 ((- ((2 * x - 1) * (2 * x - 1)) + 1) * JumpForce.Height d)).
  { intro x. unfold arc, JumpForce_GetPathOffset. rewrite Hcurve. cbv zeta.
    destruct (Qle_bool_spec 0 (JumpForce.Height d)) as [_ | Hneg]; [reflexivity | lra]. }
  rewrite !Harc. cbn [VX VY VZ].
  set (h := JumpForce.Height d) in *.
  split; [reflexivity |]. split; [reflexivity |].
  split; [ring |]. split; [ring |]. split; [field |].
  split.
  { pose proof (Qsquare_nonneg (2 * f - 1)) as Hsq.
    pose proof (Qmult_le_0_compat _ _ Hsq Hh) as Hp. lra. }
  split; [ring |].
  intros [H0 H1].
  assert (Hf : 0 <= f * (1 - f)) by (apply Qmult_le_0_compat; lra).
  pose proof (Qmult_le_0_compat _ _ Hf Hh) as Hp. lra.
Qed.

Lemma X10_jump_default_arc_witness :
  let d := JumpForce.Mk Rot.Zero 300 120 false None None Vec.Zero in
  VZ (JumpForce_GetPathOffset DemoEngine d (1 # 2)) == 120
  /\ VZ (JumpForce_GetPathOffset DemoEngine d (1 # 4)) <= 120.
Proof.
  cbv zeta.
  destruct (X10_jump_default_arc DemoEngine
              (JumpForce.Mk Rot.Zero 300 120 false None None Vec.Zero) (1 # 4))
    as (_ & _ & _ & _ & H5 & H6 & _).
  - reflexivity.
  - apply Qle_bool_iff. reflexivity.
  - split; [exact H5 | exact H6].
Defined.

(** X11.  A radial force does not reach a character at or beyond its
    radius: when the distance from the force location (the location actor's,
    if there is one) to the character is not smaller than the radius, the
    contribution the source stores is zero in every coordinate, whatever the
    strength, the curves, the direction settings and the time scaling. *)
Theorem X11_radial_force_outside_radius (E : Engine) (sim tick : Q) (C : ABaseCharacter)
    (s : FBaseRootMotionSource) (d : RadialForce.t) :
  Derived s = VRadialForce d ->
  RadialForce.Radius d
  <= FVector_Dist E (RadialForce_ForceLocation E d) (ActorLocation C) ->
  VecEq (Contribution (value (PrepareRootMotion E sim tick C s))) Vec.Zero.
Proof.
  intros Hd Hout. unfold PrepareRootMotion. rewrite Hd. cbn [value ret].
  unfold RadialForce_PrepareRootMotion. cbv zeta. rewrite Contribution_SetTime.
  unfold Contribution.
  cbn [RootMotionParams set_RootMotionParams RootMotionTransform Params.Set_].
  assert (Hforce : VecEq (RadialForce_Force E C
                            (set_RootMotionParams (Params.Clear (RootMotionParams s)) s) d)
                         Vec.Zero).
  { unfold RadialForce_Force. cbv zeta.
    destruct (Qltb_spec (FVector_Dist E (RadialForce_ForceLocation E d) (ActorLocation C))
                (RadialForce.Radius d)) as [Hin | _]; [lra |].
    destruct (RadialForce.bNoZForce d); apply VecEq_refl. }
  destruct Hforce as (H1 & H2 & H3).
  destruct (negb (Qeq_bool sim tick) && Qltb UE_SMALL_NUMBER tick)%bool;
    unfold VecEq; cbn [TTranslation Transform.ScaleTranslation Transform.ofTranslation
                       Vec.scale VX VY VZ Vec.Zero] in *.
  - rewrite H1, H2, H3. repeat split; ring.
  - repeat split; assumption.
Qed.

Lemma X11_radial_force_outside_radius_witness :
  let d := RadialForce.Mk Vec.Zero None 100 500 true false None None false Rot.Zero in
  let s := set_Derived (VRadialForce d) New_RadialForce in
  let C := MkCharacter (MkVector 100 0 0) ROLE_Authority false in
  VecEq (Contribution (value (PrepareRootMotion DemoEngine (1 # 10) (1 # 10) C s))) Vec.Zero.
Proof.
  cbv zeta.
  apply (X11_radial_force_outside_radius DemoEngine (1 # 10) (1 # 10)
           (MkCharacter (MkVector 100 0 0) ROLE_Authority false)
           (set_Derived
              (VRadialForce
                 (RadialForce.Mk Vec.Zero None 100 500 true false None None false Rot.Zero))
              New_RadialForce)
           (RadialForce.Mk Vec.Zero None 100 500 true false None None false Rot.Zero)).
  - reflexivity.
  - apply Qle_bool_iff. reflexivity.
Defined.

(** ** Additive accumulation *)

Lemma AccumulateFromSource_additive_sum (M : UBaseCharacterMovementComponent)
    (s : FBaseRootMotionSource) (v : FVector) :
  AccumulateMode s = AccumulateMode_Additive ->
  VecEq (AccumulateRootMotionVelocityFromSource M s v)
        (Vec.add v (AdditiveContribution M (Some s))).
Proof.
  intro Hm. rewrite (AccumulateFromSource_additive M s v Hm).
  unfold AdditiveContribution. rewrite Hm. cbn [Z.eqb AccumulateMode_Additive Pos.eqb].
  change (AccumulateMode_Additive =? AccumulateMode_Additive)%Z with true. cbv iota.
  destruct (Settings.HasFlag (Settings s) IgnoreZAccumulate);
    unfold VecEq, Vec.add, Vec.setZ; cbn [VX VY VZ]; repeat split; ring.
Qed.

Lemma AccumulateLoop_compat (M : UBaseCharacterMovementComponent) (l : list TSharedPtr)
    (v w : FVector) :
  VecEq v w ->
  VecEq (AccumulateLoop M AccumulateMode_Additive l v)
        (AccumulateLoop M AccumulateMode_Additive l w).
Proof.
  revert v w. induction l as [| [s |] l IH]; intros v w Hvw; cbn [AccumulateLoop].
  - exact Hvw.
  - destruct (Z.eqb_spec (AccumulateMode s) AccumulateMode_Additive) as [Ha | Ha].
    + rewrite Ha. change (AccumulateMode_Additive =? AccumulateMode_Override)%Z with false.
      cbv iota. apply IH.
      apply (VecEq_trans _ _ _ (AccumulateFromSource_additive_sum M s v Ha)).
      apply VecEq_sym.
      apply (VecEq_trans _ _ _ (AccumulateFromSource_additive_sum M s w Ha)).
      destruct Hvw as (H1 & H2 & H3). unfold VecEq, Vec.add. cbn [VX VY VZ].
      rewrite H1, H2, H3. repeat split; reflexivity.
    + apply IH. exact Hvw.
  - apply IH. exact Hvw.
Qed.

Lemma AccumulateLoop_additive_sum (M : UBaseCharacterMovementComponent)
    (l : list TSharedPtr) (v : FVector) :
  VecEq (AccumulateLoop M AccumulateMode_Additive l v) (Vec.add v (SumOfContributions M l)).
Proof.
  revert v. induction l as [| [s |] l IH]; intro v;
    cbn [AccumulateLoop SumOfContributions].
  - unfold VecEq, Vec.add, Vec.Zero. cbn [VX VY VZ]. repeat split; ring.
  - destruct (Z.eqb_spec (AccumulateMode s) AccumulateMode_Additive) as [Ha | Ha].
    + rewrite Ha. change (AccumulateMode_Additive =? AccumulateMode_Override)%Z with false.
      cbv iota.
      apply (VecEq_trans _ _ _ (IH _)).
      destruct (AccumulateFromSource_additive_sum M s v Ha) as (H1 & H2 & H3).
      unfold VecEq, Vec.add in *. cbn [VX VY VZ] in *.
      rewrite H1, H2, H3. repeat split; ring.
    + apply (VecEq_trans _ _ _ (IH _)).
      unfold AdditiveContribution.
      destruct (Z.eqb_spec (AccumulateMode s) AccumulateMode_Additive) as [Ha' | _];
        [contradiction |].
      unfold VecEq, Vec.add, Vec.Zero. cbn [VX VY VZ]. repeat split; ring.
  - apply (VecEq_trans _ _ _ (IH _)).
    unfold VecEq, Vec.add, AdditiveContribution, Vec.Zero. cbn [VX VY VZ].
    repeat split; ring.
Qed.

Lemma SumOfContributions_perm (M : UBaseCharacterMovementComponent)
    (l l' : list TSharedPtr) :
  Permutation l l' -> VecEq (SumOfContributions M l) (SumOfContributions M l').
Proof.
  induction 1 as [| x l l' _ IH | x y l | l l' l'' _ IH1 _ IH2]; cbn [SumOfContributions].
  - apply VecEq_refl.
  - destruct IH as (H1 & H2 & H3). unfold VecEq, Vec.add. cbn [VX VY VZ].
    rewrite H1, H2, H3. repeat split; reflexivity.
  - unfold VecEq, Vec.add. cbn [VX VY VZ]. repeat split; ring.
  - eapply VecEq_trans; eassumption.
Qed.

(** X12.  The additive accumulation adds to the incoming velocity the sum
    of what the valid Additive sources of the active array contribute (each
    its stored contribution in world space, without the Z part when the
    source ignores Z); Override sources and null entries add nothing.  So,
    unlike the override accumulation, it does not depend on the order of the
    array. *)
Theorem X12_additive_accumulation (M : UBaseCharacterMovementComponent)
    (g : FBaseRootMotionSourceGroup) (v : FVector) :
  checks_ok (AccumulateAdditiveRootMotionVelocity M g v) = true
  /\ VecEq (value (AccumulateAdditiveRootMotionVelocity M g v))
           (Vec.add v (SumOfContributions M (RootMotionSources g)))
  /\ forall g' : FBaseRootMotionSourceGroup,
       Permutation (RootMotionSources g) (RootMotionSources g') ->
       VecEq (value (AccumulateAdditiveRootMotionVelocity M g v))
             (value (AccumulateAdditiveRootMotionVelocity M g' v)).
Proof.
  assert (Hval : forall h, value (AccumulateAdditiveRootMotionVelocity M h v)
                           = AccumulateLoop M AccumulateMode_Additive (RootMotionSources h) v)
    by reflexivity.
  split; [reflexivity |]. split.
  - rewrite Hval. apply AccumulateLoop_additive_sum.
  - intros g' Hperm. rewrite !Hval.
    apply (VecEq_trans _ _ _ (AccumulateLoop_additive_sum M _ v)).
    apply VecEq_sym.
    apply (VecEq_trans _ _ _ (AccumulateLoop_additive_sum M _ v)).
    destruct (SumOfContributions_perm M _ _ Hperm) as (H1 & H2 & H3).
    unfold VecEq, Vec.add. cbn [VX VY VZ]. rewrite H1, H2, H3. repeat split; reflexivity.
Qed.

Lemma X12_additive_accumulation_witness :
  let a := Some (DemoAdditiveSource (MkVector 1 2 3) FinishVelocity_Default) in
  let b := Some (DemoAdditiveSource (MkVector 10 20 30) FinishVelocity_Default) in
  VecEq (value (AccumulateAdditiveRootMotionVelocity DemoMoveComponent
                  (set_Sources [a; None; b] [] New_Group) Vec.Zero))
        (value (AccumulateAdditiveRootMotionVelocity DemoMoveComponent
                  (set_Sources [b; a; None] [] New_Group) Vec.Zero)).
Proof.
  cbv zeta.
  apply (proj2 (proj2 (X12_additive_accumulation DemoMoveComponent
                         (set_Sources
                            [Some (DemoAdditiveSource (MkVector 1 2 3) FinishVelocity_Default);
                             None;
                             Some (DemoAdditiveSource (MkVector 10 20 30)
                                     FinishVelocity_Default)] [] New_Group) Vec.Zero))).
  cbn [RootMotionSources set_Sources].
  apply Permutation_sym.
  apply (Permutation_cons_app [_; _] [] _). reflexivity.
Defined.

(** ** Lookup, removal and cleanup *)

Lemma FindSource_app (test : FBaseRootMotionSource -> bool) (l1 l2 : list TSharedPtr) :
  FindSource test (l1 ++ l2)
  = match FindSource test l1 with
    | Some s => Some s
    | None => FindSource test l2
    end.
Proof.
  induction l1 as [| [s |] l1 IH]; cbn [app FindSource]; [reflexivity | | exact IH].
  destruct (test s); [reflexivity | exact IH].
Qed.

Lemma FindSource_spec (test : FBaseRootMotionSource -> bool) (l : list TSharedPtr) :
  match FindSource test l with
  | Some s =>
      test s = true
      /\ exists pre post, l = pre ++ Some s :: post
                          /\ forall s', In (Some s') pre -> test s' = false
  | None => forall s, In (Some s) l -> test s = false
  end.
Proof.
  induction l as [| [s |] l IH]; cbn [FindSource].
  - intros s [].
  - destruct (test s) eqn:Ht.
    + split; [exact Ht |]. exists [], l. split; [reflexivity | intros s' []].
    + destruct (FindSource test l) as [x |].
      * destruct IH as (Hx & pre & post & -> & Hpre). split; [exact Hx |].
        exists (Some s :: pre), post. split; [reflexivity |].
        intros s' [H | H]; [injection H as <-; exact Ht | apply Hpre, H].
      * intros s' [H | H]; [injection H as <-; exact Ht | apply IH, H].
  - destruct (FindSource test l) as [x |].
    + destruct IH as (Hx & pre & post & -> & Hpre). split; [exact Hx |].
      exists (None :: pre), post. split; [reflexivity |].
      intros s' [H | H]; [discriminate | apply Hpre, H].
    + intros s' [H | H]; [discriminate | apply IH, H].
Qed.

Lemma GetRootMotionSourceByID_app (id : Z) (g : FBaseRootMotionSourceGroup) :
  GetRootMotionSourceByID id g
  = FindSource (fun s => (LocalID s =? id)%Z)
               (RootMotionSources g ++ PendingAddRootMotionSources g).
Proof. unfold GetRootMotionSourceByID. rewrite FindSource_app. reflexivity. Qed.

Lemma GetRootMotionSource_app (name : string) (g : FBaseRootMotionSourceGroup) :
  GetRootMotionSource name g
  = FindSource (fun s => String.eqb (InstanceName s) name)
               (RootMotionSources g ++ PendingAddRootMotionSources g).
Proof. unfold GetRootMotionSource. rewrite FindSource_app. reflexivity. Qed.

(** X13.  The two lookups search the active array first and the pending
    array after it: the source returned has the local ID (or the instance
    name) asked for and is the first valid such entry in that order; a null
    pointer is returned exactly when no valid entry of either array has
    it. *)
Theorem X13_lookup (g : FBaseRootMotionSourceGroup) (id : Z) (name : string) :
  let all := RootMotionSources g ++ PendingAddRootMotionSources g in
  match GetRootMotionSourceByID id g with
  | Some s =>
      LocalID s = id
      /\ exists pre post, all = pre ++ Some s :: post
                          /\ forall s', In (Some s') pre -> LocalID s' <> id
  | None => forall s, In (Some s) all -> LocalID s <> id
  end
  /\ match GetRootMotionSource name g with
     | Some s =>
         InstanceName s = name
         /\ exists pre post, all = pre ++ Some s :: post
                             /\ forall s', In (Some s') pre -> InstanceName s' <> name
     | None => forall s, In (Some s) all -> InstanceName s <> name
     end.
Proof.
  cbv zeta. split.
  - rewrite GetRootMotionSourceByID_app.
    pose proof (FindSource_spec (fun s => (LocalID s =? id)%Z)
                  (RootMotionSources g ++ PendingAddRootMotionSources g)) as H.
    destruct (FindSource _ _) as [s |].
    + destruct H as (Hs & pre & post & Heq & Hpre).
      split; [apply Z.eqb_eq, Hs |]. exists pre, post. split; [exact Heq |].
      intros s' Hin. apply Z.eqb_neq, Hpre, Hin.
    + intros s Hin. apply Z.eqb_neq, H, Hin.
  - rewrite GetRootMotionSource_app.
    pose proof (FindSource_spec (fun s => String.eqb (InstanceName s) name)
                  (RootMotionSources g ++ PendingAddRootMotionSources g)) as H.
    destruct (FindSource _ _) as [s |].
    + destruct H as (Hs & pre & post & Heq & Hpre).
      split; [apply String.eqb_eq, Hs |]. exists pre, post. split; [exact Heq |].
      intros s' Hin. apply String.eqb_neq, Hpre, Hin.
    + intros s Hin. apply String.eqb_neq, H, Hin.
Qed.

Lemma X13_lookup_witness :
  let a := set_LocalID 7 New_RadialForce in
  let b := set_LocalID 7 New_JumpForce in
  let g := set_Sources [None; Some a] [Some b] New_Group in
  GetRootMotionSourceByID 7 g = Some a
  /\ LocalID a = 7%Z
  /\ GetRootMotionSourceByID 8 g = None
  /\ LocalID b <> 8%Z.
Proof.
  cbv zeta.
  pose proof (proj1 (X13_lookup
                       (set_Sources [None; Some (set_LocalID 7 New_RadialForce)]
                          [Some (set_LocalID 7 New_JumpForce)] New_Group) 7 NAME_None)) as H7.
  pose proof (proj1 (X13_lookup
                       (set_Sources [None; Some (set_LocalID 7 New_RadialForce)]
                          [Some (set_LocalID 7 New_JumpForce)] New_Group) 8 NAME_None)) as H8.
  cbv zeta in H7, H8.
  change (GetRootMotionSourceByID 7 _) with (Some (set_LocalID 7 New_RadialForce)) in H7.
  change (GetRootMotionSourceByID 8 _) with (@None FBaseRootMotionSource) in H8.
  cbv beta iota in H7, H8.
  split; [reflexivity |]. split; [exact (proj1 H7) |]. split; [reflexivity |].
  apply H8. right. right. left. reflexivity.
Defined.

Lemma uint16_incr_cases (gen : Z) :
  (0 <= gen < 65536)%Z ->
  uint16_incr gen = if (gen =? 65535)%Z then 0%Z else (gen + 1)%Z.
Proof.
  intro H. unfold uint16_incr. destruct (Z.eqb_spec gen 65535) as [-> | Hne].
  - reflexivity.
  - apply Z.mod_small. lia.
Qed.

(** X14.  [ApplyRootMotionSource] on a valid pointer, with the generator a
    16-bit value: the ID it returns is never the invalid ID (the generator
    skips it when it wraps), the generator is left at that ID, the source is
    appended to the pending array with that local ID and the active array is
    untouched; while no other valid source of the group carries the ID, a
    lookup by it finds the source just applied.  On a null pointer nothing
    changes and the invalid ID is returned. *)
Theorem X14_apply_then_lookup (gen : Z) (g : FBaseRootMotionSourceGroup)
    (src : FBaseRootMotionSource) :
  (0 <= gen < 65536)%Z ->
  let r := ApplyRootMotionSource gen g (Some src) in
  let id := snd r in
  let g' := snd (fst r) in
  (1 <= id <= 65535)%Z
  /\ id = (if (gen =? 65535)%Z then 1 else gen + 1)%Z
  /\ fst (fst r) = id
  /\ RootMotionSources g' = RootMotionSources g
  /\ PendingAddRootMotionSources g'
     = PendingAddRootMotionSources g ++ [Some (set_LocalID id src)]
  /\ HasActiveRootMotionSources g' = true
  /\ ((forall s, In (Some s) (RootMotionSources g ++ PendingAddRootMotionSources g) ->
                 LocalID s <> id) ->
      GetRootMotionSourceByID id g' = Some (set_LocalID id src))
  /\ ApplyRootMotionSource gen g None = (gen, g, RootMotionSourceID_Invalid).
Proof.
  intros Hgen r id g'.
  assert (Hr : r = (if (gen =? 65535)%Z then 1 else gen + 1,
                    set_Sources (RootMotionSources g)
                      (PendingAddRootMotionSources g
                       ++ [Some (set_LocalID (if (gen =? 65535)%Z then 1 else gen + 1) src)])
                      g,
                    if (gen =? 65535)%Z then 1 else gen + 1)%Z).
  { unfold r, ApplyRootMotionSource. cbv zeta. rewrite (uint16_incr_cases gen Hgen).
    destruct (Z.eqb_spec gen 65535) as [-> | Hne].
    - reflexivity.
    - unfold RootMotionSourceID_Invalid.
      destruct (Z.eqb_spec (gen + 1) 0) as [H0 | _]; [lia | reflexivity]. }
  unfold id, g'. rewrite Hr. cbn [fst snd]. clear r id g' Hr.
  set (id := (if (gen =? 65535)%Z then 1 else gen + 1)%Z).
  assert (Hid : (1 <= id <= 65535)%Z).
  { unfold id. destruct (Z.eqb_spec gen 65535); lia. }
  split; [exact Hid |]. split; [reflexivity |]. split; [reflexivity |].
  split; [reflexivity |]. split; [reflexivity |]. split.
  { unfold HasActiveRootMotionSources. cbn [PendingAddRootMotionSources set_Sources].
    rewrite length_app. cbn [List.length].
    replace (0 <? List.length (PendingAddRootMotionSources g) + 1)%nat with true;
      [apply orb_true_r |].
    symmetry. apply Nat.ltb_lt. lia. }
  split; [| reflexivity].
  intro Hfresh. rewrite GetRootMotionSourceByID_app.
  cbn [RootMotionSources PendingAddRootMotionSources set_Sources].
  rewrite app_assoc, FindSource_app.
  pose proof (FindSource_spec (fun s => (LocalID s =? id)%Z)
                (RootMotionSources g ++ PendingAddRootMotionSources g)) as H.
  destruct (FindSource _ (RootMotionSources g ++ PendingAddRootMotionSources g)) as [s |].
  - destruct H as (Hs & pre & post & Heq & _). exfalso.
    apply (Hfresh s); [rewrite Heq; apply in_elt | apply Z.eqb_eq, Hs].
  - cbn [FindSource LocalID set_LocalID]. rewrite Z.eqb_refl. reflexivity.
Qed.

Lemma X14_apply_then_lookup_witness :
  let r := ApplyRootMotionSource 65535 New_Group (Some New_ConstantForce) in
  snd r = 1%Z
  /\ GetRootMotionSourceByID 1 (snd (fst r)) = Some (set_LocalID 1 New_ConstantForce).
Proof.
  cbv zeta.
  destruct (X14_apply_then_lookup 65535 New_Group New_ConstantForce)
    as (_ & H2 & _ & _ & _ & _ & H7 & _); [lia |].
  split; [exact H2 |].
  apply H7. intros s [].
Defined.

Lemma RemoveAllActive_filter (E : Engine) (applied : bool)
    (M : UBaseCharacterMovementComponent) (l : list TSharedPtr) (st : FVector * FVector) :
  fst (RemoveAllActive E applied M l st) = filter KeepPending l.
Proof.
  revert st. induction l as [| [s |] l IH]; intro st;
    cbn [RemoveAllActive filter KeepPending].
  - reflexivity.
  - destruct (negb (Status.HasFlag (Status s) MarkedForRemoval)
              && negb (Status.HasFlag (Status s) Finished))%bool.
    + cbn [fst]. rewrite IH. reflexivity.
    + apply IH.
  - apply IH.
Qed.

Lemma CleanUp_lists (E : Engine) (M : UBaseCharacterMovementComponent)
    (g : FBaseRootMotionSourceGroup) :
  RootMotionSources (fst (CleanUpInvalidRootMotion E M g))
  = filter KeepPending (RootMotionSources g)
  /\ PendingAddRootMotionSources (fst (CleanUpInvalidRootMotion E M g))
     = filter KeepPending (PendingAddRootMotionSources g).
Proof.
  unfold CleanUpInvalidRootMotion. cbv zeta.
  cbn [fst RootMotionSources PendingAddRootMotionSources].
  rewrite RemoveAllActive_filter. split; reflexivity.
Qed.

Lemma FindSource_marked (test : FBaseRootMotionSource -> bool) (l : list TSharedPtr) :
  (forall s st, test (set_Status st s) = test s) ->
  FindSource test (filter KeepPending (map (MarkForRemoval test) l)) = None.
Proof.
  intro Hext. induction l as [| [s |] l IH]; cbn [map MarkForRemoval filter]; [reflexivity | |].
  - destruct (test s) eqn:Ht.
    + cbn [KeepPending Status set_Status]. unfold Status.HasFlag, Status.SetFlag.
      rewrite HasFlag_SetFlag_same by discriminate. cbn [negb andb]. exact IH.
    + destruct (KeepPending (Some s)); [| exact IH].
      cbn [FindSource]. rewrite Ht. exact IH.
  - cbn [KeepPending]. exact IH.
Qed.

Lemma RemovalKeeps_refl (p : TSharedPtr) : RemovalKeeps p p.
Proof. destruct p as [s |]; cbn [RemovalKeeps]; [left; reflexivity | exact I]. Qed.

Lemma Forall2_RemovalKeeps_refl (l : list TSharedPtr) : Forall2 RemovalKeeps l l.
Proof. induction l; constructor; [apply RemovalKeeps_refl | assumption]. Qed.

Lemma MarkForRemoval_keeps (test : FBaseRootMotionSource -> bool) (l : list TSharedPtr) :
  Forall2 RemovalKeeps l (map (MarkForRemoval test) l).
Proof.
  induction l as [| [s |] l IH]; cbn [map MarkForRemoval]; constructor; try exact IH.
  - cbn [RemovalKeeps]. destruct (test s); [right | left]; reflexivity.
  - exact I.
Qed.

(** X15.  Removal is by flag: [RemoveRootMotionSourceByID] (for an ID other
    than the invalid one) and [RemoveRootMotionSource] (for a name other than
    None) take nothing out of the arrays, but after the next
    [CleanUpInvalidRootMotion] a lookup by that ID, or by that name, finds
    nothing, in the active array or the pending one.  With the invalid ID or
    the name None the removal changes nothing. *)
Theorem X15_remove_then_cleanup (E : Engine) (M : UBaseCharacterMovementComponent)
    (g : FBaseRootMotionSourceGroup) (id : Z) (name : string) :
  (id <> RootMotionSourceID_Invalid ->
   GetRootMotionSourceByID id
     (fst (CleanUpInvalidRootMotion E M (RemoveRootMotionSourceByID id g))) = None)
  /\ (name <> NAME_None ->
      GetRootMotionSource name
        (fst (CleanUpInvalidRootMotion E M (RemoveRootMotionSource name g))) = None)
  /\ List.length (RootMotionSources (RemoveRootMotionSourceByID id g))
     = List.length (RootMotionSources g)
  /\ List.length (PendingAddRootMotionSources (RemoveRootMotionSource name g))
     = List.length (PendingAddRootMotionSources g)
  /\ RemoveRootMotionSourceByID RootMotionSourceID_Invalid g = g
  /\ RemoveRootMotionSource NAME_None g = g
  /\ List.length (PendingAddRootMotionSources (RemoveRootMotionSourceByID id g))
     = List.length (PendingAddRootMotionSources g)
  /\ List.length (RootMotionSources (RemoveRootMotionSource name g))
     = List.length (RootMotionSources g)
  /\ Forall2 RemovalKeeps (RootMotionSources g ++ PendingAddRootMotionSources g)
       (RootMotionSources (RemoveRootMotionSourceByID id g)
        ++ PendingAddRootMotionSources (RemoveRootMotionSourceByID id g))
  /\ Forall2 RemovalKeeps (RootMotionSources g ++ PendingAddRootMotionSources g)
       (RootMotionSources (RemoveRootMotionSource name g)
        ++ PendingAddRootMotionSources (RemoveRootMotionSource name g)).
Proof.
  split; [| split; [| split; [| split; [| split; [| split; [| split; [| split; [| split]]]]]]]].
  - intro Hid. unfold GetRootMotionSourceByID.
    destruct (CleanUp_lists E M (RemoveRootMotionSourceByID id g)) as [-> ->].
    unfold RemoveRootMotionSourceByID.
    destruct (Z.eqb_spec id RootMotionSourceID_Invalid) as [H | _]; [contradiction |].
    cbn [negb RootMotionSources PendingAddRootMotionSources set_Sources]. cbv zeta.
    rewrite !FindSource_marked by reflexivity. reflexivity.
  - intro Hname. unfold GetRootMotionSource.
    destruct (CleanUp_lists E M (RemoveRootMotionSource name g)) as [-> ->].
    unfold RemoveRootMotionSource.
    destruct (String.eqb_spec name NAME_None) as [H | _]; [contradiction |].
    cbn [negb RootMotionSources PendingAddRootMotionSources set_Sources]. cbv zeta.
    rewrite !FindSource_marked by reflexivity. reflexivity.
  - unfold RemoveRootMotionSourceByID.
    destruct (negb (id =? RootMotionSourceID_Invalid)%Z); [| reflexivity].
    cbn [RootMotionSources set_Sources]. apply length_map.
  - unfold RemoveRootMotionSource.
    destruct (negb (String.eqb name NAME_None)); [| reflexivity].
    cbn [PendingAddRootMotionSources set_Sources]. apply length_map.
  - reflexivity.
  - reflexivity.
  - unfold RemoveRootMotionSourceByID.
    destruct (negb (id =? RootMotionSourceID_Invalid)%Z); [| reflexivity].
    cbn [PendingAddRootMotionSources set_Sources]. apply length_map.
  - unfold RemoveRootMotionSource.
    destruct (negb (String.eqb name NAME_None)); [| reflexivity].
    cbn [RootMotionSources set_Sources]. apply length_map.
  - unfold RemoveRootMotionSourceByID.
    destruct (negb (id =? RootMotionSourceID_Invalid)%Z).
    + cbn [RootMotionSources PendingAddRootMotionSources set_Sources].
      rewrite <- map_app. apply MarkForRemoval_keeps.
    + apply Forall2_RemovalKeeps_refl.
  - unfold RemoveRootMotionSource.
    destruct (negb (String.eqb name NAME_None)).
    + cbn [RootMotionSources PendingAddRootMotionSources set_Sources].
      rewrite <- map_app. apply MarkForRemoval_keeps.
    + apply Forall2_RemovalKeeps_refl.
Qed.

Lemma X15_remove_then_cleanup_witness :
  let g := set_Sources [Some (set_LocalID 3 New_RadialForce)]
             [Some (set_LocalID 3 New_JumpForce)] New_Group in
  GetRootMotionSourceByID 3 g = Some (set_LocalID 3 New_RadialForce)
  /\ GetRootMotionSourceByID 3
       (fst (CleanUpInvalidRootMotion DemoEngine DemoMoveComponent
               (RemoveRootMotionSourceByID 3 g))) = None.
Proof.
  cbv zeta. split; [reflexivity |].
  apply (proj1 (X15_remove_then_cleanup DemoEngine DemoMoveComponent
                  (set_Sources [Some (set_LocalID 3 New_RadialForce)]
                     [Some (set_LocalID 3 New_JumpForce)] New_Group) 3 NAME_None)).
  discriminate.
Defined.

Lemma filter_idem {A} (f : A -> bool) (l : list A) : filter f (filter f l) = filter f l.
Proof.
  induction l as [| x l IH]; cbn [filter]; [reflexivity |].
  destruct (f x) eqn:Hx; cbn [filter]; [rewrite Hx, IH; reflexivity | exact IH].
Qed.

Lemma Forall_IsKept_filter (l : list TSharedPtr) : Forall IsKept (filter KeepPending l).
Proof. apply Forall_forall. intros p Hp. apply filter_In in Hp. apply Hp. Qed.

(** X16.  [CleanUpInvalidRootMotion] leaves in both arrays exactly the valid
    sources that are neither Finished nor marked for removal, in their
    order: null pointers go too.  It touches no other member of the group
    than the last pre-additive velocity, and not even that, nor the
    character's velocity, when it removes nothing.  A second cleanup right
    after the first changes nothing at all. *)
Theorem X16_cleanup (E : Engine) (M : UBaseCharacterMovementComponent)
    (g : FBaseRootMotionSourceGroup) :
  let r := CleanUpInvalidRootMotion E M g in
  RootMotionSources (fst r) = filter KeepPending (RootMotionSources g)
  /\ PendingAddRootMotionSources (fst r) = filter KeepPending (PendingAddRootMotionSources g)
  /\ bHasAdditiveSources (fst r) = bHasAdditiveSources g
  /\ bHasOverrideSources (fst r) = bHasOverrideSources g
  /\ bIsAdditiveVelocityApplied (fst r) = bIsAdditiveVelocityApplied g
  /\ LastAccumulatedSettings (fst r) = LastAccumulatedSettings g
  /\ (Forall IsKept (RootMotionSources g) ->
      LastPreAdditiveVelocity (fst r) = LastPreAdditiveVelocity g
      /\ Velocity (snd r) = Velocity M)
  /\ CleanUpInvalidRootMotion E (snd r) (fst r) = r
  /\ bHasOverrideSourcesWithIgnoreZAccumulate (fst r)
     = bHasOverrideSourcesWithIgnoreZAccumulate g.
Proof.
  cbv zeta. destruct (CleanUp_lists E M g) as [Ha Hp].
  split; [exact Ha |]. split; [exact Hp |].
  split; [reflexivity |]. split; [reflexivity |]. split; [reflexivity |].
  split; [reflexivity |]. split; [| split; [| reflexivity]].
  - intro Hkept. unfold CleanUpInvalidRootMotion. cbv zeta.
    rewrite (RemoveAllActive_kept E _ M _ _ Hkept). split; reflexivity.
  - unfold CleanUpInvalidRootMotion at 1. cbv zeta.
    rewrite Ha, Hp, filter_idem.
    rewrite (RemoveAllActive_kept E _ _ _ _ (Forall_IsKept_filter (RootMotionSources g))).
    cbn [fst snd].
    unfold CleanUpInvalidRootMotion. cbv zeta.
    cbn [fst snd bHasAdditiveSources bHasOverrideSources
         bHasOverrideSourcesWithIgnoreZAccumulate bIsAdditiveVelocityApplied
         LastPreAdditiveVelocity LastAccumulatedSettings Velocity set_Velocity].
    rewrite RemoveAllActive_filter. reflexivity.
Qed.

Lemma X16_cleanup_witness :
  let kept := set_Sources [Some New_RadialForce] [None] New_Group in
  let r := CleanUpInvalidRootMotion DemoEngine DemoMoveComponent kept in
  RootMotionSources (fst r) = [Some New_RadialForce]
  /\ PendingAddRootMotionSources (fst r) = []
  /\ LastPreAdditiveVelocity (fst r) = Vec.Zero
  /\ Velocity (snd r) = Vec.Zero.
Proof.
  cbv zeta.
  destruct (X16_cleanup DemoEngine DemoMoveComponent
              (set_Sources [Some New_RadialForce] [None] New_Group))
    as (H1 & H2 & _ & _ & _ & _ & H7 & _).
  split; [exact H1 |]. split; [exact H2 |].
  apply H7. repeat constructor.
Defined.

Lemma FindSource_filter (test : FBaseRootMotionSource -> bool) (keep : TSharedPtr -> bool)
    (l : list TSharedPtr) :
  (forall s, test s = true -> keep (Some s) = true) ->
  FindSource test (filter keep l) = FindSource test l.
Proof.
  intro H. induction l as [| [s |] l IH]; cbn [filter FindSource]; [reflexivity | |].
  - destruct (test s) eqn:Ht.
    + rewrite (H s Ht). cbn [FindSource]. rewrite Ht. reflexivity.
    + destruct (keep (Some s)); [cbn [FindSource]; rewrite Ht |]; exact IH.
  - destruct (keep None); exact IH.
Qed.

(** X17.  [CullInvalidSources] takes out of the active array the null
    pointers and the sources whose local ID is the invalid one, and nothing
    else: every entry left is a valid source with a valid ID, the pending
    array and the other members are untouched, culling twice is culling
    once, and no lookup by a valid ID changes its answer. *)
Theorem X17_cull_invalid_sources (g : FBaseRootMotionSourceGroup) (id : Z) :
  let g' := CullInvalidSources g in
  Forall (fun p => match p with
                   | Some s => LocalID s <> RootMotionSourceID_Invalid
                   | None => False
                   end) (RootMotionSources g')
  /\ RootMotionSources g' = filter (fun p => negb (IsCulled p)) (RootMotionSources g)
  /\ PendingAddRootMotionSources g' = PendingAddRootMotionSources g
  /\ CullInvalidSources g' = g'
  /\ (id <> RootMotionSourceID_Invalid ->
      GetRootMotionSourceByID id g' = GetRootMotionSourceByID id g).
Proof.
  cbv zeta. split; [| split; [reflexivity | split; [reflexivity | split]]].
  - apply Forall_forall. intros p Hp. cbn [CullInvalidSources RootMotionSources set_Sources] in Hp.
    apply filter_In in Hp. destruct Hp as [_ Hp].
    destruct p as [s |]; [| discriminate Hp]. cbn [IsCulled] in Hp.
    destruct (Z.eqb_spec (LocalID s) RootMotionSourceID_Invalid) as [H | H];
      [discriminate Hp | exact H].
  - unfold CullInvalidSources, set_Sources.
    cbn [RootMotionSources PendingAddRootMotionSources bHasAdditiveSources
         bHasOverrideSources bHasOverrideSourcesWithIgnoreZAccumulate
         bIsAdditiveVelocityApplied LastPreAdditiveVelocity LastAccumulatedSettings].
    rewrite filter_idem. reflexivity.
  - intro Hid. unfold GetRootMotionSourceByID.
    cbn [CullInvalidSources RootMotionSources PendingAddRootMotionSources set_Sources].
    rewrite FindSource_filter; [reflexivity |].
    intros s Hs. apply Z.eqb_eq in Hs. cbn [IsCulled].
    destruct (Z.eqb_spec (LocalID s) RootMotionSourceID_Invalid) as [H | _];
      [congruence | reflexivity].
Qed.

Lemma X17_cull_invalid_sources_witness :
  let g := set_Sources [None; Some New_RadialForce; Some (set_LocalID 4 New_JumpForce)] []
             New_Group in
  RootMotionSources (CullInvalidSources g) = [Some (set_LocalID 4 New_JumpForce)]
  /\ GetRootMotionSourceByID 4 (CullInvalidSources g) = GetRootMotionSourceByID 4 g.
Proof.
  cbv zeta.
  destruct (X17_cull_invalid_sources
              (set_Sources [None; Some New_RadialForce; Some (set_LocalID 4 New_JumpForce)] []
                 New_Group) 4) as (_ & H2 & _ & _ & H5).
  split; [exact H2 |]. apply H5. discriminate.
Defined.

(** ** Start times *)

(** X18.  [SetPendingRootMotionSourceMinStartTimes] only ever moves start
    times forward, and only those of the pending array: afterwards every
    valid pending source starts no earlier than the given time and no
    earlier than it did before, and when the given time is a valid start
    time every valid pending source has a valid start time, also those that
    had none.  The arrays keep their entries, the active array is untouched,
    and applying the same minimum again changes nothing. *)
Theorem X18_min_start_times (NewStartTime : Q) (g : FBaseRootMotionSourceGroup) :
  let g' := SetPendingRootMotionSourceMinStartTimes NewStartTime g in
  RootMotionSources g' = RootMotionSources g
  /\ Forall2 (fun p p' =>
               match p, p' with
               | Some s, Some s' =>
                   s' = set_StartTime (StartTime s') s
                   /\ StartTime s <= StartTime s' /\ NewStartTime <= StartTime s'
                   /\ (RootMotionSource_InvalidStartTime < NewStartTime ->
                       IsStartTimeValid s' = true)
               | None, None => True
               | _, _ => False
               end) (PendingAddRootMotionSources g) (PendingAddRootMotionSources g')
  /\ SetPendingRootMotionSourceMinStartTimes NewStartTime g' = g'.
Proof.
  cbv zeta. split; [reflexivity |]. split.
  - cbn [SetPendingRootMotionSourceMinStartTimes PendingAddRootMotionSources set_Sources].
    induction (PendingAddRootMotionSources g) as [| [s |] l IH]; cbn [map SetMinStartTime];
      constructor; try exact IH; [| exact I].
    cbv zeta. cbn [StartTime set_StartTime].
    pose proof (Max_ge_l (StartTime s) NewStartTime) as Hl.
    pose proof (Max_ge_r (StartTime s) NewStartTime) as Hr.
    split; [reflexivity |]. split; [exact Hl |]. split; [exact Hr |].
    intro Hvalid. unfold IsStartTimeValid. cbn [StartTime].
    apply negb_true_iff. apply not_true_iff_false. intro H. apply Qeq_bool_iff in H.
    cbn [StartTime set_StartTime] in H. lra.
  - unfold SetPendingRootMotionSourceMinStartTimes, set_Sources.
    cbn [RootMotionSources PendingAddRootMotionSources bHasAdditiveSources
         bHasOverrideSources bHasOverrideSourcesWithIgnoreZAccumulate
         bIsAdditiveVelocityApplied LastPreAdditiveVelocity LastAccumulatedSettings].
    f_equal. rewrite map_map. apply map_ext. intros [s |]; [| reflexivity].
    cbn [SetMinStartTime]. cbv zeta. cbn [StartTime set_StartTime]. f_equal.
    unfold set_StartTime. cbn. f_equal.
    unfold FMath.Max at 1.
    destruct (Qltb_spec NewStartTime (FMath.Max (StartTime s) NewStartTime)) as [_ | Hle];
      [reflexivity |].
    pose proof (Max_ge_r (StartTime s) NewStartTime) as Hr.
    destruct (Max_spec (StartTime s) NewStartTime) as [[Hlt E] | [Hge E]].
    + rewrite E in Hle. lra.
    + symmetry. exact E.
Qed.

Lemma X18_min_start_times_witness :
  let g := set_Sources [] [Some New_RadialForce] New_Group in
  Forall (fun p => match p with
                   | Some s => IsStartTimeValid s = true
                   | None => True
                   end)
         (PendingAddRootMotionSources (SetPendingRootMotionSourceMinStartTimes 5 g)).
Proof.
  cbv zeta.
  destruct (X18_min_start_times 5 (set_Sources [] [Some New_RadialForce] New_Group))
    as (_ & H & _).
  cbn [SetPendingRootMotionSourceMinStartTimes PendingAddRootMotionSources set_Sources map
       SetMinStartTime] in *.
  inversion H as [| p p' l l' Hp Hl]. subst.
  constructor; [| constructor].
  apply Hp. reflexivity.
Defined.

Lemma InvalidStartTime_negative : RootMotionSource_InvalidStartTime < 0.
Proof. reflexivity. Qed.

Lemma IsStartTimeValid_spec (s : FBaseRootMotionSource) :
  BoolSpec (~ StartTime s == RootMotionSource_InvalidStartTime)
           (StartTime s == RootMotionSource_InvalidStartTime) (IsStartTimeValid s).
Proof.
  unfold IsStartTimeValid.
  destruct (Qeq_bool (StartTime s) RootMotionSource_InvalidStartTime) eqn:H; constructor.
  - apply Qeq_bool_iff. exact H.
  - apply Qeq_bool_neq. exact H.
Qed.

(** The start-of-source adjustment sees the same situation after the time
    stamps have been reset. *)
Lemma PartialStartTick_shift (C : ABaseCharacter) (M M' : UBaseCharacterMovementComponent)
    (dt delta sim : Q) (s : FBaseRootMotionSource) :
  0 <= delta ->
  CharacterMovementTime C M' dt == CharacterMovementTime C M dt - delta ->
  0 <= CharacterMovementTime C M' dt ->
  PartialStartTick C M' dt
    (if IsStartTimeValid s then set_StartTime (StartTime s - delta) s else s) sim
  == PartialStartTick C M dt s sim.
Proof.
  intros Hdelta Hshift Hvalid.
  pose proof InvalidStartTime_negative as Hneg.
  set (t := CharacterMovementTime C M dt) in *.
  set (t' := CharacterMovementTime C M' dt) in *.
  destruct (IsStartTimeValid s) eqn:Hv.
  - unfold PartialStartTick. cbv zeta. fold t t'.
    change (GetTime (set_StartTime (StartTime s - delta) s)) with (GetTime s).
    destruct (Qeq_bool (GetTime s) 0); cbn [andb]; [| reflexivity].
    rewrite Hv.
    unfold GetStartTime. cbn [StartTime set_StartTime].
    destruct (Qle_bool_spec 0 t) as [Ht | Ht]; [| lra].
    destruct (Qle_bool_spec 0 t') as [_ | Ht']; [| lra].
    cbn [andb].
    destruct (Qltb_spec t (StartTime s)) as [Hlate | Hearly].
    + destruct (IsStartTimeValid_spec (set_StartTime (StartTime s - delta) s))
        as [_ | Hbad]; [| cbn [StartTime set_StartTime] in Hbad; lra].
      destruct (Qltb_spec t' (StartTime s - delta)) as [_ | Hc]; [| lra].
      destruct (Qle_bool_spec (t + sim) (StartTime s)) as [He | He];
        destruct (Qle_bool_spec (t' + sim) (StartTime s - delta)) as [He' | He'];
        try lra; reflexivity.
    + destruct (Qltb_spec t' (StartTime s - delta)) as [Hc | _]; [lra |].
      destruct (IsStartTimeValid (set_StartTime (StartTime s - delta) s)); reflexivity.
  - unfold PartialStartTick. cbv zeta. rewrite Hv, !andb_false_r. reflexivity.
Qed.

(** X19.  [ApplyTimeStampReset] shifts the valid start times of both arrays
    back by the given time and changes nothing else: a source without a
    valid start time keeps the invalid one.  The shift goes with the reset
    of the character's time stamps: when the movement time is set back by
    the same amount (and is still a valid time), the start-of-source
    adjustment of every source gives the same simulation time as before the
    reset.  The check of the function passes exactly when the amount is
    smaller than the magnitude of the invalid start time. *)
Theorem X19_time_stamp_reset (C : ABaseCharacter) (M M' : UBaseCharacterMovementComponent)
    (dt delta sim : Q) (g : FBaseRootMotionSourceGroup) :
  let g' := value (ApplyTimeStampReset delta g) in
  checks_ok (ApplyTimeStampReset delta g) = Qltb delta UE_BIG_NUMBER
  /\ Forall2 (fun p p' =>
               match p, p' with
               | Some s, Some s' =>
                   s' = set_StartTime (StartTime s') s
                   /\ s' = (if IsStartTimeValid s
                            then set_StartTime (StartTime s - delta) s else s)
                   /\ (0 <= delta ->
                       CharacterMovementTime C M' dt == CharacterMovementTime C M dt - delta ->
                       0 <= CharacterMovementTime C M' dt ->
                       PartialStartTick C M' dt s' sim == PartialStartTick C M dt s sim)
               | None, None => True
               | _, _ => False
               end)
             (RootMotionSources g ++ PendingAddRootMotionSources g)
             (RootMotionSources g' ++ PendingAddRootMotionSources g').
Proof.
  cbv zeta. split.
  - unfold ApplyTimeStampReset, bind, checkf. cbn [checks_ok ret andb].
    rewrite andb_true_r. unfold RootMotionSource_InvalidStartTime.
    destruct (Qltb_spec (- UE_BIG_NUMBER) (- delta)), (Qltb_spec delta UE_BIG_NUMBER);
      try reflexivity; lra.
  - unfold ApplyTimeStampReset, bind. cbn [value ret checkf RootMotionSources
      PendingAddRootMotionSources set_Sources].
    rewrite <- map_app.
    induction (RootMotionSources g ++ PendingAddRootMotionSources g) as [| [s |] l IH];
      cbn [map ResetStartTime]; constructor; try exact IH; [| exact I].
    destruct (IsStartTimeValid s) eqn:Hv.
    + split; [reflexivity |]. split; [reflexivity |].
      intros H1 H2 H3. pose proof (PartialStartTick_shift C M M' dt delta sim s H1 H2 H3) as H.
      rewrite Hv in H. exact H.
    + split; [destruct s; reflexivity |]. split; [reflexivity |].
      intros H1 H2 H3. pose proof (PartialStartTick_shift C M M' dt delta sim s H1 H2 H3) as H.
      rewrite Hv in H. exact H.
Qed.

Lemma X19_time_stamp_reset_witness :
  let C := MkCharacter Vec.Zero ROLE_AutonomousProxy false in
  let M := MkMoveComponent None (Some 100) None Vec.Zero in
  let M' := MkMoveComponent None (Some 10) None Vec.Zero in
  let s := set_StartTime (1001 # 10) New_RadialForce in
  let s' := set_StartTime ((1001 # 10) - 90) s in
  PartialStartTick C M' (1 # 5) s' (1 # 5) == PartialStartTick C M (1 # 5) s (1 # 5).
Proof.
  cbv zeta.
  destruct (X19_time_stamp_reset (MkCharacter Vec.Zero ROLE_AutonomousProxy false)
              (MkMoveComponent None (Some 100) None Vec.Zero)
              (MkMoveComponent None (Some 10) None Vec.Zero) (1 # 5) 90 (1 # 5)
              (set_Sources [Some (set_StartTime (1001 # 10) New_RadialForce)] [] New_Group))
    as [_ H].
  inversion H as [| p p' l l' Hp Hl]. subst.
  destruct Hp as (_ & _ & Hp). apply Hp.
  - apply Qle_bool_iff. reflexivity.
  - reflexivity.
  - apply Qle_bool_iff. reflexivity.
Defined.

(** ** Taking state from another group *)

Lemma Matches_same_struct (s t : FBaseRootMotionSource) :
  Matches s (Some t) = true ->
  UScriptStruct_eqb (GetScriptStruct s) (GetScriptStruct t) = true.
Proof.
  unfold Matches, Base_Matches.
  destruct (UScriptStruct_eqb (GetScriptStruct s) (GetScriptStruct t)); [reflexivity |].
  cbn [andb negb]. discriminate.
Qed.

Lemma UpdateStateFrom_same (s t : FBaseRootMotionSource) (mark : bool) :
  UScriptStruct_eqb (GetScriptStruct s) (GetScriptStruct t) = true ->
  let r := UpdateStateFrom s (Some t) mark in
  checks_ok r = true /\ snd (value r) = true /\ LocalID (fst (value r)) = LocalID s.
Proof.
  intro H. cbv zeta.
  assert (Hb : exists st,
             Base_UpdateStateFrom s (Some t) mark
             = ret (SetTime (GetTime t) (set_Status st (set_bNeedsSimulatedCatchup mark s)),
                    true)).
  { unfold Base_UpdateStateFrom. rewrite H. cbv zeta.
    destruct (Status.HasFlag (Status (set_bNeedsSimulatedCatchup mark s)) MarkedForRemoval);
      eexists; reflexivity. }
  destruct Hb as [st Hb]. unfold UpdateStateFrom. rewrite Hb.
  unfold bind. cbn [value ret fst snd negb checks_ok andb option_map].
  rewrite SetTime_explicit.
  cbn [Derived set_Status set_CurrentTime set_PreviousTime set_bNeedsSimulatedCatchup].
  destruct (Derived s) as [d | d | d | d | d]; try (repeat split; reflexivity).
  destruct (Derived t) as [d' | d' | d' | d' | d']; repeat split; reflexivity.
Qed.

Lemma HasPartnerIn_cons (t : TSharedPtr) (l : list TSharedPtr) (s : FBaseRootMotionSource) :
  HasPartnerIn (t :: l) s
  = match t with
    | Some ts => negb (LocalID ts =? RootMotionSourceID_Invalid)%Z
                 && (LocalID s =? LocalID ts)%Z
    | None => false
    end || HasPartnerIn l s.
Proof. reflexivity. Qed.

(** One source of this group against one source of the other. *)
Lemma UpdateSourceFrom_entry (t : FBaseRootMotionSource) (mark : bool) (p : TSharedPtr) :
  checks_ok (UpdateSourceFrom t mark p) = true
  /\ match p, value (UpdateSourceFrom t mark p) with
     | Some s, Some s' =>
         LocalID s' = LocalID s
         /\ ((LocalID s =? LocalID t)%Z = false -> s' = s)
         /\ (s' = s \/ Status.HasFlag (Status s') Prepared = false)
     | None, None => True
     | _, _ => False
     end.
Proof.
  destruct p as [s |]; cbn [UpdateSourceFrom]; [| split; [reflexivity | exact I]].
  destruct (LocalID s =? LocalID t)%Z eqn:Hid.
  - destruct (Matches s (Some t)) eqn:Hm; cbn [negb].
    + destruct (UpdateStateFrom_same s t mark (Matches_same_struct s t Hm)) as (Hc & Hs & Hl).
      unfold bind. cbv zeta. rewrite Hs, Hc. cbn [value ret checks_ok andb].
      split; [reflexivity |]. split; [exact Hl |]. split; [discriminate |].
      right. cbn [Status set_Status]. apply HasFlag_UnSetFlag_same.
    + cbn [value ret checks_ok]. repeat split. left. reflexivity.
  - cbn [value ret checks_ok]. repeat split. left. reflexivity.
Qed.

Lemma UpdateSourcesFrom_entries (t : FBaseRootMotionSource) (mark : bool)
    (l : list TSharedPtr) :
  checks_ok (UpdateSourcesFrom t mark l) = true
  /\ Forall2 (fun p p' =>
               match p, p' with
               | Some s, Some s' =>
                   LocalID s' = LocalID s
                   /\ ((LocalID s =? LocalID t)%Z = false -> s' = s)
                   /\ (s' = s \/ Status.HasFlag (Status s') Prepared = false)
               | None, None => True
               | _, _ => False
               end) l (value (UpdateSourcesFrom t mark l)).
Proof.
  induction l as [| p l [IHc IHv]]; cbn [UpdateSourcesFrom].
  - split; [reflexivity | constructor].
  - destruct (UpdateSourceFrom_entry t mark p) as [Hc Hv].
    change (value (bind (UpdateSourceFrom t mark p)
                     (fun p' => bind (UpdateSourcesFrom t mark l)
                                  (fun rest' => ret (p' :: rest')))))
      with (value (UpdateSourceFrom t mark p) :: value (UpdateSourcesFrom t mark l)).
    change (checks_ok (bind (UpdateSourceFrom t mark p)
                         (fun p' => bind (UpdateSourcesFrom t mark l)
                                      (fun rest' => ret (p' :: rest')))))
      with (checks_ok (UpdateSourceFrom t mark p)
            && (checks_ok (UpdateSourcesFrom t mark l) && true)).
    rewrite Hc, IHc. split; [reflexivity |].
    constructor; [destruct p; exact Hv | exact IHv].
Qed.

Lemma UpdatedEntry_refl (TakeFrom : list TSharedPtr) (p : TSharedPtr) :
  UpdatedEntry TakeFrom p p.
Proof. destruct p as [s |]; cbn; [| exact I]. repeat split. left. reflexivity. Qed.

Lemma UpdateFromEach_entries (TakeFrom : list TSharedPtr) (mark : bool) (l : list TSharedPtr) :
  checks_ok (UpdateFromEach TakeFrom mark l) = true
  /\ Forall2 (UpdatedEntry TakeFrom) l (value (UpdateFromEach TakeFrom mark l)).
Proof.
  revert l. induction TakeFrom as [| [t |] rest IH]; intro l; cbn [UpdateFromEach].
  - split; [reflexivity |]. cbn [value ret].
    induction l as [| p l IHl]; constructor; [apply UpdatedEntry_refl | exact IHl].
  - destruct (Z.eqb_spec (LocalID t) RootMotionSourceID_Invalid) as [Hinv | Hval];
      cbn [negb].
    + destruct (IH l) as [Hc Hv]. split; [exact Hc |].
      revert Hv. apply Forall2_impl. intros [s |] [s' |]; cbn [UpdatedEntry]; try tauto.
      rewrite HasPartnerIn_cons.
      destruct (Z.eqb_spec (LocalID t) RootMotionSourceID_Invalid) as [_ | Hc'];
        [| contradiction].
      cbn [negb andb orb]. tauto.
    + destruct (UpdateSourcesFrom_entries t mark l) as [Hc1 Hv1].
      destruct (IH (value (UpdateSourcesFrom t mark l))) as [Hc2 Hv2].
      unfold bind. cbn [value checks_ok]. rewrite Hc1, Hc2. split; [reflexivity |].
      set (l1 := value (UpdateSourcesFrom t mark l)) in *.
      set (l2 := value (UpdateFromEach rest mark l1)) in *.
      clearbody l1 l2. clear Hc1 Hc2 IH.
      revert l2 Hv2. induction Hv1 as [| p p1 l l1 Hp _ IHl]; intros l2 Hv2.
      * inversion Hv2. constructor.
      * inversion Hv2 as [| p1' p2 l1' l2' Hp2 Hrest]. subst. constructor; [| apply IHl, Hrest].
        destruct p as [s |], p1 as [s1 |], p2 as [s2 |]; cbn [UpdatedEntry] in *;
          try tauto.
        destruct Hp as (A1 & A2 & A3). destruct Hp2 as (B1 & B2 & B3).
        split; [congruence |]. split.
        { rewrite HasPartnerIn_cons. intro Hno.
          apply orb_false_iff in Hno. destruct Hno as [Hno1 Hno2].
          destruct (Z.eqb_spec (LocalID t) RootMotionSourceID_Invalid) as [Hc' | _];
            [contradiction |].
          cbn [negb andb] in Hno1.
          assert (E1 : s1 = s) by (apply A2; exact Hno1). subst s1.
          apply B2. exact Hno2. }
        destruct B3 as [-> | B3]; [exact A3 | right; exact B3].
  - destruct (IH l) as [Hc Hv]. split; [exact Hc |].
    revert Hv. apply Forall2_impl. intros [s |] [s' |]; cbn [UpdatedEntry]; try tauto.
Qed.

Lemma filter_partition_length {A} (f : A -> bool) (l : list A) :
  (List.length (filter f l) + List.length (filter (fun x => negb (f x)) l))%nat
  = List.length l.
Proof.
  induction l as [| x l IH]; cbn [filter]; [reflexivity |].
  destruct (f x); cbn [negb List.length]; lia.
Qed.

(** X20.  [UpdateStateFrom] of the group never fails the check of the
    source's [UpdateStateFrom] and never takes its failure branch: a
    partner that [Matches] accepts has the same concrete type, so the
    transfer succeeds.  The group takes the additive-velocity state of the
    other group; a pending source whose valid local ID is that of a valid
    active source of the other group moves to the end of the active array,
    the rest of the pending array stays, and no entry is lost or made.
    Every entry of the active array keeps its local ID; a source with no
    partner of its ID in the other group is left exactly as it was, and a
    source that did take state is no longer flagged Prepared. *)
Theorem X20_group_update_state_from (g other : FBaseRootMotionSourceGroup) (mark : bool) :
  let r := Group_UpdateStateFrom g other mark in
  let TakeFrom := RootMotionSources other in
  let moved := filter (IsActiveInOther TakeFrom) (PendingAddRootMotionSources g) in
  (forall s t, Matches s (Some t) = true ->
               checks_ok (UpdateStateFrom s (Some t) mark) = true
               /\ snd (value (UpdateStateFrom s (Some t) mark)) = true)
  /\ checks_ok r = true
  /\ bIsAdditiveVelocityApplied (value r) = bIsAdditiveVelocityApplied other
  /\ LastPreAdditiveVelocity (value r) = LastPreAdditiveVelocity other
  /\ PendingAddRootMotionSources (value r)
     = filter (fun p => negb (IsActiveInOther TakeFrom p)) (PendingAddRootMotionSources g)
  /\ Forall2 (UpdatedEntry TakeFrom) (RootMotionSources g ++ moved)
             (RootMotionSources (value r))
  /\ (List.length (RootMotionSources (value r))
      + List.length (PendingAddRootMotionSources (value r)))%nat
     = (List.length (RootMotionSources g)
        + List.length (PendingAddRootMotionSources g))%nat.
Proof.
  cbv zeta.
  destruct (UpdateFromEach_entries (RootMotionSources other) mark
              (RootMotionSources g
               ++ filter (IsActiveInOther (RootMotionSources other))
                    (PendingAddRootMotionSources g))) as [Hc Hv].
  assert (Hact : RootMotionSources (value (Group_UpdateStateFrom g other mark))
                 = value (UpdateFromEach (RootMotionSources other) mark
                            (RootMotionSources g
                             ++ filter (IsActiveInOther (RootMotionSources other))
                                  (PendingAddRootMotionSources g)))) by reflexivity.
  assert (Hpen : PendingAddRootMotionSources (value (Group_UpdateStateFrom g other mark))
                 = filter (fun p => negb (IsActiveInOther (RootMotionSources other) p))
                          (PendingAddRootMotionSources g)) by reflexivity.
  split; [| split; [| split; [| split; [| split; [| split]]]]].
  - intros s t Hm.
    destruct (UpdateStateFrom_same s t mark (Matches_same_struct s t Hm)) as (H1 & H2 & _).
    split; assumption.
  - unfold Group_UpdateStateFrom. cbv zeta. unfold bind. cbn [checks_ok ret].
    rewrite Hc. reflexivity.
  - reflexivity.
  - reflexivity.
  - exact Hpen.
  - rewrite Hact. exact Hv.
  - rewrite Hpen, Hact, <- (Forall2_length Hv), length_app.
    rewrite <- (filter_partition_length (IsActiveInOther (RootMotionSources other))
                  (PendingAddRootMotionSources g)).
    lia.
Qed.

Lemma X20_group_update_state_from_witness :
  let mine := set_LocalID 2 (set_Status 1 New_RadialForce) in
  let theirs := set_LocalID 2 (set_CurrentTime 3 New_RadialForce) in
  let g := set_Sources [] [Some mine] New_Group in
  let other := set_Sources [Some theirs] [] New_Group in
  let r := Group_UpdateStateFrom g other true in
  checks_ok r = true
  /\ checks_ok (UpdateStateFrom mine (Some theirs) true) = true
  /\ PendingAddRootMotionSources (value r) = []
  /\ option_map CurrentTime (hd None (RootMotionSources (value r))) = Some 3.
Proof.
  cbv zeta.
  destruct (X20_group_update_state_from
              (set_Sources [] [Some (set_LocalID 2 (set_Status 1 New_RadialForce))] New_Group)
              (set_Sources [Some (set_LocalID 2 (set_CurrentTime 3 New_RadialForce))] []
                 New_Group) true) as (H1 & H2 & _ & _ & H5 & _).
  split; [exact H2 |]. split; [| split; [exact H5 | reflexivity]].
  apply H1. reflexivity.
Defined.

(** ** Copying, comparing and clearing *)

Lemma SameConfigurationAndState_refl (p : TSharedPtr) : SameConfigurationAndState p p.
Proof. destruct p as [s |]; cbn; [repeat split | exact I]. Qed.

Lemma SourcesEqual_refl (l : list TSharedPtr) : SourcesEqual l l = true.
Proof.
  apply SourcesEqual_same. induction l as [| p l IH]; constructor;
    [apply SameConfigurationAndState_refl | exact IH].
Qed.

Lemma Group_eq_refl (g : FBaseRootMotionSourceGroup) : Group_eq g g = true.
Proof.
  unfold Group_eq.
  rewrite !Bool.eqb_reflx, VecEquals_refl, !Nat.eqb_refl, !SourcesEqual_refl by lra.
  reflexivity.
Qed.

Lemma CloneSources_filter (l : list TSharedPtr) : CloneSources l = filter IsValid l.
Proof.
  induction l as [| [s |] l IH]; cbn [CloneSources filter IsValid]; [reflexivity | | exact IH].
  unfold Clone. rewrite IH. reflexivity.
Qed.

Lemma filter_all {A} (f : A -> bool) (l : list A) : forallb f l = true -> filter f l = l.
Proof.
  induction l as [| x l IH]; cbn [forallb filter]; [reflexivity |].
  intro H. apply andb_true_iff in H. destruct H as [Hx Hl]. rewrite Hx, IH by exact Hl.
  reflexivity.
Qed.

Lemma filter_shorter {A} (f : A -> bool) (l : list A) :
  forallb f l = false -> (List.length (filter f l) < List.length l)%nat.
Proof.
  induction l as [| x l IH]; cbn [forallb filter]; [discriminate |].
  destruct (f x); cbn [andb List.length].
  - intro H. apply IH in H. lia.
  - intros _. pose proof (filter_length_le f l). lia.
Qed.

(** X21.  The comparison of groups is reflexive.  The copy that [operator=]
    makes holds clones of the valid sources only: it has no null entry, its
    flags and velocities are those of the original, and it compares equal to
    the original exactly when the original has no null entry in either
    array (a null entry is left out, so the arrays then differ in
    length). *)
Theorem X21_copy_and_equality (g : FBaseRootMotionSourceGroup) :
  Group_eq g g = true
  /\ Group_neq g g = false
  /\ AllValid (RootMotionSources (Group_assign g))
  /\ AllValid (PendingAddRootMotionSources (Group_assign g))
  /\ RootMotionSources (Group_assign g) = filter IsValid (RootMotionSources g)
  /\ PendingAddRootMotionSources (Group_assign g)
     = filter IsValid (PendingAddRootMotionSources g)
  /\ Group_eq (Group_assign g) g
     = forallb IsValid (RootMotionSources g)
       && forallb IsValid (PendingAddRootMotionSources g).
Proof.
  assert (Ha : RootMotionSources (Group_assign g) = filter IsValid (RootMotionSources g))
    by apply CloneSources_filter.
  assert (Hp : PendingAddRootMotionSources (Group_assign g)
               = filter IsValid (PendingAddRootMotionSources g))
    by apply CloneSources_filter.
  split; [apply Group_eq_refl |].
  split; [unfold Group_neq; rewrite Group_eq_refl; reflexivity |].
  split; [rewrite Ha; apply AllValid_filter |].
  split; [rewrite Hp; apply AllValid_filter |].
  split; [exact Ha |]. split; [exact Hp |].
  destruct (forallb IsValid (RootMotionSources g)) eqn:Va.
  - destruct (forallb IsValid (PendingAddRootMotionSources g)) eqn:Vp; cbn [andb].
    + replace (Group_assign g) with g; [apply Group_eq_refl |].
      unfold Group_assign. rewrite !CloneSources_filter, !filter_all by assumption.
      destruct g; reflexivity.
    + unfold Group_eq. rewrite Ha, Hp. cbn [bHasAdditiveSources bHasOverrideSources
        bHasOverrideSourcesWithIgnoreZAccumulate bIsAdditiveVelocityApplied
        LastPreAdditiveVelocity Group_assign].
      rewrite !Bool.eqb_reflx, VecEquals_refl by lra. cbn [negb orb].
      rewrite (filter_all _ _ Va), Nat.eqb_refl. cbn [negb].
      pose proof (filter_shorter _ _ Vp) as Hlt.
      destruct (Nat.eqb_spec (List.length (filter IsValid (PendingAddRootMotionSources g)))
                  (List.length (PendingAddRootMotionSources g))) as [He | _]; [lia |].
      reflexivity.
  - cbn [andb]. unfold Group_eq. rewrite Ha. cbn [bHasAdditiveSources bHasOverrideSources
      bHasOverrideSourcesWithIgnoreZAccumulate bIsAdditiveVelocityApplied
      LastPreAdditiveVelocity Group_assign].
    rewrite !Bool.eqb_reflx, VecEquals_refl by lra. cbn [negb orb].
    pose proof (filter_shorter _ _ Va) as Hlt.
    destruct (Nat.eqb_spec (List.length (filter IsValid (RootMotionSources g)))
                (List.length (RootMotionSources g))) as [He | _]; [lia |].
    reflexivity.
Qed.

(** X22.  [Clear] empties both arrays and resets the flags and the
    accumulated settings, so the cleared group has no active source, no
    velocity and needs no smoothing; but it keeps the last pre-additive
    velocity, so a cleared group compares equal to a newly constructed one
    only when that velocity is within the tolerance of the comparison (1 in
    every coordinate) of zero. *)
Theorem X22_clear (g : FBaseRootMotionSourceGroup) :
  let c := Group_Clear g in
  HasActiveRootMotionSources c = false
  /\ HasRootMotionToApply c = false
  /\ HasVelocity c = false
  /\ NeedsSimulatedSmoothing c = false
  /\ LastAccumulatedSettings c = 0%Z
  /\ LastPreAdditiveVelocity c = LastPreAdditiveVelocity g
  /\ Group_eq c New_Group = Vec.Equals (LastPreAdditiveVelocity g) Vec.Zero 1.
Proof.
  cbv zeta. repeat split.
  unfold Group_eq, Group_Clear, New_Group.
  cbn [bHasAdditiveSources bHasOverrideSources bHasOverrideSourcesWithIgnoreZAccumulate
       bIsAdditiveVelocityApplied LastPreAdditiveVelocity RootMotionSources
       PendingAddRootMotionSources Bool.eqb negb orb List.length Nat.eqb SourcesEqual].
  destruct (Vec.Equals (LastPreAdditiveVelocity g) Vec.Zero 1); reflexivity.
Qed.

(** ** Jumping *)

(** X23.  A jump is allowed only within the jump limit.  When
    [CanJumpInternal] answers yes the character is not crouched, the
    movement component allows a jump attempt and the jumps made do not
    exceed [JumpMaxCount]; the limit itself is reached only by a jump that
    is being continued (the character was already jumping, the key is still
    pressed and was held for less than [JumpMaxHoldTime]); and a character
    that is falling without having jumped has one jump counted against it,
    so it needs a limit of at least two. *)
Theorem X23_jump_limit (CharacterMovement : JumpMovement) (c : ABaseCharacter_Jump) :
  CanJumpInternal_Implementation CharacterMovement c = true ->
  bIsCrouched c = false
  /\ CanAttemptJump CharacterMovement = true
  /\ (JumpCurrentCount c <= JumpMaxCount c)%Z
  /\ (JumpCurrentCount c = JumpMaxCount c ->
      bWasJumping c = true /\ bPressedJump c = true
      /\ JumpKeyHoldTime c < GetJumpMaxHoldTime c)
  /\ (bWasJumping c = true -> 0 < GetJumpMaxHoldTime c ->
      bPressedJump c = true /\ JumpKeyHoldTime c < GetJumpMaxHoldTime c)
  /\ (JumpCurrentCount c = 0%Z -> IsFalling CharacterMovement = true ->
      bWasJumping c = false \/ GetJumpMaxHoldTime c <= 0 ->
      (1 < JumpMaxCount c)%Z).
Proof.
  intro H. unfold CanJumpInternal_Implementation in H.
  apply andb_true_iff in H. destruct H as [Hc Ha].
  apply negb_true_iff in Hc. unfold JumpIsAllowedInternal in Ha. cbv zeta in Ha.
  destruct (CanAttemptJump CharacterMovement) eqn:Hcan; [| discriminate Ha].
  split; [exact Hc | split; [reflexivity |]].
  assert (Cases :
    ((bWasJumping c = false \/ GetJumpMaxHoldTime c <= 0)
     /\ (((JumpCurrentCount c = 0)%Z /\ IsFalling CharacterMovement = true
          /\ (JumpCurrentCount c + 1 < JumpMaxCount c)%Z)
         \/ (((JumpCurrentCount c <> 0)%Z \/ IsFalling CharacterMovement = false)
             /\ (JumpCurrentCount c < JumpMaxCount c)%Z)))
    \/ (bWasJumping c = true /\ 0 < GetJumpMaxHoldTime c
        /\ bPressedJump c = true /\ JumpKeyHoldTime c < GetJumpMaxHoldTime c
        /\ (JumpCurrentCount c <= JumpMaxCount c)%Z)).
  { assert (First :
      (if (JumpCurrentCount c =? 0)%Z && IsFalling CharacterMovement
       then (JumpCurrentCount c + 1 <? JumpMaxCount c)%Z
       else (JumpCurrentCount c <? JumpMaxCount c)%Z) = true ->
      ((JumpCurrentCount c = 0)%Z /\ IsFalling CharacterMovement = true
       /\ (JumpCurrentCount c + 1 < JumpMaxCount c)%Z)
      \/ (((JumpCurrentCount c <> 0)%Z \/ IsFalling CharacterMovement = false)
          /\ (JumpCurrentCount c < JumpMaxCount c)%Z)).
    { destruct (Z.eqb_spec (JumpCurrentCount c) 0) as [Hz | Hz]; cbn [andb].
      - destruct (IsFalling CharacterMovement); intro Hlt; apply Z.ltb_lt in Hlt.
        + left. auto.
        + right. auto.
      - intro Hlt. apply Z.ltb_lt in Hlt. right. auto. }
    destruct (bWasJumping c) eqn:Hw; cbn [negb orb] in Ha.
    - destruct (Qle_bool_spec (GetJumpMaxHoldTime c) 0) as [Hm | Hm].
      + left. split; [right; exact Hm | apply First; exact Ha].
      + right. apply andb_true_iff in Ha. destruct Ha as [Hheld Hcount].
        apply andb_true_iff in Hheld. destruct Hheld as [Hp Hh].
        destruct (Qltb_spec (JumpKeyHoldTime c) (GetJumpMaxHoldTime c)) as [Hlt | Hge];
          [| discriminate Hh].
        split; [reflexivity | split; [exact Hm | split; [exact Hp | split; [exact Hlt |]]]].
        apply orb_true_iff in Hcount. destruct Hcount as [Hc1 | Hc2].
        * apply Z.ltb_lt in Hc1. lia.
        * cbn [andb] in Hc2. apply Z.eqb_eq in Hc2. lia.
    - left. split; [left; reflexivity | apply First; exact Ha]. }
  destruct Cases as [[Hfirst [(Hz & Hf & Hlt) | (Hnot & Hlt)]] | (Hw & Hm & Hp & Hh & Hle)].
  - split; [lia |]. split; [intro; lia |]. split.
    + intros Hw Hm. destruct Hfirst as [Hw' | Hm']; [congruence | lra].
    + intros _ _ _. lia.
  - split; [lia |]. split; [intro; lia |]. split.
    + intros Hw Hm. destruct Hfirst as [Hw' | Hm']; [congruence | lra].
    + intros Hz Hf _. destruct Hnot as [Hnz | Hnf]; [contradiction | congruence].
  - split; [exact Hle |]. split; [intros _; auto |]. split.
    + intros _ _. auto.
    + intros _ _ [Hw' | Hm']; [congruence | lra].
Qed.

Lemma X23_jump_limit_witness :
  let c := MkJump true true (1 # 10) (1 # 5) 1 0 1 (3 # 10) false false 0 in
  CanJumpInternal_Implementation (MkJumpMovement true true) c = true
  /\ (JumpCurrentCount c <= JumpMaxCount c)%Z
  /\ JumpKeyHoldTime c < GetJumpMaxHoldTime c.
Proof.
  cbv zeta.
  assert (H : CanJumpInternal_Implementation (MkJumpMovement true true)
                (MkJump true true (1 # 10) (1 # 5) 1 0 1 (3 # 10) false false 0) = true)
    by reflexivity.
  destruct (X23_jump_limit _ _ H) as (_ & _ & Hle & Hmax & _).
  split; [exact H | split; [exact Hle |]].
  apply Hmax. reflexivity.
Defined.

(** X24.  While the jump key is pressed [ClearJumpInput] adds the tick to
    the time the key was held and changes nothing else but the key (every
    other member of the jump state is as before): the key
    stays pressed exactly while the hold time is below [JumpMaxHoldTime].
    Once the hold time has reached it, a jump that was being continued is
    no longer allowed. *)
Theorem X24_held_jump_key (CharacterMovement : JumpMovement) (DeltaTime : Q)
    (c : ABaseCharacter_Jump) :
  bPressedJump c = true ->
  let c' := ClearJumpInput DeltaTime c in
  JumpKeyHoldTime c' = JumpKeyHoldTime c + DeltaTime
  /\ (bPressedJump c' = true <-> JumpKeyHoldTime c + DeltaTime < GetJumpMaxHoldTime c)
  /\ bWasJumping c' = bWasJumping c
  /\ JumpForceTimeRemaining c' = JumpForceTimeRemaining c
  /\ JumpCurrentCount c' = JumpCurrentCount c
  /\ JumpMaxCount c' = JumpMaxCount c
  /\ GetJumpMaxHoldTime c' = GetJumpMaxHoldTime c
  /\ (bWasJumping c = true -> 0 < GetJumpMaxHoldTime c ->
      GetJumpMaxHoldTime c <= JumpKeyHoldTime c + DeltaTime ->
      JumpIsAllowedInternal CharacterMovement c' = false)
  /\ JumpCurrentCountPreJump c' = JumpCurrentCountPreJump c
  /\ bIsCrouched c' = bIsCrouched c
  /\ bProxyIsJumpForceApplied c' = bProxyIsJumpForceApplied c
  /\ ProxyJumpForceStartedTime c' = ProxyJumpForceStartedTime c.
Proof.
  intros Hp c'. unfold c', ClearJumpInput. rewrite Hp.
  cbn [JumpKeyHoldTime bPressedJump bWasJumping JumpForceTimeRemaining JumpCurrentCount
       JumpMaxCount JumpCurrentCountPreJump bIsCrouched bProxyIsJumpForceApplied
       ProxyJumpForceStartedTime].
  split; [reflexivity | split; [| split; [reflexivity | split; [reflexivity | split;
    [reflexivity | split; [reflexivity | split; [reflexivity | split;
    [| repeat split; reflexivity]]]]]]]].
  - destruct (Qle_bool_spec (GetJumpMaxHoldTime c) (JumpKeyHoldTime c + DeltaTime))
      as [Hge | Hlt]; split; intro H; try discriminate H; try reflexivity; lra.
  - intros Hw Hm Hge. unfold JumpIsAllowedInternal. cbv zeta.
    destruct (CanAttemptJump CharacterMovement); [| reflexivity].
    unfold GetJumpMaxHoldTime in *.
    cbn [JumpKeyHoldTime bPressedJump bWasJumping JumpMaxHoldTime JumpCurrentCount
         JumpMaxCount].
    rewrite Hw. cbn [negb orb].
    destruct (Qle_bool_spec (JumpMaxHoldTime c) 0) as [Hm' | _]; [lra |].
    destruct (Qle_bool_spec (JumpMaxHoldTime c) (JumpKeyHoldTime c + DeltaTime))
      as [_ | Hlt]; [reflexivity | lra].
Qed.

Lemma X24_held_jump_key_witness :
  let c := MkJump true true (1 # 4) (1 # 20) 1 0 1 (3 # 10) false false 0 in
  JumpKeyHoldTime (ClearJumpInput (1 # 10) c) = (1 # 4) + (1 # 10)
  /\ JumpIsAllowedInternal (MkJumpMovement true true) c = true
  /\ JumpIsAllowedInternal (MkJumpMovement true true) (ClearJumpInput (1 # 10) c) = false.
Proof.
  cbv zeta.
  destruct (X24_held_jump_key (MkJumpMovement true true) (1 # 10)
              (MkJump true true (1 # 4) (1 # 20) 1 0 1 (3 # 10) false false 0) eq_refl)
    as (H1 & _ & _ & _ & _ & _ & _ & H8 & _).
  split; [exact H1 | split; [reflexivity |]].
  apply H8.
  - reflexivity.
  - reflexivity.
  - apply Qle_bool_iff. reflexivity.
Defined.

(** X25.  Releasing the jump key ends the jump.  After [StopJumping] the key
    is not pressed, no jump is being continued, the hold time and the
    remaining force time are zero, and the jump provides no force on a
    character that is not a simulated proxy.  On the ground (the movement
    component is there and not falling) the jump counts start again from
    zero, so that pressing the key again allows a jump exactly when the
    character is not crouched, the movement component allows the attempt
    and [JumpMaxCount] is at least one; in the air, or without a movement
    component, the counts are kept.  [ClearJumpInput] on a released key
    likewise ends the force of the jump. *)
Theorem X25_released_jump_key (W : MontageWorld) (Role : ENetRole)
    (CharacterMovement : option JumpMovement) (DeltaTime : Q) (c : ABaseCharacter_Jump) :
  let c' := StopJumping CharacterMovement c in
  bPressedJump c' = false /\ bWasJumping c' = false
  /\ JumpKeyHoldTime c' = 0 /\ JumpForceTimeRemaining c' = 0
  /\ (Role <> ROLE_SimulatedProxy -> IsJumpProvidingForce W Role c' = false)
  /\ (forall m, CharacterMovement = Some m -> IsFalling m = false ->
      JumpCurrentCount c' = 0%Z /\ JumpCurrentCountPreJump c' = 0%Z
      /\ CanJumpInternal_Implementation m (Jump c')
         = negb (bIsCrouched c) && (CanAttemptJump m && (0 <? JumpMaxCount c)%Z))
  /\ (CharacterMovement = None
      \/ (exists m, CharacterMovement = Some m /\ IsFalling m = true) ->
      JumpCurrentCount c' = JumpCurrentCount c
      /\ JumpCurrentCountPreJump c' = JumpCurrentCountPreJump c)
  /\ (bPressedJump c = false ->
      bWasJumping (ClearJumpInput DeltaTime c) = false
      /\ JumpForceTimeRemaining (ClearJumpInput DeltaTime c) = 0
      /\ JumpCurrentCount (ClearJumpInput DeltaTime c) = JumpCurrentCount c
      /\ (Role <> ROLE_SimulatedProxy ->
          IsJumpProvidingForce W Role (ClearJumpInput DeltaTime c) = false)).
Proof.
  cbv zeta.
  assert (NoProxy : forall d, Role <> ROLE_SimulatedProxy -> JumpForceTimeRemaining d = 0 ->
                              IsJumpProvidingForce W Role d = false).
  { intros d Hr Hf. unfold IsJumpProvidingForce. rewrite Hf.
    change (Qltb 0 0) with false. cbv iota.
    destruct Role; try reflexivity; try (rewrite andb_false_r; reflexivity).
    contradiction Hr. reflexivity. }
  split; [reflexivity | split; [reflexivity | split; [reflexivity | split; [reflexivity |]]]].
  split; [intro Hr; apply NoProxy; [exact Hr | reflexivity] |].
  split; [| split].
  - intros m -> Hf. unfold StopJumping, ResetJumpState. rewrite Hf.
    cbn [negb JumpCurrentCount JumpCurrentCountPreJump].
    split; [reflexivity | split; [reflexivity |]].
    unfold CanJumpInternal_Implementation, JumpIsAllowedInternal, Jump. cbv zeta.
    cbn [bIsCrouched bWasJumping negb orb JumpCurrentCount JumpMaxCount].
    rewrite Hf. cbn [Z.eqb andb].
    destruct (CanAttemptJump m); reflexivity.
  - intros [-> | (m & -> & Hf)]; unfold StopJumping, ResetJumpState;
      [| rewrite Hf]; split; reflexivity.
  - intro Hp. unfold ClearJumpInput. rewrite Hp.
    cbn [bWasJumping JumpForceTimeRemaining JumpCurrentCount].
    split; [reflexivity | split; [reflexivity | split; [reflexivity |]]].
    intro Hr. apply NoProxy; [exact Hr | reflexivity].
Qed.

(** ** The buffer of replicated moves *)

Lemma FindRootMotionRepMove_from_app (W : MontageWorld)
    (moves : list FBaseSimulatedRootMotionReplicatedMove)
    (m : FBaseSimulatedRootMotionReplicatedMove) (inst : FAnimMontageInstance) (n : nat) :
  (n <= List.length moves)%nat ->
  FindRootMotionRepMove_from W (moves ++ [m]) inst n
  = FindRootMotionRepMove_from W moves inst n.
Proof.
  induction n as [| n IH]; intro Hn; cbn [FindRootMotionRepMove_from]; [reflexivity |].
  rewrite nth_error_app1 by lia. rewrite IH by lia. reflexivity.
Qed.

Lemma FindRootMotionRepMove_app (W : MontageWorld)
    (moves : list FBaseSimulatedRootMotionReplicatedMove)
    (m : FBaseSimulatedRootMotionReplicatedMove) (inst : FAnimMontageInstance) :
  FindRootMotionRepMove W (moves ++ [m]) inst
  = if CanUseRootMotionRepMove W m inst then Z.of_nat (List.length moves)
    else FindRootMotionRepMove W moves inst.
Proof.
  unfold FindRootMotionRepMove. rewrite length_app. cbn [List.length].
  rewrite Nat.add_1_r. cbn [FindRootMotionRepMove_from].
  rewrite nth_error_app2 by lia. rewrite Nat.sub_diag. cbn [nth_error].
  rewrite FindRootMotionRepMove_from_app by lia. reflexivity.
Qed.

(** X26.  On a simulated proxy that replicates movement, [OnRep_RootMotion]
    appends the received root motion to the buffer, stamped with the
    current time, when it is active, and empties the buffer when it is not.
    The search for a usable move then returns the new move when it is
    usable and otherwise what it returned before; on the emptied buffer it
    finds nothing.  The movement component, when there is one, is told
    that an update arrived.  On any other role, or when movement is not
    replicated, nothing changes. *)
Theorem X26_received_move_buffered (W : MontageWorld) (st : RootMotionReplication)
    (inst : FAnimMontageInstance) :
  let st' := OnRep_RootMotion W true ROLE_SimulatedProxy st in
  let m := MkRepMove (TimeSeconds W) (RepRootMotion st) in
  (bIsActive (RepRootMotion st) = true ->
   RootMotionRepMoves st' = RootMotionRepMoves st ++ [m]
   /\ TimeSince W (Time m) == 0
   /\ FindRootMotionRepMove W (RootMotionRepMoves st') inst
      = if CanUseRootMotionRepMove W m inst
        then Z.of_nat (List.length (RootMotionRepMoves st))
        else FindRootMotionRepMove W (RootMotionRepMoves st) inst)
  /\ (bIsActive (RepRootMotion st) = false ->
      RootMotionRepMoves st' = []
      /\ FindRootMotionRepMove W (RootMotionRepMoves st') inst = INDEX_NONE)
  /\ bNetworkUpdateReceived st' = option_map (fun _ => true) (bNetworkUpdateReceived st)
  /\ RepRootMotion st' = RepRootMotion st
  /\ (forall Role, Role <> ROLE_SimulatedProxy -> OnRep_RootMotion W true Role st = st)
  /\ (forall Role, OnRep_RootMotion W false Role st = st).
Proof.
  cbv zeta. unfold OnRep_RootMotion. cbn [negb RootMotionRepMoves].
  split; [| split; [| split; [| split; [| split]]]].
  - intro Ha. rewrite Ha. split; [reflexivity |]. split.
    + unfold TimeSince. cbn [Time]. ring.
    + apply FindRootMotionRepMove_app.
  - intro Ha. rewrite Ha. split; reflexivity.
  - cbn [bNetworkUpdateReceived]. destruct (bNetworkUpdateReceived st); reflexivity.
  - reflexivity.
  - intros Role Hr. destruct Role; try reflexivity. contradiction Hr. reflexivity.
  - reflexivity.
Qed.

Lemma Fixup_DeltaTime_positive (D P : Q) :
  0 <= D * P -> UE_KINDA_SMALL_NUMBER < Qabs D -> UE_SMALL_NUMBER < Qabs P -> 0 < D / P.
Proof.
  unfold UE_KINDA_SMALL_NUMBER, UE_SMALL_NUMBER. intros Hprod HD HP.
  assert (HD' : D < 0 \/ 0 < D).
  { revert HD. apply Qabs_case; intros; lra. }
  assert (HP' : P < 0 \/ 0 < P).
  { revert HP. apply Qabs_case; intros; lra. }
  destruct HP' as [Pneg | Ppos].
  - assert (Dneg : D < 0).
    { destruct HD' as [H | H]; [exact H |].
      assert (0 < D * (- P)) by (apply Qmult_lt_0_compat; lra). lra. }
    assert (E : D / P == (- D) / (- P)) by (field; lra).
    rewrite E. apply Qlt_shift_div_l; lra.
  - assert (Dpos : 0 < D).
    { destruct HD' as [H | H]; [| exact H].
      assert (0 < (- D) * P) by (apply Qmult_lt_0_compat; lra). lra. }
    apply Qlt_shift_div_l; lra.
Qed.

Lemma FindRootMotionRepMove_none (W : MontageWorld)
    (moves : list FBaseSimulatedRootMotionReplicatedMove) (inst : FAnimMontageInstance) :
  (forall j m, nth_error moves j = Some m -> CanUseRootMotionRepMove W m inst = false) ->
  FindRootMotionRepMove W moves inst = INDEX_NONE.
Proof.
  intro Hall. unfold FindRootMotionRepMove.
  destruct (FindRootMotionRepMove_from_spec W moves inst (List.length moves))
    as [[Hr _] | (i & m & _ & _ & Hm & Hu & _)]; [exact Hr |].
  rewrite (Hall i m Hm) in Hu. discriminate Hu.
Qed.

(** X27.  The position fix-up of a simulated proxy uses a buffered move at
    most once.  With a montage instance, a movement component and a mesh,
    [SimulatedRootMotionPositionFixup] never trips a check (the index it
    reads is in the buffer, and the time step it simulates is positive
    whenever it is computed); when the search found no usable move the
    buffer is left alone; when it found the move at index [i], that move
    and all older ones are dropped and the newer ones are kept in order.
    Either way no usable move remains in the buffer.  Without a montage
    instance, or without the movement component or the mesh, the buffer is
    left alone. *)
Theorem X27_position_fixup (W : MontageWorld)
    (RestoreReplicatedMove : FBaseSimulatedRootMotionReplicatedMove -> bool)
    (inst : FAnimMontageInstance)
    (moves : list FBaseSimulatedRootMotionReplicatedMove) :
  let r := SimulatedRootMotionPositionFixup W RestoreReplicatedMove (Some inst) true moves in
  checks_ok r = true
  /\ FindRootMotionRepMove W (value r) inst = INDEX_NONE
  /\ (FindRootMotionRepMove W moves inst = INDEX_NONE -> value r = moves)
  /\ (forall i : nat, FindRootMotionRepMove W moves inst = Z.of_nat i ->
      value r = skipn (S i) moves
      /\ List.length (value r) = (List.length moves - S i)%nat)
  /\ (forall b,
      SimulatedRootMotionPositionFixup W RestoreReplicatedMove None b moves = ret moves)
  /\ SimulatedRootMotionPositionFixup W RestoreReplicatedMove (Some inst) false moves
     = ret moves.
Proof.
  cbv zeta.
  assert (VNone : FindRootMotionRepMove W moves inst = INDEX_NONE ->
                  value (SimulatedRootMotionPositionFixup W RestoreReplicatedMove (Some inst)
                           true moves) = moves).
  { intro Hnone. unfold SimulatedRootMotionPositionFixup. cbv zeta. rewrite Hnone.
    reflexivity. }
  assert (VSome : forall i : nat, FindRootMotionRepMove W moves inst = Z.of_nat i ->
                  value (SimulatedRootMotionPositionFixup W RestoreReplicatedMove (Some inst)
                           true moves) = skipn (S i) moves).
  { intros i Hfound.
    unfold SimulatedRootMotionPositionFixup. cbv zeta. rewrite Hfound.
    replace (negb (Z.of_nat i =? INDEX_NONE)%Z) with true
      by (symmetry; apply negb_true_iff, Z.eqb_neq; unfold INDEX_NONE; lia).
    replace (Z.to_nat (Z.of_nat i + 1)) with (S i) by lia.
    unfold RepMoveAt.
    replace (0 <=? Z.of_nat i)%Z with true by (symmetry; apply Z.leb_le; lia).
    rewrite Nat2Z.id.
    destruct (FindRootMotionRepMove_from_spec W moves inst (List.length moves))
      as [[Hr _] | (i' & m & Hr & _ & Hm & _)]; cbv zeta in *;
      fold (FindRootMotionRepMove W moves inst) in Hr; rewrite Hfound in Hr.
    - unfold INDEX_NONE in Hr. lia.
    - apply Nat2Z.inj in Hr. subst i'. rewrite Hm. reflexivity. }
  split; [| split; [| split; [| split; [| split]]]];
    try (intros; reflexivity).
  - unfold SimulatedRootMotionPositionFixup, FindRootMotionRepMove. cbv zeta.
    destruct (FindRootMotionRepMove_from_spec W moves inst (List.length moves))
      as [[Hr _] | (i & m & Hr & Hi & Hm & Hu & _)]; cbv zeta in *; rewrite Hr.
    + reflexivity.
    + replace (negb (Z.of_nat i =? INDEX_NONE)%Z) with true
        by (symmetry; apply negb_true_iff, Z.eqb_neq; unfold INDEX_NONE; lia).
      unfold RepMoveAt.
      replace (0 <=? Z.of_nat i)%Z with true by (symmetry; apply Z.leb_le; lia).
      rewrite Nat2Z.id, Hm. unfold bind. cbn [checks_ok ret value]. rewrite andb_true_r.
      destruct (RestoreReplicatedMove m); [| reflexivity]. cbv zeta.
      destruct (Qltb_spec UE_KINDA_SMALL_NUMBER
                  (FMath.Abs (GetPosition inst - Position (RootMotion m)))) as [HD | _];
        [| reflexivity].
      unfold FMath.IsNearlyZero.
      destruct (Qle_bool_spec (FMath.Abs (GetPlayRate inst)) UE_SMALL_NUMBER) as [_ | HP];
        [reflexivity |].
      cbn [negb checkf checks_ok].
      apply CanUseRootMotionRepMove_spec in Hu.
      destruct Hu as (_ & montage & _ & _ & Hsec). cbv zeta in Hsec.
      destruct Hsec as (_ & _ & _ & Hprod).
      destruct (Qltb_spec 0 ((GetPosition inst - Position (RootMotion m)) / GetPlayRate inst))
        as [_ | Hbad]; [reflexivity |].
      pose proof (Fixup_DeltaTime_positive _ _ Hprod HD HP) as Hpos. lra.
  - destruct (FindRootMotionRepMove_from_spec W moves inst (List.length moves))
      as [[Hr _] | (i & m & Hr & Hi & Hm & Hu & Hlater)]; cbv zeta in *;
      fold (FindRootMotionRepMove W moves inst) in Hr.
    + rewrite (VNone Hr). exact Hr.
    + rewrite (VSome i Hr).
      apply FindRootMotionRepMove_none. intros j m' Hj.
      rewrite nth_error_skipn in Hj.
      apply (Hlater (S i + j)%nat m'); [| exact Hj].
      split; [lia |]. apply nth_error_Some. congruence.
  - exact VNone.
  - intros i Hfound. rewrite (VSome i Hfound).
    split; [reflexivity | apply length_skipn].
Qed.

(** ** Messages of a whole group *)

(** On a writer a step of serialization returns [v] and appends [items]. *)
Lemma Appends_sret {A} (a : A) (e : bool) (d : list WireItem) :
  sret a (MkArchive false e d) = (a, MkArchive false e (d ++ [])).
Proof. rewrite app_nil_r. reflexivity. Qed.

Lemma Appends_sbind {A B} (c : Ser A) (k : A -> Ser B) (v : A) (w : B)
    (i1 i2 : list WireItem) :
  (forall e d, c (MkArchive false e d) = (v, MkArchive false e (d ++ i1))) ->
  (forall e d, k v (MkArchive false e d) = (w, MkArchive false e (d ++ i2))) ->
  forall e d, sbind c k (MkArchive false e d) = (w, MkArchive false e (d ++ (i1 ++ i2))).
Proof.
  intros H1 H2 e d. unfold sbind. rewrite H1. cbn [fst snd]. rewrite H2, app_assoc.
  reflexivity.
Qed.

Lemma Appends_Serialize {A} (inj : A -> WireItem) (proj : WireItem -> option A) (zero v : A)
    (e : bool) (d : list WireItem) :
  Serialize inj proj zero v (MkArchive false e d) = (v, MkArchive false e (d ++ [inj v])).
Proof. reflexivity. Qed.

Ltac appends_step :=
  lazymatch goal with
  | |- forall e d, sbind _ _ _ = _ =>
      eapply Appends_sbind; [intros; apply Appends_Serialize | cbv beta]
  | |- forall e d, sret _ _ = _ => intros; apply Appends_sret
  end.

Lemma NetSerialize_appends (s : FBaseRootMotionSource) :
  exists items,
    forall e d, NetSerialize s (MkArchive false e d) = (s, true, MkArchive false e (d ++ items)).
Proof.
  destruct s as [? ? ? ? ? ? ? ? ? ? ? ? ? ? ? ds].
  destruct ds as [[] | [] | [] | [] | []];
    eexists; unfold NetSerialize;
    (eapply Appends_sbind;
     [ unfold Base_NetSerialize, Ar_int32, Ar_uint16, Ar_uint8, Ar_float, Ar_bool, Ar_name;
       repeat appends_step
     | cbv beta; cbn [snd fst negb Derived];
       (eapply Appends_sbind; [| cbv beta; intros; apply Appends_sret]);
       (eapply Appends_sbind; [| cbv beta; intros; apply Appends_sret]);
       unfold ConstantForce_NetSerialize, RadialForce_NetSerialize, MoveToForce_NetSerialize,
         MoveToDynamicForce_NetSerialize, JumpForce_NetSerialize,
         Ar_float, Ar_bool, Ar_vector, Ar_rotator, Ar_object;
       repeat appends_step ]).
Qed.

Lemma NetSerialize_append (s : FBaseRootMotionSource) (e : bool) (d : list WireItem) :
  NetSerialize s (MkArchive false e d) = (s, true, MkArchive false e (d ++ EncodeSource s)).
Proof.
  destruct (NetSerialize_appends s) as (items & H).
  assert (E : EncodeSource s = items).
  { unfold EncodeSource, NewWriter. rewrite H. reflexivity. }
  rewrite E. apply H.
Qed.

Lemma SetAt_same (i : nat) (s : FBaseRootMotionSource) (arr : list TSharedPtr) :
  At i arr = Some s -> SetAt i (Some s) arr = arr.
Proof.
  revert i. induction arr as [| y arr IH]; intros [| i] H; cbn in *; try reflexivity.
  - unfold At in H. cbn in H. congruence.
  - f_equal. apply IH. exact H.
Qed.

Lemma map_At_seq (arr : list TSharedPtr) (n : nat) :
  (n <= List.length arr)%nat -> map (fun j => At j arr) (seq 0 n) = firstn n arr.
Proof.
  revert n. induction arr as [| a arr IH]; intros [| n] Hn; cbn [List.length] in Hn;
    try reflexivity; try lia.
  cbn [seq map firstn]. f_equal. rewrite <- seq_shift, map_map.
  rewrite <- (IH n) by lia. reflexivity.
Qed.

(** One turn of the loop on a writer: the tag and the source of the element
    are appended, the array stays as it is. *)
Lemma RMSArrayStep_write (i : nat) (arr : list TSharedPtr) (b : bool) (d : list WireItem) :
  RMSArrayStep i (MkArrayState (MkArchive false false d) arr b)
  = (MkArrayState (MkArchive false false (d ++ EncodePtr (At i arr))) arr
       (if IsValid (At i arr) then true else b), false).
Proof.
  unfold RMSArrayStep. cbv zeta. cbn [as_Ar as_Array as_bOutSuccess].
  destruct (At i arr) as [s |] eqn:Hat; cbn [option_map IsValid EncodePtr];
    unfold Ar_ScriptStruct; cbn [ArIsLoading ArIsError ArData].
  - rewrite IsDerivedFromBaseRMS_source. rewrite Hat.
    rewrite NetSerialize_append. rewrite (SetAt_same i s arr Hat).
    unfold EncodeEntry. rewrite <- app_assoc. reflexivity.
  - reflexivity.
Qed.

Lemma RMSArrayLoop_write (n i : nat) (arr : list TSharedPtr) (b : bool) (d : list WireItem) :
  exists b',
    RMSArrayLoop n i (MkArrayState (MkArchive false false d) arr b)
    = MkArrayState
        (MkArchive false false (d ++ EncodePtrs (map (fun j => At j arr) (seq i n)))) arr b'.
Proof.
  revert i b d. induction n as [| n IH]; intros i b d.
  - exists b. cbn [RMSArrayLoop seq map EncodePtrs List.concat]. rewrite app_nil_r.
    reflexivity.
  - cbn [RMSArrayLoop as_Ar ArIsError]. rewrite RMSArrayStep_write.
    destruct (IH (S i) (if IsValid (At i arr) then true else b) (d ++ EncodePtr (At i arr)))
      as (b' & Hloop).
    exists b'. rewrite Hloop. unfold EncodePtrs. cbn [seq map List.concat].
    rewrite app_assoc. reflexivity.
Qed.

Lemma NetSerializeRMSArray_write (budget : Z) (arr : list TSharedPtr) (b : bool)
    (d : list WireItem) :
  exists b',
    NetSerializeRMSArray budget (MkArrayState (MkArchive false false d) arr b)
    = MkArrayState (MkArchive false false (d ++ EncodeArray arr budget)) arr b'.
Proof.
  unfold NetSerializeRMSArray. cbv zeta.
  cbn [as_Ar as_Array as_bOutSuccess ArIsSaving ArIsLoading negb].
  unfold Ar_uint8, Serialize. cbn [ArIsLoading ArData ArIsError].
  set (n := Z.min (Z.of_nat (List.length arr)) budget).
  destruct (RMSArrayLoop_write (Z.to_nat n) 0 arr b (d ++ [WUInt8 n])) as (b' & Hloop).
  exists b'. rewrite Hloop. rewrite map_At_seq by (unfold n; lia).
  unfold EncodeArray. fold n. rewrite <- app_assoc. reflexivity.
Qed.

Lemma EncodeArray_min (l : list TSharedPtr) (budget : Z) :
  EncodeArray l (Z.min (Z.of_nat (List.length l)) budget) = EncodeArray l budget.
Proof.
  unfold EncodeArray. cbv zeta.
  replace (Z.min (Z.of_nat (List.length l)) (Z.min (Z.of_nat (List.length l)) budget))
    with (Z.min (Z.of_nat (List.length l)) budget) by lia.
  reflexivity.
Qed.

Lemma Group_NetSerialize_write (g : FBaseRootMotionSourceGroup) (max : Z) :
  Group_NetSerialize NewWriter g max
  = (MkArchive false false (EncodeGroup g max), g, true, true).
Proof.
  destruct g as [A P a b c d v f].
  unfold Group_NetSerialize, NewWriter, Ar_bool, Ar_vector, Ar_uint8, Serialize.
  cbn [ArIsLoading ArData ArIsError app RootMotionSources PendingAddRootMotionSources
       bHasAdditiveSources bHasOverrideSources bHasOverrideSourcesWithIgnoreZAccumulate
       bIsAdditiveVelocityApplied LastPreAdditiveVelocity LastAccumulatedSettings].
  cbv zeta.
  set (N1 := Z.min (Z.of_nat (List.length A)) max).
  assert (E2 : (if (N1 <? max)%Z then (max - N1)%Z else 0%Z) = (max - N1)%Z).
  { destruct (Z.ltb_spec N1 max); [reflexivity | unfold N1 in *; lia]. }
  rewrite E2.
  match goal with
  | |- context [NetSerializeRMSArray N1 (MkArrayState (MkArchive false false ?d) A true)] =>
      destruct (NetSerializeRMSArray_write N1 A true d) as (b1 & H1); rewrite H1
  end.
  cbn [as_Ar as_Array as_bOutSuccess].
  match goal with
  | |- context [NetSerializeRMSArray (max - N1)
                  (MkArrayState (MkArchive false false ?d) P b1)] =>
      destruct (NetSerializeRMSArray_write (max - N1) P b1 d) as (b2 & H2); rewrite H2
  end.
  cbn [as_Ar as_Array as_bOutSuccess ArIsError].
  unfold EncodeGroup, EncodeHeader, PendingBudget.
  cbn [RootMotionSources PendingAddRootMotionSources
       bHasAdditiveSources bHasOverrideSources bHasOverrideSourcesWithIgnoreZAccumulate
       bIsAdditiveVelocityApplied LastPreAdditiveVelocity LastAccumulatedSettings].
  fold N1. rewrite <- app_assoc. unfold N1 at 1. rewrite EncodeArray_min. reflexivity.
Qed.

Lemma At_app_mid (pre : list TSharedPtr) (x : TSharedPtr) (rest : list TSharedPtr) :
  At (List.length pre) (pre ++ x :: rest) = x.
Proof.
  unfold At. rewrite nth_error_app2 by lia. rewrite Nat.sub_diag. reflexivity.
Qed.

Lemma SetAt_app_mid (pre : list TSharedPtr) (x y : TSharedPtr) (rest : list TSharedPtr) :
  SetAt (List.length pre) y (pre ++ x :: rest) = pre ++ y :: rest.
Proof.
  induction pre as [| p pre IH]; cbn [List.length app SetAt]; [reflexivity |].
  rewrite IH. reflexivity.
Qed.

(** One turn of the loop on a reader whose element is still null: a null
    tag leaves it null, the tag of a source allocates the element and reads
    the source into it. *)
Lemma RMSArrayStep_read (p : TSharedPtr) (pre rest : list TSharedPtr) (b : bool)
    (tail : list WireItem) :
  exists b',
    RMSArrayStep (List.length pre)
      (MkArrayState (MkArchive true false (EncodePtr p ++ tail)) (pre ++ None :: rest) b)
    = (MkArrayState (MkArchive true false tail)
         (pre ++ option_map ReceivedFresh p :: rest) b', false).
Proof.
  unfold RMSArrayStep. cbv zeta. cbn [as_Ar as_Array as_bOutSuccess].
  rewrite At_app_mid. cbn [option_map].
  destruct p as [s |]; cbn [EncodePtr option_map].
  - unfold EncodeEntry, Ar_ScriptStruct. cbn [app ArIsLoading ArData ArIsError].
    rewrite IsDerivedFromBaseRMS_source.
    destruct (InitializeStruct_source s) as (t0 & Hinit & Ht0 & _).
    rewrite Hinit, SetAt_app_mid, At_app_mid.
    rewrite (NetSerialize_read s t0 false tail Ht0).
    rewrite SetAt_app_mid. unfold ReceivedFresh. rewrite Hinit.
    exists true. reflexivity.
  - exists b. reflexivity.
Qed.

Lemma RMSArrayLoop_read (ps : list TSharedPtr) (pre : list TSharedPtr) (b : bool)
    (tail : list WireItem) :
  exists b',
    RMSArrayLoop (List.length ps) (List.length pre)
      (MkArrayState (MkArchive true false (EncodePtrs ps ++ tail))
         (pre ++ repeat None (List.length ps)) b)
    = MkArrayState (MkArchive true false tail) (pre ++ map (option_map ReceivedFresh) ps) b'.
Proof.
  revert pre b. induction ps as [| p ps IH]; intros pre b.
  - exists b. reflexivity.
  - cbn [List.length repeat RMSArrayLoop as_Ar ArIsError].
    unfold EncodePtrs. cbn [map List.concat]. rewrite <- app_assoc.
    destruct (RMSArrayStep_read p pre (repeat None (List.length ps)) b
                (List.concat (map EncodePtr ps) ++ tail)) as (b1 & Hstep).
    rewrite Hstep.
    destruct (IH (pre ++ [option_map ReceivedFresh p]) b1) as (b' & Hloop).
    rewrite length_app in Hloop. cbn [List.length] in Hloop. rewrite Nat.add_1_r in Hloop.
    rewrite <- !app_assoc in Hloop. cbn [app] in Hloop.
    exists b'. exact Hloop.
Qed.

Lemma NetSerializeRMSArray_read (budget n : Z) (ps : list TSharedPtr) (b : bool)
    (tail : list WireItem) :
  List.length ps = Z.to_nat n ->
  exists b',
    NetSerializeRMSArray budget
      (MkArrayState (MkArchive true false (WUInt8 n :: EncodePtrs ps ++ tail)) [] b)
    = MkArrayState (MkArchive true false tail) (map (option_map ReceivedFresh) ps) b'.
Proof.
  intro Hn. unfold NetSerializeRMSArray. cbv zeta.
  cbn [as_Ar as_Array as_bOutSuccess ArIsSaving ArIsLoading negb].
  unfold Ar_uint8, Serialize. cbn [ArIsLoading ArData ArIsError].
  unfold SetNumZeroed. rewrite firstn_nil. cbn [List.length app].
  rewrite Nat.sub_0_r, <- Hn.
  apply (RMSArrayLoop_read ps [] b tail).
Qed.

Lemma EncodeArray_read (budget budget' : Z) (l : list TSharedPtr) (b : bool)
    (tail : list WireItem) :
  exists b',
    NetSerializeRMSArray budget'
      (MkArrayState (MkArchive true false (EncodeArray l budget ++ tail)) [] b)
    = MkArrayState (MkArchive true false tail)
        (map (option_map ReceivedFresh)
           (firstn (Z.to_nat (Z.min (Z.of_nat (List.length l)) budget)) l)) b'.
Proof.
  unfold EncodeArray. cbv zeta. cbn [app].
  apply NetSerializeRMSArray_read. rewrite length_firstn. lia.
Qed.

(** X28.  Saving a group never fails and does not change the group.  With a
    limit [max] of sources to send (a byte), the writer appends the five
    flags and the velocity of the group, then the active sources and then
    the pending sources, each list as its count followed by its first
    elements (a null element as a null tag alone).  The active list is cut
    at [max], the pending list gets what the active list left of the
    budget, so at most [max] sources are sent in all, active sources
    first. *)
Theorem X28_group_save (g : FBaseRootMotionSourceGroup) (max : Z) :
  (0 <= max <= 255)%Z ->
  let n1 := Z.min (Z.of_nat (List.length (RootMotionSources g))) max in
  let n2 := Z.min (Z.of_nat (List.length (PendingAddRootMotionSources g))) (max - n1) in
  Group_NetSerialize NewWriter g max
  = (MkArchive false false
       (EncodeHeader (bHasAdditiveSources g) (bHasOverrideSources g)
          (bHasOverrideSourcesWithIgnoreZAccumulate g) (LastPreAdditiveVelocity g)
          (bIsAdditiveVelocityApplied g) (LastAccumulatedSettings g)
        ++ (WUInt8 n1 :: EncodePtrs (firstn (Z.to_nat n1) (RootMotionSources g)))
        ++ (WUInt8 n2 :: EncodePtrs (firstn (Z.to_nat n2) (PendingAddRootMotionSources g)))),
     g, true, true)
  /\ (0 <= n1)%Z /\ (0 <= n2)%Z
  /\ (n1 + n2
      = Z.min (Z.of_nat (List.length (RootMotionSources g))
               + Z.of_nat (List.length (PendingAddRootMotionSources g))) max)%Z
  /\ ((n1 < Z.of_nat (List.length (RootMotionSources g)))%Z -> n2 = 0%Z).
Proof.
  intros Hmax n1 n2.
  split; [| unfold n1, n2; lia].
  rewrite Group_NetSerialize_write. reflexivity.
Qed.

Lemma X28_group_save_witness :
  let g := MkGroup [Some New_ConstantForce; Some New_JumpForce] [Some New_RadialForce]
             true false false false Vec.Zero 0 in
  ArData (Result_Ar (Group_NetSerialize NewWriter g 1))
  = EncodeHeader true false false Vec.Zero false 0
    ++ (WUInt8 1 :: EncodeEntry New_ConstantForce) ++ [WUInt8 0]
  /\ Result_Group (Group_NetSerialize NewWriter g 1) = g
  /\ Result_Return (Group_NetSerialize NewWriter g 1) = true.
Proof.
  cbv zeta.
  destruct (X28_group_save
              (MkGroup [Some New_ConstantForce; Some New_JumpForce] [Some New_RadialForce]
                 true false false false Vec.Zero 0) 1) as (H & _); [lia |].
  cbv zeta in H. rewrite H.
  split; [| split; reflexivity].
  reflexivity.
Defined.

(** X29.  A group that was saved is received whole.  Reading the items that
    saving a group under a limit [max] produced, followed by anything, into
    a group without sources succeeds without error and consumes exactly
    those items.  The receiving group takes the three flags that tell which
    kinds of sources there are, the last velocity before the additive
    sources, the flag that additive velocity is applied and the settings
    flags from the group sent, and holds, in order, the sources sent: each
    as [NetSerialize] transmits it into a newly constructed source of its
    type, and a null element as a null element. *)
Theorem X29_group_round_trip (g g0 : FBaseRootMotionSourceGroup) (max max' : Z)
    (rest : list WireItem) :
  (0 <= max <= 255)%Z ->
  let n1 := Z.min (Z.of_nat (List.length (RootMotionSources g))) max in
  let n2 := Z.min (Z.of_nat (List.length (PendingAddRootMotionSources g))) (max - n1) in
  let sent := ArData (Result_Ar (Group_NetSerialize NewWriter g max)) in
  Group_NetSerialize (NewReader (sent ++ rest)) (set_Sources [] [] g0) max'
  = (MkArchive true false rest,
     MkGroup
       (map (option_map ReceivedFresh) (firstn (Z.to_nat n1) (RootMotionSources g)))
       (map (option_map ReceivedFresh)
          (firstn (Z.to_nat n2) (PendingAddRootMotionSources g)))
       (bHasAdditiveSources g) (bHasOverrideSources g)
       (bHasOverrideSourcesWithIgnoreZAccumulate g) (bIsAdditiveVelocityApplied g)
       (LastPreAdditiveVelocity g) (LastAccumulatedSettings g),
     true, true).
Proof.
  intros Hmax n1 n2 sent. unfold sent. rewrite Group_NetSerialize_write.
  unfold Result_Ar. cbn [fst ArData].
  destruct g as [A P a b c d v f].
  unfold EncodeGroup, EncodeHeader, PendingBudget, set_Sources.
  cbn [RootMotionSources PendingAddRootMotionSources
       bHasAdditiveSources bHasOverrideSources bHasOverrideSourcesWithIgnoreZAccumulate
       bIsAdditiveVelocityApplied LastPreAdditiveVelocity LastAccumulatedSettings] in *.
  fold n1. rewrite <- !app_assoc.
  unfold Group_NetSerialize, NewReader, Ar_bool, Ar_vector, Ar_uint8, Serialize.
  cbn [ArIsLoading ArData ArIsError app RootMotionSources PendingAddRootMotionSources
       List.length].
  cbv zeta.
  match goal with
  | |- context [NetSerializeRMSArray ?B (MkArrayState
                  (MkArchive true false (EncodeArray A max ++ ?t)) [] true)] =>
      destruct (EncodeArray_read max B A true t) as (b1 & H1); rewrite H1
  end.
  cbn [as_Ar as_Array as_bOutSuccess].
  match goal with
  | |- context [NetSerializeRMSArray ?B (MkArrayState
                  (MkArchive true false (EncodeArray P (max - n1) ++ rest)) [] b1)] =>
      destruct (EncodeArray_read (max - n1) B P b1 rest) as (b2 & H2); rewrite H2
  end.
  cbn [as_Ar as_Array as_bOutSuccess ArIsError].
  reflexivity.
Qed.

Lemma X29_group_round_trip_witness :
  let g := MkGroup [Some (set_StartTime 1 New_ConstantForce); None] [Some New_RadialForce]
             true false false true Vec.Zero 3 in
  Group_NetSerialize
    (NewReader (ArData (Result_Ar (Group_NetSerialize NewWriter g 4)) ++ [WBool true]))
    (set_Sources [] [] New_Group) 4
  = (MkArchive true false [WBool true],
     MkGroup [Some New_ConstantForce; None] [Some New_RadialForce]
       true false false true Vec.Zero 3,
     true, true).
Proof.
  cbv zeta.
  rewrite (X29_group_round_trip
             (MkGroup [Some (set_StartTime 1 New_ConstantForce); None] [Some New_RadialForce]
                true false false true Vec.Zero 3) New_Group 4 4 [WBool true]); [| lia].
  reflexivity.
Defined.
